(* ===== verification/_CoqProject ===== *)
-Q . S2P
Prelude.v
Numerals.v
PyVal.v
States.v
Errors.v
Domain.v
Migrations.v
Revisions.v
MigrationSpec.v
Dag.v
Graph.v
Readiness.v
Failure.v
Lifecycle.v
Cycles.v
Validation.v
Accepted.v
Templates.v
Resolver.v
Json.v
Messages.v
Store.v
Repositories.v
TaskRepositories.v
Services.v
Dispatch.v
Completion.v
Redis.v
Startup.v
Barriers.v
Outbox.v
Worker.v
Orchestrator.v
Runtime.v
Groups.v
GroupSamples.v
Preservation.v
Streams.v
Evolution.v
Retries.v
TriggerSpec.v
Submission.v
DispatchSpec.v
QuerySpec.v
Api.v
Requests.v
CompletionSpec.v
RedeliverySpec.v
RetrySpec.v
OutboxSpec.v
Provenance.v
Engine.v
Handlers.v
Reachable.v
Durability.v
WorkerSpec.v
Leases.v
Findings.v
Samples.v
