(* ===== verification/Prelude.v ===== *)
(** * Event-driven workflow engine: verification library

    The program (src/app/) runs workflows: directed acyclic graphs of nodes,
    each executed by a worker.  Three kinds of processes share a PostgreSQL
    database and four Redis streams.

    - The API (api/) validates and stores definitions, triggers executions and
      answers queries.  Triggering stores an event in the outbox table in the
      transaction that starts the execution.
    - The orchestrator (orchestrator/) publishes the outbox to the streams,
      evaluates which nodes are ready when an execution is triggered or a node
      has completed, claims and dispatches them (services/), applies completion
      events with retries, failure propagation and finalization, and publishes
      retries that are due.
    - Workers (worker/) consume task messages, claim the attempt under a lease,
      run the node's handler, store the result, publish a completion event and
      acknowledge the message last.

    ** How the code is modelled

    A function that may raise returns [outcome exn A]; a stateful operation is
    [IO A := World → World * outcome exn A] ([Store]), where the world holds
    the eight tables, the streams, the acknowledgements, and counters that
    number the reads of the clock, the draws of identifiers and the calls to
    Redis.  A transaction commits its writes when its body returns and rolls
    them back when it raises.  Definitions keep the names of the source.

    Values and literals: [PyVal] (Python data), [Numerals] (integers and
    UUIDs), [Json] (JSON text).  src/app/domain/: [States], [Errors], [Domain],
    [Dag], [Readiness], [Failure], [Validation], [Cycles], [Templates].
    src/app/messaging/: [Messages], [Redis], [Outbox], [Barriers].
    src/app/infrastructure/persistence/: [Store], [Repositories],
    [TaskRepositories].  src/app/services/: [Services], [Dispatch],
    [Completion], [Resolver].  src/app/orchestrator/: [Orchestrator], [Outbox].
    src/app/worker/: [Worker], [Runtime].  src/app/api/: [Api], [Requests].
    [Startup]: the Redis clients (messaging/redis/client.py), the choice of
    database engine (db/session.py), the version and health routes and the log
    formatter.  [Groups]: src/scripts/init-redis-streams.py and the consumer
    groups the processes read through.
    src/alembic/: [Migrations] (what a statement does to a schema and to rows),
    [Revisions] (the statements of every revision, and the tables of the
    SQLAlchemy models).

    ** What is proved

    - One execution ([Lifecycle]): its life as an abstract transition system
      and the invariant of that system, the specification that the processes
      are shown to implement.  Its maximal runs are finite and end completed or
      failed; that is a fact of the specification, and says nothing of
      messages that are lost ([Findings]).
    - The whole system ([Engine], [Handlers], [Reachable]): the processes as
      one transition system in which a step is one transaction or one message
      sent to Redis, so that any number of processes in any interleaving is a
      sequence of steps, and a crash between two of them is work that is
      forgotten ([step_forget]).  Every step of a reachable
      system moves each execution along [Lifecycle]; the invariant of the
      tables, progress and a bound on the changes of an execution follow.  Any
      number of turns of the orchestrator's loop, with what [consume] returns
      in each, and all a worker does with a message, are sequences of such
      steps.
      [Provenance] and [Streams] show where trigger events come from.
    - The outbox and the streams together ([Durability]): in every reachable
      state a running node has its task, and every attempt has its message in
      the outbox or on the task stream or waits for its retry.
    - Every operation ([Preservation], [Evolution], [Retries]): the class
      [Preserved] is what the repositories promise to the services; from it,
      any sequence of operations follows the state machine and bounds the
      attempts of a task.
    - Delivery ([Groups]): the script creates every group that a process
      reads; a group drops no entry that nobody has acknowledged, and only the
      workers' group delivers one twice; and a task that stays unacknowledged
      comes back to every worker that keeps reclaiming.
    - Attempts between two deliveries ([Leases]): what every trace of the
      system keeps of an attempt.  A claim excludes others until its lease
      ends, a recorded result is replayed until the attempt is settled, and a
      completed attempt keeps its event.  The first speaks of the traces in
      which claims and renewals follow one clock ([guarded_step]).
    - Each operation, branch by branch: [Submission], [TriggerSpec],
      [DispatchSpec], [CompletionSpec], [RedeliverySpec], [RetrySpec],
      [OutboxSpec], [WorkerSpec], [QuerySpec], [Api], and [Requests], where
      every well-typed submission is answered.
    - The migrations ([MigrationSpec]): in any order the graph of revisions
      allows, up and down, the schema depends only on the applied revisions,
      and rows refuse a revision in three cases exactly; upgrades keep the rows of a database in use;
      the models declare the schema of the last revision, with the differences
      listed.
    - The algorithms: validation accepts exactly the valid definitions
      ([Accepted]), the depth-first search reports exactly cycles ([Cycles]),
      the failure traversal finds exactly the blocked nodes ([Failure]),
      [DAG.from_workflow] builds the reference graph ([Dag]), the
      parser accepts exactly the templates of a declarative grammar
      ([Templates]), a string resolves to what its references denote
      ([Resolver]), and which messages survive serialisation ([Messages]).
    - [Findings]: behaviours the code does not intend.  [Samples]: reference
      instances of all parameters, a run of the program by evaluation, and the
      theorems applied to it; [GroupSamples] does the same for [Groups].

    ** Fuel and bounds

    Three algorithms carry fuel: [dfs_fuel] (cycle search), [propagate_fuel]
    (failure traversal) and [scan_fuel] (template scanning).  The theorems
    about them show that it is never exhausted.  Integers are unbounded as in
    Python, floats are IEEE 754 binary64 in the Standard Library's [SpecFloat],
    UUIDs are below 2^128, and VARCHAR limits are checked on writes.  Waiting
    at a barrier is followed for [patience] readings of the clock, and ends
    within them if one of them is past the deadline ([barrier_correct]).

    ** Parameters

    Code outside the repository is a parameter, with what the program relies
    on as laws: the JSON codec ([Json], [JsonLaws]), Pydantic's conversions and
    the schema of a workflow ([Pydantic], [PydanticLaws], [WorkflowSchema],
    [WorkflowSchemaLaws]), the clock, UUID draws and Redis errors ([Env],
    [EnvLaws]), environment variables, hashing, random draws, the monotonic
    clock and what Redis answers at a barrier and to [consume] ([Host]; the law
    in [HostLaws] is that a delivered message has been published), the Redis
    server with its consumer groups ([StreamServer], [ServerLaws]), what
    Pydantic accepts of a dumped request ([RequestSchemaLaws]), float
    exponentiation ([pow]), [str] of floats and values, [repr], and the
    printing of times in responses.  [Json], [Samples] and [GroupSamples] have
    instances that satisfy the laws.

    ** Not modelled

    Isolation inside a transaction: one is atomic, as its row locks and
    conditional updates intend; [asyncio.gather] runs its dispatches one after
    the other, in any order of steps.  The renewal task of a worker's lease is
    a number of renewals, made before the handler runs; as steps of [Engine]
    they come in any order.  [publish] that raises has not appended its
    message; a message that Redis accepted and whose answer was lost is a sent
    message that is forgotten ([step_ship], [step_forget]).  The
    [created_at] of an outbox row is a reading of the clock of its own, not
    the time of its transaction.  The [updated_at] columns, where log records go, the counter of
    the integration barrier in Redis, and the offending text in the messages of
    failed int, float and UUID conversions are left out.  The connections
    behind the Redis client and the SQLAlchemy session, signal handlers,
    sleeping and request parsing by FastAPI are I/O.  [Groups] follows the
    server's groups and [Engine] the tables; a step of [Engine] may deliver any
    published message at any time, so it covers whatever the groups deliver.  Of the migrations,
    how Alembic finds and connects to the database is left out; what a
    downgrade leaves of the rows is modelled, but only whether it is refused
    is a theorem.
    [WorkflowFinalizationService.evaluate] is modelled, but no process calls
    it, and it is not a step of the system. *)

From Stdlib Require Import Ascii.
From stdpp Require Export base gmap sets list strings sorting.

(** ** Fallible computations

    A Python function that may raise is a value of [outcome E A]: either the
    value it returns or the exception it raises.  stdpp's monad classes give
    the [x ← c; k] notation, and [mapM] the left-to-right comprehension that
    stops at the first exception. *)

Inductive outcome (E A : Type) : Type :=
| Ok (a : A)
| Raise (e : E).
Arguments Ok {E A} a.
Arguments Raise {E A} e.

#[export] Instance outcome_ret E : MRet (outcome E) := λ A a, Ok a.
#[export] Instance outcome_bind E : MBind (outcome E) := λ A B f m,
  match m with Ok a => f a | Raise e => Raise e end.
#[export] Instance outcome_fmap E : FMap (outcome E) := λ A B f m,
  match m with Ok a => Ok (f a) | Raise e => Raise e end.

Definition is_ok {E A} (m : outcome E A) : bool :=
  match m with Ok _ => true | Raise _ => false end.

Lemma bind_Ok_inv {E A B} (f : A → outcome E B) (m : outcome E A) b :
  m ≫= f = Ok b → ∃ a, m = Ok a ∧ f a = Ok b.
Proof. destruct m; naive_solver. Qed.

Section traversal.
Context {E A B : Type}.
Implicit Types f : A → outcome E B.

Lemma mapM_Ok f (g : A → B) l :
  (∀ x, x ∈ l → f x = Ok (g x)) → mapM f l = Ok (g <$> l).
Proof.
  induction l as [|x l IH]; intros H; simpl; [done|].
  rewrite H by set_solver. simpl. rewrite IH; set_solver.
Qed.

Lemma mapM_ext_elem f g l : (∀ x, x ∈ l → f x = g x) → mapM f l = mapM g l.
Proof.
  induction l as [|x l IH]; intros H; simpl; [done|].
  rewrite H by set_solver. destruct (g x); simpl; [|done]. rewrite IH; set_solver.
Qed.

Lemma mapM_Ok_Forall2 f l k :
  mapM f l = Ok k → Forall2 (λ x y, f x = Ok y) l k.
Proof.
  revert k; induction l as [|x l IH]; intros k; simpl.
  - intros [= <-]. constructor.
  - intros (y & Hy & H)%bind_Ok_inv. apply bind_Ok_inv in H as (ys & Hys & [= <-]).
    constructor; auto.
Qed.

End traversal.

(** A [for] loop over a list that threads a state and may raise. *)
Fixpoint foldM {E A S} (f : S → A → outcome E S) (s : S) (l : list A) : outcome E S :=
  match l with
  | [] => Ok s
  | x :: l' => s' ← f s x; foldM f s' l'
  end.

(** ** Membership tests *)

Definition memb {A} `{EqDecision A} (x : A) (l : list A) : bool := bool_decide (x ∈ l).

Lemma memb_true {A} `{EqDecision A} (x : A) l : memb x l = true ↔ x ∈ l.
Proof. apply bool_decide_eq_true. Qed.
Lemma memb_false {A} `{EqDecision A} (x : A) l : memb x l = false ↔ x ∉ l.
Proof. apply bool_decide_eq_false. Qed.

(** ** Insertion-ordered dictionaries *)

(** [d[k] = v] on a [dict] whose iteration order matters: an existing key
    keeps its place. *)
Fixpoint aset {V} (k : string) (v : V) (d : list (string * V)) : list (string * V) :=
  match d with
  | [] => [(k, v)]
  | (k', v') :: d' => if String.eqb k k' then (k, v) :: d' else (k', v') :: aset k v d'
  end.

Fixpoint aget {V} (k : string) (d : list (string * V)) : option V :=
  match d with
  | [] => None
  | (k', v) :: d' => if String.eqb k k' then Some v else aget k d'
  end.

Section dictionaries.
Context {V : Type}.
Implicit Types d : list (string * V).

Lemma aget_aset k k' (v : V) d :
  aget k (aset k' v d) = if String.eqb k k' then Some v else aget k d.
Proof.
  induction d as [|[k1 v1] d IH]; simpl; [done|].
  destruct (String.eqb_spec k' k1); simpl;
    destruct (String.eqb_spec k k'), (String.eqb_spec k k1); subst; rewrite ?IH; try done;
    rewrite ?String.eqb_refl; done.
Qed.

Lemma aget_None k d : aget k d = None ↔ k ∉ d.*1.
Proof.
  induction d as [|[k1 v1] d IH]; simpl; [set_solver|].
  destruct (String.eqb_spec k k1); set_solver.
Qed.

Lemma aget_Some_elem k d v : aget k d = Some v → (k, v) ∈ d.
Proof.
  induction d as [|[k1 v1] d IH]; simpl; [done|].
  destruct (String.eqb_spec k k1); set_solver.
Qed.

Lemma aget_elem k d v : NoDup d.*1 → (k, v) ∈ d → aget k d = Some v.
Proof.
  induction d as [|[k1 v1] d IH]; simpl; [set_solver|].
  rewrite NoDup_cons, elem_of_cons. intros [Hk Hd] [[= -> ->]|Hin].
  - by rewrite String.eqb_refl.
  - destruct (String.eqb_spec k k1) as [->|]; [|auto].
    destruct Hk. apply list_elem_of_fmap. by exists (k1, v).
Qed.

Lemma aset_keys k v d :
  (aset k v d).*1 = if memb k d.*1 then d.*1 else d.*1 ++ [k].
Proof.
  induction d as [|[k1 v1] d IH]; csimpl; [done|].
  destruct (String.eqb_spec k k1) as [->|Hne]; csimpl.
  - by rewrite (proj2 (memb_true _ _)) by set_solver.
  - rewrite IH. destruct (memb k d.*1) eqn:E.
    + by rewrite (proj2 (memb_true k (k1 :: _))) by (apply memb_true in E; set_solver).
    + by rewrite (proj2 (memb_false k (k1 :: _))) by (apply memb_false in E; set_solver).
Qed.

Lemma aset_keys_elem k v d : k ∈ d.*1 → (aset k v d).*1 = d.*1.
Proof. intros H. by rewrite aset_keys, (proj2 (memb_true _ _)). Qed.

Lemma aset_fresh k v d : k ∉ d.*1 → aset k v d = d ++ [(k, v)].
Proof.
  induction d as [|[k1 v1] d IH]; simpl; [done|].
  intros H. destruct (String.eqb_spec k k1); [set_solver|]. rewrite IH; set_solver.
Qed.
End dictionaries.

(** ** Characters and strings

    A Python [str] is a sequence of code points; the model uses Rocq's
    [string], so it covers the code points below 256.  The white-space set is
    [str.isspace] (and the regular-expression class [\s]) on that range. *)

Definition code (c : ascii) : nat := nat_of_ascii c.

Definition in_range (lo hi : nat) (c : ascii) : bool := (lo <=? code c) && (code c <=? hi).

Definition is_space (c : ascii) : bool :=
  in_range 9 13 c || in_range 28 32 c || (code c =? 133) || (code c =? 160).
Definition is_lower (c : ascii) : bool := in_range 97 122 c.
Definition is_upper (c : ascii) : bool := in_range 65 90 c.
Definition is_alpha (c : ascii) : bool := is_upper c || is_lower c.
Definition is_digit (c : ascii) : bool := in_range 48 57 c.

Fixpoint str_forallb (p : ascii → bool) (s : string) : bool :=
  match s with
  | EmptyString => true
  | String c s' => p c && str_forallb p s'
  end.

Fixpoint lstrip (s : string) : string :=
  match s with
  | EmptyString => EmptyString
  | String c s' => if is_space c then lstrip s' else s
  end.

Fixpoint rstrip (s : string) : string :=
  match s with
  | EmptyString => EmptyString
  | String c s' =>
      match rstrip s' with
      | EmptyString => if is_space c then EmptyString else String c EmptyString
      | r => String c r
      end
  end.

Definition strip (s : string) : string := rstrip (lstrip s).

Definition nonblank (s : string) : bool := negb (String.eqb (strip s) "").

(** [s.split(sep)] for a one-character separator: never empty. *)
Fixpoint split_on (sep : ascii) (s : string) : list string :=
  match s with
  | EmptyString => [EmptyString]
  | String c s' =>
      if Ascii.eqb c sep then EmptyString :: split_on sep s'
      else match split_on sep s' with
           | p :: ps => String c p :: ps
           | [] => [String c EmptyString]
           end
  end.

Lemma rstrip_blank s : rstrip s = "" ↔ str_forallb is_space s = true.
Proof.
  induction s as [|c s IH]; simpl; [done|].
  rewrite andb_true_iff, <- IH. clear IH; destruct (rstrip s); destruct (is_space c); intuition congruence.
Qed.

Lemma lstrip_blank s : str_forallb is_space (lstrip s) = str_forallb is_space s.
Proof. induction s as [|c s IH]; simpl; [done|]. destruct (is_space c) eqn:E; simpl; by rewrite ?E. Qed.

Lemma nonblank_spec s : nonblank s = true ↔ ∃ c, is_space c = false ∧ c ∈ String.list_ascii_of_string s.
Proof.
  unfold nonblank, strip. rewrite negb_true_iff, String.eqb_neq, rstrip_blank, lstrip_blank.
  rewrite not_true_iff_false.
  induction s as [|c s IH]; simpl; [set_solver|].
  rewrite andb_false_iff. setoid_rewrite elem_of_cons.
  destruct (is_space c) eqn:E; naive_solver.
Qed.

Lemma nonblank_neq_empty s : nonblank s = true → s ≠ "".
Proof. by intros H ->. Qed.

Lemma str_app_cons c (a b : string) : (String c a +:+ b = String c (a +:+ b))%string.
Proof. done. Qed.

Lemma str_app_nil_l (a : string) : ("" +:+ a = a)%string.
Proof. done. Qed.

Lemma str_length_app (a b : string) :
  String.length (a +:+ b) = String.length a + String.length b.
Proof. induction a as [|x a IH]; [done|]. rewrite str_app_cons. simpl. by rewrite IH. Qed.

Lemma str_app_assoc (a b c : string) : ((a +:+ b) +:+ c = a +:+ (b +:+ c))%string.
Proof. induction a as [|x a IH]; [done|]. by rewrite !str_app_cons, IH. Qed.

Lemma str_app_nil_r (a : string) : (a +:+ "" = a)%string.
Proof. induction a as [|x a IH]; [done|]. by rewrite str_app_cons, IH. Qed.

Lemma str_forallb_app p (a b : string) :
  str_forallb p (a +:+ b) = str_forallb p a && str_forallb p b.
Proof. induction a as [|x a IH]; [done|]. rewrite str_app_cons. simpl. by rewrite IH, andb_assoc. Qed.

(** ** Lists *)

(** [Counter(l)[x]]: the number of occurrences. *)
Definition count {A} `{EqDecision A} (x : A) (l : list A) : nat :=
  length (filter (x =.) l).

Lemma count_cons {A} `{EqDecision A} (x y : A) l :
  count x (y :: l) = (if decide (x = y) then S (count x l) else count x l).
Proof. unfold count. rewrite filter_cons. by case_decide. Qed.

Lemma count_zero {A} `{EqDecision A} (x : A) l : count x l = 0 ↔ x ∉ l.
Proof.
  induction l as [|y l IH]; [set_solver|]. rewrite count_cons.
  case_decide; set_solver.
Qed.

Lemma count_NoDup {A} `{EqDecision A} (l : list A) :
  NoDup l ↔ ∀ x, count x l ≤ 1.
Proof.
  induction l as [|y l IH].
  - split; [intros _ x; unfold count; simpl; lia|constructor].
  - rewrite NoDup_cons, IH. split.
    + intros [Hy H] x. rewrite count_cons. case_decide; [|auto].
      subst. apply count_zero in Hy. lia.
    + intros H. split.
      * apply count_zero. specialize (H y). rewrite count_cons, decide_True in H by done. lia.
      * intros x. specialize (H x). rewrite count_cons in H. case_decide; lia.
Qed.

Lemma Forall2_impl_elem {A B} (P Q : A → B → Prop) l k :
  Forall2 P l k → (∀ x y, x ∈ l → y ∈ k → P x y → Q x y) → Forall2 Q l k.
Proof.
  induction 1 as [|x y l k Hp _ IH]; intros H; constructor; [apply H; [constructor..|done]|].
  apply IH. intros. apply H; [by constructor..|done].
Qed.

(** Pairs of a list with consecutive positions, as [enumerate]. *)
Definition enumerate {A} (l : list A) : list (nat * A) := imap pair l.

Lemma enumerate_elem {A} (l : list A) i x : (i, x) ∈ enumerate l ↔ l !! i = Some x.
Proof.
  unfold enumerate. rewrite list_elem_of_lookup. split.
  - intros [j H]. apply list_lookup_imap_Some in H as (y & H & [= -> ->]). done.
  - intros H. exists i. rewrite list_lookup_imap, H. done.
Qed.

Lemma enumerate_snd {A} (l : list A) : (enumerate l).*2 = l.
Proof.
  unfold enumerate. apply list_eq. intros i.
  rewrite list_lookup_fmap, list_lookup_imap. by destruct (l !! i).
Qed.

(** ** Automation *)

Create HintDb wfdb.
Create HintDb keeps.
Create Rewrite HintDb wfb.

(** Split an equation [m ≫= f = Ok b] in the context and name the parts. *)
Ltac inv_bind H :=
  let a := fresh "a" in let Ha := fresh "Ha" in
  apply bind_Ok_inv in H as (a & Ha & H).

(** Case analysis on every boolean test a goal or hypothesis is stuck on. *)
Ltac case_if :=
  match goal with
  | |- context [if ?b then _ else _] => destruct b eqn:?
  | H : context [if ?b then _ else _] |- _ => destruct b eqn:?
  end.

#[export] Hint Rewrite @memb_true @memb_false andb_true_iff orb_true_iff
  negb_true_iff negb_false_iff : wfb.

Ltac bsimp := autorewrite with wfb in *.
