(* ===== verification/Numerals.v ===== *)
(** * Integer and UUID literals

    What the source uses of [str(int)], [int(str)], [str(UUID)] and
    [UUID(str)] of the Python standard library: positional printing and the
    literal grammar of [int], over a base.  A [UUID] is its 128-bit integer. *)

From Stdlib Require Import Ascii.
From S2P Require Import Prelude.

Definition digit_char (d : N) : ascii :=
  ascii_of_N (if (d <? 10)%N then 48 + d else 87 + d)%N.

(** The value of one digit of [int(_, base)]; letters count in either case. *)
Definition digit_val (c : ascii) : option N :=
  if is_digit c then Some (N_of_ascii c - 48)%N
  else if is_lower c then Some (N_of_ascii c - 87)%N
  else if is_upper c then Some (N_of_ascii c - 55)%N
  else None.

(** Digits most significant first, in front of [acc]; the fuel bounds their
    number. *)
Fixpoint digits (base : N) (fuel : nat) (n : N) (acc : string) : string :=
  match fuel with
  | O => acc
  | S f =>
      let acc' := String (digit_char (n mod base)) acc in
      if (n <? base)%N then acc' else digits base f (n / base) acc'
  end.

Definition str_of_N (n : N) : string := digits 10 (S (N.size_nat n)) n "".

Definition str_of_Z (z : Z) : string :=
  match z with
  | Zneg p => String "-"%char (str_of_N (Npos p))
  | _ => str_of_N (Z.to_N z)
  end.
Definition str_of_nat (n : nat) : string := str_of_N (N.of_nat n).

(** The digit part of an integer literal: digits with single underscores
    between them.  [need] says that a digit must come next. *)
Fixpoint digits_value (base : N) (acc : N) (need : bool) (s : string) : option N :=
  match s with
  | EmptyString => if need then None else Some acc
  | String c s' =>
      if Ascii.eqb c "_" then if need then None else digits_value base acc true s'
      else d ← digit_val c;
           if (d <? base)%N then digits_value base (acc * base + d) false s' else None
  end.

Definition drop_prefix_0x (s : string) : string :=
  match s with
  | String "0" (String c s') =>
      if Ascii.eqb c "x" || Ascii.eqb c "X"
      then match s' with String "_" s'' => s'' | _ => s' end
      else s
  | _ => s
  end.

Definition unsigned_literal (base : N) (s : string) : option N :=
  digits_value base 0 true (if (base =? 16)%N then drop_prefix_0x s else s).

(** [int(s, base)]: surrounding white space and a sign are accepted. *)
Definition py_int (base : N) (s : string) : option Z :=
  match strip s with
  | String c s' =>
      if Ascii.eqb c "-" then Z.opp ∘ Z.of_N <$> unsigned_literal base s'
      else if Ascii.eqb c "+" then Z.of_N <$> unsigned_literal base s'
      else Z.of_N <$> unsigned_literal base (String c s')
  | EmptyString => None
  end.

(** ** UUIDs *)

Definition UUID : Type := N.

Definition uuid_bound : N := 2 ^ 128.

Fixpoint hex_digits (k : nat) (n : N) : string :=
  match k with
  | O => EmptyString
  | S k' => hex_digits k' (n / 16) +:+ String (digit_char (n mod 16)) EmptyString
  end.

(** [str(uuid)]: 32 hexadecimal digits in groups of 8-4-4-4-12. *)
Definition uuid_str (u : UUID) : string :=
  let h := hex_digits 32 u in
  String.substring 0 8 h +:+ "-" +:+ String.substring 8 4 h +:+ "-" +:+
  String.substring 12 4 h +:+ "-" +:+ String.substring 16 4 h +:+ "-" +:+
  String.substring 20 12 h.

Fixpoint remove_char (c : ascii) (s : string) : string :=
  match s with
  | EmptyString => EmptyString
  | String d s' => if Ascii.eqb d c then remove_char c s' else String d (remove_char c s')
  end.

(** [s.replace(pat, "")] for a non-empty pattern: scan left to right. *)
Fixpoint remove_all (fuel : nat) (pat s : string) : string :=
  match fuel with
  | O => s
  | S f =>
      match s with
      | EmptyString => EmptyString
      | String c s' =>
          if String.prefix pat s
          then remove_all f pat (String.substring (String.length pat) (String.length s) s)
          else String c (remove_all f pat s')
      end
  end.

Definition is_brace (c : ascii) : bool := Ascii.eqb c "{" || Ascii.eqb c "}".

Fixpoint lstrip_by (p : ascii → bool) (s : string) : string :=
  match s with
  | EmptyString => EmptyString
  | String c s' => if p c then lstrip_by p s' else s
  end.

Fixpoint rstrip_by (p : ascii → bool) (s : string) : string :=
  match s with
  | EmptyString => EmptyString
  | String c s' =>
      match rstrip_by p s' with
      | EmptyString => if p c then EmptyString else String c EmptyString
      | r => String c r
      end
  end.

(** [UUID(s)]: drop the [urn:] and [uuid:] markers, braces and hyphens, then
    read 32 hexadecimal digits.  [None] is the [ValueError]. *)
Definition uuid_parse (s : string) : option UUID :=
  let s1 := remove_all (String.length s) "urn:" s in
  let s2 := remove_all (String.length s1) "uuid:" s1 in
  let s3 := remove_char "-" (rstrip_by is_brace (lstrip_by is_brace s2)) in
  if (String.length s3 =? 32)%nat then
    z ← py_int 16 s3;
    if (0 <=? z)%Z && (Z.to_N z <? uuid_bound)%N then Some (Z.to_N z) else None
  else None.

Example uuid_str_ex :
  uuid_str 0x1f3cd7dd05c948e99ad395520ee7ae8d%N = "1f3cd7dd-05c9-48e9-9ad3-95520ee7ae8d".
Proof. vm_compute. reflexivity. Qed.

Example uuid_parse_ex :
  uuid_parse "{1F3CD7DD-05c9-48e9-9ad3-95520ee7ae8d}" = Some 0x1f3cd7dd05c948e99ad395520ee7ae8d%N
  ∧ uuid_parse "urn:uuid:1f3cd7dd-05c9-48e9-9ad3-95520ee7ae8d"
      = Some 0x1f3cd7dd05c948e99ad395520ee7ae8d%N
  ∧ uuid_parse "not-a-uuid" = None.
Proof. vm_compute. done. Qed.

Example py_int_ex :
  py_int 10 " -1_000 " = Some (-1000)%Z ∧ py_int 10 "1__0" = None ∧ py_int 10 "" = None
  ∧ str_of_Z (-120) = "-120" ∧ str_of_nat 0 = "0".
Proof. vm_compute. done. Qed.

(** ** Round trips *)

Lemma N_below_16 (P : N → Prop) :
  P 0%N → P 1%N → P 2%N → P 3%N → P 4%N → P 5%N → P 6%N → P 7%N → P 8%N → P 9%N →
  P 10%N → P 11%N → P 12%N → P 13%N → P 14%N → P 15%N → ∀ d, (d < 16)%N → P d.
Proof.
  intros. destruct d as [|p]; [done|].
  do 4 (try (destruct p as [p|p|])); try done; try lia.
Qed.

(** What the parsers look at in a printed digit. *)
Definition digit_like (c : ascii) : bool := is_digit c || in_range 97 102 c.

Lemma digit_char_facts d : (d < 16)%N →
  digit_val (digit_char d) = Some d ∧ digit_like (digit_char d) = true.
Proof. revert d. apply N_below_16; vm_compute; done. Qed.

Lemma digit_like_neq c e :
  digit_like c = true → digit_like e = false → Ascii.eqb c e = false.
Proof. intros Hc He. destruct (Ascii.eqb_spec c e); congruence. Qed.

Lemma digits_value_step base acc need d s :
  (d < base)%N → (base <= 16)%N →
  digits_value base acc need (String (digit_char d) s)
  = digits_value base (acc * base + d) false s.
Proof.
  intros Hd Hb. destruct (digit_char_facts d) as [Hv Hl]; [lia|].
  simpl. rewrite (digit_like_neq _ "_") by done. rewrite Hv. simpl.
  by rewrite (proj2 (N.ltb_lt d base) Hd).
Qed.

Lemma digits_value_digits base fuel n acc a need :
  (1 < base <= 16)%N → (n < base ^ N.of_nat fuel)%N → fuel ≠ 0 →
  ∃ k, digits_value base a need (digits base fuel n acc)
       = digits_value base (a * base ^ k + n) false acc.
Proof.
  intros Hb. revert n acc. induction fuel as [|f IH]; intros n acc Hn Hf; [done|].
  simpl. destruct (N.ltb_spec n base) as [Hlt|Hge].
  - exists 1%N. rewrite digits_value_step by (try apply N.mod_lt; lia).
    f_equal. rewrite N.mod_small by done. lia.
  - assert (Hq : (n / base < base ^ N.of_nat f)%N).
    { apply N.Div0.div_lt_upper_bound. rewrite Nat2N.inj_succ, N.pow_succ_r' in Hn. lia. }
    destruct f as [|f']; [change (N.of_nat 0) with 0%N in Hq; rewrite N.pow_0_r in Hq;
      assert (n / base ≠ 0)%N by (rewrite N.div_small_iff by lia; lia); lia|].
    destruct (IH (n / base)%N (String (digit_char (n mod base)) acc) Hq) as [k Hk]; [done|].
    exists (N.succ k). rewrite Hk, digits_value_step by (try apply N.mod_lt; lia).
    f_equal. rewrite N.pow_succ_r'.
    pose proof (N.div_mod' n base). nia.
Qed.

Lemma digits_like base fuel n acc :
  (1 < base <= 16)%N → str_forallb digit_like acc = true →
  str_forallb digit_like (digits base fuel n acc) = true.
Proof.
  intros Hb. revert n acc. induction fuel as [|f IH]; intros n acc Ha; simpl; [done|].
  assert (Hc : digit_like (digit_char (n mod base)) = true).
  { apply digit_char_facts. pose proof (N.mod_lt n base). lia. }
  destruct (n <? base)%N; [|apply IH]; simpl; by rewrite Hc, Ha.
Qed.

Lemma digits_cons base f n acc :
  f ≠ 0 ∨ acc ≠ "" → digits base f n acc ≠ "".
Proof.
  revert n acc. induction f as [|f IH]; intros n acc H; simpl; [naive_solver|].
  case_if; [done|]. apply IH. by right.
Qed.

Lemma strip_solid s : str_forallb (λ c, negb (is_space c)) s = true → strip s = s.
Proof.
  intros H. unfold strip. assert (Hl : lstrip s = s).
  { destruct s as [|c s]; simpl in *; [done|]. by destruct (is_space c). }
  rewrite Hl. clear Hl. induction s as [|c s IH]; simpl in *; [done|].
  apply andb_true_iff in H as [Hc H]. rewrite IH by done.
  apply negb_true_iff in Hc. rewrite Hc. by destruct s.
Qed.

Lemma str_forallb_impl (p q : ascii → bool) s :
  (∀ c, p c = true → q c = true) → str_forallb p s = true → str_forallb q s = true.
Proof.
  intros H. induction s as [|c s IH]; simpl; [done|].
  rewrite !andb_true_iff. naive_solver.
Qed.

Lemma digit_like_solid c : digit_like c = true → negb (is_space c) = true.
Proof.
  unfold digit_like, is_digit, is_space, in_range. rewrite negb_true_iff.
  repeat rewrite ?orb_true_iff, ?andb_true_iff, ?orb_false_iff, ?andb_false_iff,
    ?Nat.leb_le, ?Nat.leb_gt, ?Nat.eqb_neq. lia.
Qed.

Lemma str_of_N_fuel n : (n < 10 ^ N.of_nat (S (N.size_nat n)))%N.
Proof.
  apply N.lt_le_trans with (2 ^ N.of_nat (N.size_nat n))%N.
  - destruct n as [|p]; [done|]. simpl.
    pose proof (N.size_gt (Npos p)) as H0.
    simpl in H0.
    replace (N.of_nat (Pos.size_nat p)) with (N.pos (Pos.size p)); [done|].
    clear. induction p; simpl; lia.
  - transitivity (10 ^ N.of_nat (N.size_nat n))%N; [apply N.pow_le_mono_l; lia|].
    apply N.pow_le_mono_r; lia.
Qed.

Lemma unsigned_str_of_N n : unsigned_literal 10 (str_of_N n) = Some n.
Proof.
  unfold unsigned_literal, str_of_N. simpl.
  destruct (digits_value_digits 10 (S (N.size_nat n)) n "" 0 true) as [k Hk];
    [lia|apply str_of_N_fuel|done|]. simpl in Hk. by rewrite Hk.
Qed.

Lemma str_of_N_like n : str_forallb digit_like (str_of_N n) = true.
Proof. apply digits_like; [lia|done]. Qed.

Lemma str_of_N_neq_empty n : str_of_N n ≠ "".
Proof. apply digits_cons. by left. Qed.

(** An unsigned literal without sign or space goes straight to its digits. *)
Lemma py_int_digits base s :
  s ≠ "" → str_forallb digit_like s = true → py_int base s = Z.of_N <$> unsigned_literal base s.
Proof.
  intros Hne Hs. unfold py_int. rewrite strip_solid.
  - destruct s as [|c s]; [done|]. simpl in Hs. apply andb_true_iff in Hs as [Hc _].
    by rewrite !(digit_like_neq c) by done.
  - eapply str_forallb_impl, Hs. apply digit_like_solid.
Qed.

Lemma str_of_Z_solid z : str_forallb (λ c, negb (is_space c)) (str_of_Z z) = true.
Proof.
  assert (H : ∀ n, str_forallb (λ c, negb (is_space c)) (str_of_N n) = true).
  { intros n. eapply str_forallb_impl, str_of_N_like. apply digit_like_solid. }
  destruct z; simpl; rewrite ?H; done.
Qed.

Lemma py_int_str_of_Z z : py_int 10 (str_of_Z z) = Some z.
Proof.
  assert (H : ∀ n, py_int 10 (str_of_N n) = Some (Z.of_N n)).
  { intros n. rewrite py_int_digits by (apply str_of_N_neq_empty || apply str_of_N_like).
    by rewrite unsigned_str_of_N. }
  destruct z as [|p|p]; [apply (H 0%N)|apply (H (Npos p))|].
  unfold py_int. rewrite strip_solid by apply str_of_Z_solid.
  simpl. by rewrite unsigned_str_of_N.
Qed.

Lemma hex_digits_like k n : str_forallb digit_like (hex_digits k n) = true.
Proof.
  revert n. induction k as [|k IH]; intros n; simpl; [done|].
  rewrite str_forallb_app, IH. simpl. rewrite andb_true_r.
  apply digit_char_facts. apply N.mod_lt. lia.
Qed.

Lemma hex_digits_length k n : String.length (hex_digits k n) = k.
Proof.
  revert n. induction k as [|k IH]; intros n; [done|]. cbn [hex_digits].
  rewrite str_length_app, IH. simpl. lia.
Qed.

Lemma digits_value_app base acc need a b n :
  digits_value base acc need a = Some n →
  digits_value base acc need (a +:+ b) = digits_value base n false b ∨ a = "".
Proof.
  revert acc need. induction a as [|c a IH]; intros acc need H; [by right|left].
  rewrite str_app_cons. simpl in *. destruct (Ascii.eqb c "_").
  - destruct need; [done|]. destruct (IH _ _ H) as [?| ->]; [done|]. simpl in H. done.
  - destruct (digit_val c) as [d|]; [|done]. simpl in *. destruct (d <? base)%N; [|done].
    destruct (IH _ _ H) as [?| ->]; [done|]. simpl in H. by simplify_eq.
Qed.

Lemma hex_digits_value k n acc need :
  (n < 16 ^ N.of_nat k)%N → k ≠ 0 →
  digits_value 16 acc need (hex_digits k n) = Some (acc * 16 ^ N.of_nat k + n)%N.
Proof.
  revert n. induction k as [|k IH]; intros n Hn Hk; [done|]. cbn [hex_digits].
  assert (Hm : (n mod 16 < 16)%N) by (apply N.mod_lt; lia).
  pose proof (N.div_mod' n 16) as Hdm.
  destruct k as [|k'].
  - cbn [hex_digits]. rewrite str_app_nil_l. rewrite digits_value_step by lia.
    simpl. f_equal. change (16 ^ N.of_nat 1)%N with 16%N in *.
    rewrite N.mod_small by lia. done.
  - assert (Hq : (n / 16 < 16 ^ N.of_nat (S k'))%N).
    { apply N.Div0.div_lt_upper_bound. rewrite Nat2N.inj_succ, N.pow_succ_r' in Hn. lia. }
    destruct (digits_value_app 16 acc need (hex_digits (S k') (n / 16))
      (String (digit_char (n mod 16)) "") _ (IH _ Hq ltac:(done))) as [->|Hnil].
    + rewrite digits_value_step by lia. simpl digits_value. f_equal.
      rewrite (Nat2N.inj_succ (S k')), N.pow_succ_r'. lia.
    + apply (f_equal String.length) in Hnil. rewrite hex_digits_length in Hnil. done.
Qed.

Lemma remove_all_absent fuel c pat s :
  str_forallb (λ e, negb (Ascii.eqb e c)) s = true → remove_all fuel (String c pat) s = s.
Proof.
  revert s. induction fuel as [|f IH]; intros s Hs; simpl; [done|].
  destruct s as [|e s]; [done|]. simpl in Hs. apply andb_true_iff in Hs as [He Hs].
  apply negb_true_iff, Ascii.eqb_neq in He.
  rewrite (IH s) by done.
  replace (String.prefix (String c pat) (String e s)) with false; [done|].
  cbn [String.prefix]. by destruct (Ascii.ascii_dec c e).
Qed.

Lemma strip_by_absent p s :
  str_forallb (λ c, negb (p c)) s = true → rstrip_by p (lstrip_by p s) = s.
Proof.
  intros H. assert (Hl : lstrip_by p s = s).
  { destruct s as [|c s]; simpl in *; [done|]. by destruct (p c). }
  rewrite Hl. clear Hl. induction s as [|c s IH]; simpl in *; [done|].
  apply andb_true_iff in H as [Hc H]. rewrite IH by done.
  apply negb_true_iff in Hc. rewrite Hc. by destruct s.
Qed.

Lemma remove_char_app c a b : remove_char c (a +:+ b) = remove_char c a +:+ remove_char c b.
Proof.
  induction a as [|e a IH]; [done|]. rewrite str_app_cons. simpl.
  destruct (Ascii.eqb e c); [done|]. by rewrite IH.
Qed.

Lemma remove_char_absent c s :
  str_forallb (λ e, negb (Ascii.eqb e c)) s = true → remove_char c s = s.
Proof.
  induction s as [|e s IH]; simpl; [done|]. rewrite andb_true_iff, negb_true_iff.
  intros [-> H]. by rewrite IH.
Qed.

Lemma substring_forallb p n m s :
  str_forallb p s = true → str_forallb p (String.substring n m s) = true.
Proof.
  revert n m. induction s as [|c s IH]; intros n m; simpl.
  - by destruct n, m.
  - rewrite andb_true_iff. intros [Hc Hs].
    destruct n; [destruct m|]; simpl; rewrite ?Hc, ?IH; done.
Qed.

Lemma substring_groups s :
  String.length s = 32 →
  String.substring 0 8 s +:+ String.substring 8 4 s +:+ String.substring 12 4 s +:+
  String.substring 16 4 s +:+ String.substring 20 12 s = s.
Proof.
  intros Hs. do 32 (destruct s as [|? s]; [discriminate|]). destruct s; [|discriminate].
  reflexivity.
Qed.

Lemma uuid_str_chars u :
  str_forallb (λ c, digit_like c || Ascii.eqb c "-") (uuid_str u) = true.
Proof.
  unfold uuid_str. set (h := hex_digits 32 u).
  assert (Hh : str_forallb (λ c, digit_like c || Ascii.eqb c "-") h = true).
  { eapply str_forallb_impl, hex_digits_like. intros c ->. done. }
  rewrite !str_forallb_app, !(substring_forallb _ _ _ h) by done. done.
Qed.

Lemma uuid_str_avoids c u :
  digit_like c = false → c ≠ "-"%char →
  str_forallb (λ e, negb (Ascii.eqb e c)) (uuid_str u) = true.
Proof.
  intros Hc Hd. eapply str_forallb_impl, uuid_str_chars. intros e He. simpl in He.
  apply negb_true_iff, Ascii.eqb_neq. intros ->. rewrite Hc in He. simpl in He.
  by apply Ascii.eqb_eq in He.
Qed.

Lemma uuid_str_brackets u : str_forallb (λ c, negb (is_brace c)) (uuid_str u) = true.
Proof.
  eapply str_forallb_impl, uuid_str_chars. intros e He. apply negb_true_iff.
  unfold is_brace. apply orb_false_iff.
  split; apply Ascii.eqb_neq; intros ->; discriminate He.
Qed.

Lemma uuid_str_solid u : str_forallb (λ c, negb (is_space c)) (uuid_str u) = true.
Proof.
  eapply str_forallb_impl, uuid_str_chars. intros e [He|He]%orb_true_iff.
  - by apply digit_like_solid.
  - apply Ascii.eqb_eq in He as ->. done.
Qed.

Lemma remove_hyphens u : remove_char "-" (uuid_str u) = hex_digits 32 u.
Proof.
  unfold uuid_str. set (h := hex_digits 32 u).
  assert (Hh : ∀ n m, remove_char "-" (String.substring n m h) = String.substring n m h).
  { intros n m. apply remove_char_absent. eapply str_forallb_impl, substring_forallb.
    2: apply (hex_digits_like 32 u). intros c Hc. by rewrite (digit_like_neq c). }
  rewrite !remove_char_app, !Hh. change (remove_char "-" "-") with "".
  rewrite !str_app_nil_l. apply substring_groups, hex_digits_length.
Qed.

Lemma drop_prefix_0x_digits s : str_forallb digit_like s = true → drop_prefix_0x s = s.
Proof.
  destruct s as [|c1 [|c2 s]]; simpl; try done; [by destruct c1 as [[] [] [] [] [] [] [] []]|].
  rewrite !andb_true_iff. intros (_ & Hc & _).
  rewrite !(digit_like_neq c2) by done. by destruct c1 as [[] [] [] [] [] [] [] []].
Qed.

(** [UUID(str(u)) == u]. *)
Lemma uuid_parse_str u : (u < uuid_bound)%N → uuid_parse (uuid_str u) = Some u.
Proof.
  intros Hu. unfold uuid_parse. cbv zeta.
  assert (Hr : ∀ f pat, remove_all f (String "u" pat) (uuid_str u) = uuid_str u).
  { intros f pat. apply remove_all_absent, uuid_str_avoids; done. }
  rewrite !Hr.
  rewrite strip_by_absent by apply uuid_str_brackets.
  rewrite remove_hyphens, hex_digits_length. cbn [Nat.eqb].
  rewrite py_int_digits; [|intros Hn; apply (f_equal String.length) in Hn;
    by rewrite hex_digits_length in Hn|apply hex_digits_like].
  unfold unsigned_literal. cbn [N.eqb Pos.eqb].
  rewrite drop_prefix_0x_digits by apply hex_digits_like.
  rewrite hex_digits_value by done.
  change (0 * 16 ^ N.of_nat 32 + u)%N with u. simpl mbind.
  rewrite N2Z.id, (proj2 (N.ltb_lt u uuid_bound) Hu).
  by rewrite (proj2 (Z.leb_le 0 (Z.of_N u))) by lia.
Qed.
