(* ===== verification/PyVal.v ===== *)
(** * Python values

    The values that flow through the engine as [Any], [object] or [JsonValue]
    (src/app/domain/models/json.py): JSON-shaped data plus an opaque
    constructor for everything else.  Dictionaries are association lists in
    insertion order, with keys that may be any value, because the resolver
    and the JSON guard both test whether the keys are strings. *)

From Stdlib Require Export SpecFloat.
From S2P Require Import Prelude.

(** A Python value.  [PFloat] holds an IEEE binary64 number in the Standard
    Library's [spec_float] form, so that infinities and NaN exist.  [POther]
    is an instance of some other class (a [datetime], a [tuple], ...): it is
    neither iterable nor a mapping, hashes by identity and is true. *)
Inductive pyobj : Type :=
| PNone
| PBool (b : bool)
| PInt (z : Z)
| PFloat (f : spec_float)
| PStr (s : string)
| PList (l : list pyobj)
| PDict (d : list (pyobj * pyobj))
| POther (type_name : string).

(** A [dict]: its items in insertion order. *)
Definition pydict : Type := list (pyobj * pyobj).

(** The induction principle that reaches inside lists and dictionaries. *)
Section pyobj_ind.
Variable P : pyobj → Prop.
Hypothesis HNone : P PNone.
Hypothesis HBool : ∀ b, P (PBool b).
Hypothesis HInt : ∀ z, P (PInt z).
Hypothesis HFloat : ∀ f, P (PFloat f).
Hypothesis HStr : ∀ s, P (PStr s).
Hypothesis HList : ∀ l, Forall P l → P (PList l).
Hypothesis HDict : ∀ d, Forall (λ kv, P kv.1 ∧ P kv.2) d → P (PDict d).
Hypothesis HOther : ∀ t, P (POther t).

Fixpoint pyobj_nested_ind (v : pyobj) : P v :=
  match v with
  | PNone => HNone
  | PBool b => HBool b
  | PInt z => HInt z
  | PFloat f => HFloat f
  | PStr s => HStr s
  | PList l => HList l
      ((fix go l : Forall P l :=
          match l with
          | [] => Forall_nil_2 _
          | x :: l' => Forall_cons_2 _ _ _ (pyobj_nested_ind x) (go l')
          end) l)
  | PDict d => HDict d
      ((fix go d : Forall (λ kv, P kv.1 ∧ P kv.2) d :=
          match d with
          | [] => Forall_nil_2 _
          | kv :: d' => Forall_cons_2 _ _ _
              (conj (pyobj_nested_ind kv.1) (pyobj_nested_ind kv.2)) (go d')
          end) d)
  | POther t => HOther t
  end.
End pyobj_ind.

(** ** Type tests and the operations the source applies to [Any] values *)

Definition is_str (v : pyobj) : bool := match v with PStr _ => true | _ => false end.
Definition is_list (v : pyobj) : bool := match v with PList _ => true | _ => false end.
Definition as_str (v : pyobj) : option string := match v with PStr s => Some s | _ => None end.
Definition as_list (v : pyobj) : option (list pyobj) := match v with PList l => Some l | _ => None end.
Definition as_dict (v : pyobj) : option pydict := match v with PDict d => Some d | _ => None end.

(** [d.get(k)] for a string key: the first item with that key. *)
Fixpoint dict_get (k : string) (d : pydict) : option pyobj :=
  match d with
  | [] => None
  | (PStr k', v) :: d' => if String.eqb k k' then Some v else dict_get k d'
  | _ :: d' => dict_get k d'
  end.

(** [d.get(k)], with Python's [None] for an absent key. *)
Definition get_or_none (k : string) (d : pydict) : pyobj := default PNone (dict_get k d).

(** [bool(v)]. *)
Definition truthy (v : pyobj) : bool :=
  match v with
  | PNone => false
  | PBool b => b
  | PInt z => negb (z =? 0)%Z
  | PFloat (S754_zero _) => false
  | PFloat _ => true
  | PStr s => negb (String.eqb s "")
  | PList l => negb (bool_decide (length l = 0))
  | PDict d => negb (bool_decide (length d = 0))
  | POther _ => true
  end.

(** [hash(v)] is defined: lists and dictionaries have no hash. *)
Definition hashable (v : pyobj) : bool :=
  match v with PList _ | PDict _ => false | _ => true end.

(** [iter(v)]: the elements a [for] loop visits, or nothing when the value is
    not iterable (a [TypeError]).  A string yields its characters and a
    dictionary its keys. *)
Definition iterate (v : pyobj) : option (list pyobj) :=
  match v with
  | PList l => Some l
  | PDict d => Some d.*1
  | PStr s => Some ((λ c, PStr (String c "")) <$> String.list_ascii_of_string s)
  | _ => None
  end.

(** [math.isfinite]. *)
Definition isfinite (f : spec_float) : bool :=
  match f with S754_zero _ | S754_finite _ _ _ => true | _ => false end.

(** Objects with string keys, as the code builds them. *)
Definition obj (d : list (string * pyobj)) : pydict := (λ kv, (PStr kv.1, kv.2)) <$> d.

(** [is_json_value] of src/app/messaging/stream_fields.py: only values JSON
    can carry, and only string keys in objects. *)
Fixpoint is_json_value (v : pyobj) : bool :=
  match v with
  | PNone | PBool _ | PInt _ | PFloat _ | PStr _ => true
  | PList l => forallb is_json_value l
  | PDict d => forallb (λ kv, is_str kv.1 && is_json_value kv.2) d
  | POther _ => false
  end.

(** Every number in the value is finite. *)
Fixpoint all_finite (v : pyobj) : bool :=
  match v with
  | PFloat f => isfinite f
  | PList l => forallb all_finite l
  | PDict d => forallb (λ kv, all_finite kv.2) d
  | _ => true
  end.

