(* ===== verification/States.v ===== *)
(** * Lifecycle states and their transition tables

    src/app/domain/state/states.py and state_machine.py, and the
    [transition_to] methods' guards. *)

From S2P Require Import Prelude.

Inductive WorkflowExecutionStatus : Type := WPending | WRunning | WCompleted | WFailed.

Inductive NodeExecutionStatus : Type := NPending | NRunning | NCompleted | NFailed.

#[export] Instance WorkflowExecutionStatus_eq_dec : EqDecision WorkflowExecutionStatus.
Proof. solve_decision. Defined.
#[export] Instance NodeExecutionStatus_eq_dec : EqDecision NodeExecutionStatus.
Proof. solve_decision. Defined.

(** The persisted string of a status ([StrEnum] values). *)
Definition workflow_status_value (s : WorkflowExecutionStatus) : string :=
  match s with
  | WPending => "pending" | WRunning => "running"
  | WCompleted => "completed" | WFailed => "failed"
  end.

Definition node_status_value (s : NodeExecutionStatus) : string :=
  match s with
  | NPending => "pending" | NRunning => "running"
  | NCompleted => "completed" | NFailed => "failed"
  end.

Definition WORKFLOW_TRANSITIONS (s : WorkflowExecutionStatus) : list WorkflowExecutionStatus :=
  match s with
  | WPending => [WRunning]
  | WRunning => [WCompleted; WFailed]
  | WCompleted => []
  | WFailed => []
  end.

Definition NODE_TRANSITIONS (s : NodeExecutionStatus) : list NodeExecutionStatus :=
  match s with
  | NPending => [NRunning; NFailed]
  | NRunning => [NCompleted; NFailed]
  | NCompleted => []
  | NFailed => []
  end.

(** One allowed move of a node or of a workflow execution. *)
Definition node_step (s t : NodeExecutionStatus) : Prop := t ∈ NODE_TRANSITIONS s.
Definition workflow_step (s t : WorkflowExecutionStatus) : Prop := t ∈ WORKFLOW_TRANSITIONS s.

(** The moves a record may make over any number of updates. *)
Definition node_moves : relation NodeExecutionStatus := rtc node_step.
Definition workflow_moves : relation WorkflowExecutionStatus := rtc workflow_step.

Definition node_terminal (s : NodeExecutionStatus) : bool :=
  match s with NCompleted | NFailed => true | _ => false end.
Definition workflow_terminal (s : WorkflowExecutionStatus) : bool :=
  match s with WCompleted | WFailed => true | _ => false end.

#[export] Instance node_step_dec s t : Decision (node_step s t).
Proof. unfold node_step. apply _. Defined.
#[export] Instance workflow_step_dec s t : Decision (workflow_step s t).
Proof. unfold workflow_step. apply _. Defined.

(** ** Facts about the tables *)

Lemma node_terminal_stuck s t : node_terminal s = true → ¬ node_step s t.
Proof. destruct s; simpl; intros; try done; unfold node_step; set_solver. Qed.

Lemma workflow_terminal_stuck s t : workflow_terminal s = true → ¬ workflow_step s t.
Proof. destruct s; simpl; intros; try done; unfold workflow_step; set_solver. Qed.

Lemma node_terminal_moves s t : node_terminal s = true → node_moves s t → t = s.
Proof.
  intros H Hm. destruct Hm as [|? u ? Hs _]; [done|]. by apply node_terminal_stuck in Hs.
Qed.

Lemma workflow_terminal_moves s t : workflow_terminal s = true → workflow_moves s t → t = s.
Proof.
  intros H Hm. destruct Hm as [|? u ? Hs _]; [done|]. by apply workflow_terminal_stuck in Hs.
Qed.

Lemma node_step_moves s t : node_step s t → node_moves s t.
Proof. apply rtc_once. Qed.
Lemma workflow_step_moves s t : workflow_step s t → workflow_moves s t.
Proof. apply rtc_once. Qed.

Lemma workflow_moves_pending s : workflow_moves s WPending → s = WPending.
Proof.
  unfold workflow_moves. intros H. apply rtc_inv_r in H as [->|(u & _ & Hu)]; [done|].
  destruct u; unfold workflow_step in Hu; set_solver.
Qed.

(** A bound on the moves left: it drops at every step. *)
Definition node_rank (s : NodeExecutionStatus) : nat :=
  match s with NPending => 2 | NRunning => 1 | NCompleted | NFailed => 0 end.

Lemma node_step_rank s t : node_step s t → node_rank t < node_rank s.
Proof.
  unfold node_step. destruct s; simpl; rewrite ?elem_of_cons, ?elem_of_nil;
    naive_solver (simpl; lia).
Qed.

#[export] Hint Resolve node_step_moves workflow_step_moves : wfdb.
#[export] Hint Extern 1 (node_moves ?x ?x) => apply rtc_refl : wfdb.
#[export] Hint Extern 1 (workflow_moves ?x ?x) => apply rtc_refl : wfdb.
