(* ===== verification/Errors.v ===== *)
(** * Exceptions

    The exceptions the modelled code raises, catches or lets through:
    src/app/domain/errors/, the template and handler errors declared next to
    their users, the built-in classes, and the two library families the code
    catches by name ([SQLAlchemyError] and [RedisError]). *)

From S2P Require Import Prelude Numerals States.

(** A structured definition error (src/app/domain/errors/validation.py). *)
Record WorkflowValidationError : Type := {
  ve_code : string;
  ve_message : string;
  ve_path : string;
  ve_node_id : option string;
  ve_dependency_id : option string;
  ve_meta : list (string * string);
}.

(** The constructor of each exception the code names; [Other] is an exception
    raised by code outside the repository, with its class name and text. *)
Inductive exn : Type :=
| KeyError (key : string)
| TypeError (message : string)
| ValueError (message : string)
| LookupError (message : string)
| RuntimeError (message : string)
| OverflowError (message : string)
| InvalidWorkflowTransitionError (current_status target_status : WorkflowExecutionStatus)
| InvalidNodeTransitionError (current_status target_status : NodeExecutionStatus)
| WorkflowExecutionNotFoundError (execution_id : string)
| WorkflowExecutionNotTriggerableError (execution_id : string) (status : WorkflowExecutionStatus)
| InvalidWorkflowDefinitionError (errors : list WorkflowValidationError)
| PydanticValidationError (message : string)
| TemplateResolutionError (message : string)
| UnknownNodeHandlerError (message : string)
| SQLAlchemyError (message : string)
| WorkflowPersistenceError (message : string)
| RedisError (message : string)
| RedisBarrierTimeout (message : string)
| Other (type_name message : string).

(** A Python computation: a value or a raised exception. *)
Abbreviation py := (outcome exn).

(** The exceptions an [except ValueError] clause catches. *)
Definition is_value_error (e : exn) : bool :=
  match e with
  | ValueError _ | InvalidWorkflowTransitionError _ _ | InvalidNodeTransitionError _ _
  | WorkflowExecutionNotTriggerableError _ _ | InvalidWorkflowDefinitionError _
  | PydanticValidationError _ | TemplateResolutionError _ | UnknownNodeHandlerError _ => true
  | _ => false
  end.

Definition is_sqlalchemy_error (e : exn) : bool :=
  match e with SQLAlchemyError _ => true | _ => false end.

Definition is_redis_error (e : exn) : bool :=
  match e with RedisError _ => true | _ => false end.

(** [type(error).__name__]. *)
Definition exn_type_name (e : exn) : string :=
  match e with
  | KeyError _ => "KeyError"
  | TypeError _ => "TypeError"
  | ValueError _ => "ValueError"
  | LookupError _ => "LookupError"
  | RuntimeError _ => "RuntimeError"
  | OverflowError _ => "OverflowError"
  | InvalidWorkflowTransitionError _ _ => "InvalidWorkflowTransitionError"
  | InvalidNodeTransitionError _ _ => "InvalidNodeTransitionError"
  | WorkflowExecutionNotFoundError _ => "WorkflowExecutionNotFoundError"
  | WorkflowExecutionNotTriggerableError _ _ => "WorkflowExecutionNotTriggerableError"
  | InvalidWorkflowDefinitionError _ => "InvalidWorkflowDefinitionError"
  | PydanticValidationError _ => "ValidationError"
  | TemplateResolutionError _ => "TemplateResolutionError"
  | UnknownNodeHandlerError _ => "UnknownNodeHandlerError"
  | SQLAlchemyError _ => "SQLAlchemyError"
  | WorkflowPersistenceError _ => "WorkflowPersistenceError"
  | RedisError _ => "RedisError"
  | RedisBarrierTimeout _ => "RedisBarrierTimeout"
  | Other t _ => t
  end.

(** [str(error)]. *)
Definition exn_str (e : exn) : string :=
  match e with
  | KeyError k => "'" +:+ k +:+ "'"
  | InvalidWorkflowTransitionError c t =>
      "Invalid workflow transition: " +:+ workflow_status_value c +:+ " -> "
      +:+ workflow_status_value t
  | InvalidNodeTransitionError c t =>
      "Invalid node transition: " +:+ node_status_value c +:+ " -> " +:+ node_status_value t
  | WorkflowExecutionNotFoundError i => "Workflow execution '" +:+ i +:+ "' was not found."
  | WorkflowExecutionNotTriggerableError i s =>
      "Workflow execution cannot be triggered from status '" +:+ workflow_status_value s
      +:+ "' (execution_id=" +:+ i +:+ ")."
  | InvalidWorkflowDefinitionError es =>
      "Workflow definition contains " +:+ str_of_nat (length es) +:+ " validation error(s)."
  | TypeError m | ValueError m | LookupError m | RuntimeError m | OverflowError m
  | PydanticValidationError m | TemplateResolutionError m | UnknownNodeHandlerError m
  | SQLAlchemyError m | WorkflowPersistenceError m | RedisError m
  | RedisBarrierTimeout m | Other _ m => m
  end.

(** A loop of the model whose fuel ran out.  It is not an exception of the
    program: the termination theorems show that it is never reached. *)
Definition fuel_exhausted : exn := Other "FuelExhausted" "".

Definition run_fuel {A} (r : option (py A)) : py A := default (Raise fuel_exhausted) r.
