(* ===== verification/Domain.v ===== *)
(** * Domain models

    src/app/domain/models/: workflow definitions, workflow executions and node
    executions, with the guarded [transition_to] methods and the state
    machine's validators (src/app/domain/state/state_machine.py). *)

From S2P Require Import Prelude Numerals PyVal States Errors.

(** A point in time, in microseconds. *)
Definition datetime : Type := Z.

(** src/app/domain/models/node.py. *)
Record WorkflowNode : Type := {
  wn_id : string;
  wn_handler : string;
  wn_dependencies : list string;
  wn_config : pydict;
  wn_created_at : datetime;
  wn_created_by : option string;
}.

(** src/app/domain/models/workflow.py: [Workflow] with its [WorkflowDag]. *)
Record WorkflowDag : Type := { dag_nodes : list WorkflowNode }.

Record Workflow : Type := {
  wf_workflow_id : UUID;
  wf_name : string;
  wf_dag : WorkflowDag;
  wf_created_at : datetime;
  wf_created_by : option string;
}.

(** The node list, and the node identifiers in definition order. *)
Definition nodes_of (w : Workflow) : list WorkflowNode := dag_nodes (wf_dag w).
Definition node_ids (w : Workflow) : list string := wn_id <$> nodes_of w.

(** src/app/domain/models/execution.py. *)
Record WorkflowExecution : Type := {
  we_execution_id : UUID;
  we_workflow_id : UUID;
  we_status : WorkflowExecutionStatus;
  we_input_data : pydict;
  we_created_at : datetime;
  we_started_at : option datetime;
  we_completed_at : option datetime;
}.

Record NodeExecution : Type := {
  ne_workflow_execution_id : UUID;
  ne_node_id : string;
  ne_status : NodeExecutionStatus;
  ne_output_data : pyobj;
  ne_error_message : option string;
  ne_error_type : option string;
  ne_created_at : datetime;
  ne_started_at : option datetime;
  ne_completed_at : option datetime;
}.

(** ** The state machine's guards *)

Definition validate_workflow_transition (current target : WorkflowExecutionStatus) : py unit :=
  if negb (memb target (WORKFLOW_TRANSITIONS current))
  then Raise (InvalidWorkflowTransitionError current target)
  else Ok tt.

Definition validate_node_transition (current target : NodeExecutionStatus) : py unit :=
  if negb (memb target (NODE_TRANSITIONS current))
  then Raise (InvalidNodeTransitionError current target)
  else Ok tt.

(** [model_copy(update={"status": ...})]. *)
Definition set_we_status (s : WorkflowExecutionStatus) (e : WorkflowExecution) : WorkflowExecution :=
  {| we_execution_id := we_execution_id e; we_workflow_id := we_workflow_id e;
     we_status := s; we_input_data := we_input_data e; we_created_at := we_created_at e;
     we_started_at := we_started_at e; we_completed_at := we_completed_at e |}.

Definition set_ne_status (s : NodeExecutionStatus) (e : NodeExecution) : NodeExecution :=
  {| ne_workflow_execution_id := ne_workflow_execution_id e; ne_node_id := ne_node_id e;
     ne_status := s; ne_output_data := ne_output_data e;
     ne_error_message := ne_error_message e; ne_error_type := ne_error_type e;
     ne_created_at := ne_created_at e; ne_started_at := ne_started_at e;
     ne_completed_at := ne_completed_at e |}.

Definition WorkflowExecution_transition_to (e : WorkflowExecution)
    (target : WorkflowExecutionStatus) : py WorkflowExecution :=
  _ ← validate_workflow_transition (we_status e) target;
  Ok (set_we_status target e).

Definition NodeExecution_transition_to (e : NodeExecution)
    (target : NodeExecutionStatus) : py NodeExecution :=
  _ ← validate_node_transition (ne_status e) target;
  Ok (set_ne_status target e).

(** Run [transition_to] through a list of targets, stopping at the first
    rejected one. *)
Fixpoint transition_all (e : NodeExecution) (targets : list NodeExecutionStatus) : py NodeExecution :=
  match targets with
  | [] => Ok e
  | t :: ts => e' ← NodeExecution_transition_to e t; transition_all e' ts
  end.

(** ** Theorems *)

Lemma validate_node_transition_ok c t :
  validate_node_transition c t = Ok tt ↔ node_step c t.
Proof.
  unfold validate_node_transition, node_step. case_if; bsimp; naive_solver.
Qed.

Lemma node_transition_to_ok e t e' :
  NodeExecution_transition_to e t = Ok e' → node_step (ne_status e) t ∧ e' = set_ne_status t e.
Proof.
  unfold NodeExecution_transition_to.
  destruct (validate_node_transition _ _) as [[]|] eqn:H; [|done].
  apply validate_node_transition_ok in H. simpl. by intros [= <-].
Qed.

(** A chain of accepted [transition_to] calls on a node execution is a
    path of the declarative table: it makes no more moves than the rank of the
    starting status (two from pending, one from running, none from a terminal
    status) and changes nothing but the status. *)
Theorem transition_all_bounded e targets e' :
  transition_all e targets = Ok e' →
  length targets ≤ node_rank (ne_status e) ∧
  e' = set_ne_status (ne_status e') e ∧
  node_moves (ne_status e) (ne_status e').
Proof.
  revert e. induction targets as [|t ts IH]; intros e H; simpl in H.
  - simplify_eq. split_and!; [simpl; lia|by destruct e'|apply rtc_refl].
  - apply bind_Ok_inv in H as (e1 & He1 & H).
    apply node_transition_to_ok in He1 as [Hs ->].
    destruct (IH _ H) as (Hl & He' & Hm). simpl in *.
    apply node_step_rank in Hs as Hr. split_and!.
    + lia.
    + rewrite He' at 1. done.
    + eapply rtc_l; eauto.
Qed.
