(* ===== verification/Migrations.v ===== *)
(** * Database migrations

    src/alembic/versions/: every revision as the list of statements its
    [upgrade] and [downgrade] issue, over a schema (tables with columns, keys,
    constraints and indexes) and over the rows of the tables; and the tables
    that the SQLAlchemy models of src/app/infrastructure/persistence/models/
    declare.  What the statements do is PostgreSQL's documented behaviour; a
    statement that PostgreSQL refuses is [None]. *)

From S2P Require Import Prelude Numerals PyVal States.

(** ** Schemas *)

Inductive column_type : Type :=
| TUuid | TString (length : nat) | TText | TJsonb | TInteger | TTimestamp.

#[export] Instance column_type_eq_dec : EqDecision column_type.
Proof. solve_decision. Defined.

Record column : Type := Column {
  col_type : column_type;
  col_nullable : bool;
  col_default : option string;
}.

Record foreign_key_constraint : Type := ForeignKey {
  fk_columns : list string;
  fk_table : string;
  fk_refs : list string;
  fk_ondelete : string;
}.

Record index : Type := Index { ix_columns : list string; ix_unique : bool }.

(** [column IN (values)], the only form of check the schema has. *)
Record check_in : Type := CheckIn { ck_column : string; ck_values : list string }.

Record table : Type := Table {
  t_columns : gmap string column;
  t_primary : list string;
  t_foreign : gmap string foreign_key_constraint;
  t_unique : gmap string (list string);
  t_checks : gmap string check_in;
  t_indexes : gmap string index;
}.

#[export] Instance column_eq_dec : EqDecision column.
Proof. solve_decision. Defined.
#[export] Instance foreign_key_constraint_eq_dec : EqDecision foreign_key_constraint.
Proof. solve_decision. Defined.
#[export] Instance index_eq_dec : EqDecision index.
Proof. solve_decision. Defined.
#[export] Instance check_in_eq_dec : EqDecision check_in.
Proof. solve_decision. Defined.
#[export] Instance table_eq_dec : EqDecision table.
Proof. solve_decision. Defined.

Abbreviation schema := (gmap string table).

(** ** Rows *)

Inductive sql_value : Type :=
| VNull | VText (s : string) | VUuid (u : UUID) | VInt (z : Z) | VTime (t : Z) | VJson (v : pyobj).

Abbreviation row := (gmap string sql_value).

(** The rows of each table. *)
Abbreviation table_rows := (gmap string (list row)).

(** The value of a column; one that is not stored is NULL. *)
Definition cell (r : row) (c : string) : sql_value := default VNull (r !! c).
Definition is_null (v : sql_value) : bool := match v with VNull => true | _ => false end.

(** SQL equality on the key types: never true of NULL. *)
Definition sql_equal (v v' : sql_value) : bool :=
  match v, v' with
  | VText s, VText s' => String.eqb s s'
  | VUuid u, VUuid u' => N.eqb u u'
  | VInt z, VInt z' => Z.eqb z z'
  | VTime t, VTime t' => Z.eqb t t'
  | _, _ => false
  end.

(** ** Statements *)

(** The items of a [create_table]. *)
Inductive table_item : Type :=
| Col (name : string) (type : column_type) (nullable : bool) (server_default : option string)
| ForeignKeyConstraint (columns : list string) (ref_table : string) (refs : list string) (ondelete : string)
| PrimaryKeyConstraint (columns : list string)
| UniqueConstraint (columns : list string) (name : string).

(** The conditions of the two kinds of [UPDATE]. *)
Inductive condition : Type := IsNull (column : string) | Equals (column : string) (value : string).

Inductive statement : Type :=
| create_table (name : string) (items : list table_item)
| drop_table (name : string)
| create_index (name table : string) (columns : list string) (unique : bool)
| drop_index (name table : string)
| add_column (table name : string) (type : column_type) (nullable : bool)
| drop_column (table name : string)
| alter_nullable (table name : string) (nullable : bool)
| rename_column (table name new_name : string)
| drop_foreign_key (table name : string)
| drop_check (table name : string)
| create_foreign_key (name table ref_table : string) (columns refs : list string) (ondelete : string)
| create_check_constraint (name table : string) (check : check_in)
| update (table column value : string) (where_ : condition).

(** *** On the schema *)

Definition empty_table : table := Table ∅ [] ∅ ∅ ∅ ∅.

Definition with_columns (t : table) (c : gmap string column) : table :=
  Table c (t_primary t) (t_foreign t) (t_unique t) (t_checks t) (t_indexes t).
Definition with_foreign (t : table) (f : gmap string foreign_key_constraint) : table :=
  Table (t_columns t) (t_primary t) f (t_unique t) (t_checks t) (t_indexes t).
Definition with_checks (t : table) (c : gmap string check_in) : table :=
  Table (t_columns t) (t_primary t) (t_foreign t) (t_unique t) c (t_indexes t).
Definition with_indexes (t : table) (i : gmap string index) : table :=
  Table (t_columns t) (t_primary t) (t_foreign t) (t_unique t) (t_checks t) i.

Definition declared (t : table) (columns : list string) : bool :=
  forallb (λ c, bool_decide (is_Some (t_columns t !! c))) columns.

(** The columns a foreign key refers to are the primary key of their table. *)
Definition references (s : schema) (ref_table : string) (refs : list string) : bool :=
  match s !! ref_table with Some t => bool_decide (t_primary t = refs) | None => false end.

(** The name PostgreSQL gives to a foreign key without one. *)
Definition foreign_key_name (table : string) (columns : list string) : string :=
  table +:+ "_" +:+ String.concat "_" columns +:+ "_fkey".

Definition add_item (s : schema) (name : string) (t : table) (item : table_item) : option table :=
  match item with
  | Col c ty nullable dflt =>
      if bool_decide (is_Some (t_columns t !! c)) then None
      else Some (with_columns t (<[c := Column ty nullable dflt]> (t_columns t)))
  | ForeignKeyConstraint columns ref_table refs ondelete =>
      if declared t columns && references s ref_table refs then
        Some (with_foreign t (<[foreign_key_name name columns :=
          ForeignKey columns ref_table refs ondelete]> (t_foreign t)))
      else None
  | PrimaryKeyConstraint columns =>
      if declared t columns && bool_decide (t_primary t = []) then
        Some (Table (t_columns t) columns (t_foreign t) (t_unique t) (t_checks t) (t_indexes t))
      else None
  | UniqueConstraint columns constraint =>
      if declared t columns then
        Some (Table (t_columns t) (t_primary t) (t_foreign t) (<[constraint := columns]> (t_unique t))
          (t_checks t) (t_indexes t))
      else None
  end.

Fixpoint add_items (s : schema) (name : string) (t : table) (items : list table_item) : option table :=
  match items with
  | [] => Some t
  | item :: items' => t' ← add_item s name t item; add_items s name t' items'
  end.

Definition index_exists (s : schema) (name : string) : bool :=
  existsb (λ kt, bool_decide (is_Some (t_indexes kt.2 !! name))) (map_to_list s).

(** Another table refers to [table], or to its column [c]. *)
Definition referenced_table (s : schema) (table : string) : bool :=
  existsb (λ kt, negb (String.eqb kt.1 table) &&
    existsb (λ kf, String.eqb (fk_table kf.2) table) (map_to_list (t_foreign kt.2))) (map_to_list s).
Definition referenced_column (s : schema) (table c : string) : bool :=
  existsb (λ kt, existsb (λ kf, String.eqb (fk_table kf.2) table && memb c (fk_refs kf.2))
    (map_to_list (t_foreign kt.2))) (map_to_list s).

Definition renamed (c c' x : string) : string := if String.eqb x c then c' else x.
Definition rename_all (c c' : string) (l : list string) : list string := renamed c c' <$> l.

(** A renamed column keeps its place in every constraint and index. *)
Definition rename_in_table (c c' : string) (t : table) : option table :=
  col ← t_columns t !! c;
  if bool_decide (is_Some (t_columns t !! c')) then None
  else Some (Table (<[c' := col]> (delete c (t_columns t))) (rename_all c c' (t_primary t))
    ((λ f, ForeignKey (rename_all c c' (fk_columns f)) (fk_table f) (fk_refs f) (fk_ondelete f)) <$> t_foreign t)
    (rename_all c c' <$> t_unique t)
    ((λ k, CheckIn (renamed c c' (ck_column k)) (ck_values k)) <$> t_checks t)
    ((λ i, Index (rename_all c c' (ix_columns i)) (ix_unique i)) <$> t_indexes t)).

(** The references of other tables follow. *)
Definition rename_references (table c c' : string) (s : schema) : schema :=
  (λ t, with_foreign t ((λ f, if String.eqb (fk_table f) table
     then ForeignKey (fk_columns f) (fk_table f) (rename_all c c' (fk_refs f)) (fk_ondelete f) else f)
       <$> t_foreign t)) <$> s.

(** A dropped column takes along the constraints and indexes it is part of. *)
Definition drop_from_table (c : string) (t : table) : table :=
  Table (delete c (t_columns t)) (if memb c (t_primary t) then [] else t_primary t)
    (filter (λ kf, c ∉ fk_columns kf.2) (t_foreign t))
    (filter (λ ku, c ∉ ku.2) (t_unique t))
    (filter (λ kc, ck_column kc.2 ≠ c) (t_checks t))
    (filter (λ ki, c ∉ ix_columns ki.2) (t_indexes t)).

Definition schema_statement (st : statement) (s : schema) : option schema :=
  match st with
  | create_table name items =>
      if bool_decide (is_Some (s !! name)) then None
      else t ← add_items s name empty_table items; Some (<[name := t]> s)
  | drop_table name =>
      if bool_decide (is_Some (s !! name)) && negb (referenced_table s name) then Some (delete name s) else None
  | create_index name tn columns unique =>
      t ← s !! tn;
      if declared t columns && negb (index_exists s name)
      then Some (<[tn := with_indexes t (<[name := Index columns unique]> (t_indexes t))]> s) else None
  | drop_index name tn =>
      t ← s !! tn;
      if bool_decide (is_Some (t_indexes t !! name))
      then Some (<[tn := with_indexes t (delete name (t_indexes t))]> s) else None
  | add_column tn c ty nullable =>
      t ← s !! tn; t' ← add_item s tn t (Col c ty nullable None); Some (<[tn := t']> s)
  | drop_column tn c =>
      t ← s !! tn;
      if declared t [c] && negb (referenced_column s tn c) then Some (<[tn := drop_from_table c t]> s) else None
  | alter_nullable tn c nullable =>
      t ← s !! tn; col ← t_columns t !! c;
      if nullable && memb c (t_primary t) then None
      else Some (<[tn := with_columns t
        (<[c := Column (col_type col) nullable (col_default col)]> (t_columns t))]> s)
  | rename_column tn c c' =>
      t ← s !! tn; t' ← rename_in_table c c' t; Some (rename_references tn c c' (<[tn := t']> s))
  | drop_foreign_key tn name =>
      t ← s !! tn;
      if bool_decide (is_Some (t_foreign t !! name))
      then Some (<[tn := with_foreign t (delete name (t_foreign t))]> s) else None
  | drop_check tn name =>
      t ← s !! tn;
      if bool_decide (is_Some (t_checks t !! name))
      then Some (<[tn := with_checks t (delete name (t_checks t))]> s) else None
  | create_foreign_key name tn ref_table columns refs ondelete =>
      t ← s !! tn;
      if declared t columns && references s ref_table refs && negb (bool_decide (is_Some (t_foreign t !! name)))
      then Some (<[tn := with_foreign t (<[name := ForeignKey columns ref_table refs ondelete]> (t_foreign t))]> s)
      else None
  | create_check_constraint name tn check =>
      t ← s !! tn;
      if declared t [ck_column check] && negb (bool_decide (is_Some (t_checks t !! name)))
      then Some (<[tn := with_checks t (<[name := check]> (t_checks t))]> s) else None
  | update tn c _ where_ =>
      t ← s !! tn;
      if declared t [c] && declared t [match where_ with IsNull k => k | Equals k _ => k end] then Some s else None
  end.

(** *** On the rows *)

Definition rows_of (d : table_rows) (tn : string) : list row := default [] (d !! tn).
Definition map_rows (f : row → row) (tn : string) (d : table_rows) : table_rows := <[tn := f <$> rows_of d tn]> d.

Definition holds (where_ : condition) (r : row) : bool :=
  match where_ with
  | IsNull c => is_null (cell r c)
  | Equals c v => sql_equal (cell r c) (VText v)
  end.

(** A check is violated only when it is false, so NULL passes. *)
Definition check_ok (check : check_in) (r : row) : bool :=
  is_null (cell r (ck_column check)) ||
  existsb (λ v, sql_equal (cell r (ck_column check)) (VText v)) (ck_values check).

Definition foreign_key_ok (columns refs : list string) (ref_rows : list row) (r : row) : bool :=
  existsb (λ c, is_null (cell r c)) columns ||
  existsb (λ r', forallb (λ cc, sql_equal (cell r cc.1) (cell r' cc.2)) (zip columns refs)) ref_rows.

Definition same_cells (columns : list string) (r r' : row) : bool :=
  forallb (λ c, sql_equal (cell r c) (cell r' c)) columns.
Fixpoint all_distinct (columns : list string) (rows : list row) : bool :=
  match rows with
  | [] => true
  | r :: rows' => negb (existsb (same_cells columns r) rows') && all_distinct columns rows'
  end.

Definition row_statement (st : statement) (d : table_rows) : option table_rows :=
  match st with
  | create_table name _ => Some (<[name := []]> d)
  | drop_table name => Some (delete name d)
  | create_index _ tn columns unique =>
      if negb unique || all_distinct columns (rows_of d tn) then Some d else None
  | drop_index _ _ | drop_foreign_key _ _ | drop_check _ _ => Some d
  | add_column tn c _ nullable =>
      if nullable || bool_decide (length (rows_of d tn) = 0) then Some (map_rows (<[c := VNull]>) tn d) else None
  | drop_column tn c => Some (map_rows (delete c) tn d)
  | alter_nullable tn c nullable =>
      if nullable || forallb (λ r, negb (is_null (cell r c))) (rows_of d tn) then Some d else None
  | rename_column tn c c' => Some (map_rows (λ r, <[c' := cell r c]> (delete c r)) tn d)
  | create_foreign_key _ tn ref_table columns refs _ =>
      if forallb (foreign_key_ok columns refs (rows_of d ref_table)) (rows_of d tn) then Some d else None
  | create_check_constraint _ tn check => if forallb (check_ok check) (rows_of d tn) then Some d else None
  | update tn c v where_ => Some (map_rows (λ r, if holds where_ r then <[c := VText v]> r else r) tn d)
  end.

(** ** A migration *)

Definition database : Type := schema * table_rows.

Definition execute_statement (db : database) (st : statement) : option database :=
  s ← schema_statement st db.1; d ← row_statement st db.2; Some (s, d).

(** env.py runs the migrations in one transaction: all statements, or none. *)
Fixpoint run_statements (db : database) (sts : list statement) : option database :=
  match sts with
  | [] => Some db
  | st :: sts' => db' ← execute_statement db st; run_statements db' sts'
  end.
