(* ===== verification/Revisions.v ===== *)
(** * The revisions and the models

    src/alembic/versions/: the statements of every revision in the order they
    are issued, and the graph the revisions form; the tables that the models
    of src/app/infrastructure/persistence/models/ declare, as the statements
    that create them. *)

From S2P Require Import Prelude Numerals PyVal States Migrations.

(** ** The revisions *)

(** *** 39323f5e8e55: baseline *)

Definition upgrade_39323f5e8e55 : list statement :=
  [ create_table "workflows"
      [ Col "workflow_id" TUuid false None;
        Col "name" (TString 255) false None;
        Col "dag_definition" TJsonb false None;
        Col "created_at" TTimestamp false (Some "now()");
        PrimaryKeyConstraint ["workflow_id"] ];
    create_table "workflow_executions"
      [ Col "execution_id" TUuid false None;
        Col "workflow_id" TUuid false None;
        Col "status" (TString 32) false None;
        Col "input_data" TJsonb false None;
        Col "created_at" TTimestamp false (Some "now()");
        Col "started_at" TTimestamp true None;
        Col "completed_at" TTimestamp true None;
        Col "updated_at" TTimestamp false (Some "now()");
        ForeignKeyConstraint ["workflow_id"] "workflows" ["workflow_id"] "RESTRICT";
        PrimaryKeyConstraint ["execution_id"] ];
    create_index "ix_workflow_executions_status" "workflow_executions" ["status"] false;
    create_index "ix_workflow_executions_execution_id_status" "workflow_executions" ["execution_id"; "status"] false;
    create_table "node_executions"
      [ Col "workflow_execution_id" TUuid false None;
        Col "node_id" (TString 255) false None;
        Col "status" (TString 32) false None;
        Col "output_data" TJsonb false None;
        Col "error_message" TText true None;
        Col "error_type" (TString 255) true None;
        Col "created_at" TTimestamp false (Some "now()");
        Col "updated_at" TTimestamp false (Some "now()");
        Col "started_at" TTimestamp true None;
        Col "completed_at" TTimestamp true None;
        ForeignKeyConstraint ["workflow_execution_id"] "workflow_executions" ["execution_id"] "CASCADE";
        PrimaryKeyConstraint ["workflow_execution_id"; "node_id"] ];
    create_index "ix_node_executions_status" "node_executions" ["status"] false;
    create_index "ix_node_executions_execution_id_status" "node_executions" ["workflow_execution_id"; "status"] false ].

Definition downgrade_39323f5e8e55 : list statement :=
  [ drop_index "ix_node_executions_execution_id_status" "node_executions";
    drop_index "ix_node_executions_status" "node_executions";
    drop_table "node_executions";
    drop_index "ix_workflow_executions_execution_id_status" "workflow_executions";
    drop_index "ix_workflow_executions_status" "workflow_executions";
    drop_table "workflow_executions";
    drop_table "workflows" ].

(** *** 571dc8014b2c: add transactional outbox events *)

Definition upgrade_571dc8014b2c : list statement :=
  [ create_table "outbox_events"
      [ Col "event_id" TUuid false None;
        Col "event_type" (TString 128) false None;
        Col "aggregate_id" TUuid false None;
        Col "payload" TJsonb false None;
        Col "status" (TString 32) false None;
        Col "publish_attempts" TInteger false None;
        Col "last_error" TText true None;
        Col "created_at" TTimestamp false (Some "now()");
        Col "published_at" TTimestamp true None;
        ForeignKeyConstraint ["aggregate_id"] "workflow_executions" ["execution_id"] "CASCADE";
        PrimaryKeyConstraint ["event_id"] ];
    create_index "ix_outbox_events_event_type" "outbox_events" ["event_type"] false;
    create_index "ix_outbox_events_aggregate_id" "outbox_events" ["aggregate_id"] false;
    create_index "ix_outbox_events_status" "outbox_events" ["status"] false ].

Definition downgrade_571dc8014b2c : list statement :=
  [ drop_index "ix_outbox_events_status" "outbox_events";
    drop_index "ix_outbox_events_aggregate_id" "outbox_events";
    drop_index "ix_outbox_events_event_type" "outbox_events";
    drop_table "outbox_events" ].

(** *** 6c2e1f4a9b70: generalize transactional outbox messages *)

Definition upgrade_6c2e1f4a9b70 : list statement :=
  [ drop_foreign_key "outbox_events" "outbox_events_aggregate_id_fkey";
    rename_column "outbox_events" "event_id" "message_id";
    rename_column "outbox_events" "event_type" "message_type";
    alter_nullable "outbox_events" "aggregate_id" true;
    add_column "outbox_events" "target_stream" (TString 128) true;
    update "outbox_events" "target_stream" "workflow.events" (IsNull "target_stream");
    alter_nullable "outbox_events" "target_stream" false;
    create_index "ix_outbox_events_target_stream_status" "outbox_events" ["target_stream"; "status"] false;
    create_index "ix_outbox_events_published_at" "outbox_events" ["published_at"] false ].

Definition downgrade_6c2e1f4a9b70 : list statement :=
  [ drop_index "ix_outbox_events_published_at" "outbox_events";
    drop_index "ix_outbox_events_target_stream_status" "outbox_events";
    drop_column "outbox_events" "target_stream";
    alter_nullable "outbox_events" "aggregate_id" false;
    rename_column "outbox_events" "message_type" "event_type";
    rename_column "outbox_events" "message_id" "event_id";
    create_foreign_key "outbox_events_aggregate_id_fkey" "outbox_events" "workflow_executions" ["aggregate_id"] ["execution_id"] "CASCADE" ].

(** *** 7f3a2c1d9e80: normalize node execution states to the four supported lifecycle states *)

Definition upgrade_7f3a2c1d9e80 : list statement :=
  [ update "node_executions" "status" "pending" (Equals "status" "ready");
    update "node_executions" "status" "failed" (Equals "status" "skipped");
    create_check_constraint "ck_node_executions_status" "node_executions"
      (CheckIn "status" ["pending"; "running"; "completed"; "failed"]) ].

Definition downgrade_7f3a2c1d9e80 : list statement :=
  [ drop_check "node_executions" "ck_node_executions_status" ].

(** *** 8a1f4c2d7e90: allow successful nodes to persist JSON null output *)

Definition upgrade_8a1f4c2d7e90 : list statement :=
  [ alter_nullable "node_executions" "output_data" true ].

Definition downgrade_8a1f4c2d7e90 : list statement :=
  [ alter_nullable "node_executions" "output_data" false ].

(** *** 9c4e2a7b1d60: add durable worker task-processing state *)

Definition upgrade_9c4e2a7b1d60 : list statement :=
  [ create_table "task_processing"
      [ Col "task_id" (TString 255) false None;
        Col "execution_id" TUuid false None;
        Col "node_id" (TString 255) false None;
        Col "status" (TString 32) false (Some "'claimed'");
        Col "claimed_by" (TString 255) true None;
        Col "claimed_at" TTimestamp false (Some "now()");
        Col "claim_expires_at" TTimestamp true None;
        Col "result_data" TJsonb true None;
        Col "error_message" TText true None;
        Col "error_type" (TString 255) true None;
        Col "completion_event_id" TUuid true None;
        Col "completion_published_at" TTimestamp true None;
        Col "completed_at" TTimestamp true None;
        Col "updated_at" TTimestamp false (Some "now()");
        ForeignKeyConstraint ["execution_id"] "workflow_executions" ["execution_id"] "CASCADE";
        PrimaryKeyConstraint ["task_id"] ];
    create_index "ix_task_processing_status" "task_processing" ["status"] false;
    create_index "ix_task_processing_execution_id_node_id" "task_processing" ["execution_id"; "node_id"] false ].

Definition downgrade_9c4e2a7b1d60 : list statement :=
  [ drop_index "ix_task_processing_execution_id_node_id" "task_processing";
    drop_index "ix_task_processing_status" "task_processing";
    drop_table "task_processing" ].

(** *** 2d6f8a1c4b70: add durable logical-task retry state and attempt history *)

Definition upgrade_2d6f8a1c4b70 : list statement :=
  [ create_table "logical_tasks"
      [ Col "task_id" (TString 255) false None;
        Col "execution_id" TUuid false None;
        Col "node_id" (TString 255) false None;
        Col "handler" (TString 255) false None;
        Col "handler_config" TJsonb false None;
        Col "resolved_input" TJsonb false None;
        Col "status" (TString 32) false (Some "'pending'");
        Col "final_error_message" TText true None;
        Col "final_error_type" (TString 255) true None;
        Col "created_at" TTimestamp false (Some "now()");
        Col "updated_at" TTimestamp false (Some "now()");
        ForeignKeyConstraint ["execution_id"] "workflow_executions" ["execution_id"] "CASCADE";
        PrimaryKeyConstraint ["task_id"] ];
    create_index "ix_logical_tasks_execution_id_node_id" "logical_tasks" ["execution_id"; "node_id"] true;
    create_table "task_attempts"
      [ Col "attempt_id" TUuid false None;
        Col "task_id" (TString 255) false None;
        Col "attempt_number" TInteger false None;
        Col "status" (TString 32) false None;
        Col "failure_event_id" TUuid true None;
        Col "completion_event_id" TUuid true None;
        Col "error_message" TText true None;
        Col "error_type" (TString 255) true None;
        Col "started_at" TTimestamp true None;
        Col "failed_at" TTimestamp true None;
        Col "scheduled_at" TTimestamp true None;
        Col "completed_at" TTimestamp true None;
        Col "created_at" TTimestamp false (Some "now()");
        Col "updated_at" TTimestamp false (Some "now()");
        ForeignKeyConstraint ["task_id"] "logical_tasks" ["task_id"] "CASCADE";
        PrimaryKeyConstraint ["attempt_id"];
        UniqueConstraint ["task_id"; "attempt_number"] "uq_task_attempts_task_number";
        UniqueConstraint ["failure_event_id"] "uq_task_attempts_failure_event_id" ];
    create_index "ix_task_attempts_task_id_status" "task_attempts" ["task_id"; "status"] false;
    create_table "task_retry_dispatches"
      [ Col "attempt_id" TUuid false None;
        Col "available_at" TTimestamp false None;
        Col "status" (TString 32) false (Some "'pending'");
        Col "published_at" TTimestamp true None;
        Col "created_at" TTimestamp false (Some "now()");
        ForeignKeyConstraint ["attempt_id"] "task_attempts" ["attempt_id"] "CASCADE";
        PrimaryKeyConstraint ["attempt_id"] ];
    create_index "ix_task_retry_dispatches_due" "task_retry_dispatches" ["status"; "available_at"] false ].

Definition downgrade_2d6f8a1c4b70 : list statement :=
  [ drop_index "ix_task_retry_dispatches_due" "task_retry_dispatches";
    drop_table "task_retry_dispatches";
    drop_index "ix_task_attempts_task_id_status" "task_attempts";
    drop_table "task_attempts";
    drop_index "ix_logical_tasks_execution_id_node_id" "logical_tasks";
    drop_table "logical_tasks" ].

(** *** 4e8b2c6d1f90: add worker claim and result state to task attempts *)

Definition upgrade_4e8b2c6d1f90 : list statement :=
  [ add_column "task_attempts" "claimed_by" (TString 255) true;
    add_column "task_attempts" "claimed_at" TTimestamp true;
    add_column "task_attempts" "claim_expires_at" TTimestamp true;
    add_column "task_attempts" "result_data" TJsonb true;
    add_column "task_attempts" "completion_published_at" TTimestamp true ].

Definition downgrade_4e8b2c6d1f90 : list statement :=
  [ drop_column "task_attempts" "completion_published_at";
    drop_column "task_attempts" "result_data";
    drop_column "task_attempts" "claim_expires_at";
    drop_column "task_attempts" "claimed_at";
    drop_column "task_attempts" "claimed_by" ].

(** *** b8c7d6e5f4a3: merge the workflow migration branches *)

Definition upgrade_b8c7d6e5f4a3 : list statement := [].

Definition downgrade_b8c7d6e5f4a3 : list statement := [].

(** ** The graph of revisions *)

Inductive revision : Type :=
| rev_39323f5e8e55 | rev_571dc8014b2c | rev_6c2e1f4a9b70 | rev_7f3a2c1d9e80 | rev_8a1f4c2d7e90
| rev_9c4e2a7b1d60 | rev_2d6f8a1c4b70 | rev_4e8b2c6d1f90 | rev_b8c7d6e5f4a3.

#[export] Instance revision_eq_dec : EqDecision revision.
Proof. solve_decision. Defined.

Definition revisions : list revision :=
  [ rev_39323f5e8e55; rev_571dc8014b2c; rev_6c2e1f4a9b70; rev_7f3a2c1d9e80; rev_8a1f4c2d7e90;
    rev_9c4e2a7b1d60; rev_2d6f8a1c4b70; rev_4e8b2c6d1f90; rev_b8c7d6e5f4a3 ].

Definition down_revision (r : revision) : list revision :=
  match r with
  | rev_39323f5e8e55 => []
  | rev_571dc8014b2c => [rev_39323f5e8e55]
  | rev_6c2e1f4a9b70 => [rev_571dc8014b2c]
  | rev_7f3a2c1d9e80 => [rev_6c2e1f4a9b70]
  | rev_8a1f4c2d7e90 => [rev_571dc8014b2c]
  | rev_9c4e2a7b1d60 => [rev_8a1f4c2d7e90]
  | rev_2d6f8a1c4b70 => [rev_9c4e2a7b1d60]
  | rev_4e8b2c6d1f90 => [rev_2d6f8a1c4b70]
  | rev_b8c7d6e5f4a3 => [rev_7f3a2c1d9e80; rev_4e8b2c6d1f90]
  end.

Definition upgrade (r : revision) : list statement :=
  match r with
  | rev_39323f5e8e55 => upgrade_39323f5e8e55
  | rev_571dc8014b2c => upgrade_571dc8014b2c
  | rev_6c2e1f4a9b70 => upgrade_6c2e1f4a9b70
  | rev_7f3a2c1d9e80 => upgrade_7f3a2c1d9e80
  | rev_8a1f4c2d7e90 => upgrade_8a1f4c2d7e90
  | rev_9c4e2a7b1d60 => upgrade_9c4e2a7b1d60
  | rev_2d6f8a1c4b70 => upgrade_2d6f8a1c4b70
  | rev_4e8b2c6d1f90 => upgrade_4e8b2c6d1f90
  | rev_b8c7d6e5f4a3 => upgrade_b8c7d6e5f4a3
  end.

Definition downgrade (r : revision) : list statement :=
  match r with
  | rev_39323f5e8e55 => downgrade_39323f5e8e55
  | rev_571dc8014b2c => downgrade_571dc8014b2c
  | rev_6c2e1f4a9b70 => downgrade_6c2e1f4a9b70
  | rev_7f3a2c1d9e80 => downgrade_7f3a2c1d9e80
  | rev_8a1f4c2d7e90 => downgrade_8a1f4c2d7e90
  | rev_9c4e2a7b1d60 => downgrade_9c4e2a7b1d60
  | rev_2d6f8a1c4b70 => downgrade_2d6f8a1c4b70
  | rev_4e8b2c6d1f90 => downgrade_4e8b2c6d1f90
  | rev_b8c7d6e5f4a3 => downgrade_b8c7d6e5f4a3
  end.

(** ** The models

    [index=True] on a column makes an index named after the table and the
    column; a primary key column is not nullable. *)

Definition workflow_model : list statement :=
  [ create_table "workflows"
      [ Col "workflow_id" TUuid false None;
        Col "name" (TString 255) false None;
        Col "dag_definition" TJsonb false None;
        Col "created_at" TTimestamp false (Some "now()");
        PrimaryKeyConstraint ["workflow_id"] ] ].

Definition workflow_execution_model : list statement :=
  [ create_table "workflow_executions"
      [ Col "execution_id" TUuid false None;
        Col "workflow_id" TUuid false None;
        Col "status" (TString 32) false None;
        Col "input_data" TJsonb false None;
        Col "created_at" TTimestamp false (Some "now()");
        Col "started_at" TTimestamp true None;
        Col "completed_at" TTimestamp true None;
        Col "updated_at" TTimestamp false (Some "now()");
        ForeignKeyConstraint ["workflow_id"] "workflows" ["workflow_id"] "RESTRICT";
        PrimaryKeyConstraint ["execution_id"] ];
    create_index "ix_workflow_executions_status" "workflow_executions" ["status"] false;
    create_index "ix_workflow_executions_execution_id_status" "workflow_executions" ["execution_id"; "status"] false ].

Definition node_execution_model : list statement :=
  [ create_table "node_executions"
      [ Col "workflow_execution_id" TUuid false None;
        Col "node_id" (TString 255) false None;
        Col "status" (TString 32) false None;
        Col "output_data" TJsonb true None;
        Col "error_message" TText true None;
        Col "error_type" (TString 255) true None;
        Col "created_at" TTimestamp false (Some "now()");
        Col "updated_at" TTimestamp false (Some "now()");
        Col "started_at" TTimestamp true None;
        Col "completed_at" TTimestamp true None;
        ForeignKeyConstraint ["workflow_execution_id"] "workflow_executions" ["execution_id"] "CASCADE";
        PrimaryKeyConstraint ["workflow_execution_id"; "node_id"] ];
    create_check_constraint "ck_node_executions_status" "node_executions"
      (CheckIn "status" ["pending"; "running"; "completed"; "failed"]);
    create_index "ix_node_executions_status" "node_executions" ["status"] false;
    create_index "ix_node_executions_execution_id_status" "node_executions" ["workflow_execution_id"; "status"] false ].

Definition outbox_event_model : list statement :=
  [ create_table "outbox_events"
      [ Col "message_id" TUuid false None;
        Col "message_type" (TString 128) false None;
        Col "aggregate_id" TUuid true None;
        Col "target_stream" (TString 128) false None;
        Col "payload" TJsonb false None;
        Col "status" (TString 32) false None;
        Col "publish_attempts" TInteger false None;
        Col "last_error" TText true None;
        Col "created_at" TTimestamp false (Some "now()");
        Col "published_at" TTimestamp true None;
        PrimaryKeyConstraint ["message_id"] ];
    create_index "ix_outbox_events_message_type" "outbox_events" ["message_type"] false;
    create_index "ix_outbox_events_aggregate_id" "outbox_events" ["aggregate_id"] false;
    create_index "ix_outbox_events_status" "outbox_events" ["status"] false ].

Definition logical_task_model : list statement :=
  [ create_table "logical_tasks"
      [ Col "task_id" (TString 255) false None;
        Col "execution_id" TUuid false None;
        Col "node_id" (TString 255) false None;
        Col "handler" (TString 255) false None;
        Col "handler_config" TJsonb false None;
        Col "resolved_input" TJsonb false None;
        Col "status" (TString 32) false None;
        Col "final_error_message" TText true None;
        Col "final_error_type" (TString 255) true None;
        Col "created_at" TTimestamp false (Some "now()");
        Col "updated_at" TTimestamp false (Some "now()");
        ForeignKeyConstraint ["execution_id"] "workflow_executions" ["execution_id"] "CASCADE";
        PrimaryKeyConstraint ["task_id"] ] ].

Definition task_attempt_model : list statement :=
  [ create_table "task_attempts"
      [ Col "attempt_id" TUuid false None;
        Col "task_id" (TString 255) false None;
        Col "attempt_number" TInteger false None;
        Col "status" (TString 32) false None;
        Col "failure_event_id" TUuid true None;
        Col "completion_event_id" TUuid true None;
        Col "error_message" TText true None;
        Col "error_type" (TString 255) true None;
        Col "started_at" TTimestamp true None;
        Col "failed_at" TTimestamp true None;
        Col "scheduled_at" TTimestamp true None;
        Col "completed_at" TTimestamp true None;
        Col "claimed_by" (TString 255) true None;
        Col "claimed_at" TTimestamp true None;
        Col "claim_expires_at" TTimestamp true None;
        Col "result_data" TJsonb true None;
        Col "completion_published_at" TTimestamp true None;
        Col "created_at" TTimestamp false (Some "now()");
        Col "updated_at" TTimestamp false (Some "now()");
        ForeignKeyConstraint ["task_id"] "logical_tasks" ["task_id"] "CASCADE";
        PrimaryKeyConstraint ["attempt_id"];
        UniqueConstraint ["task_id"; "attempt_number"] "uq_task_attempts_task_number";
        UniqueConstraint ["failure_event_id"] "uq_task_attempts_failure_event_id" ];
    create_index "ix_task_attempts_task_id_status" "task_attempts" ["task_id"; "status"] false ].

Definition task_retry_dispatch_model : list statement :=
  [ create_table "task_retry_dispatches"
      [ Col "attempt_id" TUuid false None;
        Col "available_at" TTimestamp false None;
        Col "status" (TString 32) false None;
        Col "published_at" TTimestamp true None;
        Col "created_at" TTimestamp false (Some "now()");
        ForeignKeyConstraint ["attempt_id"] "task_attempts" ["attempt_id"] "CASCADE";
        PrimaryKeyConstraint ["attempt_id"] ];
    create_index "ix_task_retry_dispatches_due" "task_retry_dispatches" ["status"; "available_at"] false ].

Definition task_processing_model : list statement :=
  [ create_table "task_processing"
      [ Col "task_id" (TString 255) false None;
        Col "execution_id" TUuid false None;
        Col "node_id" (TString 255) false None;
        Col "status" (TString 32) false (Some "'claimed'");
        Col "claimed_by" (TString 255) true None;
        Col "claimed_at" TTimestamp false (Some "now()");
        Col "claim_expires_at" TTimestamp true None;
        Col "result_data" TJsonb true None;
        Col "error_message" TText true None;
        Col "error_type" (TString 255) true None;
        Col "completion_event_id" TUuid true None;
        Col "completion_published_at" TTimestamp true None;
        Col "completed_at" TTimestamp true None;
        Col "updated_at" TTimestamp false (Some "now()");
        ForeignKeyConstraint ["execution_id"] "workflow_executions" ["execution_id"] "CASCADE";
        PrimaryKeyConstraint ["task_id"] ];
    create_index "ix_task_processing_status" "task_processing" ["status"] false;
    create_index "ix_task_processing_execution_id_node_id" "task_processing" ["execution_id"; "node_id"] false ].

Definition models : list statement :=
  workflow_model ++ workflow_execution_model ++ node_execution_model ++ outbox_event_model ++
  logical_task_model ++ task_attempt_model ++ task_retry_dispatch_model ++ task_processing_model.
