(* ===== verification/MigrationSpec.v ===== *)
(** * Migrating up and down

    Whatever order the two branches of revisions are applied and reverted in,
    the schema depends only on the set of applied revisions and refuses no
    statement, and the rows refuse exactly three migrations; upgrades keep the rows of a database in use; and
    the models declare the tables the revisions build, with the differences
    listed. *)

From S2P Require Import Prelude Numerals PyVal States Migrations Revisions.

(** ** The two halves of a statement *)

Fixpoint schema_run (s : schema) (sts : list statement) : option schema :=
  match sts with
  | [] => Some s
  | st :: sts' => s' ← schema_statement st s; schema_run s' sts'
  end.

Fixpoint rows_run (d : table_rows) (sts : list statement) : option table_rows :=
  match sts with
  | [] => Some d
  | st :: sts' => d' ← row_statement st d; rows_run d' sts'
  end.

(** When the schema accepts the statements, the rows decide. *)
Lemma run_statements_rows s d sts s' :
  schema_run s sts = Some s' → run_statements (s, d) sts = pair s' <$> rows_run d sts.
Proof.
  revert s d. induction sts as [|st sts IH]; intros s d; simpl; [by intros [= <-]|].
  unfold execute_statement. simpl.
  destruct (schema_statement st s) as [s1|]; [|done]. destruct (row_statement st d) as [d1|]; [|done].
  simpl. apply IH.
Qed.

Lemma run_statements_split s d sts s' d' :
  schema_run s sts = Some s' → rows_run d sts = Some d' → run_statements (s, d) sts = Some (s', d').
Proof. intros Hs Hd. rewrite (run_statements_rows _ _ _ _ Hs), Hd. done. Qed.

Lemma run_statements_app db sts sts' :
  run_statements db (sts ++ sts') = (run_statements db sts ≫= λ db', run_statements db' sts').
Proof.
  revert db. induction sts as [|st sts IH]; intros db; simpl; [done|].
  destruct (execute_statement db st); simpl; [apply IH|done].
Qed.

(** ** Applied revisions *)

(** Alembic applies a revision after the ones it revises, and reverts one
    that no applied revision revises. *)
Definition enabled (A : list revision) (r : revision) : Prop := (r ∉ A) ∧ Forall (λ p, p ∈ A) (down_revision r).
Definition removable (A : list revision) (r : revision) : Prop := r ∈ A ∧ Forall (λ q, r ∉ down_revision q) A.

(** The applied revisions in a fixed order, and the schema they make. *)
Definition canon (A : list revision) : list revision := filter (λ r, r ∈ A) revisions.
Definition schema_at (A : list revision) : option schema := schema_run ∅ (concat (upgrade <$> canon A)).
Definition without (r : revision) (A : list revision) : list revision := filter (λ q, q ≠ r) A.

(** The sets of revisions that can be applied. *)
Fixpoint prefixes {A} (l : list A) : list (list A) :=
  match l with [] => [[]] | x :: l' => [] :: ((x ::.) <$> prefixes l') end.
Definition branch_a : list revision := [rev_6c2e1f4a9b70; rev_7f3a2c1d9e80].
Definition branch_b : list revision :=
  [rev_8a1f4c2d7e90; rev_9c4e2a7b1d60; rev_2d6f8a1c4b70; rev_4e8b2c6d1f90].
Definition trunk : list revision := [rev_39323f5e8e55; rev_571dc8014b2c].
Definition states : list (list revision) :=
  canon <$> ([[]; [rev_39323f5e8e55]] ++
    (l ← prefixes branch_a; m ← prefixes branch_b; [trunk ++ l ++ m]) ++ [revisions]).

(** What has to be checked of one set of applied revisions. *)
Definition state_ok (A : list revision) : bool :=
  bool_decide (is_Some (schema_at A)) &&
  forallb (λ r,
    (if decide (enabled A r) then
       bool_decide (canon (r :: A) ∈ states) &&
       bool_decide ((schema_at A ≫= λ s, schema_run s (upgrade r)) = schema_at (r :: A))
     else true) &&
    (if decide (removable A r) then
       bool_decide (canon (without r A) ∈ states) &&
       bool_decide ((schema_at A ≫= λ s, schema_run s (downgrade r)) = schema_at (without r A))
     else true)) revisions.

Lemma states_ok : forallb state_ok states = true.
Proof. vm_compute. reflexivity. Qed.

Lemma in_revisions r : r ∈ revisions.
Proof. destruct r; set_solver. Qed.

Lemma elem_of_canon A r : r ∈ canon A ↔ r ∈ A.
Proof. unfold canon. rewrite list_elem_of_filter. naive_solver eauto using in_revisions. Qed.

(** Only the set matters. *)
Lemma canon_ext A B : (∀ r, r ∈ A ↔ r ∈ B) → canon A = canon B.
Proof. intros Hext. unfold canon. apply list_filter_iff. intros r. apply Hext. Qed.

Lemma enabled_ext A B r : (∀ q, q ∈ A ↔ q ∈ B) → enabled A r → enabled B r.
Proof.
  intros Hext [Hr Hp]. split; [by rewrite <- Hext|]. eapply Forall_impl; [exact Hp|]. intros p. by rewrite Hext.
Qed.
Lemma removable_ext A B r : (∀ q, q ∈ A ↔ q ∈ B) → removable A r → removable B r.
Proof.
  intros Hext [Hr Hp]. split; [by rewrite <- Hext|]. rewrite Forall_forall in Hp |- *. intros q Hq. by apply Hp, Hext.
Qed.

Lemma elem_of_without r A q : q ∈ without r A ↔ q ∈ A ∧ q ≠ r.
Proof. unfold without. rewrite list_elem_of_filter. naive_solver. Qed.

Lemma schema_at_ext A B : (∀ r, r ∈ A ↔ r ∈ B) → schema_at A = schema_at B.
Proof. intros Hext. unfold schema_at. by rewrite (canon_ext A B). Qed.

(** The check, for any list of the applied revisions. *)
Lemma state_checked A r :
  canon A ∈ states → is_Some (schema_at A) ∧
  (enabled A r → canon (r :: A) ∈ states ∧
     (schema_at A ≫= λ s, schema_run s (upgrade r)) = schema_at (r :: A)) ∧
  (removable A r → canon (without r A) ∈ states ∧
     (schema_at A ≫= λ s, schema_run s (downgrade r)) = schema_at (without r A)).
Proof.
  intros HA. pose proof states_ok as Hok. rewrite forallb_forall in Hok.
  apply list_elem_of_In, Hok in HA as [Hs%bool_decide_eq_true Hall]%andb_true_iff.
  rewrite forallb_forall in Hall.
  specialize (Hall r (proj1 (list_elem_of_In _ _) (in_revisions r))) as [Hup Hdown]%andb_true_iff.
  assert (HextA : ∀ q, q ∈ canon A ↔ q ∈ A) by (intros q; apply elem_of_canon).
  rewrite (schema_at_ext _ _ HextA) in Hs, Hup, Hdown. split; [done|]. split; intros Hr.
  - rewrite decide_True in Hup by (eapply enabled_ext; [|exact Hr]; done).
    apply andb_true_iff in Hup as [Hin%bool_decide_eq_true Hrun%bool_decide_eq_true].
    assert (Hext : ∀ q, q ∈ r :: canon A ↔ q ∈ r :: A) by (intros q; by rewrite !elem_of_cons, HextA).
    by rewrite (canon_ext _ _ Hext), (schema_at_ext _ _ Hext) in *.
  - rewrite decide_True in Hdown by (eapply removable_ext; [|exact Hr]; done).
    apply andb_true_iff in Hdown as [Hin%bool_decide_eq_true Hrun%bool_decide_eq_true].
    assert (Hext : ∀ q, q ∈ without r (canon A) ↔ q ∈ without r A) by (intros q; by rewrite !elem_of_without, HextA).
    by rewrite (canon_ext _ _ Hext), (schema_at_ext _ _ Hext) in *.
Qed.

(** ** Up and down *)

(** One [alembic upgrade] or [alembic downgrade] by one revision. *)
Inductive migration : relation (list revision * schema) :=
| migration_up A s r s' :
    enabled A r → schema_run s (upgrade r) = Some s' → migration (A, s) (r :: A, s')
| migration_down A s r s' :
    removable A r → schema_run s (downgrade r) = Some s' → migration (A, s) (without r A, s').

Lemma migration_state A s A' s' :
  rtc migration (A, s) (A', s') → canon A ∈ states → schema_at A = Some s →
  canon A' ∈ states ∧ schema_at A' = Some s'.
Proof.
  intros Hr. remember (A, s) as p eqn:Hp. remember (A', s') as p' eqn:Hp'. revert A s A' s' Hp Hp'.
  induction Hr as [p|p q p' Hst _ IH]; intros A s A' s' -> Hp' HA Hs; [by injection Hp' as -> ->|].
  inversion Hst as [? ? r s1 Hen Hrun|? ? r s1 Hrem Hrun]; subst; eapply IH; try reflexivity;
    destruct (state_checked A r HA) as (_ & Hup & Hdown).
  - by apply Hup.
  - destruct (Hup Hen) as [_ <-]. by rewrite Hs.
  - by apply Hdown.
  - destruct (Hdown Hrem) as [_ <-]. by rewrite Hs.
Qed.

(** ** The models *)

Definition head_schema : schema := default ∅ (schema_at revisions).
Definition model_schema : schema := default ∅ (schema_run ∅ models).

(** A table without its indexes and the defaults of its columns. *)
Definition essential (t : table) : table :=
  Table ((λ c, Column (col_type c) (col_nullable c) None) <$> t_columns t)
    (t_primary t) (t_foreign t) (t_unique t) (t_checks t) ∅.

(** The indexes of the first schema that the second has not, with their
    tables; the columns whose default differs. *)
Definition missing_indexes (s s' : schema) : list (string * string) :=
  kt ← map_to_list s; ki ← map_to_list (t_indexes kt.2);
  if decide ((s' !! kt.1 ≫= λ t', t_indexes t' !! ki.1) = Some ki.2) then [] else [(kt.1, ki.1)].
Definition different_defaults (s s' : schema) : list (string * string) :=
  kt ← map_to_list s; kc ← map_to_list (t_columns kt.2);
  if decide ((s' !! kt.1 ≫= λ t', col_default <$> t_columns t' !! kc.1) = Some (col_default kc.2)) then []
  else [(kt.1, kc.1)].

(** The models and the revisions agree.  The revisions and the models
    build the same tables, with the same columns, types, nullability, primary
    and foreign keys, unique constraints and checks, and the check on node
    statuses admits exactly the values of the state machine.  They differ in
    four indexes, among them the unique index of logical tasks on execution
    and node, that only the revisions create, in one that only the models
    declare, and in two column defaults. *)
Theorem models_match_revisions :
  schema_at revisions = Some head_schema ∧ schema_run ∅ models = Some model_schema ∧
  essential <$> head_schema = essential <$> model_schema ∧
  (t_checks <$> head_schema !! "node_executions") =
    Some {[ "ck_node_executions_status" :=
      CheckIn "status" (node_status_value <$> [NPending; NRunning; NCompleted; NFailed]) ]} ∧
  missing_indexes head_schema model_schema ≡ₚ
    [("logical_tasks", "ix_logical_tasks_execution_id_node_id");
     ("outbox_events", "ix_outbox_events_target_stream_status");
     ("outbox_events", "ix_outbox_events_published_at"); ("outbox_events", "ix_outbox_events_event_type")] ∧
  missing_indexes model_schema head_schema ≡ₚ [("outbox_events", "ix_outbox_events_message_type")] ∧
  different_defaults head_schema model_schema ≡ₚ [("logical_tasks", "status"); ("task_retry_dispatches", "status")].
Proof.
  repeat match goal with |- _ ∧ _ => split end; apply (bool_decide_eq_true_1 _); vm_compute; reflexivity.
Qed.

(** ** The rows of a database in use *)

Lemma rows_of_map f tn d tn' :
  rows_of (map_rows f tn d) tn' = if decide (tn' = tn) then f <$> rows_of d tn else rows_of d tn'.
Proof. unfold rows_of, map_rows. rewrite lookup_insert. repeat case_decide; (done || congruence). Qed.

Lemma rows_of_insert tn l d tn' : rows_of (<[tn := l]> d) tn' = if decide (tn' = tn) then l else rows_of d tn'.
Proof. unfold rows_of. rewrite lookup_insert. repeat case_decide; (done || congruence). Qed.

(** The statuses nodes have had: the four of today and the two that revision
    7f3a2c1d9e80 replaces. *)
Definition legacy_statuses : list string := ["pending"; "ready"; "running"; "completed"; "failed"; "skipped"].
Definition legacy_row (r : row) : Prop := ∃ s, cell r "status" = VText s ∧ s ∈ legacy_statuses.
Definition legacy (d : table_rows) : Prop := Forall legacy_row (rows_of d "node_executions").

(** What the revisions make of a row. *)
Definition normalise_row (r : row) : row :=
  match cell r "status" with
  | VText s => if String.eqb s "ready" then <["status" := VText "pending"]> r
               else if String.eqb s "skipped" then <["status" := VText "failed"]> r else r
  | _ => r
  end.
Definition generalise_row (r : row) : row :=
  let r1 := <["message_id" := cell r "event_id"]> (delete "event_id" r) in
  let r2 := <["message_type" := cell r1 "event_type"]> (delete "event_type" r1) in
  <["target_stream" := VText "workflow.events"]> r2.

(** How the rows of one table that a revision does not create change. *)
Definition migrate_row (r : revision) (tn : string) : row → row :=
  match r with
  | rev_6c2e1f4a9b70 => if String.eqb tn "outbox_events" then generalise_row else id
  | rev_7f3a2c1d9e80 => if String.eqb tn "node_executions" then normalise_row else id
  | _ => id
  end.

Lemma normal_status r :
  legacy_row r → ∃ st, cell (normalise_row r) "status" = VText (node_status_value st).
Proof.
  intros (s & Hs & Hin). unfold normalise_row. rewrite Hs. unfold legacy_statuses in Hin.
  repeat (apply elem_of_cons in Hin as [->|Hin]); [..|by apply elem_of_nil in Hin]; simpl;
    rewrite ?Hs; unfold cell; rewrite ?lookup_insert; simpl;
    [exists NPending|exists NPending|exists NRunning|exists NCompleted|exists NFailed|exists NFailed]; done.
Qed.

Lemma normal_legacy r : legacy_row r → legacy_row (normalise_row r).
Proof.
  intros [st Hst]%normal_status. exists (node_status_value st). split; [done|]. destruct st; set_solver.
Qed.

Lemma normalise_updates r :
  (let r1 := if holds (Equals "status" "ready") r then <["status" := VText "pending"]> r else r in
   if holds (Equals "status" "skipped") r1 then <["status" := VText "failed"]> r1 else r1) = normalise_row r.
Proof.
  unfold holds, normalise_row, cell. destruct (r !! "status") as [[| s | | | |]|] eqn:Hs; simpl; rewrite ?Hs; try done.
  simpl. destruct (String.eqb s "ready") eqn:Hr; by simplify_map_eq.
Qed.

Lemma normal_checked l :
  Forall legacy_row l →
  forallb (check_ok (CheckIn "status" ["pending"; "running"; "completed"; "failed"])) (normalise_row <$> l) = true.
Proof.
  intros Hl. apply forallb_forall. intros r (r0 & -> & Hr0)%list_elem_of_In%list_elem_of_fmap.
  rewrite Forall_forall in Hl. destruct (normal_status r0 (Hl r0 Hr0)) as [st Hst].
  unfold check_ok. simpl. rewrite Hst. by destruct st.
Qed.

(** The tables there are when the branches begin. *)
Definition trunk_tables : list string := ["workflows"; "workflow_executions"; "node_executions"; "outbox_events"].

(** The last statements of 6c2e1f4a9b70: the new column is filled, so it can
    be made not nullable. *)
Lemma target_filled (l : list row) :
  forallb (λ r, negb (is_null (cell r "target_stream")))
    ((λ r, if holds (IsNull "target_stream") r then <["target_stream" := VText "workflow.events"]> r else r) <$> l) = true.
Proof.
  apply forallb_forall. intros r (r0 & -> & _)%list_elem_of_In%list_elem_of_fmap. unfold holds.
  destruct (is_null (cell r0 "target_stream")) eqn:Hn; [|by rewrite Hn]. unfold cell. by simplify_map_eq.
Qed.

Lemma generalise_statements (r : row) :
  (let r1 := <["message_id" := cell r "event_id"]> (delete "event_id" r) in
   let r2 := <["message_type" := cell r1 "event_type"]> (delete "event_type" r1) in
   let r3 := <["target_stream" := VNull]> r2 in
   if holds (IsNull "target_stream") r3 then <["target_stream" := VText "workflow.events"]> r3 else r3)
  = generalise_row r.
Proof.
  cbv zeta. unfold holds, generalise_row. unfold cell at 1. rewrite lookup_insert, decide_True by done. simpl.
  by rewrite insert_insert_eq.
Qed.

Lemma outbox_upgrade d :
  ∃ d', rows_run d upgrade_6c2e1f4a9b70 = Some d' ∧
    ∀ tn, rows_of d' tn = if decide (tn = "outbox_events") then generalise_row <$> rows_of d tn else rows_of d tn.
Proof.
  unfold upgrade_6c2e1f4a9b70. cbn [rows_run row_statement mbind option_bind orb].
  rewrite !rows_of_map, !decide_True by done. rewrite target_filled. cbn [mbind option_bind negb orb].
  eexists. split; [reflexivity|]. intros tn. rewrite !rows_of_map. case_decide; [|done]. subst tn.
  rewrite !decide_True by done. rewrite <- !list_fmap_compose. apply list_fmap_ext. intros i r _.
  apply generalise_statements.
Qed.

Lemma status_upgrade d :
  legacy d →
  ∃ d', rows_run d upgrade_7f3a2c1d9e80 = Some d' ∧
    ∀ tn, rows_of d' tn = if decide (tn = "node_executions") then normalise_row <$> rows_of d tn else rows_of d tn.
Proof.
  intros Hl. unfold upgrade_7f3a2c1d9e80. cbn [rows_run row_statement mbind option_bind].
  rewrite !rows_of_map, !decide_True by done. rewrite <- list_fmap_compose.
  rewrite (list_fmap_ext _ normalise_row) by (intros i r _; apply normalise_updates).
  rewrite normal_checked by done. cbn [mbind option_bind].
  eexists. split; [reflexivity|]. intros tn. rewrite !rows_of_map. case_decide; [|done]. subst tn.
  rewrite !decide_True by done. rewrite <- list_fmap_compose. apply list_fmap_ext. intros i r _. apply normalise_updates.
Qed.

(** The other revisions of the branches touch only tables of their own. *)
Lemma other_upgrades r d :
  r ∈ branch_b ++ [rev_b8c7d6e5f4a3] →
  ∃ d', rows_run d (upgrade r) = Some d' ∧ ∀ tn, tn ∈ trunk_tables → rows_of d' tn = rows_of d tn.
Proof.
  intros Hr. unfold branch_b in Hr. simpl in Hr.
  repeat (apply elem_of_cons in Hr as [->|Hr]); [..|by apply elem_of_nil in Hr];
    cbn [upgrade rows_run row_statement mbind option_bind orb negb upgrade_8a1f4c2d7e90 upgrade_9c4e2a7b1d60
         upgrade_2d6f8a1c4b70 upgrade_4e8b2c6d1f90 upgrade_b8c7d6e5f4a3].
  all: rewrite ?rows_of_insert, ?decide_True by done; cbn [all_distinct mbind option_bind].
  all: eexists; (split; [reflexivity|]); intros tn Htn; unfold trunk_tables in Htn.
  all: repeat (apply elem_of_cons in Htn as [->|Htn]); [..|by apply elem_of_nil in Htn].
  all: rewrite ?rows_of_map, ?rows_of_insert, ?decide_False by done; done.
Qed.

Lemma rows_up r d :
  legacy d → r ∉ trunk →
  ∃ d', rows_run d (upgrade r) = Some d' ∧
    ∀ tn, tn ∈ trunk_tables → rows_of d' tn = migrate_row r tn <$> rows_of d tn.
Proof.
  intros Hl Hr. destruct (decide (r = rev_6c2e1f4a9b70)) as [->|Ha].
  { destruct (outbox_upgrade d) as (d' & Hd & Hrows). exists d'. split; [done|]. intros tn _. rewrite Hrows. simpl.
    destruct (String.eqb_spec tn "outbox_events"); case_decide; try done. by rewrite list_fmap_id. }
  destruct (decide (r = rev_7f3a2c1d9e80)) as [->|Hb].
  { destruct (status_upgrade d Hl) as (d' & Hd & Hrows). exists d'. split; [done|]. intros tn _. rewrite Hrows. simpl.
    destruct (String.eqb_spec tn "node_executions"); case_decide; try done. by rewrite list_fmap_id. }
  destruct (other_upgrades r d) as (d' & Hd & Hrows).
  { destruct r; try done; set_solver. }
  exists d'. split; [done|]. intros tn Htn. rewrite (Hrows tn Htn). destruct r; try done; by rewrite list_fmap_id.
Qed.

(** ** What the rows refuse

    Four statements look at the rows they meet: the check that 7f3a2c1d9e80
    adds, the columns that the downgrades of 8a1f4c2d7e90 and 6c2e1f4a9b70 make
    not nullable again, and the foreign key that the latter restores. *)

Definition status_check : check_in := CheckIn "status" ["pending"; "running"; "completed"; "failed"].

Definition up_refused (r : revision) (d : table_rows) : bool :=
  match r with
  | rev_7f3a2c1d9e80 => negb (forallb (check_ok status_check) (normalise_row <$> rows_of d "node_executions"))
  | _ => false
  end.

(** An outbox row that belongs to a stored execution. *)
Definition aggregate_stored (d : table_rows) (r : row) : bool :=
  negb (is_null (cell r "aggregate_id")) &&
  existsb (λ e, sql_equal (cell r "aggregate_id") (cell e "execution_id")) (rows_of d "workflow_executions").

Definition down_refused (r : revision) (d : table_rows) : bool :=
  match r with
  | rev_8a1f4c2d7e90 => negb (forallb (λ r, negb (is_null (cell r "output_data"))) (rows_of d "node_executions"))
  | rev_6c2e1f4a9b70 => negb (forallb (aggregate_stored d) (rows_of d "outbox_events"))
  | _ => false
  end.

Lemma rows_up_cases r d :
  if up_refused r d then rows_run d (upgrade r) = None else is_Some (rows_run d (upgrade r)).
Proof.
  destruct (decide (r = rev_7f3a2c1d9e80)) as [->|Hne].
  - simpl. destruct (forallb (check_ok status_check) (normalise_row <$> _)) eqn:Hc; simpl.
    all: unfold upgrade_7f3a2c1d9e80; cbn [rows_run row_statement mbind option_bind].
    all: rewrite !rows_of_map, !decide_True by done; rewrite <- list_fmap_compose.
    all: rewrite (list_fmap_ext _ normalise_row) by (intros i r _; apply normalise_updates).
    all: fold status_check; by rewrite Hc.
  - replace (up_refused r d) with false by (by destruct r).
    destruct (decide (r ∈ branch_b ++ [rev_b8c7d6e5f4a3])) as [Hr|Hr].
    + destruct (other_upgrades r d Hr) as (d' & Hd & _). by exists d'.
    + destruct r; try done; try (by destruct Hr; apply (bool_decide_unpack _); vm_compute).
      destruct (outbox_upgrade d) as (d' & Hd & _). by exists d'.
Qed.

(** The restored key and the restored constraint, on rows whose columns have
    been renamed and dropped. *)
Lemma restored_aggregates d (l : list row) :
  let back := λ r : row, <["event_id" := cell (<["event_type" := cell (delete "target_stream" r) "message_type"]>
      (delete "message_type" (delete "target_stream" r))) "message_id"]>
    (delete "message_id" (<["event_type" := cell (delete "target_stream" r) "message_type"]>
      (delete "message_type" (delete "target_stream" r)))) in
  forallb (λ r, negb (is_null (cell r "aggregate_id"))) (delete "target_stream" <$> l) &&
  forallb (foreign_key_ok ["aggregate_id"] ["execution_id"] (rows_of d "workflow_executions")) (back <$> l)
  = forallb (aggregate_stored d) l.
Proof.
  intros back. induction l as [|r l IH]; [done|]. csimpl. rewrite <- IH. clear IH.
  assert (H1 : cell (delete "target_stream" r) "aggregate_id" = cell r "aggregate_id")
    by (unfold cell; by rewrite lookup_delete_ne).
  assert (H2 : cell (back r) "aggregate_id" = cell r "aggregate_id").
  { unfold back, cell. rewrite lookup_insert_ne, lookup_delete_ne, lookup_insert_ne, !lookup_delete_ne by done. done. }
  unfold foreign_key_ok at 1, aggregate_stored. simpl. rewrite H1, H2.
  destruct (is_null (cell r "aggregate_id")); simpl; [done|].
  assert (H3 : existsb (λ r', sql_equal (cell r "aggregate_id") (cell r' "execution_id") && true)
    (rows_of d "workflow_executions") = existsb (λ e, sql_equal (cell r "aggregate_id") (cell e "execution_id"))
    (rows_of d "workflow_executions")).
  { induction (rows_of d "workflow_executions") as [|e es IH]; [done|]. simpl. by rewrite IH, andb_true_r. }
  rewrite H3, !andb_assoc. f_equal. apply andb_comm.
Qed.

Lemma rows_down_cases r d :
  if down_refused r d then rows_run d (downgrade r) = None else is_Some (rows_run d (downgrade r)).
Proof.
  destruct (decide (r = rev_6c2e1f4a9b70)) as [->|Hne].
  - simpl. unfold downgrade_6c2e1f4a9b70. cbn [rows_run row_statement mbind option_bind].
    rewrite <- (restored_aggregates d (rows_of d "outbox_events")).
    rewrite !rows_of_map, !decide_True by done.
    destruct (forallb (λ r, negb _) _); simpl; [|done].
    rewrite !rows_of_map. repeat first [rewrite decide_True by done|rewrite decide_False by done].
    rewrite <- !list_fmap_compose.
    lazymatch goal with |- if negb ?b then (if ?c then _ else _) ≫= _ = _ else _ => change c with b; destruct b end;
      [by eexists|done].
  - destruct r; try done; try (by eexists). simpl. destruct (forallb _ _); [by eexists|done].
Qed.

(** C31: the schema is a function of the applied revisions, and only rows stop
    a migration.  After any sequence of upgrades and downgrades from an empty
    database, in any order the graph of revisions allows, the schema is the
    one that the applied revisions make in their canonical order.  Whatever
    the rows are then, a revision that can be applied or reverted next runs to
    the end and gives the schema there is with or without it, with exactly
    three exceptions, in which the database refuses it: 7f3a2c1d9e80 cannot be
    applied while a node has a status it does not know, 8a1f4c2d7e90 cannot be
    reverted while a node has a NULL output, and 6c2e1f4a9b70 cannot be
    reverted while an outbox row belongs to no stored execution. *)
Theorem schema_of_revisions A s r d :
  rtc migration ([], ∅) (A, s) →
  schema_at A = Some s ∧
  (enabled A r →
     if up_refused r d then run_statements (s, d) (upgrade r) = None
     else ∃ s' d', run_statements (s, d) (upgrade r) = Some (s', d') ∧ schema_at (r :: A) = Some s') ∧
  (removable A r →
     if down_refused r d then run_statements (s, d) (downgrade r) = None
     else ∃ s' d', run_statements (s, d) (downgrade r) = Some (s', d') ∧ schema_at (without r A) = Some s').
Proof.
  intros Hr. apply migration_state in Hr as [HA Hs]; [|by vm_compute; constructor|done]. split; [done|].
  destruct (state_checked A r HA) as (_ & Hup & Hdown). rewrite Hs in Hup, Hdown. split.
  - intros [Hin Hrun]%Hup. destruct (state_checked (r :: A) r Hin) as [[s' Hs'] _].
    simpl in Hrun. rewrite Hs' in Hrun. rewrite (run_statements_rows _ _ _ _ Hrun).
    pose proof (rows_up_cases r d) as Hrows. destruct (up_refused r d); [by rewrite Hrows|].
    destruct Hrows as [d' ->]. by exists s', d'.
  - intros [Hin Hrun]%Hdown. destruct (state_checked (without r A) r Hin) as [[s' Hs'] _].
    simpl in Hrun. rewrite Hs' in Hrun. rewrite (run_statements_rows _ _ _ _ Hrun).
    pose proof (rows_down_cases r d) as Hrows. destruct (down_refused r d); [by rewrite Hrows|].
    destruct Hrows as [d' ->]. by exists s', d'.
Qed.

Lemma legacy_up r d d' :
  (∀ tn, tn ∈ trunk_tables → rows_of d' tn = migrate_row r tn <$> rows_of d tn) → legacy d → legacy d'.
Proof.
  intros Hrows Hl. unfold legacy. rewrite Hrows by set_solver. apply Forall_fmap. eapply Forall_impl; [exact Hl|].
  intros row Hrow. destruct r; simpl; try done. by apply normal_legacy.
Qed.

(** Revisions applied one after the other. *)
Fixpoint upgrade_path (A L : list revision) : Prop :=
  match L with [] => True | r :: L' => enabled A r ∧ upgrade_path (r :: A) L' end.

Definition migrate_rows (L : list revision) (tn : string) (l : list row) : list row :=
  foldl (λ l r, migrate_row r tn <$> l) l L.

Lemma path_NoDup A L : upgrade_path A L → NoDup L ∧ ∀ r, r ∈ L → r ∉ A.
Proof.
  revert A. induction L as [|r L IH]; intros A; simpl; [split; [constructor|set_solver]|].
  intros [[Hr _] [Hnd Hout]%IH]. split; [constructor; [intros Hin; apply (Hout r Hin); set_solver|done]|]. set_solver.
Qed.

(** When one revision changes a table, it changes it once. *)
Lemma migrate_rows_one L tn r0 l :
  (∀ r, r ≠ r0 → migrate_row r tn = id) → NoDup L →
  migrate_rows L tn l = if decide (r0 ∈ L) then migrate_row r0 tn <$> l else l.
Proof.
  intros Hid. revert l. induction L as [|r L IH]; intros l Hnd; [by rewrite decide_False by set_solver|].
  apply NoDup_cons in Hnd as [Hr Hnd]. unfold migrate_rows in *. simpl. rewrite IH by done.
  destruct (decide (r = r0)) as [->|Hne].
  - rewrite decide_False by done. by rewrite decide_True by set_solver.
  - rewrite (Hid r Hne), list_fmap_id. repeat case_decide; set_solver.
Qed.

Lemma migrate_rows_none L tn l : (∀ r, migrate_row r tn = id) → migrate_rows L tn l = l.
Proof.
  intros Hid. revert l. induction L as [|r L IH]; intros l; [done|]. unfold migrate_rows in *. simpl.
  by rewrite Hid, list_fmap_id.
Qed.

Lemma trunk_applied A : canon A ∈ states → rev_571dc8014b2c ∈ A → ∀ r, r ∈ trunk → r ∈ A.
Proof.
  intros HA Hin r Hr.
  assert (Hall : forallb (λ B, negb (bool_decide (rev_571dc8014b2c ∈ B)) || bool_decide (rev_39323f5e8e55 ∈ B)) states = true)
    by (vm_compute; reflexivity).
  rewrite forallb_forall in Hall. apply list_elem_of_In, Hall, orb_true_iff in HA.
  rewrite negb_true_iff, bool_decide_eq_false, bool_decide_eq_true, !elem_of_canon in HA.
  unfold trunk in Hr. set_solver.
Qed.

Lemma path_run A s d L :
  canon A ∈ states → schema_at A = Some s → rev_571dc8014b2c ∈ A → legacy d → upgrade_path A L →
  ∃ s' d', run_statements (s, d) (concat (upgrade <$> L)) = Some (s', d') ∧
    schema_at (reverse L ++ A) = Some s' ∧ legacy d' ∧
    ∀ tn, tn ∈ trunk_tables → rows_of d' tn = migrate_rows L tn (rows_of d tn).
Proof.
  revert A s d. induction L as [|r L IH]; intros A s d HA Hs Hin Hl; [by exists s, d|].
  intros [Hen Hpath]. destruct (state_checked A r HA) as (_ & Hup & _). destruct (Hup Hen) as [HA' Hrun].
  rewrite Hs in Hrun. simpl in Hrun. destruct (state_checked (r :: A) r HA') as [[s1 Hs1] _].
  destruct (rows_up r d Hl) as (d1 & Hd1 & Hrows).
  { intros Ht. destruct Hen as [Hr _]. apply Hr. exact (trunk_applied A HA Hin r Ht). }
  destruct (IH (r :: A) s1 d1 HA' Hs1) as (s' & d' & Hrun' & Hs' & Hl' & Hrows'); [by right|by eapply legacy_up|done|].
  exists s', d'. split; [|split; [|split; [done|]]].
  - csimpl. rewrite run_statements_app, (run_statements_split s d _ s1 d1); [done|by rewrite Hrun|done].
  - by rewrite reverse_cons, <- app_assoc.
  - intros tn Htn. rewrite Hrows', Hrows by done. done.
Qed.

(** C32: upgrading a database in use.  From a database that has the outbox and
    whose node statuses are known, every sequence of further upgrades the
    graph allows runs, without a statement that the schema or the rows refuse.
    Workflows and executions keep their rows; each node row keeps its columns,
    with its status normalised once 7f3a2c1d9e80 is applied, and then has a
    status of the state machine; each outbox row keeps its values under the
    new column names and is addressed to the event stream once 6c2e1f4a9b70
    is applied. *)
Theorem upgrade_keeps_rows A s d L :
  rtc migration ([], ∅) (A, s) → rev_571dc8014b2c ∈ A → legacy d → upgrade_path A L →
  ∃ s' d', run_statements (s, d) (concat (upgrade <$> L)) = Some (s', d') ∧
    schema_at (reverse L ++ A) = Some s' ∧
    rows_of d' "workflows" = rows_of d "workflows" ∧
    rows_of d' "workflow_executions" = rows_of d "workflow_executions" ∧
    rows_of d' "node_executions" =
      (if decide (rev_7f3a2c1d9e80 ∈ L) then normalise_row <$> rows_of d "node_executions"
       else rows_of d "node_executions") ∧
    rows_of d' "outbox_events" =
      (if decide (rev_6c2e1f4a9b70 ∈ L) then generalise_row <$> rows_of d "outbox_events"
       else rows_of d "outbox_events") ∧
    (rev_7f3a2c1d9e80 ∈ L →
       Forall (λ r, ∃ st, cell r "status" = VText (node_status_value st)) (rows_of d' "node_executions")).
Proof.
  intros Hr Hin Hl Hpath. apply migration_state in Hr as [HA Hs]; [|by vm_compute; constructor|done].
  destruct (path_NoDup A L Hpath) as [Hnd _].
  destruct (path_run A s d L HA Hs Hin Hl Hpath) as (s' & d' & Hrun & Hs' & _ & Hrows).
  assert (Hnode : rows_of d' "node_executions" = if decide (rev_7f3a2c1d9e80 ∈ L)
    then normalise_row <$> rows_of d "node_executions" else rows_of d "node_executions").
  { rewrite Hrows by set_solver. rewrite (migrate_rows_one L _ rev_7f3a2c1d9e80); [done|by intros []|done]. }
  exists s', d'. split; [done|]. split; [done|]. split; [|split; [|split; [done|split]]].
  - rewrite Hrows by set_solver. apply migrate_rows_none. by intros [].
  - rewrite Hrows by set_solver. apply migrate_rows_none. by intros [].
  - rewrite Hrows by set_solver. rewrite (migrate_rows_one L _ rev_6c2e1f4a9b70); [done|by intros []|done].
  - intros Hin7. rewrite Hnode, decide_True by done. apply Forall_fmap. eapply Forall_impl; [exact Hl|]. apply normal_status.
Qed.

(** ** An example: a database of the trunk with a node in a former status *)

Definition trunk_applied_list : list revision := reverse trunk.
Definition trunk_schema : schema := default ∅ (schema_at trunk).
Definition example_node : row := {[ "node_id" := VText "a"; "status" := VText "ready" ]}.
Definition example_message : row := {[ "event_id" := VUuid 7%N; "event_type" := VText "workflow.execution.triggered" ]}.
Definition example_rows : table_rows := {[ "node_executions" := [example_node]; "outbox_events" := [example_message] ]}.
Definition rest_of_path : list revision := drop 2 revisions.

(** Decide the goal by evaluation. *)
Ltac by_check := apply (bool_decide_unpack _); vm_compute; exact I.

Lemma trunk_reached : rtc migration ([], ∅) (trunk_applied_list, trunk_schema).
Proof.
  eapply (rtc_l _ _ ([rev_39323f5e8e55], default ∅ (schema_at [rev_39323f5e8e55]))).
  - apply migration_up; [split; [set_solver|constructor]|]. by_check.
  - apply rtc_once. apply (migration_up [rev_39323f5e8e55] _ rev_571dc8014b2c).
    + split; [set_solver|]. repeat constructor.
    + by_check.
Qed.

(** With the node in its former status, the last statement of 8a1f4c2d7e90 is
    accepted on the way up and, its output being NULL, refused on the way
    down. *)
Definition nullable_schema : schema := default ∅ (schema_at (rev_8a1f4c2d7e90 :: trunk_applied_list)).

Lemma nullable_reached : rtc migration ([], ∅) (rev_8a1f4c2d7e90 :: trunk_applied_list, nullable_schema).
Proof.
  eapply rtc_r; [exact trunk_reached|]. apply migration_up; [by_check|]. by_check.
Qed.

Lemma schema_of_revisions_witness :
  (∃ s' d', run_statements (trunk_schema, example_rows) (upgrade rev_8a1f4c2d7e90) = Some (s', d') ∧
    schema_at (rev_8a1f4c2d7e90 :: trunk_applied_list) = Some s') ∧
  run_statements (nullable_schema, example_rows) (downgrade rev_8a1f4c2d7e90) = None.
Proof.
  split.
  - destruct (schema_of_revisions trunk_applied_list trunk_schema rev_8a1f4c2d7e90 example_rows trunk_reached)
      as (_ & Hup & _). apply Hup. by_check.
  - destruct (schema_of_revisions (rev_8a1f4c2d7e90 :: trunk_applied_list) nullable_schema rev_8a1f4c2d7e90
      example_rows nullable_reached) as (_ & _ & Hdown). apply Hdown. by_check.
Defined.

Lemma upgrade_keeps_rows_witness :
  ∃ s' d', run_statements (trunk_schema, example_rows) (concat (upgrade <$> rest_of_path)) = Some (s', d') ∧
    rows_of d' "node_executions" = [normalise_row example_node].
Proof.
  destruct (upgrade_keeps_rows trunk_applied_list trunk_schema example_rows rest_of_path trunk_reached)
    as (s' & d' & Hrun & _ & _ & _ & Hnodes & _).
  - by_check.
  - constructor; [|constructor]. exists "ready". split; [reflexivity|]. by_check.
  - repeat (split; [by_check|]). exact I.
  - exists s', d'. split; [exact Hrun|]. rewrite Hnodes. reflexivity.
Defined.
