(* ===== verification/Dag.v ===== *)
(** * The traversal graph

    src/app/domain/dag/graph.py: [DAGNode], [DAG] and [DAG.from_workflow].
    Dictionaries are association lists because the code iterates over them in
    insertion order. *)

From S2P Require Import Prelude Numerals PyVal States Errors Domain.

Record DAGNode : Type := {
  dn_node_id : string;
  dn_handler : string;
  dn_config : pydict;
  dn_dependencies : list string;
  dn_dependants : list string;
}.

Record DAG : Type := {
  dag_nodes_by_id : list (string * DAGNode);
  dag_root_node_ids : list string;
  dag_terminal_node_ids : list string;
}.

(** [DAGNode.__init__]: the dependants are filled in later. *)
Definition DAGNode_init (node : WorkflowNode) : DAGNode :=
  {| dn_node_id := wn_id node; dn_handler := wn_handler node; dn_config := wn_config node;
     dn_dependencies := wn_dependencies node; dn_dependants := [] |}.

Definition set_dependants (ds : list string) (n : DAGNode) : DAGNode :=
  {| dn_node_id := dn_node_id n; dn_handler := dn_handler n; dn_config := dn_config n;
     dn_dependencies := dn_dependencies n; dn_dependants := ds |}.

Definition get_node (g : DAG) (node_id : string) : py DAGNode :=
  match aget node_id (dag_nodes_by_id g) with
  | Some n => Ok n
  | None => Raise (KeyError node_id)
  end.

Definition get_dependencies (g : DAG) (node_id : string) : py (list DAGNode) :=
  n ← get_node g node_id; mapM (get_node g) (dn_dependencies n).

Definition get_dependants (g : DAG) (node_id : string) : py (list DAGNode) :=
  n ← get_node g node_id; mapM (get_node g) (dn_dependants n).

Definition get_roots (g : DAG) : py (list DAGNode) := mapM (get_node g) (dag_root_node_ids g).

Definition get_terminals (g : DAG) : py (list DAGNode) :=
  mapM (get_node g) (dag_terminal_node_ids g).

(** First loop of [from_workflow]: index the nodes. *)
Definition index_nodes (nodes : list WorkflowNode)
    : list (string * DAGNode) * list (string * list string) :=
  foldl (λ acc node,
    (aset (wn_id node) (DAGNode_init node) acc.1, aset (wn_id node) [] acc.2))
    ([], []) nodes.

(** [dependants_by_id[dependency_id].append(node.id)]. *)
Definition append_dependant (node_id : string) (deps : list (string * list string))
    (dependency_id : string) : py (list (string * list string)) :=
  match aget dependency_id deps with
  | None => Raise (KeyError dependency_id)
  | Some l => Ok (aset dependency_id (l ++ [node_id]) deps)
  end.

(** Second loop: reverse every edge. *)
Definition collect_dependants (deps : list (string * list string)) (nodes : list WorkflowNode)
    : py (list (string * list string)) :=
  foldM (λ deps node, foldM (append_dependant (wn_id node)) deps (wn_dependencies node)) deps nodes.

(** Third loop: store the reversed edges. *)
Definition attach_dependants (deps : list (string * list string))
    (nodes_by_id : list (string * DAGNode)) : py (list (string * DAGNode)) :=
  mapM (λ kv, match aget kv.1 deps with
              | None => Raise (KeyError kv.1)
              | Some l => Ok (kv.1, set_dependants l kv.2)
              end) nodes_by_id.

Definition from_workflow (w : Workflow) : py DAG :=
  let '(nodes_by_id, dependants_by_id) := index_nodes (nodes_of w) in
  deps ← collect_dependants dependants_by_id (nodes_of w);
  nodes_by_id ← attach_dependants deps nodes_by_id;
  Ok {| dag_nodes_by_id := nodes_by_id;
        dag_root_node_ids :=
          fst <$> filter (λ kv, dn_dependencies kv.2 = []) nodes_by_id;
        dag_terminal_node_ids :=
          fst <$> filter (λ kv, dn_dependants kv.2 = []) nodes_by_id |}.

(** ** Reference definitions *)

(** Well-formed definitions: unique node identifiers, known dependencies. *)
Record wf_workflow (w : Workflow) : Prop := {
  wf_ids_unique : NoDup (node_ids w);
  wf_deps_known : ∀ n d, n ∈ nodes_of w → d ∈ wn_dependencies n → d ∈ node_ids w;
}.

(** The nodes that depend on [i], in definition order and once per mention. *)
Definition dependants_spec (nodes : list WorkflowNode) (i : string) : list string :=
  n ← nodes; (λ _, wn_id n) <$> filter (i =.) (wn_dependencies n).

(** The node a well-formed definition's graph holds for [n]. *)
Definition dag_node_of (w : Workflow) (n : WorkflowNode) : DAGNode :=
  set_dependants (dependants_spec (nodes_of w) (wn_id n)) (DAGNode_init n).

(** ** The loops *)

Lemma index_nodes_keys nodes :
  (∀ i, i ∈ (index_nodes nodes).1.*1 ↔ i ∈ wn_id <$> nodes) ∧
  (index_nodes nodes).2.*1 = (index_nodes nodes).1.*1.
Proof.
  unfold index_nodes. induction nodes as [|n nodes [IH1 IH2]] using rev_ind; [set_solver|].
  rewrite foldl_app. cbn [foldl fst snd]. rewrite !aset_keys, IH2. split; [|done].
  intros i. rewrite fmap_app. case_if; bsimp; set_solver.
Qed.

Lemma index_nodes_NoDup nodes :
  NoDup (wn_id <$> nodes) →
  index_nodes nodes = ((λ n, (wn_id n, DAGNode_init n)) <$> nodes, (λ n, (wn_id n, [])) <$> nodes).
Proof.
  unfold index_nodes. induction nodes as [|n nodes IH] using rev_ind; [done|].
  rewrite fmap_app, NoDup_app. intros (Hnd & Hdisj & _).
  rewrite foldl_app, IH by done. cbn [foldl fst snd].
  assert (Hn : wn_id n ∉ wn_id <$> nodes) by set_solver.
  rewrite !aset_fresh by (rewrite <- list_fmap_compose; exact Hn).
  by rewrite !fmap_app.
Qed.

Lemma append_dependants_spec m ds deps deps' :
  foldM (append_dependant m) deps ds = Ok deps' →
  deps'.*1 = deps.*1 ∧
  ∀ i, aget i deps' = (λ l, l ++ ((λ _, m) <$> filter (i =.) ds)) <$> aget i deps.
Proof.
  revert deps. induction ds as [|d ds IH]; intros deps; simpl.
  - intros [= <-]. split; [done|]. intros i. destruct (aget i deps); simpl; by rewrite ?app_nil_r.
  - destruct (append_dependant m deps d) as [deps1|] eqn:Ha; simpl; [|done].
    unfold append_dependant in Ha. destruct (aget d deps) as [l|] eqn:Hd; simplify_eq.
    intros [Hk Hg]%IH. split.
    + rewrite Hk. apply aset_keys_elem. destruct (decide (d ∈ deps.*1)); [done|].
      apply aget_None in n. congruence.
    + intros i. rewrite Hg, aget_aset, filter_cons.
      destruct (String.eqb_spec i d) as [->|Hne].
      * rewrite Hd, decide_True by done. simpl. by rewrite <- app_assoc.
      * by rewrite decide_False.
Qed.

Lemma append_dependants_ok m ds deps :
  is_ok (foldM (append_dependant m) deps ds) = true ↔ Forall (λ d, d ∈ deps.*1) ds.
Proof.
  revert deps. induction ds as [|d ds IH]; intros deps; simpl; [done|].
  rewrite Forall_cons. destruct (append_dependant m deps d) as [deps1|] eqn:Ha;
    unfold append_dependant in Ha; destruct (aget d deps) as [l|] eqn:Hd; simplify_eq; simpl.
  - assert (d ∈ deps.*1) by (destruct (decide (d ∈ deps.*1)) as [|Hn]; [done|];
      apply aget_None in Hn; congruence).
    rewrite IH, aset_keys_elem by done. naive_solver.
  - apply aget_None in Hd. naive_solver.
Qed.

Lemma collect_dependants_spec nodes deps deps' :
  collect_dependants deps nodes = Ok deps' →
  deps'.*1 = deps.*1 ∧
  ∀ i, aget i deps' = (λ l, l ++ dependants_spec nodes i) <$> aget i deps.
Proof.
  unfold collect_dependants. revert deps.
  induction nodes as [|n nodes IH]; intros deps; simpl.
  - intros [= <-]. split; [done|]. intros i. destruct (aget i deps); simpl; by rewrite ?app_nil_r.
  - intros (deps1 & H1 & [Hk Hg]%IH)%bind_Ok_inv.
    apply append_dependants_spec in H1 as [Hk1 Hg1].
    split; [congruence|]. intros i. rewrite Hg, Hg1.
    destruct (aget i deps); simpl; [|done]. by rewrite <- app_assoc.
Qed.

Lemma collect_dependants_ok nodes deps :
  is_ok (collect_dependants deps nodes) = true ↔
  ∀ n d, n ∈ nodes → d ∈ wn_dependencies n → d ∈ deps.*1.
Proof.
  unfold collect_dependants. revert deps.
  induction nodes as [|n nodes IH]; intros deps; simpl; [set_solver|].
  pose proof (append_dependants_ok (wn_id n) (wn_dependencies n) deps) as Hok.
  destruct (foldM _ deps (wn_dependencies n)) as [deps1|e] eqn:H1; simpl in *.
  - apply append_dependants_spec in H1 as [Hk _]. rewrite IH, Hk.
    pose proof (proj1 Hok eq_refl) as Hall. rewrite Forall_forall in Hall. set_solver.
  - split; [done|]. intros H. apply Hok, Forall_forall. set_solver.
Qed.

Lemma attach_dependants_ok deps by_id :
  (∀ k, k ∈ by_id.*1 → k ∈ deps.*1) →
  attach_dependants deps by_id
  = Ok ((λ kv, (kv.1, set_dependants (default [] (aget kv.1 deps)) kv.2)) <$> by_id).
Proof.
  intros H. unfold attach_dependants. apply mapM_Ok. intros [k n] Hkv. simpl.
  destruct (aget k deps) eqn:Hk; [done|]. apply aget_None in Hk.
  destruct Hk. apply H, list_elem_of_fmap. by exists (k, n).
Qed.

(** The graph of a definition with unique node identifiers. *)
Definition dag_of (w : Workflow) : DAG :=
  let by_id := (λ n, (wn_id n, dag_node_of w n)) <$> nodes_of w in
  {| dag_nodes_by_id := by_id;
     dag_root_node_ids := fst <$> filter (λ kv, dn_dependencies kv.2 = []) by_id;
     dag_terminal_node_ids := fst <$> filter (λ kv, dn_dependants kv.2 = []) by_id |}.

Lemma from_workflow_dag_of w : wf_workflow w → from_workflow w = Ok (dag_of w).
Proof.
  intros [Hnd Hdeps]. unfold from_workflow. rewrite index_nodes_NoDup by done.
  assert (Hkeys : ((λ n, (wn_id n, @nil string)) <$> nodes_of w).*1 = node_ids w).
  { by rewrite <- list_fmap_compose. }
  pose proof (proj2 (collect_dependants_ok (nodes_of w) ((λ n, (wn_id n, [])) <$> nodes_of w)))
    as Hok. rewrite Hkeys in Hok. specialize (Hok Hdeps).
  destruct (collect_dependants _ _) as [deps|] eqn:Hc; [|done]. simpl.
  apply collect_dependants_spec in Hc as [Hk Hg].
  rewrite attach_dependants_ok by (rewrite Hk, <- !list_fmap_compose; done).
  simpl. unfold dag_of.
  enough (Heq : (λ kv : string * DAGNode, (kv.1, set_dependants (default [] (aget kv.1 deps)) kv.2))
    <$> ((λ n, (wn_id n, DAGNode_init n)) <$> nodes_of w)
    = (λ n, (wn_id n, dag_node_of w n)) <$> nodes_of w) by (by rewrite Heq).
  rewrite <- list_fmap_compose. apply list_fmap_ext. intros i n Hi. simpl. f_equal.
  unfold dag_node_of. rewrite Hg.
  rewrite (aget_elem _ _ []); [done| |].
  - by rewrite Hkeys.
  - apply list_elem_of_fmap. exists n. split; [done|]. by apply list_elem_of_lookup_2 in Hi.
Qed.

(** On a well-formed definition [DAG.from_workflow] succeeds and builds
    exactly the reference graph: one graph node per definition node in
    definition order, the reversed edges in definition order, the roots and
    the terminal nodes. *)
Theorem from_workflow_refines w : wf_workflow w → from_workflow w = Ok (dag_of w).
Proof. apply from_workflow_dag_of. Qed.

(** Building the graph raises exactly when some node names a dependency
    that is not a node of the definition, duplicates or not. *)
Theorem from_workflow_raises_iff w :
  is_ok (from_workflow w) = false ↔
  ∃ n d, n ∈ nodes_of w ∧ d ∈ wn_dependencies n ∧ d ∉ node_ids w.
Proof.
  unfold from_workflow. pose proof (index_nodes_keys (nodes_of w)) as [Hk1 Hk2].
  destruct (index_nodes (nodes_of w)) as [by_id deps0]. simpl in *.
  pose proof (collect_dependants_ok (nodes_of w) deps0) as Hok. rewrite Hk2 in Hok.
  destruct (collect_dependants deps0 (nodes_of w)) as [deps|] eqn:Hc; simpl in *.
  - apply collect_dependants_spec in Hc as [Hk _].
    rewrite attach_dependants_ok by (intros; by rewrite Hk, Hk2). simpl.
    split; [done|]. intros (n & d & Hn & Hd & Hno). destruct Hno.
    apply Hk1. by eapply Hok.
  - split; [intros _|done].
    destruct (decide (Forall (λ n, Forall (λ d, d ∈ node_ids w) (wn_dependencies n)) (nodes_of w)))
      as [Hall|Hnot].
    + rewrite Forall_forall in Hall. enough (false = true) by done. apply Hok.
      intros n d Hn Hd. apply Hk1. specialize (Hall n Hn). rewrite Forall_forall in Hall. auto.
    + apply not_Forall_Exists, Exists_exists in Hnot as (n & Hn & Hx); [|apply _].
      apply not_Forall_Exists, Exists_exists in Hx as (d & Hd & Hx); [|apply _]. eauto.
Qed.
