(* ===== verification/Graph.v ===== *)
(** * Dependency relations

    The edges of a definition as a relation, acyclicity, and the fact that a
    finite set in which everybody depends on somebody contains a cycle.  This
    is the mathematics the validation, readiness and propagation components
    share. *)

From S2P Require Import Prelude Numerals PyVal States Errors Domain Dag.

(** Node [i] of the definition lists [j] as a dependency. *)
Definition depends (w : Workflow) (i j : string) : Prop :=
  ∃ n, n ∈ nodes_of w ∧ wn_id n = i ∧ j ∈ wn_dependencies n.

(** No node depends on itself, directly or through others. *)
Definition acyclic (w : Workflow) : Prop := ∀ i, ¬ tc (depends w) i i.

#[export] Instance depends_dec w i j : Decision (depends w i j).
Proof.
  refine (cast_if (decide (Exists (λ n, wn_id n = i ∧ j ∈ wn_dependencies n) (nodes_of w))));
    abstract (unfold depends; rewrite <- Exists_exists; done).
Defined.

Lemma depends_node_l w i j : depends w i j → i ∈ node_ids w.
Proof. intros (n & Hn & <- & _). by apply list_elem_of_fmap_2. Qed.

Lemma depends_node_r w i j : wf_workflow w → depends w i j → j ∈ node_ids w.
Proof. intros [_ Hd] (n & Hn & _ & Hj). eauto. Qed.

Lemma depends_unique w n j :
  wf_workflow w → n ∈ nodes_of w → depends w (wn_id n) j ↔ j ∈ wn_dependencies n.
Proof.
  intros [Hnd _] Hn. split; [|by exists n].
  intros (m & Hm & Hid & Hj). replace n with m; [done|].
  apply list_elem_of_lookup in Hn as [a Ha], Hm as [b Hb].
  assert (a = b) as ->; [|congruence].
  eapply NoDup_lookup; [exact Hnd| |].
  - unfold node_ids. rewrite list_lookup_fmap, Ha. done.
  - unfold node_ids. rewrite list_lookup_fmap, Hb. simpl. by rewrite Hid.
Qed.

(** The reversed edges the graph stores. *)
Lemma dependants_spec_depends w i j :
  j ∈ dependants_spec (nodes_of w) i ↔ depends w j i.
Proof.
  unfold dependants_spec, depends. rewrite list_elem_of_bind. split.
  - intros (n & (d & -> & [-> Hd]%list_elem_of_filter)%list_elem_of_fmap & Hn). eauto.
  - intros (n & Hn & <- & Hi). exists n. split; [|done].
    apply list_elem_of_fmap. exists i. split; [done|]. by apply list_elem_of_filter.
Qed.

(** ** Finite sets without a minimal element contain a cycle *)

Section finite_cycle.
Context {A : Type} `{EqDecision A} (R : relation A).

Lemma finite_choice (S : list A) (P : A → A → Prop) :
  (∀ x, x ∈ S → ∃ y, P x y) → ∃ f : A → A, ∀ x, x ∈ S → P x (f x).
Proof.
  induction S as [|x S IH]; intros H.
  - exists id. set_solver.
  - destruct IH as [f Hf]; [set_solver|]. destruct (H x) as [y Hy]; [set_solver|].
    exists (λ z, if decide (z = x) then y else f z). intros z Hz.
    case_decide; [by subst|]. apply Hf. set_solver.
Qed.

Lemma not_NoDup_repeat (l : list A) :
  ¬ NoDup l → ∃ i j x, i < j ∧ l !! i = Some x ∧ l !! j = Some x.
Proof.
  induction l as [|x l IH]; intros H; [by destruct H; constructor|].
  destruct (decide (x ∈ l)) as [Hx|Hx].
  - apply list_elem_of_lookup in Hx as [j Hj]. exists 0, (S j), x. split_and!; [lia|done|done].
  - destruct IH as (i & j & y & Hij & Hi & Hj).
    { intros Hl. apply H. by constructor. }
    exists (S i), (S j), y. split_and!; [lia|done|done].
Qed.

Lemma iterate_path (S : list A) (f : A → A) x :
  (∀ y, y ∈ S → f y ∈ S ∧ R y (f y)) → x ∈ S →
  ∀ n, Nat.iter n f x ∈ S ∧ ∀ m, m < n → tc R (Nat.iter m f x) (Nat.iter n f x).
Proof.
  intros Hf Hx n. induction n as [|n [IH1 IH2]]; [split; [done|lia]|].
  simpl. destruct (Hf _ IH1) as [HS HR]. split; [done|].
  intros m Hm. destruct (decide (m = n)) as [->|]; [by apply tc_once|].
  eapply tc_r; [|done]. apply IH2. lia.
Qed.

Lemma no_minimal_cycle (S : list A) x :
  x ∈ S → (∀ y, y ∈ S → ∃ z, z ∈ S ∧ R y z) → ∃ y, y ∈ S ∧ tc R y y.
Proof.
  intros Hx H. destruct (finite_choice S _ H) as [f Hf].
  set (l := (λ n, Nat.iter n f x) <$> seq 0 (length S + 1)).
  destruct (decide (NoDup l)) as [Hnd|Hnd].
  - exfalso. assert (Hlen : length l ≤ length S).
    { apply submseteq_length, NoDup_submseteq; [done|].
      intros y (n & -> & _)%list_elem_of_fmap. by apply (iterate_path S f x). }
    unfold l in Hlen. rewrite length_fmap, length_seq in Hlen. lia.
  - apply not_NoDup_repeat in Hnd as (i & j & y & Hij & Hi & Hj).
    unfold l in Hi, Hj.
    apply list_lookup_fmap_Some in Hi as (i' & -> & Hi), Hj as (j' & Hy & Hj).
    apply lookup_seq in Hi as [-> ?], Hj as [-> ?]. simpl in *.
    destruct (iterate_path S f x Hf Hx j) as [HS Htc].
    exists (Nat.iter i f x). split; [by apply (iterate_path S f x)|].
    rewrite Hy at 2. by apply Htc.
Qed.
End finite_cycle.

(** A non-empty set of nodes of an acyclic definition has a member none of
    whose dependencies is in the set. *)
Lemma acyclic_minimal w (S : list string) i :
  acyclic w → i ∈ S → ∃ j, j ∈ S ∧ ∀ k, depends w j k → k ∉ S.
Proof.
  intros Hac Hi.
  destruct (decide (Exists (λ j, Forall (λ k, ¬ depends w j k) S) S)) as [H|H].
  - apply Exists_exists in H as (j & Hj & H). exists j. split; [done|].
    intros k Hk Hin. rewrite Forall_forall in H. by eapply H.
  - exfalso. destruct (no_minimal_cycle (depends w) S i Hi) as (y & _ & Hy).
    + intros y Hy. destruct (decide (Exists (depends w y) S)) as [He|He].
      * apply Exists_exists in He as (z & Hz & He). eauto.
      * destruct H. apply Exists_exists. exists y. split; [done|].
        apply Forall_forall. intros k Hk Hd. apply He, Exists_exists. eauto.
    + by apply (Hac y).
Qed.
