(* ===== verification/Readiness.v ===== *)
(** * Readiness evaluation

    src/app/domain/dag/readiness.py: which nodes may be dispatched, from the
    definition and the persisted statuses. *)

From S2P Require Import Prelude Numerals PyVal States Errors Domain Dag Graph.

(** [node_statuses_by_id.get(node_id, PENDING)]. *)
Definition status_of (st : gmap string NodeExecutionStatus) (i : string) : NodeExecutionStatus :=
  default NPending (st !! i).

Definition NON_READY_STATUSES : list NodeExecutionStatus := [NRunning; NCompleted; NFailed].

(** The body of the loop: whether the node is appended. *)
Definition node_ready (st : gmap string NodeExecutionStatus) (node : WorkflowNode) : bool :=
  if memb (status_of st (wn_id node)) NON_READY_STATUSES then false
  else forallb (λ d, bool_decide (status_of st d = NCompleted)) (wn_dependencies node).

Definition evaluate_ready_node_ids (w : Workflow) (st : gmap string NodeExecutionStatus)
    : list string :=
  wn_id <$> filter (λ node, node_ready st node = true) (nodes_of w).

Lemma node_ready_true st node :
  node_ready st node = true ↔
  status_of st (wn_id node) = NPending ∧
  ∀ d, d ∈ wn_dependencies node → status_of st d = NCompleted.
Proof.
  unfold node_ready, NON_READY_STATUSES.
  assert (Hf : forallb (λ d, bool_decide (status_of st d = NCompleted)) (wn_dependencies node) = true
    ↔ ∀ d, d ∈ wn_dependencies node → status_of st d = NCompleted).
  { rewrite forallb_forall. setoid_rewrite list_elem_of_In. setoid_rewrite bool_decide_eq_true. done. }
  case_if; bsimp.
  - split; [done|]. intros [Hp _]. rewrite Hp in *. set_solver.
  - rewrite Hf. destruct (status_of st (wn_id node)); set_solver.
Qed.

Lemma ready_node_ids_spec w st :
  wf_workflow w →
  (∀ i, i ∈ evaluate_ready_node_ids w st ↔
     i ∈ node_ids w ∧ status_of st i = NPending ∧
     ∀ d, depends w i d → status_of st d = NCompleted) ∧
  evaluate_ready_node_ids w st `sublist_of` node_ids w ∧
  NoDup (evaluate_ready_node_ids w st).
Proof.
  intros Hwf. assert (Hsub : evaluate_ready_node_ids w st `sublist_of` node_ids w).
  { apply fmap_sublist, sublist_filter. }
  split_and!; [|done|eapply sublist_NoDup; [apply Hwf|apply Hsub]].
  intros i. unfold evaluate_ready_node_ids. rewrite list_elem_of_fmap. split.
  - intros (n & -> & [Hr Hn]%list_elem_of_filter). apply node_ready_true in Hr as [Hp Hd].
    split_and!; [by apply list_elem_of_fmap_2|done|].
    intros d Hdep. apply Hd. by apply (depends_unique w n d).
  - intros (Hi & Hp & Hd). apply list_elem_of_fmap in Hi as (n & -> & Hn).
    exists n. split; [done|]. apply list_elem_of_filter. split; [|done].
    apply node_ready_true. split; [done|]. intros d Hdn. apply Hd. by apply (depends_unique w n d).
Qed.

(** A node is evaluated ready exactly when it is pending and every one of
    its dependencies has completed; the answer lists the ready nodes in
    definition order. *)
Theorem evaluate_ready_node_ids_correct w st :
  wf_workflow w →
  (∀ i, i ∈ evaluate_ready_node_ids w st ↔
     i ∈ node_ids w ∧ status_of st i = NPending ∧
     ∀ d, depends w i d → status_of st d = NCompleted) ∧
  evaluate_ready_node_ids w st `sublist_of` node_ids w ∧
  NoDup (evaluate_ready_node_ids w st).
Proof. apply ready_node_ids_spec. Qed.

(** No deadlock.  In an acyclic definition where no node has failed and
    nothing is running, either everything has completed or the evaluation
    finds a node to dispatch. *)
Theorem ready_progress w st :
  wf_workflow w → acyclic w →
  (∀ i, i ∈ node_ids w → status_of st i = NPending ∨ status_of st i = NCompleted) →
  (∀ i, i ∈ node_ids w → status_of st i = NCompleted) ∨ evaluate_ready_node_ids w st ≠ [].
Proof.
  intros Hwf Hac Hst.
  set (S := filter (λ i, status_of st i = NPending) (node_ids w)).
  destruct S as [|i S'] eqn:HS.
  - left. intros i Hi. destruct (Hst i Hi) as [Hp|]; [|done].
    assert (i ∈ S) by (apply list_elem_of_filter; done). rewrite HS in *. set_solver.
  - right. destruct (acyclic_minimal w S i Hac) as (j & Hj & Hmin); [rewrite HS; set_solver|].
    apply list_elem_of_filter in Hj as [Hp Hj].
    destruct (ready_node_ids_spec w st Hwf) as [Hiff _].
    enough (j ∈ evaluate_ready_node_ids w st) by (intros E; rewrite E in *; set_solver).
    apply Hiff. split_and!; [done|done|]. intros d Hd.
    destruct (Hst d) as [Hdp|]; [by eapply depends_node_r| |done].
    exfalso. apply (Hmin d Hd). apply list_elem_of_filter. split; [done|].
    by eapply depends_node_r.
Qed.
