(* ===== verification/Failure.v ===== *)
(** * Failure propagation

    src/app/domain/dag/failure.py: the breadth-first traversal that finds the
    pending nodes a failure makes impossible. *)

From S2P Require Import Prelude Numerals PyVal States Errors Domain Dag Graph Readiness.

(** The traversal's variables: the statuses it marks as it goes, the blocked
    nodes found so far, and the queue. *)
Record bfs_state : Type := {
  bfs_statuses : gmap string NodeExecutionStatus;
  bfs_blocked : gset string;
  bfs_queue : list string;
}.

(** Body of the inner [for dependant in dag.get_dependants(...)] loop. *)
Definition visit_dependant (s : bfs_state) (dependant : DAGNode) : bfs_state :=
  let i := dn_node_id dependant in
  if negb (bool_decide (status_of (bfs_statuses s) i = NPending)) then s
  else if bool_decide (i ∈ bfs_blocked s) then s
  else {| bfs_statuses := <[i := NFailed]> (bfs_statuses s);
          bfs_blocked := {[i]} ∪ bfs_blocked s;
          bfs_queue := bfs_queue s ++ [i] |}.

(** The [while queue] loop; [None] when the fuel runs out. *)
Fixpoint propagate (fuel : nat) (dag : DAG) (s : bfs_state) : option (py bfs_state) :=
  match bfs_queue s with
  | [] => Some (Ok s)
  | blocked_node_id :: queue =>
      match fuel with
      | O => None
      | S f =>
          match get_dependants dag blocked_node_id with
          | Raise e => Some (Raise e)
          | Ok dependants =>
              propagate f dag
                (foldl visit_dependant
                   {| bfs_statuses := bfs_statuses s; bfs_blocked := bfs_blocked s;
                      bfs_queue := queue |} dependants)
          end
      end
  end.

(** Two visits per node are more than enough (see [propagate_correct]). *)
Definition propagate_fuel (w : Workflow) : nat := 2 * length (nodes_of w).

Definition evaluate_failed_dependency_node_ids (w : Workflow)
    (st : gmap string NodeExecutionStatus) : option (py (list string)) :=
  match from_workflow w with
  | Raise e => Some (Raise e)
  | Ok dag =>
      let queue := filter (λ i, status_of st i = NFailed) (node_ids w) in
      match propagate (propagate_fuel w) dag
              {| bfs_statuses := st; bfs_blocked := ∅; bfs_queue := queue |} with
      | None => None
      | Some r => Some (s ← r; Ok (filter (λ i, i ∈ bfs_blocked s) (node_ids w)))
      end
  end.

(** The nodes a failure blocks: pending nodes with a failed dependency, and
    pending nodes that depend on a blocked one. *)
Inductive Blocked (w : Workflow) (st : gmap string NodeExecutionStatus) : string → Prop :=
| blocked_by_failure i j :
    depends w i j → status_of st i = NPending → status_of st j = NFailed → Blocked w st i
| blocked_by_blocked i j :
    depends w i j → status_of st i = NPending → Blocked w st j → Blocked w st i.

Lemma Blocked_pending w st i : Blocked w st i → status_of st i = NPending.
Proof. by destruct 1. Qed.

(** The graph lookups of the traversal succeed on a well-formed definition. *)
Lemma dag_of_get_node w i :
  wf_workflow w → i ∈ node_ids w →
  ∃ n, n ∈ nodes_of w ∧ wn_id n = i ∧ get_node (dag_of w) i = Ok (dag_node_of w n).
Proof.
  intros [Hnd _] Hi. apply list_elem_of_fmap in Hi as (n & -> & Hn).
  exists n. split_and!; [done|done|]. unfold get_node. simpl.
  rewrite (aget_elem _ _ (dag_node_of w n)); [done| |].
  - by rewrite <- list_fmap_compose.
  - apply list_elem_of_fmap. by exists n.
Qed.

Lemma dag_of_get_dependants w i :
  wf_workflow w → i ∈ node_ids w →
  ∃ ds, get_dependants (dag_of w) i = Ok ds ∧
        dn_node_id <$> ds = dependants_spec (nodes_of w) i.
Proof.
  intros Hwf Hi. destruct (dag_of_get_node w i Hwf Hi) as (n & Hn & <- & Hg).
  unfold get_dependants. rewrite Hg. simpl.
  assert (H : ∀ l, (∀ j, j ∈ l → j ∈ node_ids w) →
    ∃ ds, mapM (get_node (dag_of w)) l = Ok ds ∧ dn_node_id <$> ds = l).
  { induction l as [|j l IH]; intros Hl; [by exists []|].
    destruct (dag_of_get_node w j Hwf) as (m & Hm & Hj & Hgj); [set_solver|].
    destruct IH as (ds & Hds & Heq); [set_solver|].
    exists (dag_node_of w m :: ds). split.
    - simpl. rewrite Hgj. simpl. by rewrite Hds.
    - rewrite fmap_cons, Heq. by rewrite <- Hj. }
  apply H. intros j Hj%dependants_spec_depends. by eapply depends_node_l.
Qed.

Section traversal.
Context (w : Workflow) (st0 : gmap string NodeExecutionStatus).
Hypothesis Hwf : wf_workflow w.

(** The source of a propagation: an originally failed node or a blocked one. *)
Definition source (s : bfs_state) (j : string) : Prop :=
  j ∈ node_ids w ∧ (status_of st0 j = NFailed ∨ j ∈ bfs_blocked s).

(** What holds while the children of [cur] (if any) are being visited:
    [done] lists those already seen. *)
Record bfs_inv (s : bfs_state) : Prop := {
  inv_blocked : ∀ i, i ∈ bfs_blocked s → Blocked w st0 i ∧ status_of (bfs_statuses s) i = NFailed;
  inv_other : ∀ i, i ∉ bfs_blocked s → status_of (bfs_statuses s) i = status_of st0 i;
  inv_queue : ∀ i, i ∈ bfs_queue s → source s i;
}.

(** Every child of [j] that can be blocked has been. *)
Definition closed_at (s : bfs_state) (j : string) : Prop :=
  ∀ i, depends w i j → status_of st0 i = NPending → i ∈ bfs_blocked s.

Definition closed (s : bfs_state) : Prop :=
  ∀ j, source s j → j ∉ bfs_queue s → closed_at s j.

(** The bound on the visits left. *)
Definition bfs_measure (s : bfs_state) : nat :=
  length (bfs_queue s) +
  length (filter (λ i, status_of (bfs_statuses s) i = NPending) (node_ids w)).

Lemma status_of_insert (st : gmap string NodeExecutionStatus) i j x :
  status_of (<[i := x]> st) j = if decide (i = j) then x else status_of st j.
Proof. unfold status_of. rewrite lookup_insert. by case_decide. Qed.

Lemma mark_pending (st : gmap string NodeExecutionStatus) i (l : list string) :
  i ∈ l → status_of st i = NPending →
  length (filter (λ j, status_of (<[i := NFailed]> st) j = NPending) l)
  < length (filter (λ j, status_of st j = NPending) l).
Proof.
  intros Hi Hp.
  assert (Hle : ∀ l, length (filter (λ j, status_of (<[i := NFailed]> st) j = NPending) l)
    ≤ length (filter (λ j, status_of st j = NPending) l)).
  { clear. induction l as [|j l IH]; [done|]. rewrite !filter_cons, status_of_insert.
    destruct (decide (i = j)); repeat case_decide; simpl; try congruence; lia. }
  induction l as [|j l IH]; [set_solver|]. rewrite !filter_cons, status_of_insert.
  destruct (decide (i = j)) as [->|Hne].
  - rewrite decide_False, decide_True by done. specialize (Hle l). simpl. lia.
  - assert (Hil : i ∈ l) by set_solver. specialize (IH Hil). case_decide; simpl; lia.
Qed.

(** One child: the three ways the loop body can go. *)
Lemma visit_dependant_inv s d j :
  bfs_inv s → source s j → depends w (dn_node_id d) j →
  let s' := visit_dependant s d in
  bfs_inv s' ∧ bfs_blocked s ⊆ bfs_blocked s' ∧ bfs_measure s' ≤ bfs_measure s ∧
  (∀ q, q ∈ bfs_queue s → q ∈ bfs_queue s') ∧
  (∀ k, source s' k → k ∉ bfs_queue s' → source s k ∧ k ∉ bfs_queue s) ∧
  (status_of st0 (dn_node_id d) = NPending → dn_node_id d ∈ bfs_blocked s').
Proof.
  intros [Hb Ho Hq] [Hj Hsrc] Hdep. set (i := dn_node_id d) in *.
  unfold visit_dependant. fold i. simpl.
  destruct (bool_decide_reflect (status_of (bfs_statuses s) i = NPending)) as [Hp|Hp]; simpl.
  2: { split_and!; try done. intros Hp0. destruct (decide (i ∈ bfs_blocked s)); [done|].
       rewrite Ho in Hp by done. done. }
  destruct (bool_decide_reflect (i ∈ bfs_blocked s)) as [Hi|Hi].
  { destruct (Hb i Hi) as [_ Hf]. congruence. }
  assert (Hp0 : status_of st0 i = NPending) by (by rewrite <- Ho).
  assert (Hblk : Blocked w st0 i).
  { destruct Hsrc as [Hf|Hjb]; [by eapply blocked_by_failure|].
    eapply blocked_by_blocked; [done|done|]. by apply Hb. }
  assert (Hin : i ∈ node_ids w) by (by eapply depends_node_l).
  split_and!; simpl.
  - split; simpl.
    + intros k Hk. rewrite status_of_insert. case_decide as Hik; [by subst|].
      apply Hb. apply elem_of_union in Hk as [Hk%elem_of_singleton|]; congruence.
    + intros k [Hki%not_elem_of_singleton Hk]%not_elem_of_union.
      rewrite status_of_insert, decide_False by congruence. by apply Ho.
    + intros k [Hk|Hk]%elem_of_app.
      * destruct (Hq k Hk) as [? [?|?]]; split; [done|by left|done|].
        right. by apply elem_of_union_r.
      * apply list_elem_of_singleton in Hk as ->. split; [done|]. right.
        by apply elem_of_union_l, elem_of_singleton.
  - apply union_subseteq_r.
  - unfold bfs_measure. simpl. rewrite length_app. simpl.
    pose proof (mark_pending (bfs_statuses s) i (node_ids w) Hin Hp). lia.
  - intros q Hqs. apply elem_of_app. by left.
  - intros k [Hk Hks] [Hkq Hki]%not_elem_of_app. split; [|done]. split; [done|].
    simpl in Hks. destruct Hks as [|[Hki'%elem_of_singleton|]%elem_of_union]; [by left| |by right].
    destruct Hki. by apply list_elem_of_singleton.
  - intros _. by apply elem_of_union_l, elem_of_singleton.
Qed.

(** All children of [j]. *)
Lemma visit_dependants_inv ds s j :
  bfs_inv s → source s j → (∀ d, d ∈ ds → depends w (dn_node_id d) j) →
  let s' := foldl visit_dependant s ds in
  bfs_inv s' ∧ bfs_blocked s ⊆ bfs_blocked s' ∧ bfs_measure s' ≤ bfs_measure s ∧
  (∀ k, source s' k → k ∉ bfs_queue s' → source s k ∧ k ∉ bfs_queue s) ∧
  (∀ d, d ∈ ds → status_of st0 (dn_node_id d) = NPending → dn_node_id d ∈ bfs_blocked s').
Proof.
  revert s. induction ds as [|d ds IH]; intros s Hinv Hsrc Hds; simpl.
  { split_and!; try done; set_solver. }
  destruct (visit_dependant_inv s d j Hinv Hsrc) as (Hi & Hsub & Hm & _ & Hk & Hd).
  { apply Hds. set_solver. }
  destruct (IH (visit_dependant s d) Hi) as (Hi' & Hsub' & Hm' & Hk' & Hd').
  { destruct Hsrc. split; set_solver. }
  { intros e He. apply Hds. set_solver. }
  split_and!; [done|set_solver|lia| |].
  - intros k Hs Hq. destruct (Hk' k Hs Hq). auto.
  - intros e [->|He]%elem_of_cons Hp; [set_solver|auto].
Qed.

Lemma propagate_correct fuel s :
  bfs_inv s → closed s → bfs_measure s ≤ fuel →
  ∃ s', propagate fuel (dag_of w) s = Some (Ok s') ∧ bfs_inv s' ∧ closed s' ∧ bfs_queue s' = [].
Proof.
  revert s. induction fuel as [|f IH]; intros s Hinv Hcl Hfuel.
  - destruct (bfs_queue s) as [|q qs] eqn:Hq.
    + exists s. simpl. by rewrite Hq.
    + unfold bfs_measure in Hfuel. rewrite Hq in Hfuel. simpl in Hfuel. lia.
  - simpl. destruct (bfs_queue s) as [|q qs] eqn:Hq; [by exists s|].
    assert (Hsrc : source s q) by (apply Hinv; rewrite Hq; set_solver).
    destruct (dag_of_get_dependants w q Hwf) as (ds & -> & Hds); [apply Hsrc|].
    set (s1 := {| bfs_statuses := bfs_statuses s; bfs_blocked := bfs_blocked s; bfs_queue := qs |}).
    assert (Hdep : ∀ d, d ∈ ds → depends w (dn_node_id d) q).
    { intros d Hd. apply dependants_spec_depends. rewrite <- Hds. by apply list_elem_of_fmap_2. }
    destruct (visit_dependants_inv ds s1 q) as (Hi & Hsub & Hm & Hk & Hd); [|done|done|].
    { destruct Hinv as [Hb Ho Hqi]. split; [done|done|]. intros i Hqs.
      apply Hqi. rewrite Hq. set_solver. }
    apply IH; [done| |].
    + intros k Hks Hkq i Hik Hp. destruct (Hk k Hks Hkq) as [Hks1 Hkqs].
      destruct (decide (k = q)) as [->|Hne].
      * assert (Hin : i ∈ dn_node_id <$> ds) by (rewrite Hds; by apply dependants_spec_depends).
        apply list_elem_of_fmap in Hin as (d & -> & Hin). by apply Hd.
      * apply Hsub. apply (Hcl k); [done| |done|done]. rewrite Hq. simpl in Hkqs. set_solver.
    + unfold bfs_measure in *. rewrite Hq in Hfuel. simpl in *. lia.
Qed.

Definition bfs_start : bfs_state :=
  {| bfs_statuses := st0; bfs_blocked := ∅;
     bfs_queue := filter (λ i, status_of st0 i = NFailed) (node_ids w) |}.

Lemma bfs_start_inv : bfs_inv bfs_start ∧ closed bfs_start ∧ bfs_measure bfs_start ≤ propagate_fuel w.
Proof.
  split_and!.
  - split; simpl; [set_solver|done|]. intros i [Hf Hi]%list_elem_of_filter.
    split; [done|by left].
  - intros j [Hj [Hf|Hb]] Hq; [|set_solver]. destruct Hq. by apply list_elem_of_filter.
  - unfold bfs_measure, propagate_fuel. simpl.
    pose proof (length_filter (λ i, status_of st0 i = NFailed) (node_ids w)).
    pose proof (length_filter (λ i, status_of st0 i = NPending) (node_ids w)).
    unfold node_ids in *. rewrite length_fmap in *. lia.
Qed.
End traversal.

Lemma failed_dependency_spec w st :
  wf_workflow w →
  ∃ blocked, evaluate_failed_dependency_node_ids w st = Some (Ok blocked) ∧
    (∀ i, i ∈ blocked ↔ Blocked w st i) ∧ blocked `sublist_of` node_ids w.
Proof.
  intros Hwf. unfold evaluate_failed_dependency_node_ids.
  rewrite from_workflow_dag_of by done. fold (bfs_start w st).
  destruct (bfs_start_inv w st Hwf) as (Hi & Hc & Hm).
  destruct (propagate_correct w st Hwf _ _ Hi Hc Hm) as (s & -> & [Hb _ _] & Hcl & Hq).
  simpl. eexists. split; [done|]. split; [|apply sublist_filter].
  intros i. rewrite list_elem_of_filter. split; [intros [Hbi _]; by apply Hb|].
  intros HB. assert (Hin : i ∈ bfs_blocked s).
  { induction HB as [i j Hd Hp Hf|i j Hd Hp HB IH].
    - eapply (Hcl j); [|rewrite Hq; set_solver|done|done].
      split; [by eapply depends_node_r|by left].
    - eapply (Hcl j); [|rewrite Hq; set_solver|done|done].
      split; [by eapply depends_node_r|by right]. }
  split; [done|]. by destruct HB; eapply depends_node_l.
Qed.

(** C18: on a well-formed definition the failure traversal terminates within
    its fuel without an exception, and returns exactly the pending nodes made
    impossible by a failure, directly or through other blocked nodes, in
    definition order. *)
Theorem evaluate_failed_dependency_correct w st :
  wf_workflow w →
  ∃ blocked, evaluate_failed_dependency_node_ids w st = Some (Ok blocked) ∧
    (∀ i, i ∈ blocked ↔ Blocked w st i) ∧ blocked `sublist_of` node_ids w.
Proof. apply failed_dependency_spec. Qed.
