(* ===== verification/Lifecycle.v ===== *)
(** * The life of one execution

    What the engine promises, without tables, streams or processes: an
    execution is a definition, a status and the statuses of its nodes.  It is
    triggered, its nodes start once their dependencies have completed, and
    each running node completes or fails; a failure takes the nodes it blocks
    with it.  [Engine] shows that the processes implement these steps. *)

From S2P Require Import Prelude Numerals PyVal States Errors Domain Dag Graph Readiness Failure.

Record run : Type := Run {
  run_graph : Workflow;
  run_status : WorkflowExecutionStatus;
  run_nodes : gmap string NodeExecutionStatus;
}.

(** ** Steps *)

Definition has_failed (m : gmap string NodeExecutionStatus) : Prop :=
  map_Exists (λ _ s, s = NFailed) m.
Definition has_finished (m : gmap string NodeExecutionStatus) : Prop :=
  map_Forall (λ _ s, s = NCompleted) m.

(** The status of an execution after one of its nodes has ended. *)
Definition settle (s : WorkflowExecutionStatus) (m : gmap string NodeExecutionStatus)
    : WorkflowExecutionStatus :=
  if decide (s = WRunning) then
    if decide (has_failed m) then WFailed
    else if decide (has_finished m) then WCompleted else WRunning
  else s.

(** The nodes that may start. *)
Definition startable (g : Workflow) (m : gmap string NodeExecutionStatus) (i : string) : Prop :=
  m !! i = Some NPending ∧ ∀ j, depends g i j → m !! j = Some NCompleted.

(** [m'] is [m] after node [i] has failed and the nodes it blocks with it. *)
Record failed_with (g : Workflow) (i : string) (m m' : gmap string NodeExecutionStatus) : Prop := {
  fw_node : m' !! i = Some NFailed;
  fw_blocked j : Blocked g (<[i := NFailed]> m) j → is_Some (m !! j) → m' !! j = Some NFailed;
  fw_other j : j ≠ i → ¬ Blocked g (<[i := NFailed]> m) j → m' !! j = m !! j;
  fw_dom j : is_Some (m' !! j) ↔ is_Some (m !! j);
}.

Inductive run_step : relation run :=
| run_trigger g m : run_step (Run g WPending m) (Run g WRunning m)
| run_start g s m i :
    s ≠ WPending → startable g m i → run_step (Run g s m) (Run g s (<[i := NRunning]> m))
| run_complete g s m i :
    m !! i = Some NRunning →
    run_step (Run g s m) (Run g (settle s (<[i := NCompleted]> m)) (<[i := NCompleted]> m))
| run_fail g s m m' i :
    m !! i = Some NRunning → failed_with g i m m' →
    run_step (Run g s m) (Run g (settle s m') m').

(** A submitted execution: everything is pending. *)
Definition run_initial (r : run) : Prop :=
  wf_workflow (run_graph r) ∧ acyclic (run_graph r) ∧ run_status r = WPending ∧
  ∀ i, run_nodes r !! i = if decide (i ∈ node_ids (run_graph r)) then Some NPending else None.

(** ** Invariant *)

Record run_inv (r : run) : Prop := {
  ri_wf : wf_workflow (run_graph r);
  ri_acyclic : acyclic (run_graph r);
  ri_dom i : is_Some (run_nodes r !! i) ↔ i ∈ node_ids (run_graph r);
  ri_order i j s : run_nodes r !! i = Some s → s = NRunning ∨ s = NCompleted →
    depends (run_graph r) i j → run_nodes r !! j = Some NCompleted;
  ri_unblocked i j : run_nodes r !! i = Some NPending → depends (run_graph r) i j →
    run_nodes r !! j ≠ Some NFailed;
  ri_pending i s : run_status r = WPending → run_nodes r !! i = Some s → s = NPending;
  ri_running : run_status r = WRunning → node_ids (run_graph r) ≠ [] → ¬ has_finished (run_nodes r);
  ri_completed : run_status r = WCompleted → has_finished (run_nodes r);
  ri_failed : run_status r = WFailed ↔ has_failed (run_nodes r);
}.

Lemma has_failed_elem m : has_failed m ↔ ∃ i, m !! i = Some NFailed.
Proof. unfold has_failed, map_Exists. naive_solver. Qed.

Lemma has_finished_elem m : has_finished m ↔ ∀ i s, m !! i = Some s → s = NCompleted.
Proof. unfold has_finished, map_Forall. naive_solver. Qed.

Lemma settle_cases s m :
  (s ≠ WRunning ∧ settle s m = s) ∨
  (s = WRunning ∧ has_failed m ∧ settle s m = WFailed) ∨
  (s = WRunning ∧ ¬ has_failed m ∧ has_finished m ∧ settle s m = WCompleted) ∨
  (s = WRunning ∧ ¬ has_failed m ∧ ¬ has_finished m ∧ settle s m = WRunning).
Proof. unfold settle. repeat case_decide; naive_solver. Qed.

Lemma run_initial_inv r : run_initial r → run_inv r.
Proof.
  destruct r as [g s m]. intros (Hwf & Hac & Hs & Hm). simpl in *. subst s.
  assert (Hp : ∀ i t, m !! i = Some t → t = NPending).
  { intros i t. rewrite Hm. case_decide; congruence. }
  split; simpl; try done.
  - intros i. rewrite Hm. case_decide; split; try done; intros [? ?]; congruence.
  - intros i j t ->%Hp [|]; congruence.
  - intros i j _ _ ?%Hp. congruence.
  - eauto.
  - split; [congruence|]. intros (i & ?%Hp)%has_failed_elem. congruence.
Qed.

Lemma blocked_or_not g st j : wf_workflow g → Blocked g st j ∨ ¬ Blocked g st j.
Proof.
  intros Hwf. destruct (failed_dependency_spec g st Hwf) as (blocked & _ & Hb & _).
  destruct (decide (j ∈ blocked)) as [Hj|Hj]; rewrite Hb in Hj; auto.
Qed.

Section preservation.
Context (g : Workflow) (s : WorkflowExecutionStatus) (m : gmap string NodeExecutionStatus).
Hypothesis Hinv : run_inv (Run g s m).

Lemma unfinished_started i t :
  m !! i = Some t → t ≠ NPending → t ≠ NCompleted → s ≠ WPending ∧ s ≠ WCompleted.
Proof.
  intros Hi Hp Hc. split; intros ->.
  - by apply Hp, (ri_pending _ Hinv i).
  - apply Hc. by apply (proj1 (has_finished_elem m) (ri_completed _ Hinv eq_refl) i).
Qed.

Lemma unfailed_running : s = WRunning → ∀ i, m !! i ≠ Some NFailed.
Proof.
  intros -> i Hi. assert (Hf : has_failed m) by (apply has_failed_elem; eauto).
  apply (ri_failed _ Hinv) in Hf. done.
Qed.

Lemma run_trigger_inv : s = WPending → run_inv (Run g WRunning m).
Proof.
  intros Hs. destruct Hinv; simpl in *. split; simpl; try done.
  - intros _ Hne Hfin. destruct (node_ids g) as [|i l] eqn:Hl; [done|].
    destruct (proj2 (ri_dom0 i)) as [t Ht]; [set_solver|].
    pose proof (proj1 (has_finished_elem m) Hfin i t Ht) as ->.
    by pose proof (ri_pending0 i NCompleted Hs Ht).
  - split; [done|]. intros (i & Hi)%has_failed_elem. by pose proof (ri_pending0 i _ Hs Hi).
Qed.

Lemma run_start_inv i : s ≠ WPending → startable g m i → run_inv (Run g s (<[i := NRunning]> m)).
Proof.
  intros Hs [Hi Hdeps].
  assert (Hnf : ¬ has_finished m).
  { intros Hf. by pose proof (proj1 (has_finished_elem m) Hf i _ Hi). }
  assert (Hlook : ∀ j t, <[i := NRunning]> m !! j = Some t → t ≠ NRunning → m !! j = Some t ∧ j ≠ i).
  { intros j t. rewrite lookup_insert. case_decide; [|naive_solver]. intros [= <-]. done. }
  assert (Hkeep : ∀ j t, m !! j = Some t → t ≠ NPending → <[i := NRunning]> m !! j = Some t).
  { intros j t Hj Ht. rewrite lookup_insert_ne; [done|]. congruence. }
  destruct Hinv; simpl in *. split; simpl; try done.
  - intros j. rewrite lookup_insert_is_Some', ri_dom0. split; [|naive_solver].
    intros [<-|]; [|done]. apply ri_dom0. eauto.
  - intros j k t. rewrite lookup_insert. case_decide as E.
    + subst j. intros _ _ Hd. by apply Hkeep; [apply Hdeps|].
    + intros Hj Ht Hd. apply Hkeep; [|done]. by eapply ri_order0.
  - intros j k (Hj & _)%Hlook Hd Hk; [|done]. apply Hlook in Hk as [Hk _]; [|done].
    by eapply ri_unblocked0.
  - intros _ _ Hf. pose proof (proj1 (has_finished_elem _) Hf i NRunning) as Hc.
    rewrite lookup_insert, decide_True in Hc by done. naive_solver.
  - intros Hc. by apply ri_completed0 in Hc.
  - rewrite ri_failed0, !has_failed_elem. split; intros [j Hj]; exists j; [by apply Hkeep|].
    by apply Hlook in Hj as [Hj _].
Qed.

Lemma run_complete_inv i :
  m !! i = Some NRunning →
  run_inv (Run g (settle s (<[i := NCompleted]> m)) (<[i := NCompleted]> m)).
Proof.
  intros Hi. destruct (unfinished_started i _ Hi) as [Hsp Hsc]; [done..|].
  pose proof unfailed_running as Hrun.
  assert (Hf : has_failed (<[i := NCompleted]> m) ↔ has_failed m).
  { rewrite !has_failed_elem. split; intros [j Hj]; exists j; revert Hj; rewrite lookup_insert;
      case_decide; congruence. }
  assert (Hlook : ∀ j t, <[i := NCompleted]> m !! j = Some t → t ≠ NCompleted → m !! j = Some t).
  { intros j t. rewrite lookup_insert. case_decide; [|naive_solver]. intros [= <-]. done. }
  assert (Hkeep : ∀ j, m !! j = Some NCompleted → <[i := NCompleted]> m !! j = Some NCompleted).
  { intros j Hj. rewrite lookup_insert. by case_decide. }
  destruct Hinv; simpl in *. split; simpl; try done.
  - intros j. rewrite lookup_insert_is_Some', ri_dom0. split; [|naive_solver].
    intros [<-|]; [|done]. apply ri_dom0. eauto.
  - intros j k t. rewrite lookup_insert. case_decide as E.
    + subst j. intros _ _ Hd. apply Hkeep. by eapply ri_order0; [exact Hi|left|].
    + intros Hj Ht Hd. apply Hkeep. by eapply ri_order0.
  - intros j k Hj%Hlook Hd Hk; [|done]. apply Hlook in Hk; [|done]. by eapply ri_unblocked0.
  - intros j t Hst. destruct (settle_cases s (<[i := NCompleted]> m)); naive_solver congruence.
  - intros Hst. destruct (settle_cases s (<[i := NCompleted]> m)); naive_solver congruence.
  - intros Hst. destruct (settle_cases s (<[i := NCompleted]> m)); naive_solver congruence.
  - rewrite Hf. rewrite <- ri_failed0.
    destruct (settle_cases s (<[i := NCompleted]> m)) as [[? ->]|[(-> & Hx & ->)|[(-> & Hx & _ & ->)|(-> & Hx & _ & ->)]]];
      [done| | |]; [|done|done].
    apply Hf, ri_failed0 in Hx. done.
Qed.

Lemma run_fail_inv i m' :
  m !! i = Some NRunning → failed_with g i m m' → run_inv (Run g (settle s m') m').
Proof.
  intros Hi Hfw. destruct (unfinished_started i _ Hi) as [Hsp Hsc]; [done..|].
  destruct Hfw as [Fi Fb Fo Fd].
  assert (Hfail : has_failed m') by (apply has_failed_elem; eauto).
  assert (Hpend : ∀ j, Blocked g (<[i := NFailed]> m) j → is_Some (m !! j) → m !! j = Some NPending).
  { intros j HB%Blocked_pending [t Ht]. revert HB. unfold status_of. rewrite lookup_insert.
    case_decide; [done|]. rewrite Ht. simpl. congruence. }
  assert (Hlook : ∀ j t, m' !! j = Some t → t ≠ NFailed → m !! j = Some t ∧ j ≠ i ∧
    ¬ Blocked g (<[i := NFailed]> m) j).
  { intros j t Hj Ht. assert (Hji : j ≠ i) by congruence.
    assert (HnB : ¬ Blocked g (<[i := NFailed]> m) j).
    { intros HB. apply Ht. rewrite (Fb j HB) in Hj; [congruence|]. apply Fd. eauto. }
    split; [|done]. by rewrite <- (Fo j). }
  assert (Hkeep : ∀ j, m !! j = Some NCompleted → m' !! j = Some NCompleted).
  { intros j Hj. rewrite Fo; [done|congruence|]. intros HB%Hpend; [congruence|eauto]. }
  assert (Hsettle : settle s m' = WFailed).
  { destruct (settle_cases s m') as [[Hr ->]|[(_ & _ & ->)|[(-> & Hx & _)|(-> & Hx & _)]]]; try done.
    destruct s; done. }
  rewrite Hsettle. destruct Hinv; simpl in *. split; simpl; try done.
  - intros j. by rewrite Fd.
  - intros j k t Hj Ht Hd. apply Hlook in Hj as (Hj & _); [|naive_solver].
    apply Hkeep. by eapply ri_order0.
  - intros j k Hj Hd Hk. apply Hlook in Hj as (Hj & Hji & HnB); [|done]. apply HnB.
    assert (Hst : status_of (<[i := NFailed]> m) j = NPending).
    { unfold status_of. by rewrite lookup_insert_ne, Hj. }
    destruct (blocked_or_not g (<[i := NFailed]> m) k ri_wf0) as [HB|HB].
    + by eapply blocked_by_blocked.
    + destruct (decide (k = i)) as [->|Hki].
      * eapply blocked_by_failure; [done..|]. unfold status_of. by rewrite lookup_insert, decide_True.
      * destruct (ri_unblocked0 j k Hj Hd). by rewrite <- (Fo k).
Qed.
End preservation.

Lemma run_step_inv r r' : run_step r r' → run_inv r → run_inv r'.
Proof.
  destruct 1; intros Hinv; eauto using run_trigger_inv, run_start_inv, run_complete_inv, run_fail_inv.
Qed.

Lemma run_steps_inv r r' : rtc run_step r r' → run_inv r → run_inv r'.
Proof. induction 1; eauto using run_step_inv. Qed.

(** What a step never takes back. *)
Lemma run_step_stable r r' :
  run_step r r' → run_graph r' = run_graph r ∧ (run_status r ≠ WPending → run_status r' ≠ WPending) ∧
  (run_inv r → ∀ i, run_nodes r !! i = Some NCompleted → run_nodes r' !! i = Some NCompleted).
Proof.
  destruct 1 as [g m|g s m i Hs [Hi _]|g s m i Hi|g s m m' i Hi Hf]; simpl; (split; [done|]).
  - done.
  - split; [done|]. intros _ j Hj. rewrite lookup_insert_ne; [done|congruence].
  - split; [unfold settle; repeat case_decide; done|]. intros _ j Hj. rewrite lookup_insert. by case_decide.
  - split; [unfold settle; repeat case_decide; done|]. intros Hinv j Hj.
    rewrite (fw_other _ _ _ _ Hf); [done|congruence|]. intros HB%Blocked_pending. revert HB.
    unfold status_of. rewrite lookup_insert. case_decide; [congruence|]. by rewrite Hj.
Qed.

Lemma run_steps_stable r r' :
  rtc run_step r r' → run_inv r →
  run_graph r' = run_graph r ∧ (run_status r ≠ WPending → run_status r' ≠ WPending) ∧
  ∀ i, run_nodes r !! i = Some NCompleted → run_nodes r' !! i = Some NCompleted.
Proof.
  induction 1 as [r|r r1 r' Hs _ IH]; [done|]. intros Hinv.
  destruct (run_step_stable r r1 Hs) as (Hg & Hp & Hc).
  destruct IH as (Hg' & Hp' & Hc'); [by eapply run_step_inv|]. split; [congruence|]. naive_solver.
Qed.

(** ** Progress and termination *)

(** A running execution of a non-empty definition has a node that runs or
    one that may start. *)
Lemma run_progress r :
  run_inv r → run_status r = WRunning → node_ids (run_graph r) ≠ [] →
  ∃ i, run_nodes r !! i = Some NRunning ∨ startable (run_graph r) (run_nodes r) i.
Proof.
  destruct r as [g s m]. intros Hinv Hs Hne. simpl in *.
  pose proof (unfailed_running g s m Hinv Hs) as Hnf.
  destruct (decide (map_Exists (λ _ t, t = NRunning) m)) as [(i & t & Hi & ->)|Hnr]; [by exists i; left|].
  set (S := filter (λ i, m !! i = Some NPending) (node_ids g)).
  assert (Hcase : ∀ i t, m !! i = Some t → t = NPending ∨ t = NCompleted).
  { intros i t Hi. destruct t; auto.
    - destruct Hnr. by exists i, NRunning.
    - by destruct (Hnf i). }
  destruct S as [|i S'] eqn:HS.
  - destruct (ri_running _ Hinv Hs Hne). apply has_finished_elem. intros i t Hi.
    destruct (Hcase i t Hi) as [->|]; [|done]. exfalso.
    assert (Hin : i ∈ S). { apply list_elem_of_filter. split; [done|]. apply (ri_dom _ Hinv). simpl. eauto. }
    rewrite HS in Hin. set_solver.
  - destruct (acyclic_minimal g S i (ri_acyclic _ Hinv)) as (j & Hj & Hmin); [rewrite HS; set_solver|].
    apply list_elem_of_filter in Hj as [Hj _]. exists j. right. split; [done|]. intros k Hk.
    destruct (proj2 (ri_dom _ Hinv k)) as [t Ht]; [by eapply depends_node_r; [apply Hinv|]|].
    simpl in Ht. destruct (Hcase k t Ht) as [->| ->]; [|done]. exfalso.
    apply (Hmin k Hk), list_elem_of_filter. split; [done|]. by eapply depends_node_r; [apply Hinv|].
Qed.

(** The work left: two per pending node, one per running node, one for the
    trigger. *)
Definition status_work (s : WorkflowExecutionStatus) : nat := if decide (s = WPending) then 1 else 0.
Definition nodes_work (ids : list string) (m : gmap string NodeExecutionStatus) : nat :=
  sum_list_with (λ i, node_rank (status_of m i)) ids.
Definition run_work (r : run) : nat :=
  status_work (run_status r) + nodes_work (node_ids (run_graph r)) (run_nodes r).

Lemma nodes_work_bound ids m : nodes_work ids m ≤ 2 * length ids.
Proof.
  unfold nodes_work. induction ids as [|i ids IH]; simpl; [lia|].
  assert (node_rank (status_of m i) ≤ 2) by (destruct (status_of m i); simpl; lia). lia.
Qed.

Lemma nodes_work_le ids m m' :
  (∀ j, node_rank (status_of m' j) ≤ node_rank (status_of m j)) → nodes_work ids m' ≤ nodes_work ids m.
Proof.
  intros H. unfold nodes_work. induction ids as [|j ids IH]; simpl; [lia|]. specialize (H j). lia.
Qed.

Lemma nodes_work_lt ids m m' i :
  i ∈ ids → (∀ j, node_rank (status_of m' j) ≤ node_rank (status_of m j)) →
  node_rank (status_of m' i) < node_rank (status_of m i) → nodes_work ids m' < nodes_work ids m.
Proof.
  intros Hi H Hlt. induction ids as [|j ids IH]; [set_solver|].
  pose proof (nodes_work_le ids m m' H). unfold nodes_work in *. simpl.
  apply elem_of_cons in Hi as [->|Hi]; [lia|]. specialize (IH Hi). specialize (H j). lia.
Qed.

Lemma nodes_work_insert ids m i s t :
  i ∈ ids → m !! i = Some s → node_rank t < node_rank s → nodes_work ids (<[i := t]> m) < nodes_work ids m.
Proof.
  intros Hi Hs Hlt. apply (nodes_work_lt _ _ _ i Hi).
  - intros j. rewrite status_of_insert. case_decide as E; [|done]. subst j.
    unfold status_of. rewrite Hs. simpl. lia.
  - rewrite status_of_insert, decide_True by done. unfold status_of. by rewrite Hs.
Qed.

Lemma settle_work s m : status_work (settle s m) ≤ status_work s.
Proof. unfold settle. destruct s; simpl; repeat case_decide; simpl; unfold status_work; simpl; lia || done. Qed.

(** Every step does some of the work. *)
Lemma run_step_work r r' : run_step r r' → run_inv r → run_work r' < run_work r.
Proof.
  intros Hstep Hinv. pose proof (ri_dom _ Hinv) as Hdom. unfold run_work.
  destruct Hstep as [g m|g s m i Hs [Hi _]|g s m i Hi|g s m m' i Hi Hf]; cbn [run_graph run_status run_nodes] in *.
  - unfold status_work. simpl. lia.
  - pose proof (nodes_work_insert (node_ids g) m i NPending NRunning) as Hw.
    specialize (Hw (proj1 (Hdom i) ltac:(eauto)) Hi). simpl in Hw. lia.
  - pose proof (nodes_work_insert (node_ids g) m i NRunning NCompleted) as Hw.
    specialize (Hw (proj1 (Hdom i) ltac:(eauto)) Hi). simpl in Hw.
    pose proof (settle_work s (<[i := NCompleted]> m)). lia.
  - assert (Hw : nodes_work (node_ids g) m' < nodes_work (node_ids g) m).
    { apply (nodes_work_lt _ _ _ i); [apply Hdom; eauto| |].
      - intros j. destruct (decide (j = i)) as [->|Hj]; [unfold status_of; rewrite Hi, (fw_node _ _ _ _ Hf); simpl; lia|].
        destruct (blocked_or_not g (<[i := NFailed]> m) j (ri_wf _ Hinv)) as [HB|HB].
        + destruct (m !! j) as [t|] eqn:Ht.
          * unfold status_of. rewrite (fw_blocked _ _ _ _ Hf j HB) by eauto. simpl. lia.
          * unfold status_of. rewrite Ht. destruct (m' !! j) eqn:Ht'; [|done].
            assert (is_Some (m !! j)) as [? ?] by (apply (fw_dom _ _ _ _ Hf); eauto). congruence.
        + unfold status_of. by rewrite (fw_other _ _ _ _ Hf j Hj HB).
      - unfold status_of. rewrite Hi, (fw_node _ _ _ _ Hf). simpl. lia. }
    pose proof (settle_work s m'). lia.
Qed.

Lemma run_steps_work k r r' : nsteps run_step k r r' → run_inv r → k + run_work r' ≤ run_work r.
Proof.
  induction 1 as [r|k r r1 r' Hs _ IH]; intros Hinv; [lia|].
  pose proof (run_step_work r r1 Hs Hinv). pose proof (IH (run_step_inv _ _ Hs Hinv)). lia.
Qed.

(** Termination and progress: every maximal run of a submitted, non-empty
    definition is finite, with at most two steps per node after the trigger,
    and ends completed or failed. *)
Theorem every_run_ends r :
  run_initial r → node_ids (run_graph r) ≠ [] →
  (∀ k r', nsteps run_step k r r' → k ≤ 1 + 2 * length (node_ids (run_graph r))) ∧
  ∀ r', rtc run_step r r' → (∀ r'', ¬ run_step r' r'') → workflow_terminal (run_status r') = true.
Proof.
  intros Hini Hne. pose proof (run_initial_inv r Hini) as Hinv. split.
  - intros k r' Hk. pose proof (run_steps_work k r r' Hk Hinv).
    pose proof (nodes_work_bound (node_ids (run_graph r)) (run_nodes r)).
    assert (status_work (run_status r) ≤ 1) by (unfold status_work; case_decide; lia).
    unfold run_work in *. lia.
  - intros r' Hr' Hstuck. pose proof (run_steps_inv r r' Hr' Hinv) as Hinv'.
    destruct (run_steps_stable r r' Hr' Hinv) as (Hg & _ & _).
    destruct r' as [g s m]. simpl in *. destruct s; [| |done..].
    + by destruct (Hstuck (Run g WRunning m)); constructor.
    + destruct (run_progress _ Hinv') as [i [Hi|Hi]]; [done|simpl; by rewrite Hg| |]; simpl in *.
      * by destruct (Hstuck _ (run_complete g WRunning m i Hi)).
      * by destruct (Hstuck _ (run_start g WRunning m i ltac:(done) Hi)).
Qed.
