(* ===== verification/Cycles.v ===== *)
(** * Cycle detection

    The iterative depth-first traversal of src/app/domain/validation/rules/
    cycles.py, over the adjacency dictionary the rule builds first.  The frame
    stack is kept with its top first; the traversal stack is kept in the
    order of the source, because positions in it are part of the answer. *)

From S2P Require Import Prelude Numerals PyVal States Errors.

(** The adjacency dictionary [graph], in insertion order. *)
Definition adjacency : Type := list (string * list string).

Record dfs : Type := {
  visited : gset string;
  active : gset string;
  stack_index : gmap string nat;
  traversal_stack : list string;
  frame_stack : list (string * nat);
  dfs_errors : list WorkflowValidationError;
}.

(** The error appended for a back edge. *)
Definition cycle_error (node_id dependency_id : string) (cycle_path : list string)
    : WorkflowValidationError :=
  {| ve_code := "cyclic_dependency";
     ve_message := "Node '" +:+ node_id +:+ "' participates in a cyclic dependency through '"
                   +:+ dependency_id +:+ "'.";
     ve_path := "dag.nodes";
     ve_node_id := Some node_id;
     ve_dependency_id := Some dependency_id;
     ve_meta := [("cycle_path", String.concat "->" cycle_path)] |}.

(** The initialisation of the [for start_node_id in graph] body. *)
Definition dfs_push_start (s : dfs) (start_node_id : string) : dfs :=
  {| visited := {[start_node_id]} ∪ visited s;
     active := {[start_node_id]} ∪ active s;
     stack_index := <[start_node_id := 0]> (stack_index s);
     traversal_stack := traversal_stack s ++ [start_node_id];
     frame_stack := [(start_node_id, 0)];
     dfs_errors := dfs_errors s |}.

(** One iteration of [while frame_stack]. *)
Definition dfs_step (graph : adjacency) (s : dfs) : py dfs :=
  match frame_stack s with
  | [] => Ok s
  | (node_id, dependency_index) :: frames =>
      match aget node_id graph with
      | None => Raise (KeyError node_id)
      | Some dependencies =>
          match dependencies !! dependency_index with
          | None =>
              if bool_decide (node_id ∈ active s) then
                Ok {| visited := visited s;
                      active := active s ∖ {[node_id]};
                      stack_index := delete node_id (stack_index s);
                      traversal_stack := take (pred (length (traversal_stack s))) (traversal_stack s);
                      frame_stack := frames;
                      dfs_errors := dfs_errors s |}
              else Raise (KeyError node_id)
          | Some dependency_id =>
              let frames := (node_id, S dependency_index) :: frames in
              if bool_decide (dependency_id ∈ active s) then
                match stack_index s !! dependency_id with
                | None => Raise (KeyError dependency_id)
                | Some cycle_start_index =>
                    let cycle_path := drop cycle_start_index (traversal_stack s) ++ [dependency_id] in
                    Ok {| visited := visited s; active := active s; stack_index := stack_index s;
                          traversal_stack := traversal_stack s; frame_stack := frames;
                          dfs_errors := dfs_errors s ++ [cycle_error node_id dependency_id cycle_path] |}
                end
              else if negb (memb dependency_id graph.*1) || bool_decide (dependency_id ∈ visited s) then
                Ok {| visited := visited s; active := active s; stack_index := stack_index s;
                      traversal_stack := traversal_stack s; frame_stack := frames;
                      dfs_errors := dfs_errors s |}
              else
                Ok {| visited := {[dependency_id]} ∪ visited s;
                      active := {[dependency_id]} ∪ active s;
                      stack_index := <[dependency_id := length (traversal_stack s)]> (stack_index s);
                      traversal_stack := traversal_stack s ++ [dependency_id];
                      frame_stack := (dependency_id, 0) :: frames;
                      dfs_errors := dfs_errors s |}
          end
      end
  end.

(** The [while] loop; [None] when the fuel runs out. *)
Fixpoint dfs_run (fuel : nat) (graph : adjacency) (s : dfs) : option (py dfs) :=
  match frame_stack s with
  | [] => Some (Ok s)
  | _ :: _ =>
      match fuel with
      | O => None
      | S f => match dfs_step graph s with
               | Raise e => Some (Raise e)
               | Ok s' => dfs_run f graph s'
               end
      end
  end.

(** One visit of every node and of every edge (see [dfs_step_spec]). *)
Definition dfs_fuel (graph : adjacency) : nat :=
  sum_list ((λ kv, S (length kv.2)) <$> graph).

(** The outer [for] loop over the keys. *)
Fixpoint dfs_all (graph : adjacency) (starts : list string) (s : dfs) : option (py dfs) :=
  match starts with
  | [] => Some (Ok s)
  | start :: starts' =>
      if bool_decide (start ∈ visited s) then dfs_all graph starts' s
      else match dfs_run (dfs_fuel graph) graph (dfs_push_start s start) with
           | Some (Ok s') => dfs_all graph starts' s'
           | r => r
           end
  end.

Definition dfs_empty : dfs :=
  {| visited := ∅; active := ∅; stack_index := ∅; traversal_stack := []; frame_stack := [];
     dfs_errors := [] |}.

(** The errors of the traversal of a whole graph. *)
Definition cycle_errors (graph : adjacency) : option (py (list WorkflowValidationError)) :=
  match dfs_all graph graph.*1 dfs_empty with
  | None => None
  | Some r => Some (s ← r; Ok (dfs_errors s))
  end.

(** ** Specification *)

Definition edges (graph : adjacency) (x : string) : list string := default [] (aget x graph).

Definition edge (graph : adjacency) : relation string := λ x y, y ∈ edges graph x.

(** Consecutive elements are joined by edges. *)
Definition is_path (graph : adjacency) (p : list string) : Prop :=
  ∀ i x y, p !! i = Some x → p !! S i = Some y → edge graph x y.

(** A closed path, first and last element included. *)
Definition is_cycle (graph : adjacency) (p : list string) : Prop :=
  ∃ x q, p = x :: q ++ [x] ∧ is_path graph p.

Definition acyclic_graph (graph : adjacency) : Prop := ∀ x, ¬ tc (edge graph) x x.

(** A reported error names a real cycle and carries its path. *)
Definition genuine (graph : adjacency) (e : WorkflowValidationError) : Prop :=
  ∃ n d p, is_cycle graph p ∧ e = cycle_error n d p.

Lemma is_path_tail graph x p : is_path graph (x :: p) → is_path graph p.
Proof. intros H i a b Ha Hb. by apply (H (S i)). Qed.

Lemma is_path_tc graph x q y : is_path graph (x :: q ++ [y]) → tc (edge graph) x y.
Proof.
  revert x. induction q as [|z q IH]; intros x H.
  - apply tc_once. by apply (H 0).
  - eapply tc_l; [by apply (H 0)|]. apply IH. by eapply is_path_tail.
Qed.

Lemma is_cycle_tc graph p : is_cycle graph p → ∃ x, tc (edge graph) x x.
Proof. intros (x & q & -> & Hp). exists x. by eapply is_path_tc. Qed.

Lemma is_path_app graph p x y :
  is_path graph (p ++ [x]) → edge graph x y → is_path graph (p ++ [x; y]).
Proof.
  intros Hp Hxy i a b Ha Hb.
  destruct (decide (i < length p)) as [Hlt|Hge].
  - rewrite lookup_app_l in Ha by lia. apply (Hp i); [by rewrite lookup_app_l by lia|].
    destruct (decide (S i < length p)) as [|Hge'].
    + rewrite lookup_app_l in Hb by lia. by rewrite lookup_app_l by lia.
    + rewrite lookup_app_r in Hb by lia. rewrite lookup_app_r by lia.
      by replace (S i - length p) with 0 in * by lia.
  - rewrite lookup_app_r in Ha, Hb by lia.
    destruct (i - length p) as [|k] eqn:Hk.
    + replace (S i - length p) with 1 in Hb by lia. simpl in *. by simplify_eq.
    + replace (S i - length p) with (S (S k)) in Hb by lia. done.
Qed.

Lemma is_path_drop graph n p : is_path graph p → is_path graph (drop n p).
Proof. intros H i x y. rewrite !lookup_drop, Nat.add_succ_r. apply H. Qed.

(** ** The traversal's invariant *)

Section traversal.
Context (graph : adjacency).
Hypothesis Hkeys : NoDup graph.*1.
Hypothesis Hclosed : ∀ x y, edge graph x y → y ∈ graph.*1.

(** [fin] lists the finished nodes, each after the nodes it points to. *)
Definition topological (fin : list string) : Prop :=
  ∀ p x y, fin !! p = Some x → edge graph x y → ∃ q, q < p ∧ fin !! q = Some y.

(** The edges a frame has passed lead to finished nodes or to the frame
    above it. *)
Fixpoint frames_ok (fin : list string) (above : option string) (frames : list (string * nat))
    : Prop :=
  match frames with
  | [] => True
  | (x, k) :: rest =>
      (∀ j d, j < k → edges graph x !! j = Some d → d ∈ fin ∨ above = Some d) ∧
      frames_ok fin (Some x) rest
  end.

Definition finished (s : dfs) (x : string) : Prop := x ∈ visited s ∧ x ∉ active s.

Record dfs_inv (s : dfs) : Prop := {
  inv_stack : traversal_stack s = reverse (frame_stack s).*1;
  inv_active : ∀ x, x ∈ active s ↔ x ∈ traversal_stack s;
  inv_index : ∀ x i, stack_index s !! x = Some i ↔ traversal_stack s !! i = Some x;
  inv_nodup : NoDup (traversal_stack s);
  inv_sub : ∀ x, x ∈ active s → x ∈ visited s;
  inv_known : ∀ x, x ∈ visited s → x ∈ graph.*1;
  inv_path : is_path graph (traversal_stack s);
  inv_genuine : Forall (genuine graph) (dfs_errors s);
  inv_order : dfs_errors s = [] →
    ∃ fin, (∀ x, x ∈ fin ↔ finished s x) ∧ topological fin ∧
           frames_ok fin None (frame_stack s);
}.

(** The work left: unvisited nodes with their edges, and what remains of
    each frame. *)
Definition unvisited_work (s : dfs) : nat :=
  sum_list ((λ kv, if decide (kv.1 ∈ visited s) then 0 else S (length kv.2)) <$> graph).

Definition frame_work (f : string * nat) : nat := S (length (edges graph f.1) - f.2).

Definition dfs_measure (s : dfs) : nat :=
  unvisited_work s + sum_list (frame_work <$> frame_stack s).

Lemma aget_known x : x ∈ graph.*1 → aget x graph = Some (edges graph x).
Proof.
  intros H. unfold edges. destruct (aget x graph) eqn:E; [done|].
  by apply aget_None in E.
Qed.

(** Marking one node visited takes exactly its share out of the work. *)
Lemma unvisited_work_visit (v : gset string) x (g : adjacency) :
  NoDup g.*1 → x ∈ g.*1 → x ∉ v →
  sum_list ((λ kv, if decide (kv.1 ∈ {[x]} ∪ v) then 0 else S (length kv.2)) <$> g)
  + S (length (default [] (aget x g)))
  = sum_list ((λ kv, if decide (kv.1 ∈ v) then 0 else S (length kv.2)) <$> g).
Proof.
  intros Hnd Hx Hv. induction g as [|[y l] g IH]; [set_solver|].
  rewrite !fmap_cons. simpl sum_list. simpl aget.
  rewrite fmap_cons, NoDup_cons in Hnd. destruct Hnd as [Hy Hnd].
  destruct (String.eqb_spec x y) as [->|Hne].
  - rewrite decide_True by (simpl; set_solver). rewrite (decide_False (P := y ∈ v)) by done.
    simpl. enough (Heq : sum_list ((λ kv : string * list string,
      if decide (kv.1 ∈ {[y]} ∪ v) then 0 else S (length kv.2)) <$> g)
      = sum_list ((λ kv, if decide (kv.1 ∈ v) then 0 else S (length kv.2)) <$> g)) by lia.
    f_equal. apply list_fmap_ext. intros i [z m] Hi. simpl.
    assert (z ≠ y) by (intros ->; apply Hy, list_elem_of_fmap; exists (y, m);
      split; [done|by eapply list_elem_of_lookup_2]).
    repeat case_decide; set_solver.
  - rewrite <- (IH Hnd) by set_solver. simpl.
    destruct (decide (y ∈ v)).
    + rewrite decide_True by set_solver. lia.
    + rewrite decide_False by set_solver. lia.
Qed.

Lemma unvisited_work_le (v : gset string) (g : adjacency) :
  sum_list ((λ kv, if decide (kv.1 ∈ v) then 0 else S (length kv.2)) <$> g) ≤ dfs_fuel g.
Proof.
  unfold dfs_fuel. induction g as [|kv g IH]; [done|].
  rewrite !fmap_cons. simpl sum_list. case_decide; lia.
Qed.

Lemma frames_ok_mono fin fin' above frames :
  (∀ x, x ∈ fin → x ∈ fin') → frames_ok fin above frames → frames_ok fin' above frames.
Proof.
  intros Hsub. revert above. induction frames as [|[x k] frames IH]; intros above; simpl; [done|].
  intros [H1 H2]. split; [|by apply IH]. intros j d Hj Hd. destruct (H1 j d Hj Hd); auto.
Qed.

Lemma topological_snoc fin x :
  topological fin → (∀ y, edge graph x y → y ∈ fin) → topological (fin ++ [x]).
Proof.
  intros Ht Hx p z y Hz Hy. destruct (decide (p < length fin)).
  - rewrite lookup_app_l in Hz by lia. destruct (Ht p z y Hz Hy) as (q & Hq & Hl).
    exists q. split; [done|]. by apply lookup_app_l_Some.
  - rewrite lookup_app_r in Hz by lia. apply list_lookup_singleton_Some in Hz as [Hp <-].
    destruct (proj1 (list_elem_of_lookup _ _) (Hx y Hy)) as [q Hq].
    exists q. split; [apply lookup_lt_Some in Hq; lia|]. by apply lookup_app_l_Some.
Qed.

Lemma inv_stack_cons s x k rest :
  dfs_inv s → frame_stack s = (x, k) :: rest →
  traversal_stack s = reverse rest.*1 ++ [x] ∧ x ∈ active s ∧ (x ∉ reverse rest.*1) ∧
  x ∈ graph.*1.
Proof.
  intros Hi Hf. assert (Ht : traversal_stack s = reverse rest.*1 ++ [x]).
  { rewrite (inv_stack s Hi), Hf. csimpl. by rewrite reverse_cons. }
  assert (Ha : x ∈ active s) by (apply Hi; rewrite Ht; set_solver).
  split_and!; [done|done| |by apply Hi, Hi].
  pose proof (inv_nodup s Hi) as Hnd. rewrite Ht, NoDup_app in Hnd. set_solver.
Qed.

(** Leaving a frame whose edges are exhausted. *)
Lemma dfs_pop_spec s x k rest :
  dfs_inv s → frame_stack s = (x, k) :: rest → edges graph x !! k = None →
  let s' := {| visited := visited s; active := active s ∖ {[x]};
               stack_index := delete x (stack_index s);
               traversal_stack := take (pred (length (traversal_stack s))) (traversal_stack s);
               frame_stack := rest; dfs_errors := dfs_errors s |} in
  dfs_inv s' ∧ dfs_measure s = S (dfs_measure s').
Proof.
  intros Hi Hf Hk. destruct (inv_stack_cons s x k rest Hi Hf) as (Ht & Ha & Hx & _).
  assert (Htake : take (pred (length (traversal_stack s))) (traversal_stack s) = reverse rest.*1).
  { rewrite Ht, length_app. simpl. replace (pred _) with (length (reverse rest.*1)) by lia.
    apply take_app_length. }
  simpl. rewrite Htake. split.
  - split; simpl.
    + done.
    + intros y. rewrite elem_of_difference, (inv_active s Hi), Ht, elem_of_app,
        elem_of_singleton, list_elem_of_singleton. set_solver.
    + intros y i. rewrite lookup_delete_Some, (inv_index s Hi), Ht. split.
      * intros [Hne Hy]. apply lookup_app_Some in Hy as [|[_ Hy]]; [done|].
        apply list_lookup_singleton_Some in Hy as [_ ->]. done.
      * intros Hy. split; [|by apply lookup_app_l_Some].
        intros ->. by apply Hx, list_elem_of_lookup_2 with i.
    + pose proof (inv_nodup s Hi) as Hnd. rewrite Ht in Hnd. by apply NoDup_app in Hnd as [? _].
    + intros y Hy. apply (inv_sub s Hi). set_solver.
    + apply Hi.
    + intros i a b Ha' Hb'. apply (inv_path s Hi i); rewrite Ht; by apply lookup_app_l_Some.
    + apply Hi.
    + intros He. destruct (inv_order s Hi He) as (fin & Hfin & Htop & Hfr).
      rewrite Hf in Hfr. simpl in Hfr. destruct Hfr as [Htopf Hrest].
      exists (fin ++ [x]). split_and!.
      * intros y. rewrite elem_of_app, list_elem_of_singleton, Hfin.
        unfold finished. simpl. rewrite elem_of_difference, elem_of_singleton.
        pose proof (inv_sub s Hi x Ha).
        destruct (decide (y = x)) as [->|]; [naive_solver|]. destruct (decide (y ∈ active s)); naive_solver.
      * apply topological_snoc; [done|]. intros y Hy.
        apply list_elem_of_lookup in Hy as [j Hj].
        apply lookup_lt_Some in Hj as Hjl. apply lookup_ge_None in Hk.
        destruct (Htopf j y ltac:(lia) Hj); done.
      * destruct rest as [|[z m] rest']; simpl in *; [done|]. destruct Hrest as [Hz Hrest].
        split; [|by eapply frames_ok_mono; [|exact Hrest]; set_solver].
        intros j d Hj Hd. left. destruct (Hz j d Hj Hd) as [|[= ->]]; set_solver.
  - unfold dfs_measure, unvisited_work. simpl. rewrite Hf. csimpl. unfold frame_work. simpl.
    apply lookup_ge_None in Hk. lia.
Qed.

(** Passing an edge without entering its target. *)
Lemma dfs_bump_spec s x k rest d errors :
  dfs_inv s → frame_stack s = (x, k) :: rest → edges graph x !! k = Some d →
  Forall (genuine graph) errors →
  (errors = [] → dfs_errors s = [] ∧ finished s d) →
  let s' := {| visited := visited s; active := active s; stack_index := stack_index s;
               traversal_stack := traversal_stack s; frame_stack := (x, S k) :: rest;
               dfs_errors := errors |} in
  dfs_inv s' ∧ dfs_measure s = S (dfs_measure s').
Proof.
  intros Hi Hf Hk Hg He. simpl. split.
  - destruct Hi as [H1 H2 H3 H4 H5 H6 H7 H8 H9]. split; simpl; try done.
    + rewrite H1, Hf. done.
    + intros Hnil. destruct (He Hnil) as [Hnil' Hfd].
      destruct (H9 Hnil') as (fin & Hfin & Htop & Hfr). exists fin. split; [done|split; [done|]].
      rewrite Hf in Hfr. simpl in Hfr. destruct Hfr as [Htopf Hrest]. split; [|done].
      intros j e Hj Hje. destruct (decide (j = k)) as [->|].
      * left. apply Hfin. by simplify_eq.
      * apply (Htopf j); [lia|done].
  - unfold dfs_measure, unvisited_work. simpl. rewrite Hf. csimpl. unfold frame_work. simpl.
    apply lookup_lt_Some in Hk. lia.
Qed.

(** Entering an unvisited node. *)
Lemma dfs_push_spec s x k rest d :
  dfs_inv s → frame_stack s = (x, k) :: rest → edges graph x !! k = Some d →
  d ∉ visited s →
  let s' := {| visited := {[d]} ∪ visited s; active := {[d]} ∪ active s;
               stack_index := <[d := length (traversal_stack s)]> (stack_index s);
               traversal_stack := traversal_stack s ++ [d];
               frame_stack := (d, 0) :: (x, S k) :: rest;
               dfs_errors := dfs_errors s |} in
  dfs_inv s' ∧ dfs_measure s = S (dfs_measure s').
Proof.
  intros Hi Hf Hk Hv. destruct (inv_stack_cons s x k rest Hi Hf) as (Ht & Ha & Hx & _).
  assert (Hedge : edge graph x d) by (by eapply list_elem_of_lookup_2).
  assert (Hd : d ∈ graph.*1) by (by eapply Hclosed).
  assert (Hna : d ∉ active s) by (intros ?; by apply Hv, Hi).
  assert (Hnt : d ∉ traversal_stack s) by (by rewrite <- (inv_active s Hi)).
  simpl. split.
  - split; simpl.
    + rewrite (inv_stack s Hi), Hf. csimpl. by rewrite !reverse_cons.
    + intros y. rewrite elem_of_union, elem_of_app, (inv_active s Hi). set_solver.
    + intros y i. rewrite lookup_insert. case_decide as Hyd; [subst y|].
      * split; [intros [= <-]; by apply list_lookup_middle|].
        intros Hy. apply lookup_app_Some in Hy as [Hy|[Hl Hy]].
        { by apply list_elem_of_lookup_2 in Hy. }
        apply list_lookup_singleton_Some in Hy as [? _]. f_equal. lia.
      * rewrite (inv_index s Hi). split; [apply lookup_app_l_Some|].
        intros Hy. apply lookup_app_Some in Hy as [Hy|[Hl Hy]]; [done|].
        by apply list_lookup_singleton_Some in Hy as [_ ?].
    + apply NoDup_app. split_and!; [apply Hi|set_solver|apply NoDup_singleton].
    + intros y Hy. pose proof (inv_sub s Hi y). set_solver.
    + intros y Hy. pose proof (inv_known s Hi y). set_solver.
    + rewrite Ht. rewrite <- app_assoc. apply is_path_app; [|done].
      rewrite <- Ht. apply Hi.
    + apply Hi.
    + intros He. destruct (inv_order s Hi He) as (fin & Hfin & Htop & Hfr).
      exists fin. rewrite Hf in Hfr. destruct Hfr as [Htopf Hrest].
      split; [|split; [done|split; [|split; [|done]]]].
      * intros y. rewrite Hfin. unfold finished. simpl. set_solver.
      * intros j e Hj _. lia.
      * intros j e Hj Hje. destruct (decide (j = k)) as [->|]; [right; congruence|].
        destruct (Htopf j e ltac:(lia) Hje); [by left|done].
  - unfold dfs_measure. simpl. rewrite Hf. csimpl. unfold frame_work. simpl.
    unfold unvisited_work. simpl. pose proof (unvisited_work_visit (visited s) d graph Hkeys Hd Hv).
    fold (edges graph d) in *. apply lookup_lt_Some in Hk. lia.
Qed.

(** A back edge closes the part of the stack above its target. *)
Lemma back_edge_genuine s x k rest d i :
  dfs_inv s → frame_stack s = (x, k) :: rest → edges graph x !! k = Some d →
  stack_index s !! d = Some i →
  genuine graph (cycle_error x d (drop i (traversal_stack s) ++ [d])).
Proof.
  intros Hi Hf Hk Hd. destruct (inv_stack_cons s x k rest Hi Hf) as (Ht & _ & _ & _).
  apply (inv_index s Hi) in Hd as Hl. exists x, d, (drop i (traversal_stack s) ++ [d]).
  split; [|done]. exists d, (drop (S i) (traversal_stack s)).
  split; [by rewrite (drop_S _ d) by done|].
  assert (Hlen : i ≤ length (reverse rest.*1)).
  { apply lookup_lt_Some in Hl. rewrite Ht, length_app in Hl. simpl in Hl. lia. }
  rewrite Ht, drop_app_le, <- app_assoc by done. apply is_path_app.
  - rewrite <- drop_app_le, <- Ht by done. apply is_path_drop, Hi.
  - by eapply list_elem_of_lookup_2.
Qed.

Lemma dfs_step_spec s :
  dfs_inv s → frame_stack s ≠ [] →
  ∃ s', dfs_step graph s = Ok s' ∧ dfs_inv s' ∧ dfs_measure s = S (dfs_measure s') ∧
        visited s ⊆ visited s'.
Proof.
  intros Hi Hne. destruct (frame_stack s) as [|[x k] rest] eqn:Hf; [done|].
  destruct (inv_stack_cons s x k rest Hi Hf) as (Ht & Ha & _ & Hx).
  unfold dfs_step. rewrite Hf, (aget_known x Hx).
  destruct (edges graph x !! k) as [d|] eqn:Hk.
  2: { rewrite bool_decide_true by done. eexists. split; [done|].
       destruct (dfs_pop_spec s x k rest Hi Hf Hk). done. }
  destruct (bool_decide_reflect (d ∈ active s)) as [Hda|Hda].
  { apply (inv_active s Hi) in Hda as Hdt. apply list_elem_of_lookup in Hdt as [i Hdi].
    apply (inv_index s Hi) in Hdi. rewrite Hdi. eexists. split; [done|].
    destruct (dfs_bump_spec s x k rest d
      (dfs_errors s ++ [cycle_error x d (drop i (traversal_stack s) ++ [d])]) Hi Hf Hk) as [? ?].
    - apply Forall_app. split; [apply Hi|]. constructor; [|constructor].
      by eapply back_edge_genuine.
    - intros []%app_nil. done.
    - done. }
  assert (Hdk : d ∈ graph.*1) by (eapply (Hclosed x), list_elem_of_lookup_2, Hk).
  rewrite (proj2 (memb_true d _) Hdk). simpl.
  destruct (bool_decide_reflect (d ∈ visited s)) as [Hdv|Hdv].
  - eexists. split; [done|].
    destruct (dfs_bump_spec s x k rest d (dfs_errors s) Hi Hf Hk); [apply Hi|done|done].
  - eexists. split; [done|]. destruct (dfs_push_spec s x k rest d Hi Hf Hk Hdv).
    split_and!; [done|done|]. simpl. set_solver.
Qed.

Lemma dfs_run_spec fuel s :
  dfs_inv s → dfs_measure s ≤ fuel →
  ∃ s', dfs_run fuel graph s = Some (Ok s') ∧ dfs_inv s' ∧ frame_stack s' = [] ∧
        visited s ⊆ visited s'.
Proof.
  revert s. induction fuel as [|f IH]; intros s Hi Hm;
    destruct (frame_stack s) as [|fr rest] eqn:Hf;
    try (exists s; simpl; rewrite Hf; done).
  - exfalso. unfold dfs_measure in Hm. rewrite Hf in Hm. csimpl. unfold frame_work in Hm at 1.
    simpl in Hm. lia.
  - destruct (dfs_step_spec s Hi) as (s1 & Hs1 & Hi1 & Hm1 & Hv1); [by rewrite Hf|].
    destruct (IH s1 Hi1) as (s2 & Hs2 & Hi2 & Hf2 & Hv2); [lia|].
    exists s2. simpl. rewrite Hf, Hs1. split_and!; [done|done|done|set_solver].
Qed.

Lemma dfs_push_start_spec s x :
  dfs_inv s → frame_stack s = [] → x ∈ graph.*1 → x ∉ visited s →
  dfs_inv (dfs_push_start s x) ∧ dfs_measure (dfs_push_start s x) ≤ dfs_fuel graph.
Proof.
  intros Hi Hf Hx Hv. assert (Ht : traversal_stack s = []).
  { by rewrite (inv_stack s Hi), Hf. }
  assert (Hact : ∀ y, y ∉ active s) by (intros y; rewrite (inv_active s Hi), Ht; set_solver).
  assert (Hidx : ∀ y, stack_index s !! y = None).
  { intros y. destruct (stack_index s !! y) eqn:E; [|done].
    apply (inv_index s Hi) in E. by rewrite Ht in E. }
  split.
  - split; simpl; rewrite ?Ht; simpl.
    + done.
    + set_solver.
    + intros y i. rewrite lookup_insert, list_lookup_singleton_Some, Hidx.
      case_decide; naive_solver.
    + apply NoDup_singleton.
    + intros y Hy. set_solver.
    + intros y Hy. pose proof (inv_known s Hi y). set_solver.
    + intros [|i] a b; simpl; [|done]. by intros _.
    + apply Hi.
    + intros He. destruct (inv_order s Hi He) as (fin & Hfin & Htop & _).
      exists fin. split; [|split; [done|split; [|done]]].
      * intros y. rewrite Hfin. unfold finished. simpl. set_solver.
      * intros j d Hj _. lia.
  - unfold dfs_measure, unvisited_work. simpl.
    pose proof (unvisited_work_visit (visited s) x graph Hkeys Hx Hv) as Hw.
    fold (edges graph x) in Hw. unfold frame_work. simpl.
    pose proof (unvisited_work_le (visited s) graph). lia.
Qed.

Lemma dfs_all_spec starts s :
  dfs_inv s → frame_stack s = [] → (∀ x, x ∈ starts → x ∈ graph.*1) →
  ∃ s', dfs_all graph starts s = Some (Ok s') ∧ dfs_inv s' ∧ frame_stack s' = [] ∧
        visited s ⊆ visited s' ∧ ∀ x, x ∈ starts → x ∈ visited s'.
Proof.
  revert s. induction starts as [|x starts IH]; intros s Hi Hf Hst; simpl.
  { exists s. split_and!; try done. set_solver. }
  destruct (bool_decide_reflect (x ∈ visited s)) as [Hv|Hv].
  - destruct (IH s Hi Hf) as (s' & Hs' & Hi' & Hf' & Hv' & Hall); [set_solver|].
    exists s'. split_and!; try done. intros y [->|Hy]%elem_of_cons; auto.
  - destruct (dfs_push_start_spec s x Hi Hf) as [Hi1 Hm1]; [set_solver|done|].
    destruct (dfs_run_spec _ _ Hi1 Hm1) as (s1 & -> & Hi2 & Hf2 & Hv2).
    destruct (IH s1 Hi2 Hf2) as (s' & Hs' & Hi' & Hf' & Hv' & Hall); [set_solver|].
    exists s'. simpl in Hv2. split_and!; try done; [set_solver|].
    intros y [->|Hy]%elem_of_cons; [set_solver|auto].
Qed.

Lemma dfs_empty_inv : dfs_inv dfs_empty.
Proof.
  split; simpl; try done; try set_solver.
  - apply NoDup_nil_2.
  - intros _. exists []. split; [|split; [|done]].
    + intros x. unfold finished. simpl. set_solver.
    + by intros p x y Hp.
Qed.

(** A topological order of the whole graph rules out cycles. *)
Lemma topological_acyclic fin :
  topological fin → (∀ x y, edge graph x y → x ∈ fin) → acyclic_graph graph.
Proof.
  intros Ht Hall.
  assert (Hlt : ∀ x y, tc (edge graph) x y → ∀ p, fin !! p = Some x →
    ∃ q, q < p ∧ fin !! q = Some y).
  { intros x y H. induction H as [x y H|x y z H _ IH]; intros p Hp; [by eapply Ht|].
    destruct (Ht p x y Hp H) as (q & Hq & Hy). destruct (IH q Hy) as (r & Hr & Hz).
    exists r. split; [lia|done]. }
  intros x Hx. assert (Hin : x ∈ fin).
  { inversion Hx; subst; by eapply Hall. }
  apply list_elem_of_lookup in Hin as [p Hp]. revert Hp.
  induction (lt_wf p) as [p _ IH]; intros Hp.
  destruct (Hlt x x Hx p Hp) as (q & Hq & Hqx). by apply (IH q).
Qed.
End traversal.

Lemma cycle_errors_spec graph :
  NoDup graph.*1 → (∀ x y, edge graph x y → y ∈ graph.*1) →
  ∃ errors, cycle_errors graph = Some (Ok errors) ∧
    Forall (genuine graph) errors ∧ (errors = [] ↔ acyclic_graph graph).
Proof.
  intros Hk Hc. unfold cycle_errors.
  destruct (dfs_all_spec graph Hk Hc graph.*1 dfs_empty) as (s & -> & Hi & Hf & _ & Hall);
    [by apply dfs_empty_inv|done|done|].
  exists (dfs_errors s). split_and!; [done|by apply (inv_genuine graph s Hi)|]. split.
  - intros He. destruct (inv_order graph s Hi He) as (fin & Hfin & Htop & _).
    apply (topological_acyclic graph fin Htop). intros x y Hxy. apply Hfin. split.
    + apply Hall. destruct (decide (x ∈ graph.*1)) as [|Hn]; [done|].
      apply aget_None in Hn. unfold edge, edges in Hxy. rewrite Hn in Hxy. simpl in Hxy. set_solver.
    + rewrite (inv_active graph s Hi), (inv_stack graph s Hi), Hf. set_solver.
  - intros Hac. destruct (dfs_errors s) as [|e es] eqn:He; [done|]. exfalso.
    pose proof (inv_genuine graph s Hi) as Hg. rewrite He in Hg.
    apply Forall_cons in Hg as [(n & d & p & Hcyc & _) _].
    apply is_cycle_tc in Hcyc as [x Hx]. by apply (Hac x).
Qed.

(** C19: cycle detection is sound and complete.  On an adjacency dictionary
    whose edges stay inside it, the traversal terminates within its fuel
    without an exception; every error it reports carries a real closed path
    of the graph; and it reports nothing exactly when the graph is acyclic. *)
Theorem cycle_errors_correct graph :
  NoDup graph.*1 → (∀ x y, edge graph x y → y ∈ graph.*1) →
  ∃ errors, cycle_errors graph = Some (Ok errors) ∧
    Forall (genuine graph) errors ∧ (errors = [] ↔ acyclic_graph graph).
Proof. apply cycle_errors_spec. Qed.
