(* ===== verification/Validation.v ===== *)
(** * Definition validation

    src/app/domain/validation/: the eight rules over an untrusted definition
    payload, the validator that concatenates their errors, and the default
    rule list.  A rule returns its errors or raises. *)

From Stdlib Require Import Ascii.
From S2P Require Import Prelude Numerals PyVal States Errors Cycles.

(** ** Helpers (rules/_workflow.py) *)

(** [nodes_from]: the mapping-shaped nodes with their positions. *)
Definition nodes_from (workflow : pydict) : list (nat * pydict) :=
  match dict_get "dag" workflow with
  | Some (PDict dag) =>
      match dict_get "nodes" dag with
      | Some (PList nodes) =>
          omap (λ ix, (pair ix.1) <$> as_dict ix.2) (enumerate nodes)
      | _ => []
      end
  | _ => []
  end.

(** [node.get("id")] when it is a string. *)
Definition node_id_of (node : pydict) : option string := dict_get "id" node ≫= as_str.

(** [valid_node_ids]: the non-blank string identifiers. *)
Definition valid_node_ids (workflow : pydict) : list string :=
  omap (λ ix, i ← node_id_of ix.2; if nonblank i then Some i else None) (nodes_from workflow).

Definition error (code message path : string) (node_id dependency_id : option string)
    : WorkflowValidationError :=
  {| ve_code := code; ve_message := message; ve_path := path; ve_node_id := node_id;
     ve_dependency_id := dependency_id; ve_meta := [] |}.

Definition node_path (index : nat) : string := "dag.nodes[" +:+ str_of_nat index +:+ "]".

(** ** Required fields (rules/fields.py) *)

Definition RequiredWorkflowFieldsRule (workflow : pydict) : py (list WorkflowValidationError) :=
  let name_errors :=
    match dict_get "name" workflow with
    | Some (PStr name) =>
        if nonblank name then []
        else [error "required_workflow_name"
                "Workflow property 'name' must be a non-empty string." "name" None None]
    | _ => [error "required_workflow_name"
              "Workflow property 'name' must be a non-empty string." "name" None None]
    end in
  let dag_errors :=
    match dict_get "dag" workflow with
    | Some (PDict dag) =>
        if is_list (get_or_none "nodes" dag) then []
        else [error "required_workflow_nodes"
                "Workflow property 'dag.nodes' must be a list." "dag.nodes" None None]
    | _ => [error "required_workflow_dag"
              "Workflow property 'dag' must be an object." "dag" None None]
    end in
  Ok (name_errors ++ dag_errors).

Definition has_key (k : string) (d : pydict) : bool := bool_decide (is_Some (dict_get k d)).

Definition required_node_errors (index : nat) (node : pydict) : list WorkflowValidationError :=
  let path := node_path index in
  let node_id := node_id_of node in
  (field ← ["id"; "handler"; "dependencies"];
   if has_key field node then []
   else [error ("required_node_" +:+ field) ("Node property '" +:+ field +:+ "' is required.")
           (path +:+ "." +:+ field) node_id None])
  ++ (if has_key "dependencies" node && negb (is_list (get_or_none "dependencies" node))
      then [error "invalid_node_dependencies" "Node property 'dependencies' must be a list."
              (path +:+ ".dependencies") node_id None]
      else []).

Definition RequiredNodeFieldsRule (workflow : pydict) : py (list WorkflowValidationError) :=
  let nodes := match dict_get "dag" workflow with
               | Some (PDict dag) => get_or_none "nodes" dag
               | _ => PNone
               end in
  match nodes with
  | PList nodes =>
      Ok (ix ← enumerate nodes;
          match ix.2 with
          | PDict node => required_node_errors ix.1 node
          | _ => [error "invalid_node_definition" "Workflow node must be an object."
                    (node_path ix.1) None None]
          end)
  | _ => Ok []
  end.

(** ** Node identifiers (rules/node_ids.py) *)

Definition ident_char (c : ascii) : bool :=
  is_alpha c || is_digit c || Ascii.eqb c "_" || Ascii.eqb c "-".

(** [NODE_ID_PATTERN.fullmatch]: [[A-Za-z][A-Za-z0-9_-]*]. *)
Definition NODE_ID_PATTERN (s : string) : bool :=
  match s with
  | EmptyString => false
  | String c s' => is_alpha c && str_forallb ident_char s'
  end.

Definition NodeIdValidityRule (workflow : pydict) : py (list WorkflowValidationError) :=
  Ok (ix ← nodes_from workflow;
      let invalid := match node_id_of ix.2 with
                     | Some i => negb (NODE_ID_PATTERN i)
                     | None => true
                     end in
      if invalid then
        [error "invalid_node_id"
           ("Node property 'id' must start with a letter and contain only "
            +:+ "letters, numbers, underscores, or hyphens.")
           (node_path ix.1 +:+ ".id") (node_id_of ix.2) None]
      else []).

(** The identifiers both rules count: strings that match the pattern. *)
Definition identifiers (nodes : list (nat * pydict)) : list string :=
  omap (λ ix, i ← node_id_of ix.2; if NODE_ID_PATTERN i then Some i else None) nodes.

Definition UniqueNodeIdsRule (workflow : pydict) : py (list WorkflowValidationError) :=
  let nodes := nodes_from workflow in
  let ids := identifiers nodes in
  Ok (ix ← nodes;
      match node_id_of ix.2 with
      | Some i =>
          if bool_decide (1 < count i ids) then
            [error "duplicate_node_id" ("Node ID '" +:+ i +:+ "' is defined more than once.")
               (node_path ix.1 +:+ ".id") (Some i) None]
          else []
      | None => []
      end).

(** ** Handlers (rules/handlers.py) *)

(** The frozen set, in sorted order; [integration_test] is the value of the
    test [os.getenv("INTEGRATION_TEST") == "1"]. *)
Definition ALLOWED_HANDLERS : list string :=
  ["call_external_service"; "input"; "llm_service"; "output"].
Definition INTEGRATION_HANDLER : string := "integration_barrier".

(** [sorted] on a list of strings. *)
Fixpoint insert_sorted (x : string) (l : list string) : list string :=
  match l with
  | [] => [x]
  | y :: l' => if String.leb x y then x :: l else y :: insert_sorted x l'
  end.
Definition sorted (l : list string) : list string := foldr insert_sorted [] l.

Definition allowed_handlers (integration_test : bool) : list string :=
  if integration_test then INTEGRATION_HANDLER :: ALLOWED_HANDLERS else ALLOWED_HANDLERS.

Definition HandlerDefinitionRule (integration_test : bool) (workflow : pydict)
    : py (list WorkflowValidationError) :=
  let allowed := allowed_handlers integration_test in
  Ok (ix ← nodes_from workflow;
      let invalid := match dict_get "handler" ix.2 with
                     | Some (PStr h) => negb (memb h allowed)
                     | _ => true
                     end in
      if invalid then
        [error "invalid_handler"
           ("Node property 'handler' must be one of: " +:+ String.concat ", " (sorted allowed) +:+ ".")
           (node_path ix.1 +:+ ".handler") (node_id_of ix.2) None]
      else []).

(** [config.get(k)] is a non-blank string of a mapping. *)
Definition has_text (k : string) (config : pyobj) : bool :=
  match config with
  | PDict d => match dict_get k d with Some (PStr s) => nonblank s | _ => false end
  | _ => false
  end.

(** [handler in {"input", "output"}]: testing membership hashes the value. *)
Definition in_io_handlers (handler : pyobj) : py bool :=
  if hashable handler then
    Ok match handler with PStr h => memb h ["input"; "output"] | _ => false end
  else Raise (TypeError "unhashable type").

Definition node_config_errors (index : nat) (node : pydict) : py (list WorkflowValidationError) :=
  let handler := get_or_none "handler" node in
  let context := node_id_of node in
  let config := default (PDict []) (dict_get "config" node) in
  let path := node_path index +:+ ".config" in
  let is_handler := λ h, match handler with PStr h' => String.eqb h h' | _ => false end in
  if is_handler "call_external_service" then
    Ok (if has_text "url" config then []
        else [error "invalid_handler_config"
                ("Handler 'call_external_service' requires a non-empty "
                 +:+ "string 'config.url'.") (path +:+ ".url") context None])
  else if is_handler "llm_service" then
    Ok (if has_text "prompt" config then []
        else [error "invalid_handler_config"
                "Handler 'llm_service' requires a non-empty string 'config.prompt'."
                (path +:+ ".prompt") context None])
  else
    io ← in_io_handlers handler;
    Ok (if io && truthy config then
          [error "invalid_handler_config"
             ("Handler '" +:+ default "" (as_str handler) +:+ "' does not accept configuration.")
             path context None]
        else []).

Definition NodeConfigurationRule (workflow : pydict) : py (list WorkflowValidationError) :=
  errors ← mapM (λ ix, node_config_errors ix.1 ix.2) (nodes_from workflow);
  Ok (mjoin errors).

(** ** Dependencies (rules/dependencies.py)

    [py_str] is Python's [str] on a value that is not a string; it only ever
    reaches the text of an error message. *)

Definition or_index (context : option string) (index : nat) : string :=
  match context with
  | Some i => if String.eqb i "" then str_of_nat index else i
  | None => str_of_nat index
  end.

Definition dependency_path (index dependency_index : nat) : string :=
  node_path index +:+ ".dependencies[" +:+ str_of_nat dependency_index +:+ "]".

(** One dependency of one node: the error, if any, and the updated [seen]. *)
Definition check_dependency (py_str : pyobj → string) (known : list string) (index : nat)
    (context : option string) (seen : list string) (dependency_index : nat) (dependency : pyobj)
    : list WorkflowValidationError * list string :=
  let path := dependency_path index dependency_index in
  match dependency with
  | PStr d =>
      if negb (memb d known) then
        ([error "unknown_dependency"
            ("Node '" +:+ or_index context index +:+ "' references unknown dependency '" +:+ d +:+ "'.")
            path context (Some d)], seen)
      else if bool_decide (context = Some d) then
        ([error "self_dependency"
            ("Node '" +:+ default "" context +:+ "' cannot depend on itself.") path context (Some d)], seen)
      else if memb d seen then
        ([error "duplicate_dependency"
            ("Node '" +:+ or_index context index +:+ "' declares duplicate dependency '" +:+ d +:+ "'.")
            path context (Some d)], seen)
      else ([], d :: seen)
  | v =>
      ([error "unknown_dependency"
          ("Node '" +:+ or_index context index +:+ "' references unknown dependency '" +:+ py_str v +:+ "'.")
          path context None], seen)
  end.

Fixpoint check_dependencies (py_str : pyobj → string) (known : list string) (index : nat)
    (context : option string) (seen : list string) (dependency_index : nat) (deps : list pyobj)
    : list WorkflowValidationError :=
  match deps with
  | [] => []
  | d :: deps' =>
      let '(es, seen') := check_dependency py_str known index context seen dependency_index d in
      es ++ check_dependencies py_str known index context seen' (S dependency_index) deps'
  end.

Definition DependencyReferenceRule (py_str : pyobj → string) (workflow : pydict)
    : py (list WorkflowValidationError) :=
  let known := valid_node_ids workflow in
  Ok (ix ← nodes_from workflow;
      match dict_get "dependencies" ix.2 with
      | Some (PList deps) => check_dependencies py_str known ix.1 (node_id_of ix.2) [] 0 deps
      | _ => []
      end).

(** ** Cycles (rules/cycles.py): building the adjacency dictionary *)

Definition graph_edges (counts : string → nat) (node_id : string) (node : pydict)
    : py (list string) :=
  match iterate (default (PList []) (dict_get "dependencies" node)) with
  | None => Raise (TypeError "object is not iterable")
  | Some deps =>
      Ok (omap (λ d, match d with
                     | PStr s => if bool_decide (s ≠ node_id ∧ counts s = 1) then Some s else None
                     | _ => None
                     end) deps)
  end.

(** The entry a node contributes, when its identifier occurs once. *)
Definition graph_entry (counts : string → nat) (ix : nat * pydict)
    : py (option (string * list string)) :=
  match node_id_of ix.2 with
  | Some i => if bool_decide (counts i = 1)
              then es ← graph_edges counts i ix.2; Ok (Some (i, es))
              else Ok None
  | None => Ok None
  end.

Definition dependency_graph (nodes : list (nat * pydict)) : py adjacency :=
  let counts := λ i, count i (identifiers nodes) in
  entries ← mapM (graph_entry counts) nodes;
  Ok (omap id entries).

Definition CycleDetectionRule (workflow : pydict) : py (list WorkflowValidationError) :=
  graph ← dependency_graph (nodes_from workflow);
  run_fuel (cycle_errors graph).

(** ** The validator (validator.py) *)

Definition rule : Type := pydict → py (list WorkflowValidationError).

Definition validate (rules : list rule) (workflow : pydict) : py (list WorkflowValidationError) :=
  foldM (λ errors r, es ← r workflow; Ok (errors ++ es)) [] rules.

Definition default_rules (py_str : pyobj → string) (integration_test : bool) : list rule :=
  [ RequiredWorkflowFieldsRule; RequiredNodeFieldsRule; NodeIdValidityRule; UniqueNodeIdsRule;
    HandlerDefinitionRule integration_test; NodeConfigurationRule;
    DependencyReferenceRule py_str; CycleDetectionRule ].

(** [collect_rules] over the providers' rule lists. *)
Definition collect_rules (providers : list (list rule)) : list rule :=
  foldl (λ rules p, rules ++ p) [] providers.
