(* ===== verification/Accepted.v ===== *)
(** * What the validator accepts

    A declarative description of valid definitions and the proof that the
    default rule list reports no error exactly on them. *)

From S2P Require Import Prelude Numerals PyVal States Errors Cycles Validation.

(** The configuration a handler accepts. *)
Definition config_of (node : pydict) : pyobj := default (PDict []) (dict_get "config" node).

Definition config_ok (h : string) (node : pydict) : Prop :=
  (h = "call_external_service" → has_text "url" (config_of node) = true) ∧
  (h = "llm_service" → has_text "prompt" (config_of node) = true) ∧
  (h = "input" ∨ h = "output" → truthy (config_of node) = false).

(** The identifiers of a list of node payloads, and a node's dependencies. *)
Definition ids_of (ds : list pydict) : list string := omap node_id_of ds.

Definition deps_of (node : pydict) : list string :=
  match dict_get "dependencies" node with
  | Some (PList l) => omap as_str l
  | _ => []
  end.

Definition graph_of (ds : list pydict) : adjacency :=
  omap (λ nd, (λ i, (i, deps_of nd)) <$> node_id_of nd) ds.

Record valid_node (integration_test : bool) (ids : list string) (nd : pydict)
    (i h : string) (deps : list string) : Prop := {
  vn_id : dict_get "id" nd = Some (PStr i);
  vn_handler : dict_get "handler" nd = Some (PStr h);
  vn_deps : dict_get "dependencies" nd = Some (PList (PStr <$> deps));
  vn_pattern : NODE_ID_PATTERN i = true;
  vn_allowed : h ∈ allowed_handlers integration_test;
  vn_config : config_ok h nd;
  vn_known : ∀ d, d ∈ deps → d ∈ ids;
  vn_no_self : i ∉ deps;
  vn_deps_nodup : NoDup deps;
}.

Record valid_definition (integration_test : bool) (d : pydict) (ds : list pydict) : Prop := {
  vd_name : ∃ name, dict_get "name" d = Some (PStr name) ∧ nonblank name = true;
  vd_nodes : ∃ dag, dict_get "dag" d = Some (PDict dag) ∧
                    dict_get "nodes" dag = Some (PList (PDict <$> ds));
  vd_each : ∀ nd, nd ∈ ds → ∃ i h deps, valid_node integration_test (ids_of ds) nd i h deps;
  vd_unique : NoDup (ids_of ds);
  vd_acyclic : acyclic_graph (graph_of ds);
}.

(** ** Error lists that are empty *)

Lemma bind_nil {A B} (f : A → list B) (l : list A) :
  l ≫= f = [] ↔ ∀ x, x ∈ l → f x = [].
Proof.
  induction l as [|x l IH]; simpl; [set_solver|]. split.
  - intros [Hx Hl]%app_nil. rewrite IH in Hl. set_solver.
  - intros H. rewrite (H x) by set_solver. simpl. apply IH. set_solver.
Qed.

Lemma join_nil {A} (ls : list (list A)) : mjoin ls = [] ↔ ∀ l, l ∈ ls → l = [].
Proof.
  induction ls as [|l ls IH]; simpl; [set_solver|]. split.
  - intros [Hx Hl]%app_nil. rewrite IH in Hl. set_solver.
  - intros H. rewrite (H l) by set_solver. simpl. apply IH. set_solver.
Qed.

Lemma enumerate_bind_nil {A B} (f : nat * A → list B) (l : list A) :
  enumerate l ≫= f = [] ↔ ∀ k x, l !! k = Some x → f (k, x) = [].
Proof.
  rewrite bind_nil. split.
  - intros H k x Hx. apply H. by apply enumerate_elem.
  - intros H [k x] Hx%enumerate_elem. by apply H.
Qed.

Lemma Ok_inj {E A} (a b : A) : (Ok a : outcome E A) = Ok b ↔ a = b.
Proof. naive_solver. Qed.

(** An error list built by a test is empty exactly when the test passes. *)
Lemma if_nil {A} (b : bool) (x : A) : (if b then [x] else []) = [] ↔ b = false.
Proof. destruct b; naive_solver. Qed.
Lemma if_nil' {A} (b : bool) (x : A) : (if b then [] else [x]) = [] ↔ b = true.
Proof. destruct b; naive_solver. Qed.

Lemma validate_nil rules d :
  validate rules d = Ok [] ↔ Forall (λ r, r d = Ok []) rules.
Proof.
  unfold validate. assert (H : ∀ acc, foldM (λ errors r, es ← r d; Ok (errors ++ es)) acc rules = Ok []
    ↔ acc = [] ∧ Forall (λ r : rule, r d = Ok []) rules).
  { induction rules as [|r rules IH]; intros acc; simpl.
    - rewrite Ok_inj. naive_solver.
    - rewrite Forall_cons. destruct (r d) as [es|]; simpl; [|naive_solver].
      rewrite IH, app_nil, Ok_inj. naive_solver. }
  rewrite H. naive_solver.
Qed.

(** ** Rule by rule *)

Lemma required_workflow_fields_nil d :
  RequiredWorkflowFieldsRule d = Ok [] ↔
  (∃ name, dict_get "name" d = Some (PStr name) ∧ nonblank name = true) ∧
  ∃ dag nodes, dict_get "dag" d = Some (PDict dag) ∧ dict_get "nodes" dag = Some (PList nodes).
Proof.
  unfold RequiredWorkflowFieldsRule. rewrite Ok_inj, app_nil. f_equiv.
  - destruct (dict_get "name" d) as [[]|]; rewrite ?if_nil'; naive_solver.
  - destruct (dict_get "dag" d) as [[| | | | | |dag|]|]; try naive_solver.
    rewrite if_nil'. unfold get_or_none.
    destruct (dict_get "nodes" dag) as [[]|] eqn:Hn; simpl; naive_solver.
Qed.

Lemma has_key_true k nd : has_key k nd = true ↔ is_Some (dict_get k nd).
Proof. apply bool_decide_eq_true. Qed.

Lemma required_node_errors_nil k nd :
  required_node_errors k nd = [] ↔
  is_Some (dict_get "id" nd) ∧ is_Some (dict_get "handler" nd) ∧
  ∃ l, dict_get "dependencies" nd = Some (PList l).
Proof.
  unfold required_node_errors. rewrite app_nil, bind_nil.
  assert (H3 : (∀ x, x ∈ ["id"; "handler"; "dependencies"] → (if has_key x nd then [] else
    [error ("required_node_" +:+ x) ("Node property '" +:+ x +:+ "' is required.")
       (node_path k +:+ "." +:+ x) (node_id_of nd) None]) = []) ↔
    is_Some (dict_get "id" nd) ∧ is_Some (dict_get "handler" nd) ∧ is_Some (dict_get "dependencies" nd)).
  { setoid_rewrite if_nil'. setoid_rewrite has_key_true. setoid_rewrite elem_of_cons.
    setoid_rewrite elem_of_cons. setoid_rewrite list_elem_of_singleton. naive_solver. }
  rewrite H3, if_nil. clear H3. unfold get_or_none.
  destruct (dict_get "dependencies" nd) as [v|] eqn:Hd.
  - rewrite (proj2 (has_key_true _ _)) by (by rewrite Hd). destruct v; simpl; naive_solver.
  - split; [intros [(_ & _ & []) _]; done|naive_solver].
Qed.

Lemma required_node_fields_nil d dag nodes :
  dict_get "dag" d = Some (PDict dag) → dict_get "nodes" dag = Some (PList nodes) →
  RequiredNodeFieldsRule d = Ok [] ↔
  ∃ ds, nodes = PDict <$> ds ∧
    ∀ nd, nd ∈ ds → is_Some (dict_get "id" nd) ∧ is_Some (dict_get "handler" nd) ∧
      ∃ l, dict_get "dependencies" nd = Some (PList l).
Proof.
  intros Hdag Hnodes. unfold RequiredNodeFieldsRule. rewrite Hdag. unfold get_or_none.
  rewrite Hnodes. simpl. rewrite Ok_inj, enumerate_bind_nil. simpl. split.
  - intros H. assert (Hall : ∀ v, v ∈ nodes → ∃ nd, v = PDict nd ∧
      is_Some (dict_get "id" nd) ∧ is_Some (dict_get "handler" nd) ∧
      ∃ l, dict_get "dependencies" nd = Some (PList l)).
    { intros v [k Hk]%list_elem_of_lookup. specialize (H k v Hk).
      destruct v; try done. eexists. split; [done|]. by eapply required_node_errors_nil. }
    clear H Hnodes. induction nodes as [|v nodes IH]; [exists []; set_solver|].
    destruct (Hall v) as (nd & -> & Hnd); [set_solver|].
    destruct IH as (ds & -> & Hds); [set_solver|].
    exists (nd :: ds). split; [done|]. set_solver.
  - intros (ds & -> & Hds) k v Hk. apply list_lookup_fmap_Some in Hk as (nd & -> & Hk).
    apply required_node_errors_nil, Hds. by eapply list_elem_of_lookup_2.
Qed.

Lemma nodes_from_enumerate d dag ds :
  dict_get "dag" d = Some (PDict dag) → dict_get "nodes" dag = Some (PList (PDict <$> ds)) →
  nodes_from d = enumerate ds.
Proof.
  intros Hdag Hnodes. unfold nodes_from. rewrite Hdag, Hnodes. unfold enumerate.
  assert (H : ∀ f : nat → nat, omap (λ ix : nat * pyobj, pair ix.1 <$> as_dict ix.2)
    (imap (λ n v, (f n, v)) (PDict <$> ds)) = imap (λ n nd, (f n, nd)) ds).
  { clear Hnodes. induction ds as [|nd ds IH]; intros f; [done|]. csimpl. f_equal.
    apply (IH (f ∘ S)). }
  apply (H id).
Qed.

Section rules.
Context (d : pydict) (ds : list pydict) (it : bool) (py_str : pyobj → string).
Hypothesis Hfrom : nodes_from d = enumerate ds.

(** A per-node error list is empty everywhere iff each node is fine. *)
Lemma each_node_iff {B} (f : nat * pydict → list B) (P : pydict → Prop) :
  (∀ k nd, nd ∈ ds → f (k, nd) = [] ↔ P nd) →
  nodes_from d ≫= f = [] ↔ ∀ nd, nd ∈ ds → P nd.
Proof.
  intros Hf. rewrite Hfrom, enumerate_bind_nil. split.
  - intros H nd Hnd. pose proof Hnd as [k Hk]%list_elem_of_lookup. by eapply Hf, H.
  - intros H k nd Hk. apply list_elem_of_lookup_2 in Hk. by apply Hf, H.
Qed.

Lemma node_id_validity_nil :
  NodeIdValidityRule d = Ok [] ↔
  ∀ nd, nd ∈ ds → ∃ i, node_id_of nd = Some i ∧ NODE_ID_PATTERN i = true.
Proof.
  unfold NodeIdValidityRule. rewrite Ok_inj. apply each_node_iff. intros k nd _. simpl.
  rewrite if_nil. destruct (node_id_of nd) as [i|]; [rewrite negb_false_iff|]; naive_solver.
Qed.

Lemma omap_enumerate {B} (f : pydict → option B) :
  omap (λ ix : nat * pydict, f ix.2) (enumerate ds) = omap f ds.
Proof.
  rewrite <- (enumerate_snd ds) at 2. clear. induction (enumerate ds) as [|[k nd] l IH]; [done|].
  csimpl. by rewrite IH.
Qed.

(** What the later rules may assume: every node has a well-formed id. *)
Definition all_ids_ok : Prop :=
  ∀ nd, nd ∈ ds → ∃ i, node_id_of nd = Some i ∧ NODE_ID_PATTERN i = true.

Lemma identifiers_ids : all_ids_ok → identifiers (nodes_from d) = ids_of ds.
Proof.
  intros H. unfold identifiers. rewrite Hfrom.
  rewrite (omap_enumerate (λ nd, i ← node_id_of nd; if NODE_ID_PATTERN i then Some i else None)).
  unfold ids_of. revert H. unfold all_ids_ok. clear Hfrom.
  induction ds as [|nd l IH]; intros H; [done|]. csimpl.
  destruct (H nd) as (i & -> & Hp); [set_solver|]. simpl. rewrite Hp. f_equal. apply IH. set_solver.
Qed.

Lemma ids_of_elem i : i ∈ ids_of ds ↔ ∃ nd, nd ∈ ds ∧ node_id_of nd = Some i.
Proof. unfold ids_of. by rewrite list_elem_of_omap. Qed.

Lemma unique_node_ids_nil :
  all_ids_ok → UniqueNodeIdsRule d = Ok [] ↔ NoDup (ids_of ds).
Proof.
  intros Hid. unfold UniqueNodeIdsRule. rewrite identifiers_ids by done.
  rewrite Ok_inj, (each_node_iff _ (λ nd, ∀ i, node_id_of nd = Some i → count i (ids_of ds) ≤ 1)).
  - rewrite count_NoDup. split.
    + intros H i. destruct (decide (i ∈ ids_of ds)) as [Hi|Hi].
      * apply ids_of_elem in Hi as (nd & Hnd & Hi). by eapply H.
      * apply count_zero in Hi. lia.
    + intros H nd _ i _. apply H.
  - intros k nd _. simpl. destruct (node_id_of nd) as [i|]; [|naive_solver].
    rewrite if_nil, bool_decide_eq_false. naive_solver lia.
Qed.

Lemma handler_definition_nil :
  HandlerDefinitionRule it d = Ok [] ↔
  ∀ nd, nd ∈ ds → ∃ h, dict_get "handler" nd = Some (PStr h) ∧ h ∈ allowed_handlers it.
Proof.
  unfold HandlerDefinitionRule. rewrite Ok_inj. apply each_node_iff. intros k nd _. simpl.
  rewrite if_nil. destruct (dict_get "handler" nd) as [[]|]; bsimp; naive_solver.
Qed.

Lemma node_config_nil k nd h :
  dict_get "handler" nd = Some (PStr h) → node_config_errors k nd = Ok [] ↔ config_ok h nd.
Proof.
  intros Hh. unfold node_config_errors, get_or_none, config_ok. rewrite Hh. simpl default.
  fold (config_of nd). cbv beta zeta iota.
  destruct (String.eqb_spec "call_external_service" h) as [<-|H1].
  { rewrite Ok_inj, if_nil'. naive_solver. }
  destruct (String.eqb_spec "llm_service" h) as [<-|H2].
  { rewrite Ok_inj, if_nil'. naive_solver. }
  unfold in_io_handlers. simpl hashable. simpl mbind. rewrite Ok_inj, if_nil, andb_false_iff.
  rewrite memb_false, elem_of_cons, list_elem_of_singleton.
  destruct (truthy (config_of nd)); naive_solver.
Qed.

Lemma node_configuration_nil :
  (∀ nd, nd ∈ ds → ∃ h, dict_get "handler" nd = Some (PStr h) ∧ h ∈ allowed_handlers it) →
  NodeConfigurationRule d = Ok [] ↔
  ∀ nd h, nd ∈ ds → dict_get "handler" nd = Some (PStr h) → config_ok h nd.
Proof.
  intros Hh. unfold NodeConfigurationRule. rewrite Hfrom. split.
  - intros H. apply bind_Ok_inv in H as (ess & Hm & Hj). apply mapM_Ok_Forall2 in Hm.
    rewrite Ok_inj in Hj. intros nd h Hnd Hhd. apply list_elem_of_lookup in Hnd as [k Hk].
    assert (He : enumerate ds !! k = Some (k, nd)).
    { unfold enumerate. by rewrite list_lookup_imap, Hk. }
    destruct (Forall2_lookup_l _ _ _ _ _ Hm He) as (es & Hes & Hk').
    apply (node_config_nil k nd h Hhd). simpl in Hk'. rewrite Hk'. f_equal.
    apply (join_nil ess); [done|]. by eapply list_elem_of_lookup_2.
  - intros H. rewrite (mapM_Ok _ (λ _, [])).
    + simpl. f_equal. apply join_nil. by intros es (? & -> & _)%list_elem_of_fmap.
    + intros [k nd] Hk%enumerate_elem. apply list_elem_of_lookup_2 in Hk.
      destruct (Hh nd Hk) as (h & Hhd & _). by eapply node_config_nil, H.
Qed.

Lemma check_dependencies_nil known k ctx seen j l :
  check_dependencies py_str known k ctx seen j l = [] ↔
  ∃ ss, l = PStr <$> ss ∧ NoDup ss ∧
        ∀ x, x ∈ ss → x ∈ known ∧ ctx ≠ Some x ∧ x ∉ seen.
Proof.
  revert seen j. induction l as [|v l IH]; intros seen j; simpl.
  { split; [|done]. intros _. exists []. split_and!; [done|constructor|set_solver]. }
  destruct v as [| | | |x| | |]; simpl; try (split; [done|intros ([|? ?] & [=] & _)]).
  assert (Hhd : (∃ ss, PStr x :: l = PStr <$> ss ∧ NoDup ss ∧
      ∀ y, y ∈ ss → y ∈ known ∧ ctx ≠ Some y ∧ y ∉ seen) ↔
    (x ∈ known ∧ ctx ≠ Some x ∧ x ∉ seen) ∧
    check_dependencies py_str known k ctx (x :: seen) (S j) l = []).
  { rewrite IH. split.
    - intros (ss & Hss & Hnd & Hall). destruct ss as [|y ss]; [done|].
      rewrite fmap_cons in Hss. injection Hss as -> ->. apply NoDup_cons in Hnd as [Hy Hnd]. split; [apply Hall; set_solver|].
      exists ss. split_and!; [done|done|]. intros z Hz.
      destruct (Hall z) as (? & ? & ?); [set_solver|]. set_solver.
    - intros [Hx (ss & -> & Hnd & Hall)]. exists (x :: ss). split_and!; [done| |].
      + apply NoDup_cons. split; [|done]. intros Hin. destruct (Hall x Hin) as (_ & _ & Hn). set_solver.
      + intros z [->|Hz]%elem_of_cons; [done|]. destruct (Hall z Hz) as (? & ? & ?). set_solver. }
  rewrite Hhd. clear Hhd.
  destruct (memb x known) eqn:Hk; simpl; bsimp; [|naive_solver].
  destruct (bool_decide_reflect (ctx = Some x)); [naive_solver|].
  destruct (memb x seen) eqn:Hs; simpl; bsimp; naive_solver.
Qed.

Lemma NODE_ID_PATTERN_nonblank i : NODE_ID_PATTERN i = true → nonblank i = true.
Proof.
  destruct i as [|c i]; simpl; [done|]. intros [Hc _]%andb_true_iff. apply nonblank_spec.
  exists c. split; [|by left].
  unfold is_alpha, is_upper, is_lower, is_space, in_range in *.
  rewrite !orb_true_iff, !andb_true_iff, !Nat.leb_le in Hc.
  rewrite !orb_false_iff, !andb_false_iff, !Nat.leb_gt, !Nat.eqb_neq. lia.
Qed.

Lemma valid_node_ids_ids : all_ids_ok → valid_node_ids d = ids_of ds.
Proof.
  intros H. unfold valid_node_ids. rewrite Hfrom.
  rewrite (omap_enumerate (λ nd, i ← node_id_of nd; if nonblank i then Some i else None)).
  unfold ids_of. revert H. unfold all_ids_ok. clear Hfrom.
  induction ds as [|nd l IH]; intros H; [done|]. csimpl.
  destruct (H nd) as (i & -> & Hp); [set_solver|]. simpl.
  rewrite NODE_ID_PATTERN_nonblank by done. f_equal. apply IH. set_solver.
Qed.

Lemma dependency_reference_nil :
  all_ids_ok → (∀ nd, nd ∈ ds → ∃ l, dict_get "dependencies" nd = Some (PList l)) →
  DependencyReferenceRule py_str d = Ok [] ↔
  ∀ nd, nd ∈ ds → ∃ deps, dict_get "dependencies" nd = Some (PList (PStr <$> deps)) ∧
    NoDup deps ∧ ∀ x, x ∈ deps → x ∈ ids_of ds ∧ node_id_of nd ≠ Some x.
Proof.
  intros Hid Hl. unfold DependencyReferenceRule. rewrite Ok_inj, valid_node_ids_ids by done.
  apply each_node_iff. intros k nd Hnd. simpl. destruct (Hl nd Hnd) as [l ->].
  rewrite check_dependencies_nil. split.
  - intros (ss & -> & Hn & H). exists ss. naive_solver.
  - intros (ss & [= ->] & Hn & H). exists ss. split_and!; [done|done|]. set_solver.
Qed.

(** The adjacency dictionary of a definition the other rules accept. *)
Lemma dependency_graph_eq :
  all_ids_ok → NoDup (ids_of ds) →
  (∀ nd, nd ∈ ds → ∃ deps, dict_get "dependencies" nd = Some (PList (PStr <$> deps)) ∧
    NoDup deps ∧ ∀ x, x ∈ deps → x ∈ ids_of ds ∧ node_id_of nd ≠ Some x) →
  dependency_graph (nodes_from d) = Ok (graph_of ds).
Proof.
  intros Hid Hnd Hdeps. unfold dependency_graph. rewrite identifiers_ids by done. rewrite Hfrom.
  set (counts := λ i, count i (ids_of ds)).
  assert (Hone : ∀ i, i ∈ ids_of ds → counts i = 1).
  { intros i Hi. unfold counts. rewrite count_NoDup in Hnd. specialize (Hnd i).
    destruct (count i (ids_of ds)) as [|n] eqn:E; [by apply count_zero in E|lia]. }
  rewrite (mapM_Ok _ (λ ix, (λ i, (i, deps_of ix.2)) <$> node_id_of ix.2)).
  - simpl. f_equal. unfold graph_of.
    rewrite <- (omap_enumerate (λ nd, (λ i, (i, deps_of nd)) <$> node_id_of nd)).
    generalize (enumerate ds). induction l as [|ix l IH]; [done|]. csimpl. by rewrite IH.
  - intros [k nd] Hk%enumerate_elem. apply list_elem_of_lookup_2 in Hk. unfold graph_entry. simpl.
    destruct (Hid nd Hk) as (i & Hi & _). rewrite Hi. simpl.
    assert (Hin : i ∈ ids_of ds) by (apply ids_of_elem; eauto).
    rewrite bool_decide_true by auto. unfold graph_edges, deps_of.
    destruct (Hdeps nd Hk) as (deps & -> & _ & Hd). simpl. do 3 f_equal.
    assert (Hd' : ∀ x, x ∈ deps → x ≠ i ∧ counts x = 1).
    { intros x Hx. destruct (Hd x Hx) as [Hxi Hne]. split; [congruence|auto]. }
    clear -Hd'. induction deps as [|x deps IH]; [done|]. csimpl.
    rewrite bool_decide_true by (apply Hd'; set_solver). f_equal. apply IH. set_solver.
Qed.

Lemma graph_of_keys : all_ids_ok → (graph_of ds).*1 = ids_of ds.
Proof.
  unfold all_ids_ok, graph_of, ids_of. clear Hfrom.
  induction ds as [|nd l IH]; intros H; [done|]. csimpl.
  destruct (H nd) as (i & -> & _); [set_solver|]. csimpl. f_equal. apply IH. set_solver.
Qed.

Lemma graph_of_edge x y :
  edge (graph_of ds) x y → ∃ nd, nd ∈ ds ∧ node_id_of nd = Some x ∧ y ∈ deps_of nd.
Proof.
  clear Hfrom. unfold edge, edges. destruct (aget x (graph_of ds)) as [l|] eqn:E; simpl; [|set_solver].
  apply aget_Some_elem in E. unfold graph_of in E.
  apply list_elem_of_omap in E as (nd & Hnd & E).
  destruct (node_id_of nd) eqn:Hi; simpl in E; simplify_eq. eauto.
Qed.
End rules.

Lemma deps_of_strings nd deps :
  dict_get "dependencies" nd = Some (PList (PStr <$> deps)) → deps_of nd = deps.
Proof.
  unfold deps_of. intros ->. induction deps as [|x deps IH]; [done|]. csimpl. by rewrite IH.
Qed.

Lemma cycle_detection_nil d ds :
  nodes_from d = enumerate ds → all_ids_ok ds → NoDup (ids_of ds) →
  (∀ nd, nd ∈ ds → ∃ deps, dict_get "dependencies" nd = Some (PList (PStr <$> deps)) ∧
    NoDup deps ∧ ∀ x, x ∈ deps → x ∈ ids_of ds ∧ node_id_of nd ≠ Some x) →
  CycleDetectionRule d = Ok [] ↔ acyclic_graph (graph_of ds).
Proof.
  intros Hfrom Hid Hnd Hdeps. unfold CycleDetectionRule.
  rewrite (dependency_graph_eq d ds) by done. simpl.
  destruct (cycle_errors_spec (graph_of ds)) as (es & -> & _ & Hiff).
  - by rewrite graph_of_keys.
  - intros x y (nd & Hin & _ & Hy)%graph_of_edge. rewrite graph_of_keys by done.
    destruct (Hdeps nd Hin) as (deps & Heq & _ & Hd).
    rewrite (deps_of_strings nd deps Heq) in Hy. by apply Hd.
  - simpl. by rewrite Ok_inj.
Qed.

Lemma valid_node_id it ids nd i h deps :
  valid_node it ids nd i h deps → node_id_of nd = Some i.
Proof. intros H. unfold node_id_of. by rewrite (vn_id _ _ _ _ _ _ H). Qed.

Lemma node_id_of_Some nd i : node_id_of nd = Some i ↔ dict_get "id" nd = Some (PStr i).
Proof. unfold node_id_of. destruct (dict_get "id" nd) as [[]|]; simpl; naive_solver. Qed.

(** The rules that look inside the nodes, once the payload has the shape the
    two field rules ask for. *)
Lemma node_rules_nil it py_str d ds :
  nodes_from d = enumerate ds →
  (∀ nd, nd ∈ ds → is_Some (dict_get "id" nd) ∧ is_Some (dict_get "handler" nd) ∧
     ∃ l, dict_get "dependencies" nd = Some (PList l)) →
  Forall (λ r : rule, r d = Ok [])
    [NodeIdValidityRule; UniqueNodeIdsRule; HandlerDefinitionRule it; NodeConfigurationRule;
     DependencyReferenceRule py_str; CycleDetectionRule] ↔
  (∀ nd, nd ∈ ds → ∃ i h deps, valid_node it (ids_of ds) nd i h deps) ∧
  NoDup (ids_of ds) ∧ acyclic_graph (graph_of ds).
Proof.
  intros Hfrom Hfields. rewrite !Forall_cons, Forall_nil.
  rewrite (node_id_validity_nil d ds Hfrom), (handler_definition_nil d ds it Hfrom). split.
  - intros (Hid & Hu & Hh & Hc & Hd & Hcy & _).
    rewrite (unique_node_ids_nil d ds Hfrom Hid) in Hu.
    rewrite (node_configuration_nil d ds it Hfrom Hh) in Hc.
    rewrite (dependency_reference_nil d ds py_str Hfrom Hid) in Hd by (intros; by apply Hfields).
    rewrite (cycle_detection_nil d ds Hfrom Hid Hu Hd) in Hcy.
    split; [|done]. intros nd Hnd. destruct (Hid nd Hnd) as (i & Hi & Hp).
    destruct (Hh nd Hnd) as (h & Hhd & Hal). destruct (Hd nd Hnd) as (deps & Hdeps & Hnn & Hk).
    exists i, h, deps. constructor; try done.
    + by apply node_id_of_Some.
    + by apply Hc.
    + intros x Hx. by apply Hk.
    + intros Hx. destruct (Hk i Hx) as [_ []]. done.
  - intros (Hv & Hu & Hcy).
    assert (Hid : all_ids_ok ds).
    { intros nd Hnd. destruct (Hv nd Hnd) as (i & h & deps & H).
      exists i. split; [by eapply valid_node_id|apply H]. }
    assert (Hh : ∀ nd, nd ∈ ds → ∃ h, dict_get "handler" nd = Some (PStr h) ∧ h ∈ allowed_handlers it).
    { intros nd Hnd. destruct (Hv nd Hnd) as (i & h & deps & H). exists h. split; apply H. }
    assert (Hd : ∀ nd, nd ∈ ds → ∃ deps, dict_get "dependencies" nd = Some (PList (PStr <$> deps)) ∧
      NoDup deps ∧ ∀ x, x ∈ deps → x ∈ ids_of ds ∧ node_id_of nd ≠ Some x).
    { intros nd Hnd. destruct (Hv nd Hnd) as (i & h & deps & H). exists deps.
      split; [apply H|]. split; [apply H|]. intros x Hx. split; [by apply (vn_known _ _ _ _ _ _ H)|].
      rewrite (valid_node_id _ _ _ _ _ _ H). intros [= ->]. by apply (vn_no_self _ _ _ _ _ _ H). }
    rewrite (unique_node_ids_nil d ds Hfrom Hid), (node_configuration_nil d ds it Hfrom Hh),
      (dependency_reference_nil d ds py_str Hfrom Hid) by (intros; by apply Hfields).
    rewrite (cycle_detection_nil d ds Hfrom Hid Hu Hd).
    split; [done|]. split; [done|]. split; [done|]. split; [|done].
    intros nd h Hnd Hhd. destruct (Hv nd Hnd) as (i & h' & deps & H).
    pose proof (vn_handler _ _ _ _ _ _ H). assert (h = h') as -> by congruence. apply H.
Qed.

Lemma validate_accepts_lemma it py_str d :
  validate (default_rules py_str it) d = Ok [] ↔ ∃ ds, valid_definition it d ds.
Proof.
  rewrite validate_nil. unfold default_rules. rewrite Forall_cons, (Forall_cons _ RequiredNodeFieldsRule).
  rewrite required_workflow_fields_nil. split.
  - intros ([Hname (dag & nodes & Hdag & Hnodes)] & Hf & Hrest).
    apply (required_node_fields_nil d dag nodes Hdag Hnodes) in Hf as (ds & -> & Hfields).
    pose proof (nodes_from_enumerate d dag ds Hdag Hnodes) as Hfrom.
    apply (node_rules_nil it py_str d ds Hfrom Hfields) in Hrest as (Hv & Hu & Hc).
    exists ds. constructor; eauto.
  - intros (ds & [Hname (dag & Hdag & Hnodes) Hv Hu Hc]).
    pose proof (nodes_from_enumerate d dag ds Hdag Hnodes) as Hfrom.
    assert (Hfields : ∀ nd, nd ∈ ds → is_Some (dict_get "id" nd) ∧ is_Some (dict_get "handler" nd) ∧
      ∃ l, dict_get "dependencies" nd = Some (PList l)).
    { intros nd Hnd. destruct (Hv nd Hnd) as (i & h & deps & H).
      rewrite (vn_id _ _ _ _ _ _ H), (vn_handler _ _ _ _ _ _ H), (vn_deps _ _ _ _ _ _ H). eauto. }
    split; [eauto 6|]. split.
    + apply (required_node_fields_nil d dag _ Hdag Hnodes). eauto.
    + by apply (node_rules_nil it py_str d ds Hfrom Hfields).
Qed.

(** C20: the default rule list reports no error on a payload, and raises
    nothing, exactly when the payload is a valid definition: a non-blank name,
    a list of node objects with unique well-formed identifiers, allowed
    handlers with the configuration they need, known, distinct dependencies
    other than the node itself, and no dependency cycle. *)
Theorem validate_accepts_iff it py_str d :
  validate (default_rules py_str it) d = Ok [] ↔ ∃ ds, valid_definition it d ds.
Proof. apply validate_accepts_lemma. Qed.
