(* ===== verification/Templates.v ===== *)
(** * Template strings

    src/app/domain/templates/parser.py: the parser that turns a configuration
    string into literal text and references to dependency outputs.  Strings
    are scanned by position, as the code does with [re.finditer] and
    [str.find]; both loops carry fuel, and [parse_total] shows that the fuel
    given to them is never exhausted.  [template] is the grammar of the
    strings the parser accepts, and [parse_grammar] shows that it accepts these
    and no others. *)

From Stdlib Require Import Ascii.
From S2P Require Import Prelude Numerals PyVal States Errors Cycles Validation.

Record TemplateReference : Type := { tr_node_id : string; tr_path : list string }.

Inductive TemplateSegment : Type :=
| Text (s : string)
| Reference (r : TemplateReference).

(** What [parse] returns: plain text, one reference, or a tuple of segments. *)
Inductive ParsedTemplate : Type :=
| ParsedText (s : string)
| ParsedReference (r : TemplateReference)
| ParsedSegments (l : list TemplateSegment).

(** [value.find(sub, start)]. *)
Definition find (sub value : string) (start : nat) : option nat := String.index start sub value.

(** [_TEMPLATE_DELIMITER_PATTERN.finditer(value)]: the spans of the leftmost
    shortest matches of [{{.*?}}], scanning from [pos]. *)
Fixpoint finditer (fuel : nat) (value : string) (pos : nat) : option (list (nat * nat)) :=
  match fuel with
  | O => None
  | S f =>
      match find "{{" value pos with
      | None => Some []
      | Some i =>
          match find "}}" value (i + 2) with
          | None => Some []
          | Some j => cons (i, j + 2) <$> finditer f value (j + 2)
          end
      end
  end.

Definition scan_fuel (value : string) : nat := S (String.length value).

(** Some span contains the position. *)
Definition covers (covered : list (nat * nat)) (position : nat) : bool :=
  existsb (λ se, (se.1 <=? position) && (position <? se.2)) covered.

(** The [while position >= 0] loop of [_validate_delimiters]. *)
Fixpoint check_delimiter (fuel : nat) (covered : list (nat * nat)) (delimiter value : string)
    (position : option nat) : option (py unit) :=
  match position with
  | None => Some (Ok tt)
  | Some p =>
      match fuel with
      | O => None
      | S f =>
          if negb (covers covered p)
          then Some (Raise (TemplateResolutionError
                 ("Malformed template expression: unmatched '" +:+ delimiter +:+ "'.")))
          else check_delimiter f covered delimiter value
                 (find delimiter value (p + String.length delimiter))
      end
  end.

Definition _validate_delimiters (value : string) (matches : list (nat * nat)) : py unit :=
  foldM (λ _ delimiter,
    run_fuel (check_delimiter (scan_fuel value) matches delimiter value (find delimiter value 0)))
    tt ["{{"; "}}"].

(** ** Reference expressions *)

(** [_PATH_SEGMENT_PATTERN]: an identifier or a decimal index. *)
Definition PATH_SEGMENT_PATTERN (s : string) : bool :=
  NODE_ID_PATTERN s || (negb (String.eqb s "") && str_forallb is_digit s).

(** [_REFERENCE_EXPRESSION_PATTERN.fullmatch], with the groups the code reads:
    none of the pattern's parts contains a dot or white space other than the
    separators themselves, so the match is found by splitting at the dots. *)
Definition match_reference (expression : string) : option (string * list string) :=
  match strip <$> split_on "." expression with
  | node_id :: ((_ :: _) as path) =>
      if NODE_ID_PATTERN node_id && forallb PATH_SEGMENT_PATTERN path
      then Some (node_id, path) else None
  | _ => None
  end.

Section parser.
(** Python's [repr] of a string, used in one error message. *)
Variable repr : string → string.

(** [_parse_reference], on a text that starts and ends with two braces. *)
Definition _parse_reference (template : string) : py TemplateReference :=
  let expression := String.substring 2 (String.length template - 4) template in
  match match_reference expression with
  | None => Raise (TemplateResolutionError
      ("Malformed template expression " +:+ repr template +:+ "; expected "
       +:+ "'{{ node_name.output.path }}'."))
  | Some (node_id, path) => Ok {| tr_node_id := node_id; tr_path := path |}
  end.

(** [value[a:b]]. *)
Definition slice (value : string) (a b : nat) : string := String.substring a (b - a) value.

(** One turn of the loop that collects the segments. *)
Definition add_match (value : string) (st : list TemplateSegment * nat) (m : nat * nat)
    : py (list TemplateSegment * nat) :=
  let '(segments, cursor) := st in
  let segments := if cursor <? m.1 then segments ++ [Text (slice value cursor m.1)]
                  else segments in
  r ← _parse_reference (slice value m.1 m.2);
  Ok (segments ++ [Reference r], m.2).

(** The text after the last match. *)
Definition close_segments (value : string) (st : list TemplateSegment * nat)
    : list TemplateSegment :=
  if st.2 <? String.length value
  then st.1 ++ [Text (slice value st.2 (String.length value))] else st.1.

(** [len(matches) == 1 and matches[0].span() == (0, len(value))]. *)
Definition whole_match (value : string) (matches : list (nat * nat)) : bool :=
  match matches with
  | [(a, b)] => (a =? 0) && (b =? String.length value)
  | _ => false
  end.

Definition parse (value : string) : py ParsedTemplate :=
  match find "{{" value 0, find "}}" value 0 with
  | None, None => Ok (ParsedText value)
  | _, _ =>
      matches ← run_fuel (Ok <$> finditer (scan_fuel value) value 0);
      _ ← _validate_delimiters value matches;
      if whole_match value matches
      then r ← _parse_reference (slice value 0 (String.length value)); Ok (ParsedReference r)
      else
        st ← foldM (add_match value) ([], 0) matches;
        Ok (ParsedSegments (close_segments value st))
  end.
End parser.

Example parse_reference_example :
  parse id "{{ fetch . items.0 }}" =
    Ok (ParsedReference {| tr_node_id := "fetch"; tr_path := ["items"; "0"] |}).
Proof. vm_compute. reflexivity. Qed.

Example parse_mixed_example :
  parse id "a {{x.y}}{{x.z}} b" =
    Ok (ParsedSegments [Text "a "; Reference {| tr_node_id := "x"; tr_path := ["y"] |};
                        Reference {| tr_node_id := "x"; tr_path := ["z"] |}; Text " b"]).
Proof. vm_compute. reflexivity. Qed.

(** ** Searching *)

Lemma find_app pre sub s :
  find sub (pre +:+ s) (String.length pre) = Nat.add (String.length pre) <$> find sub s 0.
Proof.
  unfold find. induction pre as [|c pre IH].
  - rewrite str_app_nil_l. simpl. by destruct (String.index 0 sub s).
  - rewrite str_app_cons. simpl. rewrite IH. by destruct (String.index 0 sub s).
Qed.

(** A search over a stretch without the wanted first character is a search
    from its end. *)
Lemma find_skip0 c sub t s :
  str_forallb (λ a, negb (Ascii.eqb a c)) t = true →
  find (String c sub) (t +:+ s) 0 = Nat.add (String.length t) <$> find (String c sub) s 0.
Proof.
  unfold find. induction t as [|a t IH]; intros Ht.
  - rewrite str_app_nil_l. simpl. by destruct (String.index 0 _ s).
  - rewrite str_app_cons. simpl in Ht. apply andb_true_iff in Ht as [Ha Ht].
    simpl String.index. destruct (ascii_dec c a) as [->|]; [by rewrite Ascii.eqb_refl in Ha|].
    rewrite (IH Ht). by destruct (String.index 0 _ s).
Qed.

Lemma find_skip c sub pre t s :
  str_forallb (λ a, negb (Ascii.eqb a c)) t = true →
  find (String c sub) (pre +:+ t +:+ s) (String.length pre) =
  find (String c sub) (pre +:+ t +:+ s) (String.length (pre +:+ t)).
Proof.
  intros Ht. rewrite find_app, find_skip0 by done.
  rewrite <- str_app_assoc, find_app, str_length_app.
  destruct (find _ s 0); simpl; [|done]. f_equal. lia.
Qed.

Lemma find_here sub pre s :
  find sub (pre +:+ sub +:+ s) (String.length pre) = Some (String.length pre).
Proof.
  rewrite find_app. unfold find.
  assert (Hp : String.prefix sub (sub +:+ s) = true).
  { clear. induction sub as [|c sub IH]; [by destruct s|]. rewrite str_app_cons. simpl.
    by destruct (ascii_dec c c). }
  destruct sub as [|c sub]; [rewrite str_app_nil_l|rewrite str_app_cons in *].
  - destruct s; simpl; f_equal; lia.
  - simpl String.index. simpl in Hp. rewrite Hp. simpl. f_equal. lia.
Qed.

Lemma prefix_length sub s : String.prefix sub s = true → String.length sub ≤ String.length s.
Proof.
  revert s. induction sub as [|c sub IH]; intros [|d s]; simpl; try done; [lia..|].
  destruct (ascii_dec c d); [|done]. intros ?%IH. lia.
Qed.

Lemma find_bound sub s p i : find sub s p = Some i → p ≤ i ∧ i + String.length sub ≤ String.length s.
Proof.
  unfold find. revert p i. induction s as [|c s IH]; intros p i; cbn [String.index].
  - destruct p; [|done]. destruct sub; [|done]. intros [= <-]. simpl. lia.
  - destruct p as [|p].
    + destruct (String.prefix sub (String c s)) eqn:Hp.
      * intros [= <-]. split; [lia|]. simpl. apply prefix_length in Hp. simpl in *. lia.
      * destruct (String.index 0 sub s) eqn:Hi; [|done]. intros [= <-].
        apply IH in Hi. simpl. lia.
    + destruct (String.index p sub s) eqn:Hi; [|done]. intros [= <-]. apply IH in Hi. simpl. lia.
Qed.

(** ** Termination and errors *)

Lemma finditer_total fuel value pos :
  String.length value < pos + fuel → is_Some (finditer fuel value pos) ∨ String.length value < pos.
Proof.
  revert pos. induction fuel as [|f IH]; intros pos H; [right; lia|]. left. simpl.
  destruct (find "{{" value pos) as [i|] eqn:Hi; [|done].
  destruct (find "}}" value (i + 2)) as [j|] eqn:Hj; [|done].
  apply find_bound in Hi, Hj. simpl in *.
  destruct (IH (j + 2)) as [[ms Hms]|]; [lia| |lia]. rewrite Hms. done.
Qed.

(** Any computation that returns or raises a template error. *)
Definition template_outcome {A} (m : py A) : Prop :=
  (∃ a, m = Ok a) ∨ ∃ msg, m = Raise (TemplateResolutionError msg).

Lemma template_outcome_Ok {A} (a : A) : template_outcome (Ok a).
Proof. left; eauto. Qed.
Lemma template_outcome_Raise {A} msg : template_outcome (Raise (TemplateResolutionError msg) : py A).
Proof. right; eauto. Qed.
Lemma template_outcome_bind {A B} (m : py A) (f : A → py B) :
  template_outcome m → (∀ a, template_outcome (f a)) → template_outcome (m ≫= f).
Proof. intros [[a ->]|[msg ->]] H; [apply H|apply template_outcome_Raise]. Qed.
Lemma template_outcome_foldM {A S} (f : S → A → py S) s l :
  (∀ s x, template_outcome (f s x)) → template_outcome (foldM f s l).
Proof.
  intros H. revert s. induction l as [|x l IH]; intros s; simpl; [apply template_outcome_Ok|].
  apply template_outcome_bind; auto.
Qed.
#[export] Hint Resolve template_outcome_Ok template_outcome_Raise template_outcome_bind
  template_outcome_foldM : wfdb.

Lemma check_delimiter_total fuel covered delimiter value p :
  0 < String.length delimiter →
  (∀ i, p = Some i → i < String.length value ∧ String.length value < i + fuel) →
  template_outcome (run_fuel (check_delimiter fuel covered delimiter value p)).
Proof.
  intros Hd. revert p. induction fuel as [|f IH]; intros [i|] Hp; simpl; eauto with wfdb.
  - specialize (Hp i eq_refl). lia.
  - destruct (covers covered i); simpl; [|apply template_outcome_Raise]. apply IH.
    intros i' Hi'%find_bound. specialize (Hp i eq_refl). lia.
Qed.

Lemma validate_delimiters_outcome value matches :
  template_outcome (_validate_delimiters value matches).
Proof.
  unfold _validate_delimiters. cbn [foldM].
  apply template_outcome_bind; [|intros []; apply template_outcome_bind; [|intros []; eauto with wfdb]];
    (apply check_delimiter_total; [simpl; lia|]; unfold scan_fuel; intros i Hi%find_bound; simpl in *; lia).
Qed.

Lemma parse_reference_outcome repr template : template_outcome (_parse_reference repr template).
Proof.
  unfold _parse_reference. destruct (match_reference _) as [[id path]|]; eauto with wfdb.
Qed.

Lemma finditer_scan value : is_Some (finditer (scan_fuel value) value 0).
Proof.
  destruct (finditer_total (scan_fuel value) value 0) as [H|H]; [unfold scan_fuel; lia|done|lia].
Qed.

Lemma parse_outcome repr value : template_outcome (parse repr value).
Proof.
  unfold parse.
  destruct (finditer_scan value) as [ms ->]. simpl.
  assert (H : template_outcome (_ ← _validate_delimiters value ms;
    if whole_match value ms
    then r ← _parse_reference repr (slice value 0 (String.length value)); Ok (ParsedReference r)
    else st ← foldM (add_match repr value) ([], 0) ms; Ok (ParsedSegments (close_segments value st)))).
  { apply template_outcome_bind; [apply validate_delimiters_outcome|intros _].
    destruct (whole_match value ms); apply template_outcome_bind; eauto using parse_reference_outcome with wfdb.
    apply template_outcome_foldM. intros [segs cur] m. unfold add_match.
    apply template_outcome_bind; eauto using parse_reference_outcome with wfdb. }
  destruct (find "{{" value 0), (find "}}" value 0); eauto with wfdb.
Qed.

(** Parsing is total: every string is parsed, or rejected with a
    [TemplateResolutionError]; neither scanning loop runs forever. *)
Theorem parse_total repr value :
  (∃ p, parse repr value = Ok p) ∨ ∃ msg, parse repr value = Raise (TemplateResolutionError msg).
Proof.
  apply parse_outcome.
Qed.

(** ** The grammar of reference expressions *)

Definition spaces (s : string) : Prop := str_forallb is_space s = true.

(** [(?:\s*\.\s*SEGMENT)*], with the segments it consumes. *)
Inductive dotted : list string → string → Prop :=
| dotted_nil : dotted [] ""
| dotted_cons a b p ps s :
    spaces a → spaces b → PATH_SEGMENT_PATTERN p = true → dotted ps s →
    dotted (p :: ps) (a +:+ "." +:+ b +:+ p +:+ s).

(** The whole pattern: the identifier, at least one segment, white space
    around every part. *)
Definition reference_grammar (expression : string) (r : TemplateReference) : Prop :=
  ∃ a s z, expression = a +:+ tr_node_id r +:+ s +:+ z ∧ spaces a ∧ spaces z ∧
    NODE_ID_PATTERN (tr_node_id r) = true ∧ tr_path r ≠ [] ∧ dotted (tr_path r) s.

Definition dotless (s : string) : Prop := str_forallb (λ c, negb (Ascii.eqb c ".")) s = true.

Lemma spaces_dotless s : spaces s → dotless s.
Proof.
  apply str_forallb_impl. intros c Hc. destruct (Ascii.eqb_spec c "."); [by subst|done].
Qed.

Lemma ident_solid s : NODE_ID_PATTERN s = true →
  str_forallb (λ c, negb (is_space c) && negb (Ascii.eqb c ".") && negb (is_brace c)) s = true.
Proof.
  assert (Hc : ∀ c, is_alpha c || is_digit c || Ascii.eqb c "_" || Ascii.eqb c "-" = true →
    negb (is_space c) && negb (Ascii.eqb c ".") && negb (is_brace c) = true).
  { intros [[] [] [] [] [] [] [] []]; vm_compute; done. }
  destruct s as [|c s]; simpl; [done|]. intros [H1 H2]%andb_true_iff. apply andb_true_iff. split.
  - apply Hc. by rewrite H1.
  - revert H2. apply str_forallb_impl. apply Hc.
Qed.

Lemma segment_solid s : PATH_SEGMENT_PATTERN s = true →
  str_forallb (λ c, negb (is_space c) && negb (Ascii.eqb c ".") && negb (is_brace c)) s = true.
Proof.
  unfold PATH_SEGMENT_PATTERN. intros [H|[_ H]%andb_true_iff]%orb_true_iff; [by apply ident_solid|].
  revert H. apply str_forallb_impl. intros [[] [] [] [] [] [] [] []]; vm_compute; done.
Qed.

Lemma solid_facts s :
  str_forallb (λ c, negb (is_space c) && negb (Ascii.eqb c ".") && negb (is_brace c)) s = true →
  str_forallb (λ c, negb (is_space c)) s = true ∧ dotless s ∧
  str_forallb (λ c, negb (is_brace c)) s = true.
Proof.
  intros H. unfold dotless. split; [|split]; (revert H; apply str_forallb_impl; intros c;
    rewrite !andb_true_iff; tauto).
Qed.

Lemma strip_spaces_r x b : spaces b → strip (x +:+ b) = strip x.
Proof.
  intros Hb. assert (Hr : ∀ y, rstrip (y +:+ b) = rstrip y).
  { induction y as [|c y IH].
    - rewrite str_app_nil_l. by apply rstrip_blank.
    - rewrite str_app_cons. simpl. by rewrite IH. }
  unfold strip. induction x as [|c x IH].
  - rewrite str_app_nil_l. apply rstrip_blank. by rewrite lstrip_blank.
  - rewrite str_app_cons. simpl. destruct (is_space c); [done|]. by rewrite <- str_app_cons, Hr.
Qed.

Lemma strip_spaces_l a x : spaces a → strip (a +:+ x) = strip x.
Proof.
  intros Ha. unfold strip. f_equal. induction a as [|c a IH]; [done|].
  rewrite str_app_cons. apply andb_true_iff in Ha as [Hc Ha]. simpl. rewrite Hc. auto.
Qed.

(** Every string is its stripped core between two runs of white space. *)
Lemma strip_decompose s : ∃ a b, s = a +:+ strip s +:+ b ∧ spaces a ∧ spaces b.
Proof.
  assert (Hl : ∃ a, s = a +:+ lstrip s ∧ spaces a).
  { induction s as [|c s (a & Hs & Ha)]; [by exists ""|]. simpl.
    destruct (is_space c) eqn:Hc; [|by exists ""].
    exists (String c a). rewrite str_app_cons, <- Hs. split; [done|]. unfold spaces. simpl. by rewrite Hc. }
  assert (Hr : ∀ t, ∃ b, t = rstrip t +:+ b ∧ spaces b).
  { induction t as [|c t (b & Ht & Hb)]; [by exists ""|]. simpl.
    destruct (rstrip t) as [|d r] eqn:Hrt.
    - rewrite str_app_nil_l in Ht. subst. destruct (is_space c) eqn:Hc.
      + exists (String c b). split; [done|]. unfold spaces. simpl. by rewrite Hc.
      + by exists b.
    - exists b. rewrite str_app_cons, <- Ht. done. }
  destruct Hl as (a & Ha & Hsa), (Hr (lstrip s)) as (b & Hb & Hsb).
  exists a, b. split; [|done]. unfold strip. by rewrite <- Hb.
Qed.

Lemma split_on_dotless s : dotless s → split_on "." s = [s].
Proof.
  unfold dotless. induction s as [|c s IH]; [done|]. cbn [str_forallb split_on].
  intros [Hc Hs]%andb_true_iff. apply negb_true_iff in Hc. rewrite Hc, IH by done. done.
Qed.

Lemma split_on_dot x s : dotless x → split_on "." (x +:+ "." +:+ s) = x :: split_on "." s.
Proof.
  unfold dotless. induction x as [|c x IH]; [done|]. rewrite str_app_cons. cbn [str_forallb split_on].
  intros [Hc Hs]%andb_true_iff. apply negb_true_iff in Hc. rewrite Hc, IH by done. done.
Qed.

Lemma split_on_nonempty c s : split_on c s ≠ [].
Proof.
  induction s as [|d s IH]; [done|]. simpl. destruct (Ascii.eqb d c); [done|].
  by destruct (split_on c s).
Qed.

Lemma split_on_concat s : String.concat "." (split_on "." s) = s.
Proof.
  induction s as [|c s IH]; [done|]. cbn [split_on].
  pose proof (split_on_nonempty "." s) as Hne.
  destruct (split_on "." s) as [|q qs]; [done|].
  destruct (Ascii.eqb_spec c ".") as [->|].
  - cbn [String.concat]. by rewrite <- IH.
  - rewrite <- IH. by destruct qs.
Qed.

Lemma dotted_split ps s x z :
  dotted ps s → dotless x → spaces z → strip <$> split_on "." (x +:+ s +:+ z) = strip x :: ps.
Proof.
  intros Hd. revert x. induction Hd as [|a b p ps s Ha Hb Hp Hd IH]; intros x Hx Hz.
  - rewrite str_app_nil_l, split_on_dotless.
    + csimpl. by rewrite strip_spaces_r.
    + unfold dotless. rewrite str_forallb_app, andb_true_iff. split; [done|by apply spaces_dotless].
  - rewrite !str_app_assoc, <- (str_app_assoc x a), split_on_dot.
    + assert (Hbp : dotless (b +:+ p)).
      { unfold dotless. rewrite str_forallb_app, andb_true_iff.
        split; [by apply spaces_dotless|by apply segment_solid, solid_facts in Hp as (_ & ? & _)]. }
      rewrite <- (str_app_assoc b p), fmap_cons, IH by done.
      rewrite strip_spaces_r, strip_spaces_l by done.
      apply segment_solid, solid_facts in Hp as (Hp & _ & _). by rewrite (strip_solid p).
    + unfold dotless. rewrite str_forallb_app, andb_true_iff. split; [done|by apply spaces_dotless].
Qed.

Lemma split_dotted qs x b :
  spaces b → Forall (λ q, PATH_SEGMENT_PATTERN (strip q) = true) qs →
  ∃ s z, spaces z ∧ dotted (strip <$> qs) s ∧ String.concat "." ((x +:+ b) :: qs) = x +:+ s +:+ z.
Proof.
  revert x b. induction qs as [|q qs IH]; intros x b Hb Hqs.
  - exists "", b. split; [done|]. split; [constructor|done].
  - apply Forall_cons in Hqs as [Hq Hqs].
    destruct (strip_decompose q) as (a' & b' & Hdq & Ha' & Hb').
    destruct (IH (a' +:+ strip q) b' Hb' Hqs) as (s & z & Hz & Hs & Heq).
    exists (b +:+ "." +:+ a' +:+ strip q +:+ s), z. split; [done|]. split; [by constructor|].
    rewrite (str_app_assoc a'), <- Hdq in Heq. cbn [String.concat] in Heq |- *.
    rewrite Heq, !str_app_assoc. done.
Qed.

Lemma match_reference_iff expression r :
  match_reference expression = Some (tr_node_id r, tr_path r) ↔ reference_grammar expression r.
Proof.
  destruct r as [id path]. unfold match_reference, reference_grammar. simpl. split.
  - pose proof (split_on_concat expression) as Hc.
    destruct (split_on "." expression) as [|q [|q1 qs]]; csimpl; try done.
    case_if; [|done]. intros [= <- <-]. apply andb_true_iff in Heqb as [Hid Hp].
    apply andb_true_iff in Hp as [Hp1 Hps].
    destruct (strip_decompose q) as (a & b & Hq & Ha & Hb).
    destruct (split_dotted (q1 :: qs) (a +:+ strip q) b Hb) as (s & z & Hz & Hs & Heq).
    { constructor; [done|]. rewrite forallb_forall in Hps. apply Forall_forall. intros y Hy.
      apply Hps, list_elem_of_In. by apply list_elem_of_fmap_2. }
    exists a, s, z. rewrite (str_app_assoc a), <- Hq, Hc, str_app_assoc in Heq. done.
  - intros (a & s & z & -> & Ha & Hz & Hid & Hne & Hd).
    pose proof (proj1 (proj2 (solid_facts _ (ident_solid _ Hid)))) as Hdl.
    pose proof (proj1 (solid_facts _ (ident_solid _ Hid))) as Hsol.
    rewrite <- str_app_assoc, (dotted_split path s (a +:+ id) z Hd);
      [|unfold dotless; rewrite str_forallb_app, andb_true_iff; split; [by apply spaces_dotless|done]|done].
    rewrite strip_spaces_l, strip_solid by done. destruct path as [|p path]; [done|].
    assert (Hf : forallb PATH_SEGMENT_PATTERN (p :: path) = true).
    { clear -Hd. induction Hd; simpl; [done|]. by apply andb_true_iff. }
    by rewrite Hid, Hf.
Qed.

(** A reference expression is accepted exactly when it is in the grammar
    of the regular expression, and the parsed node identifier and path are the
    ones the grammar's groups capture. *)
Theorem match_reference_grammar expression r :
  match_reference expression = Some (tr_node_id r, tr_path r) ↔ reference_grammar expression r.
Proof. apply match_reference_iff. Qed.

(** ** The grammar of templates *)

(** The text between two references; there is no segment for the empty one. *)
Definition literal (t : string) : list TemplateSegment := if decide (t = "") then [] else [Text t].

(** A template is text without delimiters, or such text that does not end in
    an opening brace, a reference expression between two pairs of braces, and
    a template. *)
Inductive template : list TemplateSegment → string → Prop :=
| template_text t : find "{{" t 0 = None → find "}}" t 0 = None → template (literal t) t
| template_cons t e r l s :
    find "{{" (t +:+ "{") 0 = None → find "}}" t 0 = None → reference_grammar e r → template l s →
    template (literal t ++ Reference r :: l) (t +:+ "{{" +:+ e +:+ "}}" +:+ s).

(** *** Finding a doubled character *)

#[local] Abbreviation twice c := (String c (String c "")).

Lemma find_cons c a s :
  find (twice c) (String a s) 0 =
  if String.prefix (twice c) (String a s) then Some 0 else S <$> find (twice c) s 0.
Proof. unfold find. cbn [String.index]. by destruct (String.prefix (twice c) (String a s)), (String.index 0 (twice c) s). Qed.

(** Whether a doubled character starts a string depends on two characters. *)
Lemma prefix_twice c a t s1 s2 :
  t ≠ "" → String.prefix (twice c) (String a (t +:+ s1)) = String.prefix (twice c) (String a (t +:+ s2)).
Proof.
  intros Ht. destruct t as [|b t]; [done|]. rewrite !str_app_cons. cbn [String.prefix].
  repeat case_match; try done; by destruct (t +:+ s1), (t +:+ s2).
Qed.

(** A search finds the first occurrence. *)
Lemma find_first c t rest :
  find (twice c) (t +:+ String c "") 0 = None →
  find (twice c) (t +:+ twice c +:+ rest) 0 = Some (String.length t).
Proof.
  induction t as [|a t IH]; intros Hn.
  - exact (find_here (twice c) "" rest).
  - rewrite str_app_cons, find_cons in Hn |- *.
    replace (t +:+ twice c +:+ rest) with ((t +:+ String c "") +:+ String c rest) in IH |- *
      by (by rewrite str_app_assoc).
    rewrite <- (prefix_twice c a (t +:+ String c "") ""), str_app_nil_r by (by destruct t).
    destruct (String.prefix _ _); [done|]. rewrite IH; [done|]. by destruct (find _ _ 0).
Qed.

Lemma find_split c s i :
  find (twice c) s 0 = Some i →
  ∃ t rest, s = t +:+ twice c +:+ rest ∧ find (twice c) (t +:+ String c "") 0 = None.
Proof.
  revert i. induction s as [|a s IH]; intros i; [done|]. rewrite find_cons.
  destruct (String.prefix (twice c) (String a s)) eqn:Hp.
  - intros _. exists "". cbn [String.prefix] in Hp. destruct (ascii_dec c a) as [<-|]; [|done].
    destruct s as [|b s]; [done|]. simpl in Hp. destruct (ascii_dec c b) as [<-|]; [|done]. exists s. split; [done|].
    rewrite str_app_nil_l. unfold find. simpl. by destruct (ascii_dec c c).
  - destruct (find (twice c) s 0) as [j|]; [|done]. intros _.
    destruct (IH j eq_refl) as (t & rest & -> & Hn). exists (String a t), rest. split; [done|].
    rewrite str_app_cons, find_cons, Hn.
    replace (t +:+ twice c +:+ rest) with ((t +:+ String c "") +:+ String c rest) in Hp by (by rewrite str_app_assoc).
    rewrite <- (prefix_twice c a (t +:+ String c "") ""), str_app_nil_r in Hp by (by destruct t).
    by rewrite Hp.
Qed.

Lemma find_weaken c t s i : find (twice c) t 0 = Some i → find (twice c) (t +:+ s) 0 = Some i.
Proof.
  revert i. induction t as [|a t IH]; intros i; [done|]. rewrite str_app_cons, !find_cons.
  destruct t as [|b t].
  { unfold find. simpl. by destruct (ascii_dec c a). }
  rewrite <- (prefix_twice c a (String b t) "") by done. rewrite str_app_nil_r.
  destruct (String.prefix _ _); [done|]. destruct (find (twice c) (String b t) 0) as [j|]; [|done].
  by rewrite (IH j).
Qed.

(** A search over text without the wanted pair, ended by another character. *)
Lemma find_past c a t s :
  find (twice c) t 0 = None → a ≠ c →
  find (twice c) (t +:+ String a s) 0 = Nat.add (S (String.length t)) <$> find (twice c) s 0.
Proof.
  intros Hn Ha. induction t as [|b t IH].
  - rewrite str_app_nil_l, find_cons. cbn [String.prefix]. destruct (ascii_dec c a); [by subst|].
    by destruct (find _ s 0).
  - rewrite find_cons in Hn. rewrite str_app_cons, find_cons.
    assert (Hp : String.prefix (twice c) (String b (t +:+ String a s)) = false).
    { destruct t as [|d t].
      - rewrite str_app_nil_l. cbn [String.prefix]. repeat case_match; try done; by subst.
      - rewrite <- (prefix_twice c b (String d t) "") by done. rewrite str_app_nil_r.
        by destruct (String.prefix _ _). }
    rewrite Hp, IH; [by destruct (find _ s 0)|].
    by destruct (String.prefix _ _), (find _ t 0).
Qed.

Lemma str_app_inj t1 s1 t2 s2 :
  String.length t1 = String.length t2 → t1 +:+ s1 = t2 +:+ s2 → t1 = t2 ∧ s1 = s2.
Proof.
  revert t2. induction t1 as [|a t1 IH]; intros [|b t2]; try done.
  rewrite !str_app_cons. intros [= Hl] [= -> Hs]. by destruct (IH t2 Hl Hs) as [-> ->].
Qed.

(** The first occurrence is unique. *)
Lemma first_unique c t1 s1 t2 s2 :
  find (twice c) (t1 +:+ String c "") 0 = None → find (twice c) (t2 +:+ String c "") 0 = None →
  t1 +:+ twice c +:+ s1 = t2 +:+ twice c +:+ s2 → t1 = t2 ∧ s1 = s2.
Proof.
  intros H1 H2 E. pose proof (find_first c t1 s1 H1) as F1. rewrite E, (find_first c t2 s2 H2) in F1.
  injection F1 as F1. apply str_app_inj in E as [-> E]; [|done]. split; [done|]. by injection E.
Qed.

Lemma braceless_no c t : is_brace c = true → str_forallb (λ a, negb (is_brace a)) t = true →
  str_forallb (λ a, negb (Ascii.eqb a c)) t = true.
Proof.
  intros Hc. apply str_forallb_impl. intros a Ha. destruct (Ascii.eqb_spec a c); [|done].
  subst. by rewrite Hc in Ha.
Qed.

Lemma spaces_braceless s : spaces s → str_forallb (λ c, negb (is_brace c)) s = true.
Proof. apply str_forallb_impl. intros [[] [] [] [] [] [] [] []]; vm_compute; done. Qed.

(** A reference expression has no braces. *)
Lemma grammar_no c e r :
  is_brace c = true → reference_grammar e r → str_forallb (λ a, negb (Ascii.eqb a c)) e = true.
Proof.
  intros Hc (a & s & z & -> & Ha & Hz & Hid & _ & Hd). apply braceless_no; [done|].
  assert (Hs : str_forallb (λ c, negb (is_brace c)) s = true).
  { induction Hd as [|a' b p ps s Ha' Hb Hp _ IH]; [done|].
    rewrite !str_forallb_app, IH, (spaces_braceless a' Ha'), (spaces_braceless b Hb).
    by rewrite (proj2 (proj2 (solid_facts p (segment_solid p Hp)))). }
  rewrite !str_forallb_app, Hs, (spaces_braceless a Ha), (spaces_braceless z Hz).
  by rewrite (proj2 (proj2 (solid_facts _ (ident_solid _ Hid)))).
Qed.

Lemma grammar_first e r : reference_grammar e r → find "}}" (e +:+ "}") 0 = None.
Proof. intros He. rewrite find_skip0 by (by eapply grammar_no). done. Qed.

(** *** A template, by its first delimiters *)

Lemma template_plain l s :
  find "{{" s 0 = None → template l s ↔ find "}}" s 0 = None ∧ l = literal s.
Proof.
  intros Hn. split; [|intros [Hm ->]; by constructor].
  intros Ht. destruct Ht as [t _ Hm|t e r l s Ht Hm He Hs]; [done|].
  by rewrite (find_first _ t _ Ht) in Hn.
Qed.

Lemma template_open l t rest :
  find "{{" (t +:+ "{") 0 = None → find "}}" rest 0 = None → ¬ template l (t +:+ "{{" +:+ rest).
Proof.
  intros Ht Hr Htpl. remember (t +:+ "{{" +:+ rest) as v eqn:Hv.
  destruct Htpl as [t' Hn _|t' e r l s Ht' _ He _].
  - by rewrite Hv, (find_first _ t rest Ht) in Hn.
  - apply (first_unique _ _ _ _ _ Ht' Ht) in Hv as [-> <-].
    by rewrite (find_first _ e s (grammar_first e r He)) in Hr.
Qed.

Lemma template_step l t e s :
  find "{{" (t +:+ "{") 0 = None → find "}}" (e +:+ "}") 0 = None →
  template l (t +:+ "{{" +:+ e +:+ "}}" +:+ s) ↔
  find "}}" t 0 = None ∧ ∃ r l', reference_grammar e r ∧ l = literal t ++ Reference r :: l' ∧ template l' s.
Proof.
  intros Ht He. split; [|intros (Hm & r & l' & Hr & -> & Hs); by constructor].
  intros Htpl. remember (t +:+ "{{" +:+ e +:+ "}}" +:+ s) as v eqn:Hv.
  destruct Htpl as [t' Hn _|t' e' r l s' Ht' Hm Hr Hs].
  - by rewrite Hv, (find_first _ t _ Ht) in Hn.
  - apply (first_unique _ _ _ _ _ Ht' Ht) in Hv as [-> Hv].
    apply (first_unique _ _ _ _ _ (grammar_first e' r Hr) He) in Hv as [-> ->].
    split; [done|]. by exists r, l.
Qed.

(** *** The loops, from a position on *)

Lemma finditer_starts f value pos ms sp : finditer f value pos = Some ms → sp ∈ ms → pos ≤ sp.1.
Proof.
  revert pos ms. induction f as [|f IH]; intros pos ms; [done|]. cbn [finditer].
  destruct (find "{{" value pos) as [i|] eqn:Hi; [|by intros [= <-] ?%elem_of_nil].
  destruct (find "}}" value (i + 2)) as [j|] eqn:Hj; [|by intros [= <-] ?%elem_of_nil].
  destruct (finditer f value (j + 2)) as [ms'|] eqn:Hf; [|done]. intros [= <-] Hsp.
  apply find_bound in Hi, Hj. apply elem_of_cons in Hsp as [->|Hsp]; [simpl; lia|].
  specialize (IH _ _ Hf Hsp). lia.
Qed.

Lemma covers_app l1 l2 p : covers (l1 ++ l2) p = covers l1 p || covers l2 p.
Proof. apply existsb_app. Qed.

Lemma covers_false l p : (∀ sp, sp ∈ l → p < sp.1 ∨ sp.2 ≤ p) → covers l p = false.
Proof.
  intros Hl. induction l as [|sp l IH]; [done|]. cbn [covers existsb]. apply orb_false_iff.
  split; [|apply IH; intros; apply Hl; by right].
  destruct (Hl sp ltac:(by left)); apply andb_false_iff; rewrite Nat.leb_gt, Nat.ltb_ge; lia.
Qed.

Section grammar.
Variable repr : string → string.

(** The three passes of [parse], on a value from a position on: the spans that
    are found there, both delimiter checks, and the segments that are added to
    those collected so far. *)
Definition scans (f : nat) (value : string) (pos : nat) (before : list (nat * nat))
    (acc l : list TemplateSegment) : Prop :=
  ∃ ms st, finditer f value pos = Some ms ∧
    check_delimiter f (before ++ ms) "{{" value (find "{{" value pos) = Some (Ok tt) ∧
    check_delimiter f (before ++ ms) "}}" value (find "}}" value pos) = Some (Ok tt) ∧
    foldM (add_match repr value) (acc, pos) ms = Ok st ∧ close_segments value st = acc ++ l.

Lemma slice_app pre t s :
  slice (pre +:+ t +:+ s) (String.length pre) (String.length pre + String.length t) = t.
Proof.
  unfold slice. replace (_ + _ - _) with (String.length t) by lia.
  induction pre as [|c pre IH].
  - rewrite str_app_nil_l. simpl. induction t as [|d t IHt]; [by destruct s|].
    rewrite str_app_cons. simpl. by rewrite IHt.
  - rewrite str_app_cons. simpl. apply IH.
Qed.

Lemma find_at_app pre d s : find d (pre +:+ s) (String.length pre) = None ↔ find d s 0 = None.
Proof. rewrite find_app. by destruct (find d s 0). Qed.

Lemma close_end pre s acc :
  close_segments (pre +:+ s) (acc, String.length pre) = acc ++ literal s.
Proof.
  unfold close_segments, literal. cbn [fst snd]. pose proof (slice_app pre s "") as Hs.
  rewrite str_app_nil_r in Hs. rewrite str_length_app, Hs. case_decide as He.
  - rewrite He. simpl. rewrite Nat.add_0_r, Nat.ltb_irrefl. by rewrite app_nil_r.
  - rewrite (proj2 (Nat.ltb_lt _ _)); [done|]. destruct s; [done|]. simpl. lia.
Qed.

Lemma scans_plain f pre s before acc l :
  find "{{" s 0 = None → (∀ sp, sp ∈ before → sp.2 ≤ String.length pre) →
  scans (S f) (pre +:+ s) (String.length pre) before acc l ↔ find "}}" s 0 = None ∧ l = literal s.
Proof.
  intros Hn Hb. assert (Hn' : find "{{" (pre +:+ s) (String.length pre) = None) by (by apply find_at_app).
  unfold scans. cbn [finditer]. rewrite Hn'. split.
  - intros (ms & st & [= <-] & _ & Hc & [= <-] & Hl). rewrite close_end in Hl. split; [|by apply app_inv_head in Hl].
    rewrite find_app in Hc. destruct (find "}}" s 0) as [i|]; [|done]. simpl in Hc.
    rewrite app_nil_r, covers_false in Hc; [done|]. intros sp Hsp. right. specialize (Hb sp Hsp). lia.
  - intros [Hm ->]. exists [], (acc, String.length pre). split; [done|]. split; [done|].
    rewrite (proj2 (find_at_app pre "}}" s) Hm), close_end. done.
Qed.

Lemma scans_open f pre t rest before acc l :
  find "{{" (t +:+ "{") 0 = None → find "}}" rest 0 = None →
  (∀ sp, sp ∈ before → sp.2 ≤ String.length pre) →
  ¬ scans (S f) (pre +:+ t +:+ "{{" +:+ rest) (String.length pre) before acc l.
Proof.
  intros Ht Hr Hb (ms & st & Hms & Hc & _). cbn [finditer] in Hms.
  rewrite find_app, (find_first _ t rest Ht) in Hms, Hc. cbn [fmap option_fmap option_map] in Hms, Hc.
  assert (Hr' : find "}}" (pre +:+ t +:+ "{{" +:+ rest) (String.length pre + String.length t + 2) = None).
  { replace (String.length pre + String.length t + 2) with (String.length (pre +:+ t +:+ "{{"))
      by (rewrite !str_length_app; simpl; lia).
    replace (pre +:+ t +:+ "{{" +:+ rest) with ((pre +:+ t +:+ "{{") +:+ rest) by (by rewrite !str_app_assoc).
    by apply find_at_app. }
  rewrite Hr' in Hms. injection Hms as <-. cbn [check_delimiter] in Hc.
  rewrite app_nil_r, covers_false in Hc; [done|]. intros sp Hsp. right. specialize (Hb sp Hsp). lia.
Qed.

(** The text [t], a reference expression [e] between its delimiters, and the
    rest [s]: where the pass stands after them. *)
Section reference.
Variables (pre t e s : string).
#[local] Abbreviation value := (pre +:+ t +:+ "{{" +:+ e +:+ "}}" +:+ s).
#[local] Abbreviation start := (String.length pre + String.length t).
#[local] Abbreviation stop := (String.length (pre +:+ t +:+ "{{" +:+ e +:+ "}}")).
Hypothesis text_first : find "{{" (t +:+ "{") 0 = None.
Hypothesis expression_first : find "}}" (e +:+ "}") 0 = None.

Lemma stop_eq : stop = start + 2 + String.length e + 2.
Proof. rewrite !str_length_app. simpl. lia. Qed.

Lemma find_stop d : find d value stop = Nat.add stop <$> find d s 0.
Proof.
  replace value with ((pre +:+ t +:+ "{{" +:+ e +:+ "}}") +:+ s) by (by rewrite !str_app_assoc).
  apply find_app.
Qed.

Lemma find_inner d : find d value (start + 2) = Nat.add (start + 2) <$> find d (e +:+ "}}" +:+ s) 0.
Proof.
  replace value with ((pre +:+ t +:+ "{{") +:+ e +:+ "}}" +:+ s) by (by rewrite !str_app_assoc).
  replace (start + 2) with (String.length (pre +:+ t +:+ "{{")) by (rewrite !str_length_app; simpl; lia).
  apply find_app.
Qed.

Lemma find_start : find "{{" value (String.length pre) = Some start.
Proof. by rewrite find_app, (find_first _ t _ text_first). Qed.

Lemma finditer_step f :
  finditer (S f) value (String.length pre) = cons (start, stop) <$> finditer f value stop.
Proof.
  cbn [finditer]. rewrite find_start, find_inner, (find_first _ e s expression_first).
  cbn [fmap option_fmap option_map]. by rewrite stop_eq.
Qed.

Lemma span_covers before ms p : start ≤ p < stop → covers (before ++ (start, stop) :: ms) p = true.
Proof.
  intros Hp. rewrite covers_app. apply orb_true_iff. right. cbn [covers existsb fst snd].
  apply orb_true_iff. left. apply andb_true_iff. rewrite Nat.leb_le, Nat.ltb_lt. lia.
Qed.

Lemma check_open f before ms :
  str_forallb (λ a, negb (Ascii.eqb a "{")) e = true →
  check_delimiter (S f) (before ++ (start, stop) :: ms) "{{" value (find "{{" value (String.length pre)) =
  check_delimiter f (before ++ (start, stop) :: ms) "{{" value (find "{{" value stop).
Proof.
  intros He. rewrite find_start. cbn [check_delimiter]. rewrite span_covers by (rewrite stop_eq; lia).
  cbn [negb String.length]. rewrite find_inner, find_stop.
  rewrite <- (str_app_assoc e "}}" s), find_skip0 by (by rewrite str_forallb_app, He).
  rewrite stop_eq, str_length_app. destruct (find "{{" s 0); [|done]. simpl. do 2 f_equal. lia.
Qed.

Lemma find_close :
  find "}}" t 0 = None → find "}}" value (String.length pre) = Some (start + 2 + String.length e).
Proof.
  intros Ht. rewrite find_app.
  change ("{{" +:+ e +:+ "}}" +:+ s) with (String "{" (String "{" (e +:+ "}}" +:+ s))).
  rewrite find_past by done. rewrite find_cons. cbn [String.prefix ascii_dec].
  rewrite (find_first _ e s expression_first). simpl. f_equal. lia.
Qed.

Lemma check_close f before ms :
  find "}}" t 0 = None →
  check_delimiter (S f) (before ++ (start, stop) :: ms) "}}" value (find "}}" value (String.length pre)) =
  check_delimiter f (before ++ (start, stop) :: ms) "}}" value (find "}}" value stop).
Proof.
  intros Ht. rewrite find_close by done. cbn [check_delimiter]. rewrite span_covers by (rewrite stop_eq; lia).
  cbn [negb String.length]. by rewrite stop_eq.
Qed.

(** A closing delimiter in the text is in no span. *)
Lemma check_stray f before ms i :
  (∀ sp, sp ∈ before → sp.2 ≤ String.length pre) → (∀ sp, sp ∈ ms → stop ≤ sp.1) →
  find "}}" t 0 = Some i →
  check_delimiter (S f) (before ++ (start, stop) :: ms) "}}" value (find "}}" value (String.length pre)) ≠
  Some (Ok tt).
Proof.
  intros Hb Hms Ht. rewrite find_app, (find_weaken _ t _ i Ht). cbn [fmap option_fmap option_map check_delimiter].
  apply find_bound in Ht as [_ Ht]. simpl in Ht. rewrite covers_false; [done|].
  intros sp [Hsp|[->|Hsp]%elem_of_cons]%elem_of_app; simpl.
  - specialize (Hb sp Hsp). lia.
  - lia.
  - specialize (Hms sp Hsp). rewrite stop_eq in Hms. lia.
Qed.

Lemma parse_reference_iff r : _parse_reference repr ("{{" +:+ e +:+ "}}") = Ok r ↔ reference_grammar e r.
Proof.
  unfold _parse_reference. pose proof (slice_app "{{" e "}}") as Hs. unfold slice in Hs.
  replace (String.length ("{{" +:+ e +:+ "}}") - 4) with (String.length "{{" + String.length e - String.length "{{")
    by (rewrite !str_length_app; simpl; lia).
  change 2 with (String.length "{{") at 1. rewrite Hs, <- match_reference_iff.
  destruct (match_reference e) as [[i path]|]; [|done]. destruct r. naive_solver.
Qed.

Lemma add_match_step acc :
  add_match repr value (acc, String.length pre) (start, stop) =
  r ← _parse_reference repr ("{{" +:+ e +:+ "}}"); Ok (acc ++ literal t ++ [Reference r], stop).
Proof.
  clear text_first expression_first. unfold add_match. cbn [fst snd].
  assert (Hs : slice value start stop = "{{" +:+ e +:+ "}}").
  { pose proof (slice_app (pre +:+ t) ("{{" +:+ e +:+ "}}") s) as Hs. rewrite !str_app_assoc in Hs.
    rewrite <- Hs at 2. f_equal; rewrite !str_length_app; simpl; lia. }
  rewrite Hs, slice_app. unfold literal. destruct (_parse_reference _ _) as [r|]; [|done]. cbn [mbind outcome_bind].
  case_decide as Ht.
  - rewrite Ht. cbn [String.length]. by rewrite Nat.add_0_r, Nat.ltb_irrefl.
  - rewrite (proj2 (Nat.ltb_lt _ _)) by (destruct t; [done|simpl; lia]). by rewrite <- app_assoc.
Qed.
End reference.

(** The segments collected so far stay. *)
Lemma collected value ms acc pos st :
  foldM (add_match repr value) (acc, pos) ms = Ok st → ∃ l, close_segments value st = acc ++ l.
Proof.
  revert acc pos. induction ms as [|m ms IH]; intros acc pos.
  - intros [= <-]. unfold close_segments. simpl. case_match; [eauto|]. exists []. by rewrite app_nil_r.
  - cbn [foldM]. intros ([acc' pos'] & Hm & (l & ->)%IH)%bind_Ok_inv. unfold add_match in Hm.
    apply bind_Ok_inv in Hm as (r & _ & [= <- <-]). case_match; rewrite <- ?app_assoc; eauto.
Qed.

Lemma scans_step f pre t e s before acc l :
  let value := pre +:+ t +:+ "{{" +:+ e +:+ "}}" +:+ s in
  let start := String.length pre + String.length t in
  let stop := String.length (pre +:+ t +:+ "{{" +:+ e +:+ "}}") in
  find "{{" (t +:+ "{") 0 = None → find "}}" (e +:+ "}") 0 = None →
  (∀ sp, sp ∈ before → sp.2 ≤ String.length pre) →
  scans (S f) value (String.length pre) before acc l ↔
  find "}}" t 0 = None ∧ ∃ r l', reference_grammar e r ∧ l = literal t ++ Reference r :: l' ∧
    scans f value stop (before ++ [(start, stop)]) (acc ++ literal t ++ [Reference r]) l'.
Proof.
  intros value start stop Ht He Hb. unfold scans. rewrite (finditer_step pre t e s Ht He). fold value start stop.
  split.
  - intros (ms & st & Hms & Ho & Hc & Hf & Hl). destruct (finditer f value stop) as [ms'|] eqn:Hms'; [|done].
    injection Hms as <-. assert (Htt : find "}}" t 0 = None).
    { destruct (find "}}" t 0) as [i|] eqn:Hi; [|done]. exfalso. revert Hc.
      apply (check_stray pre t e s f before ms' i Hb); [|done]. intros sp. by apply (finditer_starts f value). }
    split; [done|]. cbn [foldM] in Hf. unfold value in Hf. rewrite add_match_step in Hf. fold value stop in Hf.
    destruct (_parse_reference repr _) as [r|] eqn:Hr; [|done]. apply parse_reference_iff in Hr.
    cbn [mbind outcome_bind] in Hf. destruct (collected _ _ _ _ _ Hf) as (l' & Hl').
    exists r, l'. split; [done|]. split.
    { rewrite Hl', <- !app_assoc in Hl. by apply app_inv_head in Hl. }
    exists ms', st. split; [done|]. rewrite <- (app_assoc before). cbn [app].
    rewrite <- (check_open pre t e s Ht) by (by eapply grammar_no).
    rewrite <- (check_close pre t e s He) by done. done.
  - intros (Htt & r & l' & Hr & -> & ms & st & Hms & Ho & Hc & Hf & Hl). exists ((start, stop) :: ms), st.
    rewrite Hms. rewrite <- !app_assoc in Ho, Hc. cbn [app] in Ho, Hc.
    rewrite <- (check_open pre t e s Ht) in Ho by (by eapply grammar_no).
    rewrite <- (check_close pre t e s He) in Hc by done.
    split; [done|]. split; [done|]. split; [done|]. rewrite Hl, <- !app_assoc. split; [|done].
    cbn [foldM]. unfold value, start, stop. rewrite add_match_step, (proj2 (parse_reference_iff e r) Hr). done.
Qed.

(** The passes accept the templates, and nothing else. *)
Lemma scans_template f pre s before acc l :
  String.length s < f → (∀ sp, sp ∈ before → sp.2 ≤ String.length pre) →
  scans f (pre +:+ s) (String.length pre) before acc l ↔ template l s.
Proof.
  revert pre s before acc l. induction f as [|f IH]; intros pre s before acc l Hf Hb; [lia|].
  destruct (find "{{" s 0) as [i|] eqn:Hi; [|by rewrite scans_plain, template_plain].
  apply find_split in Hi as (t & rest & -> & Ht).
  destruct (find "}}" rest 0) as [j|] eqn:Hj.
  2:{ split; [by intros ?%scans_open|by intros ?%template_open]. }
  apply find_split in Hj as (e & s & -> & He). rewrite scans_step, template_step by done.
  assert (Hrest : ∀ r l', scans f (pre +:+ t +:+ "{{" +:+ e +:+ "}}" +:+ s)
    (String.length (pre +:+ t +:+ "{{" +:+ e +:+ "}}"))
    (before ++ [(String.length pre + String.length t, String.length (pre +:+ t +:+ "{{" +:+ e +:+ "}}"))])
    (acc ++ literal t ++ [Reference r]) l' ↔ template l' s).
  { intros r l'. replace (pre +:+ t +:+ "{{" +:+ e +:+ "}}" +:+ s)
      with ((pre +:+ t +:+ "{{" +:+ e +:+ "}}") +:+ s) by (by rewrite !str_app_assoc).
    apply IH.
    - rewrite !str_length_app in Hf. simpl in Hf. lia.
    - intros sp [Hsp| ->%list_elem_of_singleton]%elem_of_app; [|done]. specialize (Hb sp Hsp).
      rewrite str_length_app. lia. }
  by setoid_rewrite Hrest.
Qed.

(** *** The result *)

(** A single reference stands for itself. *)
Definition parsed (l : list TemplateSegment) : ParsedTemplate :=
  match l with [Reference r] => ParsedReference r | _ => ParsedSegments l end.

(** As many segments as matches are collected, at least. *)
Lemma collected_length value ms st st' :
  foldM (add_match repr value) st ms = Ok st' → length st.1 + length ms ≤ length st'.1.
Proof.
  revert st. induction ms as [|m ms IH]; intros [acc pos]; [intros [= <-]; simpl; lia|]. cbn [foldM].
  intros ([acc' pos'] & Hm & Hf%IH)%bind_Ok_inv. unfold add_match in Hm.
  apply bind_Ok_inv in Hm as (r & _ & [= <- <-]). cbn [fst] in *.
  revert Hf. case_match; rewrite !length_app; simpl; lia.
Qed.

Lemma close_length value st : length st.1 ≤ length (close_segments value st).
Proof. unfold close_segments. case_match; rewrite ?length_app; simpl; lia. Qed.

(** The segments are a single reference exactly when one match spans
    everything. *)
Lemma whole_match_segments value ms st :
  foldM (add_match repr value) ([], 0) ms = Ok st →
  if whole_match value ms
  then ∃ r, _parse_reference repr (slice value 0 (String.length value)) = Ok r ∧
    close_segments value st = [Reference r]
  else ∀ r, (∀ sp, sp ∈ ms → sp.2 ≤ String.length value) → close_segments value st ≠ [Reference r].
Proof.
  intros Hf. pose proof (collected_length _ _ _ _ Hf) as Hlen. pose proof (close_length value st) as Hcl.
  destruct ms as [|[a b] [|m ms]]; cbn [whole_match].
  - intros r _. injection Hf as <-. unfold close_segments. simpl. by case_match.
  - cbn [foldM] in Hf. apply bind_Ok_inv in Hf as (st' & Hm & [= ->]). unfold add_match in Hm.
    apply bind_Ok_inv in Hm as (r & Hr & [= <-]). cbn [fst snd] in *. unfold close_segments. cbn [fst snd].
    destruct (a =? 0) eqn:Ha; cbn [andb].
    + apply Nat.eqb_eq in Ha as ->. destruct (b =? String.length value) eqn:Hb.
      * apply Nat.eqb_eq in Hb as ->. rewrite !Nat.ltb_irrefl. by exists r.
      * intros r' Hsp. apply Nat.eqb_neq in Hb. specialize (Hsp (0, b) ltac:(by left)). simpl in Hsp.
        by rewrite (proj2 (Nat.ltb_lt b _)) by lia.
    + intros r' _. apply Nat.eqb_neq in Ha. rewrite (proj2 (Nat.ltb_lt 0 a)) by lia. by destruct (b <? String.length value).
  - intros r _ E. rewrite E in Hcl. simpl in *. lia.
Qed.

Lemma finditer_ends f value pos ms sp :
  finditer f value pos = Some ms → sp ∈ ms → sp.2 ≤ String.length value.
Proof.
  revert pos ms. induction f as [|f IH]; intros pos ms; [done|]. cbn [finditer].
  destruct (find "{{" value pos) as [i|]; [|by intros [= <-] ?%elem_of_nil].
  destruct (find "}}" value (i + 2)) as [j|] eqn:Hj; [|by intros [= <-] ?%elem_of_nil].
  destruct (finditer f value (j + 2)) as [ms'|] eqn:Hf; [|done]. intros [= <-] Hsp.
  apply find_bound in Hj. apply elem_of_cons in Hsp as [->|Hsp]; [simpl in *; lia|eauto].
Qed.

Lemma run_fuel_Ok (o : option (py unit)) : run_fuel o = Ok tt ↔ o = Some (Ok tt).
Proof. destruct o as [[[]|]|]; naive_solver. Qed.

Lemma validate_iff value ms :
  _validate_delimiters value ms = Ok tt ↔
  check_delimiter (scan_fuel value) ms "{{" value (find "{{" value 0) = Some (Ok tt) ∧
  check_delimiter (scan_fuel value) ms "}}" value (find "}}" value 0) = Some (Ok tt).
Proof.
  unfold _validate_delimiters. cbn [foldM]. rewrite <- !run_fuel_Ok. split.
  - intros ([] & Ho & ([] & Hc & _)%bind_Ok_inv)%bind_Ok_inv. done.
  - intros [-> ->]. done.
Qed.

Lemma passes_iff value p :
  (matches ← run_fuel (Ok <$> finditer (scan_fuel value) value 0);
   _ ← _validate_delimiters value matches;
   if whole_match value matches
   then r ← _parse_reference repr (slice value 0 (String.length value)); Ok (ParsedReference r)
   else st ← foldM (add_match repr value) ([], 0) matches; Ok (ParsedSegments (close_segments value st)))
  = Ok p ↔ ∃ l, template l value ∧ p = parsed l.
Proof.
  transitivity (∃ l, scans (scan_fuel value) value 0 [] [] l ∧ p = parsed l).
  2:{ setoid_rewrite (scans_template (scan_fuel value) "" value [] []);
        [done|unfold scan_fuel; lia|by intros sp ?%elem_of_nil]. }
  unfold scans. destruct (finditer_scan value) as [ms Hms]. rewrite Hms.
  change (run_fuel (Ok <$> Some ms)) with (Ok ms : py _). cbn [mbind outcome_bind]. split.
  - intros ([] & [Ho Hc]%validate_iff & Hp)%bind_Ok_inv.
    destruct (foldM (add_match repr value) ([], 0) ms) as [st|] eqn:Hf.
    + exists (close_segments value st). split; [by exists ms, st|].
      pose proof (whole_match_segments value ms st Hf) as Hw. destruct (whole_match value ms).
      * destruct Hw as (r & Hr & ->). rewrite Hr in Hp. by injection Hp as <-.
      * injection Hp as <-. specialize (λ r, Hw r (λ sp, finditer_ends _ _ _ _ sp Hms)).
        unfold parsed. destruct (close_segments value st) as [|[|r] [|]]; try done. by destruct (Hw r).
    + exfalso. destruct (whole_match value ms) eqn:Hw; [|done]. destruct ms as [|[a b] [|]]; try done.
      cbn [whole_match] in Hw. apply andb_true_iff in Hw as [->%Nat.eqb_eq ->%Nat.eqb_eq].
      cbn [foldM] in Hf. unfold add_match in Hf. cbn [fst snd] in Hf.
      by destruct (_parse_reference repr (slice value 0 (String.length value))).
  - intros (l & (ms' & st & [= <-] & Ho & Hc & Hf & Hl) & ->). simpl in Hl. subst l.
    rewrite (proj2 (validate_iff value ms) (conj Ho Hc)). cbn [mbind outcome_bind].
    pose proof (whole_match_segments value ms st Hf) as Hw. destruct (whole_match value ms).
    + destruct Hw as (r & -> & ->). done.
    + rewrite Hf. specialize (λ r, Hw r (λ sp, finditer_ends _ _ _ _ sp Hms)). cbn [mbind outcome_bind]. f_equal.
      unfold parsed. destruct (close_segments value st) as [|[|r] [|]]; try done. by destruct (Hw r).
Qed.

Lemma template_delimited l value :
  template l value → (∃ r, Reference r ∈ l) ↔ find "{{" value 0 ≠ None ∨ find "}}" value 0 ≠ None.
Proof.
  intros Ht. destruct Ht as [t Ho Hc|t e r l s Ht Hc He Hs].
  - rewrite Ho, Hc. split; [|naive_solver]. intros [r Hr]. unfold literal in Hr. case_decide; set_solver.
  - split; [|exists r; set_solver]. intros _. left. by rewrite (find_first _ t _ Ht).
Qed.

Lemma parse_template value p :
  parse repr value = Ok p ↔
  (find "{{" value 0 = None ∧ find "}}" value 0 = None ∧ p = ParsedText value) ∨
  ∃ l, template l value ∧ (∃ r, Reference r ∈ l) ∧ p = parsed l.
Proof.
  assert (Hd : find "{{" value 0 ≠ None ∨ find "}}" value 0 ≠ None →
    (∃ l, template l value ∧ p = parsed l) ↔ ∃ l, template l value ∧ (∃ r, Reference r ∈ l) ∧ p = parsed l).
  { intros Hd. split; intros (l & Hl & Hp); exists l; [|naive_solver].
    by rewrite (template_delimited l value Hl). }
  unfold parse. destruct (find "{{" value 0) as [i|] eqn:Ho; [|destruct (find "}}" value 0) as [i|] eqn:Hc].
  - rewrite passes_iff, Hd by auto. naive_solver.
  - rewrite passes_iff, Hd by auto. naive_solver.
  - split; [intros [= <-]; by left|]. intros [(_ & _ & ->)|(l & Hl & Hr & _)]; [done|].
    apply (template_delimited l value Hl) in Hr. naive_solver.
Qed.

(** C27: the parser accepts exactly the templates.  A string is parsed if and
    only if it has no delimiter, and is then plain text, or it is text and
    references in the grammar of [template], in which white space may surround
    every part of a reference; the result is then the list of its segments in
    order, or the reference itself when it is alone. *)
Theorem parse_grammar value p :
  parse repr value = Ok p ↔
  (find "{{" value 0 = None ∧ find "}}" value 0 = None ∧ p = ParsedText value) ∨
  ∃ l, template l value ∧ (∃ r, Reference r ∈ l) ∧ p = parsed l.
Proof. apply parse_template. Qed.
End grammar.
