(* ===== verification/Resolver.v ===== *)
(** * Node input resolution

    src/app/services/templates/resolver.py: building a worker's input from a
    node's configuration and the outputs of its completed dependencies.
    Python's limit on the number of digits of integer conversions is not
    modelled. *)

From Stdlib Require Import Ascii.
From S2P Require Import Prelude Numerals PyVal States Errors Domain Cycles Validation Templates.

(** [_string_keyed_mapping]: the mapping itself when every key is a string. *)
Definition _string_keyed_mapping (d : pydict) : py pydict :=
  if forallb (λ kv, is_str kv.1) d then Ok d
  else Raise (TemplateResolutionError "Task input objects must use string keys.").

(** [{key: f(item) for key, item in d.items()}]. *)
Definition map_items (f : pyobj → py pyobj) (d : pydict) : py pydict :=
  mapM (λ kv, v ← f kv.2; Ok (kv.1, v)) d.

Fixpoint _copy_json_value (v : pyobj) : py pyobj :=
  match v with
  | PNone | PBool _ | PInt _ | PStr _ => Ok v
  | PFloat f =>
      if isfinite f then Ok v
      else Raise (TemplateResolutionError "Task input must contain only finite JSON numbers.")
  | PList l => l' ← mapM _copy_json_value l; Ok (PList l')
  | PDict d =>
      _ ← _string_keyed_mapping d;
      d' ← map_items _copy_json_value d; Ok (PDict d')
  | POther t =>
      Raise (TemplateResolutionError
        ("Task input contains non-JSON-serializable value of type '" +:+ t +:+ "'."))
  end.

Definition _copy_object (d : pydict) : py pydict :=
  map_items _copy_json_value d.

(** ** Looking up a reference *)

(** [key.isdecimal()], on the code points below 256. *)
Definition isdecimal (key : string) : bool := negb (String.eqb key "") && str_forallb is_digit key.

Definition reference_path (r : TemplateReference) : string :=
  tr_node_id r +:+ "." +:+ String.concat "." (tr_path r).

Definition missing_output {A} (r : TemplateReference) : py A :=
  Raise (TemplateResolutionError ("Template references missing output '" +:+ reference_path r +:+ "'.")).

(** One turn of the loop over the path. *)
Definition lookup_step (r : TemplateReference) (current : pyobj) (key : string) : py pyobj :=
  match current with
  | PDict d => match dict_get key d with Some v => Ok v | None => missing_output r end
  | PList l =>
      if isdecimal key then
        match py_int 10 key with
        | Some z => match l !! Z.to_nat z with Some v => Ok v | None => missing_output r end
        | None => missing_output r
        end
      else missing_output r
  | _ => missing_output r
  end.

Definition _lookup (r : TemplateReference) (dependency_outputs : pydict) : py pyobj :=
  match dict_get (tr_node_id r) dependency_outputs with
  | None => Raise (TemplateResolutionError
      ("Template references unavailable dependency output '" +:+ tr_node_id r +:+ "'."))
  | Some v => foldM (lookup_step r) v (tr_path r)
  end.

Section resolver.
(** [str(float)] and [repr(str)] of the language. *)
Variables (float_str : spec_float → string) (repr : string → string).
Variable dependency_outputs : pydict.

Definition _interpolate (r : TemplateReference) : py string :=
  resolved ← _lookup r dependency_outputs;
  match resolved with
  | PStr s => Ok s
  | PNone => Ok "null"
  | PBool b => Ok (if b then "true" else "false")
  | PInt z => Ok (str_of_Z z)
  | PFloat f => Ok (float_str f)
  | _ => Raise (TemplateResolutionError
      ("Embedded templates must resolve to scalar JSON values; '" +:+ reference_path r
       +:+ "' resolved to a structured value."))
  end.

Definition segment_text (s : TemplateSegment) : py string :=
  match s with Text t => Ok t | Reference r => _interpolate r end.

Definition _interpolate_segments (segments : list TemplateSegment) : py string :=
  texts ← mapM segment_text segments; Ok (String.concat "" texts).

Definition _resolve_string (value : string) : py pyobj :=
  parsed ← parse repr value;
  match parsed with
  | ParsedText s => Ok (PStr s)
  | ParsedReference r => v ← _lookup r dependency_outputs; _copy_json_value v
  | ParsedSegments l => s ← _interpolate_segments l; Ok (PStr s)
  end.

Fixpoint _resolve_value (v : pyobj) : py pyobj :=
  match v with
  | PStr s => _resolve_string s
  | PList l => l' ← mapM _resolve_value l; Ok (PList l')
  | PDict d =>
      _ ← _string_keyed_mapping d;
      d' ← map_items _resolve_value d; Ok (PDict d')
  | _ => _copy_json_value v
  end.

Definition _resolve_object (d : pydict) : py pydict :=
  map_items _resolve_value d.

Definition resolve (node : WorkflowNode) (execution_input : pydict) : py pydict :=
  if String.eqb (wn_handler node) "input" then _copy_object execution_input
  else if String.eqb (wn_handler node) "output" then _copy_object dependency_outputs
  else _resolve_object (wn_config node).
End resolver.

(** ** JSON objects *)

Definition json_finite (v : pyobj) : bool := is_json_value v && all_finite v.
Definition string_keys (d : pydict) : bool := forallb (λ kv, is_str kv.1) d.

(** Objects as a [jsonb] column holds them. *)
Definition json_object (d : pydict) : Prop := json_finite (PDict d) = true.

Lemma json_object_items d :
  json_object d ↔ Forall (λ kv, is_str kv.1 = true ∧ json_finite kv.2 = true) d.
Proof.
  unfold json_object, json_finite. simpl. rewrite andb_true_iff, !forallb_forall, Forall_forall.
  setoid_rewrite list_elem_of_In. setoid_rewrite andb_true_iff. naive_solver.
Qed.

Lemma json_list_items l : json_finite (PList l) = true ↔ Forall (λ v, json_finite v = true) l.
Proof.
  unfold json_finite. simpl. rewrite andb_true_iff, !forallb_forall, Forall_forall.
  setoid_rewrite list_elem_of_In. setoid_rewrite andb_true_iff. naive_solver.
Qed.

Lemma string_keyed_mapping_Ok d d' :
  _string_keyed_mapping d = Ok d' ↔ d' = d ∧ string_keys d = true.
Proof. unfold _string_keyed_mapping, string_keys. case_if; naive_solver. Qed.

(** The items of a dictionary comprehension that maps the values. *)
Lemma map_items_Forall2 (f : pyobj → py pyobj) d d' :
  map_items f d = Ok d' →
  Forall2 (λ kv kv', kv'.1 = kv.1 ∧ f kv.2 = Ok kv'.2) d d'.
Proof.
  intros H%mapM_Ok_Forall2. eapply Forall2_impl; [exact H|].
  intros kv kv' (v & Hv & [= <-])%bind_Ok_inv. done.
Qed.

Lemma map_items_json (f : pyobj → py pyobj) d d' :
  Forall (λ kv, ∀ v, f kv.2 = Ok v → json_finite v = true) d → string_keys d = true →
  map_items f d = Ok d' → json_object d'.
Proof.
  intros Hf Hk H%map_items_Forall2. apply json_object_items. unfold string_keys in Hk.
  induction H as [|[k v] [k' v'] d d' [Hkk Hv] H IH]; [constructor|]. simpl in *. subst k'.
  apply Forall_cons in Hf as [Hf1 Hf2]. apply andb_true_iff in Hk as [Hk1 Hk2].
  constructor; simpl; auto.
Qed.

Lemma map_list_json (f : pyobj → py pyobj) l l' :
  Forall (λ x, ∀ v, f x = Ok v → json_finite v = true) l →
  mapM f l = Ok l' → json_finite (PList l') = true.
Proof.
  intros Hf H%mapM_Ok_Forall2. apply json_list_items.
  induction H as [|x y l l' Hx H IH]; [constructor|].
  apply Forall_cons in Hf as [Hf1 Hf2]. constructor; auto.
Qed.

(** A successful copy is the value itself, and it is JSON. *)
Lemma copy_json_value_spec v v' :
  _copy_json_value v = Ok v' ↔ v' = v ∧ json_finite v = true.
Proof.
  revert v'. induction v as [| | | | |l IH|d IH|] using pyobj_nested_ind; intros v';
    try (simpl; naive_solver).
  - simpl. unfold json_finite. simpl. case_if; naive_solver.
  - rewrite json_list_items. cbn [_copy_json_value]. split.
    + intros (l' & Hl & [= <-])%bind_Ok_inv. apply mapM_Ok_Forall2 in Hl.
      induction Hl as [|x y l l' Hx Hl IHl]; [done|].
      apply Forall_cons in IH as [IHx IHs]. apply IHx in Hx as [-> Hx].
      destruct (IHl IHs) as [[= ->] ?]. split; [done|by constructor].
    + intros [-> Hl]. rewrite (mapM_Ok _ (λ x, x)); [simpl; by rewrite list_fmap_id|].
      intros x Hx. rewrite Forall_forall in IH, Hl. by apply IH; [|split; [|apply Hl]].
  - fold (json_object d). rewrite json_object_items. cbn [_copy_json_value]. split.
    + intros (d0 & [-> Hk]%string_keyed_mapping_Ok & H)%bind_Ok_inv.
      apply bind_Ok_inv in H as (d' & Hd & [= <-]). apply map_items_Forall2 in Hd.
      unfold string_keys in Hk.
      induction Hd as [|[k v] [k' v'] d d' [Hkk Hv] Hd IHd]; [done|]. simpl in *. subst k'.
      apply Forall_cons in IH as [[_ IHx] IHs]. apply IHx in Hv as [-> Hv].
      apply andb_true_iff in Hk as [Hk1 Hk2].
      destruct (IHd IHs Hk2) as [[= ->] ?]. split; [done|by constructor].
    + intros [-> Hd].
      assert (Hs : _string_keyed_mapping d = Ok d).
      { apply string_keyed_mapping_Ok. split; [done|]. unfold string_keys. apply forallb_forall.
        rewrite Forall_forall in Hd. intros kv Hkv%list_elem_of_In. by apply Hd. }
      rewrite Hs. cbn [mbind outcome_bind]. unfold map_items. rewrite (mapM_Ok _ (λ x, x));
        [simpl; by rewrite list_fmap_id|].
      intros [k v] Hx. rewrite Forall_forall in IH, Hd. simpl.
      assert (Hv : _copy_json_value v = Ok v).
      { apply (IH _ Hx). split; [done|]. by apply (Hd _ Hx). }
      by rewrite Hv.
Qed.

(** Copying an object with string keys changes nothing. *)
Lemma copy_object_spec d d' :
  string_keys d = true → _copy_object d = Ok d' ↔ d' = d ∧ json_object d.
Proof.
  intros Hk. pose proof (copy_json_value_spec (PDict d) (PDict d')) as H. simpl in H.
  rewrite (proj2 (string_keyed_mapping_Ok d d)) in H by done. cbn [mbind outcome_bind] in H.
  unfold _copy_object. destruct (map_items _copy_json_value d); naive_solver.
Qed.

(** ** Totality: nothing but template errors *)

Lemma template_outcome_mapM {A B} (f : A → py B) l :
  (∀ x, x ∈ l → template_outcome (f x)) → template_outcome (mapM f l).
Proof.
  induction l as [|x l IH]; intros H; simpl; [apply template_outcome_Ok|].
  apply template_outcome_bind; [apply H; set_solver|intros y].
  apply template_outcome_bind; [apply IH; set_solver|eauto with wfdb].
Qed.

Lemma template_outcome_map_items f d :
  Forall (λ kv, template_outcome (f kv.2)) d → template_outcome (map_items f d).
Proof.
  rewrite Forall_forall. intros H. apply template_outcome_mapM. intros kv Hkv.
  apply template_outcome_bind; [by apply H|eauto with wfdb].
Qed.

Lemma string_keyed_outcome d : template_outcome (_string_keyed_mapping d).
Proof. unfold _string_keyed_mapping. case_if; eauto with wfdb. Qed.

Lemma copy_json_value_outcome v : template_outcome (_copy_json_value v).
Proof.
  induction v as [| | | | |l IH|d IH|] using pyobj_nested_ind; simpl; eauto with wfdb.
  - case_if; eauto with wfdb.
  - rewrite Forall_forall in IH.
    apply template_outcome_bind; [by apply template_outcome_mapM|eauto with wfdb].
  - apply template_outcome_bind; [apply string_keyed_outcome|intros _].
    apply template_outcome_bind; [|eauto with wfdb]. apply template_outcome_map_items.
    eapply Forall_impl; [exact IH|naive_solver].
Qed.

Lemma lookup_outcome r outs : template_outcome (_lookup r outs).
Proof.
  unfold _lookup. destruct (dict_get _ outs); [|eauto with wfdb].
  apply template_outcome_foldM. intros v key. unfold lookup_step, missing_output.
  destruct v; eauto with wfdb.
  - destruct (isdecimal key); eauto with wfdb. destruct (py_int 10 key) as [z|]; eauto with wfdb.
    destruct (l !! Z.to_nat z); eauto with wfdb.
  - destruct (dict_get key d); eauto with wfdb.
Qed.

Lemma interpolate_outcome float_str outs r : template_outcome (_interpolate float_str outs r).
Proof.
  unfold _interpolate. apply template_outcome_bind; [apply lookup_outcome|intros v].
  destruct v; eauto with wfdb.
Qed.

Lemma resolve_string_outcome float_str repr outs s :
  template_outcome (_resolve_string float_str repr outs s).
Proof.
  unfold _resolve_string. apply template_outcome_bind; [apply parse_outcome|intros [t|r|l]].
  - eauto with wfdb.
  - apply template_outcome_bind; [apply lookup_outcome|intros v; apply copy_json_value_outcome].
  - apply template_outcome_bind; [|eauto with wfdb]. unfold _interpolate_segments.
    apply template_outcome_bind; [|eauto with wfdb]. apply template_outcome_mapM.
    intros [t|r] _; simpl; [eauto with wfdb|apply interpolate_outcome].
Qed.

(** Resolving a node's input never fails with anything but a
    [TemplateResolutionError], whatever the configuration and the outputs. *)
Theorem resolve_total float_str repr outs node input :
  (∃ d, resolve float_str repr outs node input = Ok d) ∨
  ∃ msg, resolve float_str repr outs node input = Raise (TemplateResolutionError msg).
Proof.
  change (template_outcome (resolve float_str repr outs node input)).
  assert (Hcopy : ∀ d, template_outcome (_copy_object d)).
  { intros d. apply template_outcome_map_items, Forall_forall. intros; apply copy_json_value_outcome. }
  assert (Hval : ∀ v, template_outcome (_resolve_value float_str repr outs v)).
  { intros v. induction v as [| | | | |l IH|d IH|] using pyobj_nested_ind; simpl;
      eauto using copy_json_value_outcome, resolve_string_outcome with wfdb.
    - case_if; eauto with wfdb.
    - rewrite Forall_forall in IH.
      apply template_outcome_bind; [by apply template_outcome_mapM|eauto with wfdb].
    - apply template_outcome_bind; [apply string_keyed_outcome|intros _].
      apply template_outcome_bind; [|eauto with wfdb]. apply template_outcome_map_items.
      eapply Forall_impl; [exact IH|naive_solver]. }
  unfold resolve. do 2 (case_if; [apply Hcopy|]).
  apply template_outcome_map_items, Forall_forall. auto.
Qed.

(** ** The results are JSON *)

Lemma resolve_string_json float_str repr outs s v :
  _resolve_string float_str repr outs s = Ok v → json_finite v = true.
Proof.
  unfold _resolve_string. intros (p & _ & H)%bind_Ok_inv. destruct p.
  - by injection H as <-.
  - apply bind_Ok_inv in H as (w & _ & [-> H]%copy_json_value_spec). done.
  - by apply bind_Ok_inv in H as (w & _ & [= <-]).
Qed.

Lemma resolve_value_json float_str repr outs v v' :
  _resolve_value float_str repr outs v = Ok v' → json_finite v' = true.
Proof.
  revert v'. induction v as [| | | | |l IH|d IH|] using pyobj_nested_ind; intros v'; simpl;
    try (by intros [= <-]); try done.
  - case_if; [|done]. intros [= <-]. done.
  - apply resolve_string_json.
  - intros (l' & Hl & [= <-])%bind_Ok_inv. by eapply map_list_json.
  - intros (d0 & [-> Hk]%string_keyed_mapping_Ok & H)%bind_Ok_inv.
    apply bind_Ok_inv in H as (d' & Hd & [= <-]).
    eapply map_items_json; [|exact Hk|exact Hd]. eapply Forall_impl; [exact IH|naive_solver].
Qed.

(** C29: whatever a node's input resolves to is a JSON object: string keys at
    every level, no non-finite number, nothing that JSON cannot carry.  The
    three mappings it is built from have string keys. *)
Theorem resolve_json float_str repr outs node input d :
  string_keys outs = true → string_keys input = true → string_keys (wn_config node) = true →
  resolve float_str repr outs node input = Ok d → json_object d.
Proof.
  intros Ho Hi Hc. unfold resolve. case_if; [|case_if].
  - by intros [-> ?]%copy_object_spec.
  - by intros [-> ?]%copy_object_spec.
  - unfold _resolve_object. intros H. eapply map_items_json; [|exact Hc|exact H].
    apply Forall_forall. intros kv _ v. apply resolve_value_json.
Qed.

(** ** Values without templates *)

Definition plain_text (s : string) : bool :=
  match find "{{" s 0, find "}}" s 0 with None, None => true | _, _ => false end.

Fixpoint template_free (v : pyobj) : bool :=
  match v with
  | PStr s => plain_text s
  | PList l => forallb template_free l
  | PDict d => forallb (λ kv, template_free kv.2) d
  | _ => true
  end.

Lemma map_items_ext f g d :
  (∀ kv, kv ∈ d → f kv.2 = g kv.2) → map_items f d = map_items g d.
Proof. intros H. apply mapM_ext_elem. intros kv Hkv. by rewrite H. Qed.

Lemma resolve_value_plain float_str repr outs v :
  template_free v = true → _resolve_value float_str repr outs v = _copy_json_value v.
Proof.
  induction v as [| | | |s|l IH|d IH|] using pyobj_nested_ind; simpl; try done.
  - unfold plain_text, _resolve_string, parse. by destruct (find "{{" s 0), (find "}}" s 0).
  - rewrite forallb_forall. intros H. f_equal. rewrite Forall_forall in IH.
    apply mapM_ext_elem. intros x Hx. apply IH; [done|]. by apply H, list_elem_of_In.
  - rewrite forallb_forall. intros H. destruct (_string_keyed_mapping d); [|done]. simpl. f_equal.
    rewrite Forall_forall in IH.
    apply map_items_ext. intros kv Hkv. apply (IH _ Hkv). by apply H, list_elem_of_In.
Qed.

(** A configuration without template delimiters is passed through
    unchanged when it is JSON, and rejected otherwise. *)
Theorem resolve_template_free float_str repr outs node input d :
  wn_handler node ≠ "input" → wn_handler node ≠ "output" →
  string_keys (wn_config node) = true → template_free (PDict (wn_config node)) = true →
  resolve float_str repr outs node input = Ok d ↔ d = wn_config node ∧ json_object (wn_config node).
Proof.
  intros Hi Ho Hk Ht. unfold resolve.
  rewrite (proj2 (String.eqb_neq _ _) Hi), (proj2 (String.eqb_neq _ _) Ho).
  rewrite <- copy_object_spec by done. unfold _resolve_object, _copy_object.
  rewrite (map_items_ext _ _copy_json_value); [done|].
  intros kv Hkv. apply resolve_value_plain. simpl in Ht. rewrite forallb_forall in Ht.
  by apply Ht, list_elem_of_In.
Qed.

(** ** References *)

(** [w] is found in [v] by following the keys and indices of the path. *)
Inductive at_path : pyobj → list string → pyobj → Prop :=
| at_path_here v : at_path v [] v
| at_path_key d k ks v w : dict_get k d = Some v → at_path v ks w → at_path (PDict d) (k :: ks) w
| at_path_index l k ks z v w :
    isdecimal k = true → py_int 10 k = Some z → l !! Z.to_nat z = Some v → at_path v ks w →
    at_path (PList l) (k :: ks) w.

Lemma lookup_spec r outs w :
  _lookup r outs = Ok w ↔ ∃ v, dict_get (tr_node_id r) outs = Some v ∧ at_path v (tr_path r) w.
Proof.
  unfold _lookup. destruct (dict_get (tr_node_id r) outs) as [v|]; [|naive_solver].
  assert (H : ∀ ks v, foldM (lookup_step r) v ks = Ok w ↔ at_path v ks w).
  { clear v. induction ks as [|k ks IH]; intros v; simpl.
    - split; [intros [= <-]; constructor|by inversion 1].
    - split.
      + intros (v' & Hs & Hf)%bind_Ok_inv. apply IH in Hf. unfold lookup_step, missing_output in Hs.
        destruct v; try done.
        * destruct (isdecimal k) eqn:Hd; [|done]. destruct (py_int 10 k) as [z|] eqn:Hz; [|done].
          destruct (l !! Z.to_nat z) eqn:Hl; simplify_eq. by econstructor.
        * destruct (dict_get k d) eqn:Hg; simplify_eq. by econstructor.
      + inversion 1 as [|? ? ? ? ? Hg Hp|? ? ? ? ? ? Hd Hz Hl Hp]; subst; simpl.
        * rewrite Hg. simpl. by apply IH.
        * rewrite Hd, Hz, Hl. simpl. by apply IH. }
  rewrite H. naive_solver.
Qed.

(** A configuration string that is one reference resolves to the
    referenced value itself, of whatever JSON type, exactly when the path
    exists in the dependency's output and the value is JSON. *)
Theorem resolve_string_reference float_str repr outs value r w :
  template [Reference r] value →
  _resolve_string float_str repr outs value = Ok w ↔
  ∃ v, dict_get (tr_node_id r) outs = Some v ∧ at_path v (tr_path r) w ∧ json_finite w = true.
Proof.
  intros Hr. unfold _resolve_string.
  rewrite (proj2 (parse_template repr value (ParsedReference r))).
  2:{ right. exists [Reference r]. split; [done|]. split; [|done]. by exists r; apply list_elem_of_singleton. }
  cbn [mbind outcome_bind].
  transitivity (_lookup r outs = Ok w ∧ json_finite w = true).
  - destruct (_lookup r outs); simpl; [rewrite copy_json_value_spec|]; naive_solver.
  - rewrite lookup_spec. naive_solver.
Qed.

(** The text a scalar value contributes to an embedding string. *)
Definition scalar_text (float_str : spec_float → string) (v : pyobj) : option string :=
  match v with
  | PStr s => Some s
  | PNone => Some "null"
  | PBool b => Some (if b then "true" else "false")
  | PInt z => Some (str_of_Z z)
  | PFloat f => Some (float_str f)
  | _ => None
  end.

(** What a segment stands for. *)
Definition segment_denotes (float_str : spec_float → string) (outs : pydict)
    (s : TemplateSegment) (t : string) : Prop :=
  match s with
  | Text t' => t = t'
  | Reference r => ∃ v w, dict_get (tr_node_id r) outs = Some v ∧ at_path v (tr_path r) w ∧
                          scalar_text float_str w = Some t
  end.

Lemma segment_text_spec float_str outs s t :
  segment_text float_str outs s = Ok t ↔ segment_denotes float_str outs s t.
Proof.
  destruct s as [t'|r]; simpl; [naive_solver|]. unfold _interpolate.
  transitivity (∃ w, _lookup r outs = Ok w ∧ scalar_text float_str w = Some t).
  - destruct (_lookup r outs) as [w|]; simpl; [|naive_solver]. destruct w; simpl; naive_solver.
  - setoid_rewrite lookup_spec. naive_solver.
Qed.

Lemma mapM_Ok_iff {A B} (f : A → py B) l k :
  mapM f l = Ok k ↔ Forall2 (λ x y, f x = Ok y) l k.
Proof.
  split; [apply mapM_Ok_Forall2|]. induction 1 as [|x y l k Hx _ IH]; simpl; [done|].
  rewrite Hx. simpl. by rewrite IH.
Qed.

(** C28: A string that mixes text and references resolves to the
    concatenation of its text with the printed scalar each reference denotes;
    it fails exactly when some reference has no value or denotes a list or an
    object. *)
Theorem resolve_string_segments float_str repr outs value l s :
  template l value → (∃ r, Reference r ∈ l) → (∀ r, l ≠ [Reference r]) →
  _resolve_string float_str repr outs value = Ok s ↔
  ∃ texts, Forall2 (segment_denotes float_str outs) l texts ∧ s = PStr (String.concat "" texts).
Proof.
  intros Hl Hr Hn. unfold _resolve_string.
  assert (Hm : parse repr value = Ok (ParsedSegments l)).
  { apply parse_template. right. exists l. split; [done|]. split; [done|].
    unfold parsed. destruct l as [|[t|r] [|x l]]; try done. by destruct (Hn r). }
  rewrite Hm. cbn [mbind outcome_bind]. unfold _interpolate_segments.
  assert (H : ∀ texts, mapM (segment_text float_str outs) l = Ok texts ↔
    Forall2 (segment_denotes float_str outs) l texts).
  { intros texts. rewrite mapM_Ok_iff. split; intros H; (eapply Forall2_impl; [exact H|]);
      intros x y; by rewrite segment_text_spec. }
  setoid_rewrite <- H. destruct (mapM _ l) as [texts|]; simpl; naive_solver.
Qed.
