(* ===== verification/Json.v ===== *)
(** * JSON text

    [json.dumps(v, separators=(",", ":"), sort_keys=True)] and [json.loads]
    belong to the Python standard library and are a parameter of the model: an
    instance of [Json].  [JsonLaws] states what the code relies on, and
    [reference_json] is an instance for which the laws are proved. *)

From Stdlib Require Import SpecFloat.
From stdpp Require Import countable.
From S2P Require Import Prelude Numerals PyVal States Errors.

(** The decimal digits [int(str)] and [str(int)] accept. *)
Definition int_limit : Z := 10 ^ 4300.

(** The keys of an object. *)
Definition string_keys_of (d : pydict) : list string := omap as_str d.*1.

(** Values that JSON text carries without loss: finite binary64 numbers,
    integers below the digit limit, and objects with distinct string keys. *)
Fixpoint json_data (v : pyobj) : bool :=
  match v with
  | PNone | PBool _ | PStr _ => true
  | PInt z => (Z.abs z <? int_limit)%Z
  | PFloat f => isfinite f && valid_binary 53 1024 f
  | PList l => forallb json_data l
  | PDict d => forallb (λ kv, is_str kv.1 && json_data kv.2) d
               && bool_decide (NoDup (string_keys_of d))
  | POther _ => false
  end.

(** Items in key order, at every level. *)
Fixpoint insert_item (kv : pyobj * pyobj) (d : pydict) : pydict :=
  match d with
  | [] => [kv]
  | kv' :: d' =>
      if String.leb (default "" (as_str kv.1)) (default "" (as_str kv'.1)) then kv :: d
      else kv' :: insert_item kv d'
  end.
Definition sort_items (d : pydict) : pydict := foldr insert_item [] d.

Fixpoint sort_keys (v : pyobj) : pyobj :=
  match v with
  | PList l => PList (sort_keys <$> l)
  | PDict d => PDict (sort_items ((λ kv, (kv.1, sort_keys kv.2)) <$> d))
  | v => v
  end.

(** The operations, and what they promise: the text of a JSON value is not
    blank and reads back as the value with its keys in order. *)
Class Json : Type := {
  dumps : pyobj → py string;
  loads : string → option pyobj;
}.

Class JsonLaws `{Json} : Prop := {
  json_round_trip v : json_data v = true →
    ∃ s, dumps v = Ok s ∧ nonblank s = true ∧ loads s = Some (sort_keys v);
}.

(** ** Sorting keys loses nothing *)

Lemma insert_item_perm kv d : insert_item kv d ≡ₚ kv :: d.
Proof.
  induction d as [|kv' d IH]; simpl; [done|]. case_if; [done|].
  rewrite IH. by rewrite Permutation_swap.
Qed.

Lemma sort_items_perm d : sort_items d ≡ₚ d.
Proof. induction d as [|kv d IH]; simpl; [done|]. rewrite insert_item_perm. by rewrite IH. Qed.

Definition sort_dict (d : pydict) : pydict := sort_items ((λ kv, (kv.1, sort_keys kv.2)) <$> d).

Lemma json_data_dict d :
  json_data (PDict d) = true ↔
  Forall (λ kv, is_str kv.1 = true ∧ json_data kv.2 = true) d ∧ NoDup (string_keys_of d).
Proof.
  cbn [json_data]. rewrite andb_true_iff, bool_decide_eq_true, forallb_forall, Forall_forall.
  setoid_rewrite list_elem_of_In. setoid_rewrite andb_true_iff. done.
Qed.

Lemma is_json_sort_keys v : json_data v = true → is_json_value (sort_keys v) = true.
Proof.
  induction v as [| | | | |l IH|d IH|] using pyobj_nested_ind; try done.
  - cbn [json_data sort_keys is_json_value]. rewrite Forall_forall in IH.
    rewrite !forallb_forall. intros Hl x (y & -> & Hy)%list_elem_of_In%list_elem_of_fmap.
    apply IH; [done|]. by apply Hl, list_elem_of_In.
  - intros [Hd _]%json_data_dict. cbn [sort_keys is_json_value]. rewrite forallb_forall.
    intros kv Hkv%list_elem_of_In. rewrite sort_items_perm in Hkv.
    apply list_elem_of_fmap in Hkv as ([k v] & -> & Hkv). rewrite Forall_forall in IH, Hd.
    destruct (Hd _ Hkv) as [Hk Hv]. simpl in *. rewrite Hk. by apply (IH _ Hkv).
Qed.

(** ** A reference codec

    Any lossless printing satisfies the laws; this one numbers the values. *)

Definition leaf (z : Z) : gen_tree (string + Z) := GenLeaf (inr z).

Definition tree_of_float (f : spec_float) : gen_tree (string + Z) :=
  match f with
  | S754_zero s => GenNode 0 [leaf (if s then 1 else 0)]
  | S754_infinity s => GenNode 1 [leaf (if s then 1 else 0)]
  | S754_nan => GenNode 2 []
  | S754_finite s m e => GenNode 3 [leaf (if s then 1 else 0); leaf (Zpos m); leaf e]
  end.

Definition float_of_tree (t : gen_tree (string + Z)) : spec_float :=
  match t with
  | GenNode 0 [GenLeaf (inr s)] => S754_zero (s =? 1)%Z
  | GenNode 1 [GenLeaf (inr s)] => S754_infinity (s =? 1)%Z
  | GenNode 3 [GenLeaf (inr s); GenLeaf (inr m); GenLeaf (inr e)] =>
      S754_finite (s =? 1)%Z (Z.to_pos m) e
  | _ => S754_nan
  end.

Fixpoint tree_of (v : pyobj) : gen_tree (string + Z) :=
  match v with
  | PNone => GenNode 0 []
  | PBool b => GenNode 1 [leaf (if b then 1 else 0)]
  | PInt z => GenNode 2 [leaf z]
  | PFloat f => GenNode 3 [tree_of_float f]
  | PStr s => GenNode 4 [GenLeaf (inl s)]
  | PList l => GenNode 5 (tree_of <$> l)
  | PDict d => GenNode 6 ((λ kv, GenNode 0 [tree_of kv.1; tree_of kv.2]) <$> d)
  | POther t => GenNode 7 [GenLeaf (inl t)]
  end.

Fixpoint of_tree (t : gen_tree (string + Z)) : pyobj :=
  match t with
  | GenNode 1 [GenLeaf (inr b)] => PBool (b =? 1)%Z
  | GenNode 2 [GenLeaf (inr z)] => PInt z
  | GenNode 3 [f] => PFloat (float_of_tree f)
  | GenNode 4 [GenLeaf (inl s)] => PStr s
  | GenNode 5 l => PList (of_tree <$> l)
  | GenNode 6 l =>
      PDict ((λ t, match t with
                   | GenNode _ [k; v] => (of_tree k, of_tree v)
                   | _ => (PNone, PNone)
                   end) <$> l)
  | GenNode 7 [GenLeaf (inl t)] => POther t
  | _ => PNone
  end.

Lemma of_tree_of v : of_tree (tree_of v) = v.
Proof.
  induction v as [|b|z|f|s|l IH|d IH|t] using pyobj_nested_ind; simpl; try done.
  - by destruct b.
  - f_equal. by destruct f as [[]|[]| |[]].
  - f_equal. induction IH as [|x l Hx _ IHl]; [done|]. csimpl. by rewrite Hx, IHl.
  - f_equal. induction IH as [|[k v] d [Hk Hv] _ IHd]; [done|]. csimpl in *. by rewrite Hk, Hv, IHd.
Qed.

#[export] Instance pyobj_eq_dec : EqDecision pyobj.
Proof.
  refine (λ x y, cast_if (decide (tree_of x = tree_of y))); [|congruence].
  rewrite <- (of_tree_of x), <- (of_tree_of y). congruence.
Defined.

#[export] Instance pyobj_countable : Countable pyobj := inj_countable' tree_of of_tree of_tree_of.

Definition reference_json : Json := {|
  dumps v := if json_data v then Ok (str_of_N (Npos (encode (sort_keys v))))
             else Raise (TypeError "Object is not JSON serializable");
  loads s := z ← py_int 10 s; match z with Zpos p => decode p | _ => None end;
|}.

Lemma reference_json_laws : @JsonLaws reference_json.
Proof.
  constructor. intros v Hv. simpl. rewrite Hv. eexists. split; [done|].
  pose proof (str_of_Z_solid (Zpos (encode (sort_keys v)))) as Hs.
  pose proof (py_int_str_of_Z (Zpos (encode (sort_keys v)))) as Hp. simpl in Hs, Hp. split.
  - unfold nonblank. rewrite strip_solid by done. apply negb_true_iff, String.eqb_neq.
    apply str_of_N_neq_empty.
  - rewrite Hp. simpl. apply decode_encode.
Qed.
