(* ===== verification/Messages.v ===== *)
(** * Stream messages

    src/app/messaging/: the validation helpers for flat stream fields, worker
    task messages and completion events, with their serialisation to and from
    Redis stream fields.  A [dict[str, str]] is an association list in
    insertion order. *)

From S2P Require Import Prelude Numerals PyVal States Errors Json.

Definition stream_fields : Type := list (string * string).

(** ** src/app/messaging/stream_fields.py *)

Definition required_field (fields : stream_fields) (field_name message_type : string) : py string :=
  match aget field_name fields with
  | Some value =>
      if nonblank value then Ok value
      else Raise (ValueError (message_type +:+ " field '" +:+ field_name +:+ "' is required."))
  | None => Raise (ValueError (message_type +:+ " field '" +:+ field_name +:+ "' is required."))
  end.

(** [UUID(s)] and [int(s)] as functions that may raise; the input that Python
    quotes at the end of some messages is left out of the text. *)
Definition py_UUID (s : string) : py UUID :=
  match uuid_parse s with
  | Some u => Ok u
  | None => Raise (ValueError "badly formed hexadecimal UUID string")
  end.

Definition int (s : string) : py Z :=
  match py_int 10 s with
  | Some z => Ok z
  | None => Raise (ValueError "invalid literal for int() with base 10")
  end.

Section json_fields.
Context `{Json}.

Definition json_value_field (fields : stream_fields) (field_name message_type : string) : py pyobj :=
  serialized_value ← required_field fields field_name message_type;
  match loads serialized_value with
  | None => Raise (ValueError (message_type +:+ " field '" +:+ field_name +:+ "' must contain JSON."))
  | Some value =>
      if is_json_value value then Ok value
      else Raise (ValueError
        (message_type +:+ " field '" +:+ field_name +:+ "' must contain valid JSON."))
  end.

Definition json_object_field (fields : stream_fields) (field_name message_type : string) : py pydict :=
  value ← json_value_field fields field_name message_type;
  match value with
  | PDict d => Ok d
  | _ => Raise (ValueError
      (message_type +:+ " field '" +:+ field_name +:+ "' must contain a JSON object."))
  end.
End json_fields.

(** ** src/app/messaging/task_completion.py *)

Inductive TaskCompletionStatus : Type := TCompleted | TFailed.

#[export] Instance task_completion_status_eq_dec : EqDecision TaskCompletionStatus.
Proof. solve_decision. Defined.

Definition completion_status_value (s : TaskCompletionStatus) : string :=
  match s with TCompleted => "completed" | TFailed => "failed" end.

Definition completion_status_of (s : string) : py TaskCompletionStatus :=
  if String.eqb s "completed" then Ok TCompleted
  else if String.eqb s "failed" then Ok TFailed
  else Raise (ValueError ("'" +:+ s +:+ "' is not a valid TaskCompletionStatus")).

Record TaskCompletionEvent : Type := {
  ev_event_id : UUID;
  ev_task_id : string;
  ev_execution_id : UUID;
  ev_node_id : string;
  ev_status : TaskCompletionStatus;
  ev_attempt_id : UUID;
  ev_attempt_number : Z;
  ev_output_data : pyobj;
  ev_error_message : option string;
  ev_error_type : option string;
}.

Section completion_events.
Context `{Json}.

Definition event_fields (e : TaskCompletionEvent) : stream_fields :=
  [("message_id", uuid_str (ev_event_id e)); ("event_id", uuid_str (ev_event_id e));
   ("task_id", ev_task_id e); ("attempt_id", uuid_str (ev_attempt_id e));
   ("attempt_number", str_of_Z (ev_attempt_number e));
   ("execution_id", uuid_str (ev_execution_id e)); ("node_id", ev_node_id e);
   ("status", completion_status_value (ev_status e))].

Definition event_to_stream_fields (e : TaskCompletionEvent) : py stream_fields :=
  match ev_status e with
  | TCompleted =>
      s ← dumps (ev_output_data e); Ok (event_fields e ++ [("output_data", s)])
  | TFailed =>
      match ev_error_message e, ev_error_type e with
      | Some m, Some t => Ok (event_fields e ++ [("error_message", m); ("error_type", t)])
      | _, _ => Raise (ValueError "Failed task completion events require error information.")
      end
  end.

Definition event_from_stream_fields (fields : stream_fields) : py TaskCompletionEvent :=
  let kind := "Task completion event" in
  raw_id ← (match aget "message_id" fields with
            | Some s => if String.eqb s "" then required_field fields "event_id" kind else Ok s
            | None => required_field fields "event_id" kind
            end);
  event_id ← py_UUID raw_id;
  task_id ← required_field fields "task_id" kind;
  attempt_id ← (s ← required_field fields "attempt_id" kind; py_UUID s);
  attempt_number ← (s ← required_field fields "attempt_number" kind; int s);
  execution_id ← (s ← required_field fields "execution_id" kind; py_UUID s);
  node_id ← required_field fields "node_id" kind;
  status ← (s ← required_field fields "status" kind; completion_status_of s);
  match status with
  | TCompleted =>
      output_data ← json_value_field fields "output_data" kind;
      Ok {| ev_event_id := event_id; ev_task_id := task_id; ev_execution_id := execution_id;
            ev_node_id := node_id; ev_status := status; ev_attempt_id := attempt_id;
            ev_attempt_number := attempt_number; ev_output_data := output_data;
            ev_error_message := None; ev_error_type := None |}
  | TFailed =>
      m ← required_field fields "error_message" kind;
      t ← required_field fields "error_type" kind;
      Ok {| ev_event_id := event_id; ev_task_id := task_id; ev_execution_id := execution_id;
            ev_node_id := node_id; ev_status := status; ev_attempt_id := attempt_id;
            ev_attempt_number := attempt_number; ev_output_data := PNone;
            ev_error_message := Some m; ev_error_type := Some t |}
  end.
End completion_events.

(** ** src/app/messaging/task_messages.py *)

Record NodeTaskMessage : Type := {
  tm_message_id : option UUID;
  tm_task_id : string;
  tm_attempt_id : UUID;
  tm_attempt_number : Z;
  tm_execution_id : UUID;
  tm_node_id : string;
  tm_handler : string;
  tm_handler_config : pydict;
  tm_resolved_input : pydict;
}.

(** The conversions pydantic applies to string fields, and the text of its
    errors, are third-party behaviour: a parameter, with what the code relies
    on as laws. *)
Class Pydantic : Type := {
  pydantic_uuid : string → option UUID;
  pydantic_int : string → option Z;
  pydantic_error : string;
}.

Class PydanticLaws `{Pydantic} : Prop := {
  pydantic_uuid_str u : (u < uuid_bound)%N → pydantic_uuid (uuid_str u) = Some u;
  pydantic_int_str z : (Z.abs z < int_limit)%Z → pydantic_int (str_of_Z z) = Some z;
}.

Definition reference_pydantic : Pydantic := {|
  pydantic_uuid := uuid_parse; pydantic_int := py_int 10; pydantic_error := "validation error" |}.

Lemma reference_pydantic_laws : @PydanticLaws reference_pydantic.
Proof. constructor; [apply uuid_parse_str|intros z _; apply py_int_str_of_Z]. Qed.

Section task_messages.
Context `{Json} `{Pydantic}.

(** The field constraints of the model: [min_length=1] and [ge=1]. *)
Definition valid_task_message (m : NodeTaskMessage) : bool :=
  negb (String.eqb (tm_task_id m) "") && (1 <=? tm_attempt_number m)%Z &&
  negb (String.eqb (tm_node_id m) "") && negb (String.eqb (tm_handler m) "").

(** The constructor, on values that already have the declared types. *)
Definition NodeTaskMessage_init (m : NodeTaskMessage) : py NodeTaskMessage :=
  if valid_task_message m then Ok m else Raise (PydanticValidationError pydantic_error).

Definition message_from_stream_fields (fields : stream_fields) : py NodeTaskMessage :=
  let kind := "Task message" in
  let message_id := aget "message_id" fields in
  task_id ← required_field fields "task_id" kind;
  attempt_id ← required_field fields "attempt_id" kind;
  attempt_number ← required_field fields "attempt_number" kind;
  execution_id ← required_field fields "execution_id" kind;
  node_id ← required_field fields "node_id" kind;
  handler ← required_field fields "handler" kind;
  handler_config ← json_object_field fields "handler_config" kind;
  resolved_input ← json_object_field fields "resolved_input" kind;
  match (match message_id with None => Some None | Some s => Some <$> pydantic_uuid s end),
        pydantic_uuid attempt_id, pydantic_int attempt_number, pydantic_uuid execution_id with
  | Some message_id, Some attempt_id, Some attempt_number, Some execution_id =>
      NodeTaskMessage_init
        {| tm_message_id := message_id; tm_task_id := task_id; tm_attempt_id := attempt_id;
           tm_attempt_number := attempt_number; tm_execution_id := execution_id;
           tm_node_id := node_id; tm_handler := handler; tm_handler_config := handler_config;
           tm_resolved_input := resolved_input |}
  | _, _, _, _ => Raise (PydanticValidationError pydantic_error)
  end.

Definition message_to_stream_fields (m : NodeTaskMessage) : py stream_fields :=
  config ← dumps (PDict (tm_handler_config m));
  input ← dumps (PDict (tm_resolved_input m));
  let fields :=
    [("task_id", tm_task_id m); ("attempt_id", uuid_str (tm_attempt_id m));
     ("attempt_number", str_of_Z (tm_attempt_number m));
     ("execution_id", uuid_str (tm_execution_id m)); ("node_id", tm_node_id m);
     ("handler", tm_handler m); ("handler_config", config); ("resolved_input", input)] in
  Ok (match tm_message_id m with
      | Some u => aset "message_id" (uuid_str u) fields
      | None => fields
      end).
End task_messages.

(** ** Reading back what was written *)

Lemma solid_nonblank s : str_forallb (λ c, negb (is_space c)) s = true → s ≠ "" → nonblank s = true.
Proof. intros Hs Hne. unfold nonblank. rewrite strip_solid by done. by apply negb_true_iff, String.eqb_neq. Qed.

Lemma uuid_str_length u : String.length (uuid_str u) ≠ 0.
Proof.
  unfold uuid_str. rewrite !str_length_app. simpl. lia.
Qed.

Lemma uuid_str_nonblank u : nonblank (uuid_str u) = true.
Proof.
  apply solid_nonblank; [apply uuid_str_solid|]. intros H. by apply (uuid_str_length u); rewrite H.
Qed.

Lemma str_of_Z_nonblank z : nonblank (str_of_Z z) = true.
Proof.
  apply solid_nonblank; [apply str_of_Z_solid|]. destruct z; [done| |done].
  apply str_of_N_neq_empty.
Qed.

Lemma uuid_str_not_empty u : String.eqb (uuid_str u) "" = false.
Proof. apply String.eqb_neq, nonblank_neq_empty, uuid_str_nonblank. Qed.

Lemma py_UUID_str u : (u < uuid_bound)%N → py_UUID (uuid_str u) = Ok u.
Proof. intros Hu. unfold py_UUID. by rewrite uuid_parse_str. Qed.

Lemma int_str z : int (str_of_Z z) = Ok z.
Proof. unfold int. by rewrite py_int_str_of_Z. Qed.

Lemma required_field_Ok fields k t s :
  aget k fields = Some s → nonblank s = true → required_field fields k t = Ok s.
Proof. intros H1 H2. unfold required_field. by rewrite H1, H2. Qed.

(** Evaluate the next step of reading a known message whose texts are
    variables. *)
Ltac bind_head m := lazymatch m with ?m' ≫= _ => bind_head m' | _ => m end.

Ltac read_field :=
  lazymatch goal with
  | |- ?m = _ =>
      let h := bind_head m in
      lazymatch h with
      | required_field ?f ?k ?t =>
          erewrite (required_field_Ok f k t); [|reflexivity|first [assumption|reflexivity]]
      | completion_status_of ?s =>
          let r := eval vm_compute in (completion_status_of s) in
          change (completion_status_of s) with r
      | _ => match goal with H : h = Ok _ |- _ => rewrite H end
      end
  end; cbn [mbind outcome_bind].

(** A failed event is refused when its error text is blank. *)
Definition error_guard (st : TaskCompletionStatus) (text : option string) (field : string)
    (k : py TaskCompletionEvent) : py TaskCompletionEvent :=
  match st, text with
  | TFailed, Some s =>
      if nonblank s then k else Raise (ValueError ("Task completion event field '" +:+ field +:+ "' is required."))
  | _, _ => k
  end.

(** Reading the fields of an event, for any texts that denote its parts. *)
Lemma read_event `{Json} eid eid' tid aid an xid nid st out em et rest fields :
  fields = [("message_id", eid); ("event_id", eid'); ("task_id", tid); ("attempt_id", aid);
    ("attempt_number", an); ("execution_id", xid); ("node_id", nid);
    ("status", completion_status_value st)] ++ rest →
  String.eqb eid "" = false → nonblank tid = true → nonblank aid = true → nonblank an = true →
  nonblank xid = true → nonblank nid = true →
  ∀ ueid uaid nan uxid,
  py_UUID eid = Ok ueid → py_UUID aid = Ok uaid → int an = Ok nan → py_UUID xid = Ok uxid →
  match st with
  | TCompleted => em = None ∧ et = None ∧ ∃ s, rest = [("output_data", s)] ∧ nonblank s = true ∧
                  loads s = Some out ∧ is_json_value out = true
  | TFailed => out = PNone ∧ ∃ m t, em = Some m ∧ et = Some t ∧
               rest = [("error_message", m); ("error_type", t)]
  end →
  event_from_stream_fields fields =
    error_guard st em "error_message" (error_guard st et "error_type" (Ok {| ev_event_id := ueid; ev_task_id := tid; ev_execution_id := uxid; ev_node_id := nid;
          ev_status := st; ev_attempt_id := uaid; ev_attempt_number := nan; ev_output_data := out;
          ev_error_message := em; ev_error_type := et |})).
Proof.
  intros -> Hne Ht Ha Hn Hx Hd ueid uaid nan uxid H1 H2 H3 H4 Hrest. unfold event_from_stream_fields.
  cbn [aget app String.eqb Ascii.eqb Bool.eqb]. rewrite Hne. cbn [mbind outcome_bind].
  destruct st; cbn [completion_status_value] in *.
  - destruct Hrest as (-> & -> & s & -> & Hs & Hl & Hj). repeat read_field.
    unfold json_value_field. read_field. by rewrite Hl, Hj.
  - destruct Hrest as (-> & m & t & -> & -> & ->). repeat read_field.
    unfold error_guard, required_field. cbn [aget app String.eqb Ascii.eqb Bool.eqb].
    destruct (nonblank m), (nonblank t); done.
Qed.

(** An event that names its task: 128-bit identifiers and texts that are not
    blank. *)
Record identified (e : TaskCompletionEvent) : Prop := {
  id_numbers : (ev_event_id e < uuid_bound ∧ ev_execution_id e < uuid_bound ∧
                ev_attempt_id e < uuid_bound)%N;
  id_texts : nonblank (ev_task_id e) = true ∧ nonblank (ev_node_id e) = true;
}.

(** What the stream carries of an event: a completed one its output, with the
    keys in order, a failed one its error. *)
Definition carried (e : TaskCompletionEvent) : TaskCompletionEvent :=
  {| ev_event_id := ev_event_id e; ev_task_id := ev_task_id e; ev_execution_id := ev_execution_id e;
     ev_node_id := ev_node_id e; ev_status := ev_status e; ev_attempt_id := ev_attempt_id e;
     ev_attempt_number := ev_attempt_number e;
     ev_output_data := match ev_status e with TCompleted => sort_keys (ev_output_data e) | TFailed => PNone end;
     ev_error_message := match ev_status e with TCompleted => None | TFailed => ev_error_message e end;
     ev_error_type := match ev_status e with TCompleted => None | TFailed => ev_error_type e end |}.

(** C30: which completion events survive the stream.  For an event with 128-bit
    identifiers and a task and a node that are not blank: a completed event
    with a JSON output is written, and reading gives it back with the keys of
    its output in order (the fields of the other status are not carried); a
    failed event without error information is refused
    when it is written; any other failed event is written, and is read back
    exactly when neither its error message nor its error type is blank:
    otherwise reading raises [ValueError], and the event is lost. *)
Theorem completion_event_round_trip `{JsonLaws} e :
  identified e → (ev_status e = TCompleted → json_data (ev_output_data e) = true) →
  match ev_status e, ev_error_message e, ev_error_type e with
  | TCompleted, _, _ => ∃ fields, event_to_stream_fields e = Ok fields ∧
      event_from_stream_fields fields = Ok (carried e)
  | TFailed, Some message, Some type => ∃ fields, event_to_stream_fields e = Ok fields ∧
      event_from_stream_fields fields =
        if negb (nonblank message)
        then Raise (ValueError "Task completion event field 'error_message' is required.")
        else if negb (nonblank type)
        then Raise (ValueError "Task completion event field 'error_type' is required.")
        else Ok (carried e)
  | TFailed, _, _ =>
      event_to_stream_fields e = Raise (ValueError "Failed task completion events require error information.")
  end.
Proof.
  intros [(Hu1 & Hu2 & Hu3) (Ht & Hn)] Hj.
  assert (Hread : ∀ rest, (match ev_status e with
    | TCompleted => ev_error_message (carried e) = None ∧ ev_error_type (carried e) = None ∧
        ∃ s, rest = [("output_data", s)] ∧ nonblank s = true ∧
        loads s = Some (ev_output_data (carried e)) ∧ is_json_value (ev_output_data (carried e)) = true
    | TFailed => ev_output_data (carried e) = PNone ∧ ∃ m t, ev_error_message (carried e) = Some m ∧
        ev_error_type (carried e) = Some t ∧ rest = [("error_message", m); ("error_type", t)]
    end) → event_from_stream_fields (event_fields e ++ rest) =
      error_guard (ev_status e) (ev_error_message (carried e)) "error_message"
        (error_guard (ev_status e) (ev_error_type (carried e)) "error_type" (Ok (carried e)))).
  { intros rest Hrest. eapply read_event;
      eauto using uuid_str_nonblank, str_of_Z_nonblank, uuid_str_not_empty, py_UUID_str, int_str. }
  assert (Hc : ev_status e = TCompleted → ev_output_data (carried e) = sort_keys (ev_output_data e) ∧
    ev_error_message (carried e) = None ∧ ev_error_type (carried e) = None) by (unfold carried; simpl; by intros ->).
  assert (Hf : ev_status e = TFailed → ev_output_data (carried e) = PNone ∧
    ev_error_message (carried e) = ev_error_message e ∧ ev_error_type (carried e) = ev_error_type e)
    by (unfold carried; simpl; by intros ->).
  unfold event_to_stream_fields. destruct (ev_status e).
  - destruct (Hc eq_refl) as (Ho & Hm & Hty). destruct (json_round_trip _ (Hj eq_refl)) as (s & Hd & Hs & Hl).
    rewrite Hd. eexists. split; [done|]. rewrite Hread; [by rewrite Hm, Hty|]. rewrite Ho.
    eauto 10 using is_json_sort_keys.
  - destruct (Hf eq_refl) as (Ho & Hm & Hty).
    destruct (ev_error_message e) as [m|]; [|done]. destruct (ev_error_type e) as [t|]; [|done].
    eexists. split; [done|]. rewrite Hread by eauto 10. rewrite Hm, Hty. simpl.
    by destruct (nonblank m), (nonblank t).
Qed.

(** The task messages the dispatcher publishes. *)
Record wf_message (m : NodeTaskMessage) : Prop := {
  wm_ids : (tm_execution_id m < uuid_bound ∧ tm_attempt_id m < uuid_bound)%N ∧
           ∀ u, tm_message_id m = Some u → (u < uuid_bound)%N;
  wm_text : nonblank (tm_task_id m) = true ∧ nonblank (tm_node_id m) = true ∧
            nonblank (tm_handler m) = true;
  wm_number : (1 ≤ tm_attempt_number m < int_limit)%Z;
  wm_json : json_data (PDict (tm_handler_config m)) = true ∧
            json_data (PDict (tm_resolved_input m)) = true;
}.

Definition sort_message (m : NodeTaskMessage) : NodeTaskMessage :=
  {| tm_message_id := tm_message_id m; tm_task_id := tm_task_id m;
     tm_attempt_id := tm_attempt_id m; tm_attempt_number := tm_attempt_number m;
     tm_execution_id := tm_execution_id m; tm_node_id := tm_node_id m; tm_handler := tm_handler m;
     tm_handler_config := sort_dict (tm_handler_config m);
     tm_resolved_input := sort_dict (tm_resolved_input m) |}.

Lemma read_message `{Json} `{Pydantic} mid tid aid an xid nid h config input fields :
  fields = [("task_id", tid); ("attempt_id", aid); ("attempt_number", an); ("execution_id", xid);
    ("node_id", nid); ("handler", h); ("handler_config", config); ("resolved_input", input)]
    ++ (match mid with Some s => [("message_id", s)] | None => [] end) →
  nonblank tid = true → nonblank aid = true → nonblank an = true → nonblank xid = true →
  nonblank nid = true → nonblank h = true → nonblank config = true → nonblank input = true →
  ∀ umid uaid nan uxid dc di,
  match mid with None => umid = None | Some s => Some <$> pydantic_uuid s = Some umid end →
  pydantic_uuid aid = Some uaid → pydantic_int an = Some nan → pydantic_uuid xid = Some uxid →
  loads config = Some (PDict dc) → is_json_value (PDict dc) = true →
  loads input = Some (PDict di) → is_json_value (PDict di) = true → (1 ≤ nan)%Z →
  message_from_stream_fields fields =
    Ok {| tm_message_id := umid; tm_task_id := tid; tm_attempt_id := uaid;
          tm_attempt_number := nan; tm_execution_id := uxid; tm_node_id := nid; tm_handler := h;
          tm_handler_config := dc; tm_resolved_input := di |}.
Proof.
  intros -> Ht Ha Hn Hx Hd Hh Hc Hi umid uaid nan uxid dc di Hm H1 H2 H3 Hlc Hjc Hli Hji Hge.
  unfold message_from_stream_fields. cbn [app]. repeat read_field.
  unfold json_object_field, json_value_field. read_field. rewrite Hlc, Hjc. cbn [mbind outcome_bind].
  read_field. rewrite Hli, Hji. cbn [mbind outcome_bind].
  assert (Hmid : (match aget "message_id" ([("task_id", tid); ("attempt_id", aid);
     ("attempt_number", an); ("execution_id", xid);
    ("node_id", nid); ("handler", h); ("handler_config", config); ("resolved_input", input)]
    ++ (match mid with Some s => [("message_id", s)] | None => [] end)) with
    | None => Some None | Some s => Some <$> pydantic_uuid s end) = Some umid).
  { destruct mid; cbn [aget app String.eqb Ascii.eqb Bool.eqb]; [done|by rewrite Hm]. }
  cbn [app] in Hmid. rewrite Hmid, H1, H2, H3.
  unfold NodeTaskMessage_init, valid_task_message. cbn [tm_task_id tm_attempt_number tm_node_id tm_handler].
  rewrite !(proj2 (String.eqb_neq _ _)) by (by apply nonblank_neq_empty).
  rewrite (proj2 (Z.leb_le _ _)) by done. done.
Qed.

(** A task message survives the stream, with the keys of its two objects
    in order. *)
Theorem task_message_round_trip `{JsonLaws} `{PydanticLaws} m :
  wf_message m →
  ∃ fields, message_to_stream_fields m = Ok fields ∧
            message_from_stream_fields fields = Ok (sort_message m).
Proof.
  intros [[[Hx Ha] Hmid] (Ht & Hn & Hh) Hnum [Hc Hi]]. unfold message_to_stream_fields.
  destruct (json_round_trip _ Hc) as (sc & Hdc & Hbc & Hlc).
  destruct (json_round_trip _ Hi) as (si & Hdi & Hbi & Hli). rewrite Hdc, Hdi.
  eexists. split; [done|].
  eapply (read_message (uuid_str <$> tm_message_id m)).
  { destruct (tm_message_id m); [|done]. rewrite aset_fresh; [done|]. set_solver. }
  all: eauto using uuid_str_nonblank, str_of_Z_nonblank, pydantic_uuid_str.
  all: try (by apply (is_json_sort_keys (PDict _))).
  - destruct (tm_message_id m) as [u|]; simpl; [|done]. by rewrite pydantic_uuid_str by auto.
  - apply pydantic_int_str. lia.
  - lia.
Qed.
