(* ===== verification/Store.v ===== *)
(** * The store and the effects

    The tables of src/app/infrastructure/persistence/models/, the managed
    transaction of unit_of_work.py, and the effect monad every stateful
    operation of the program is written in: a state of tables, Redis streams
    and counters that is kept when an exception propagates.

    A transaction is one atomic step; the interleaving of the processes is an
    interleaving of transactions.  Constraints are checked when a row is
    written, [jsonb] columns keep the value they are given, and the
    [updated_at] columns, which no code reads, are left out. *)

From S2P Require Import Prelude Numerals PyVal States Errors Domain Messages.

(** ** Rows *)

(** models/workflow.py *)
Record WorkflowRecord : Type := {
  wr_workflow_id : UUID;
  wr_name : string;
  wr_dag_definition : pydict;
  wr_created_at : datetime;
}.

(** models/outbox_event.py; the status column holds "pending" or "published". *)
Inductive OutboxStatus : Type := OPending | OPublished.

Record OutboxEventRecord : Type := {
  ob_event_id : UUID;
  ob_event_type : string;
  ob_aggregate_id : option UUID;
  ob_target_stream : string;
  ob_payload : pydict;
  ob_status : OutboxStatus;
  ob_publish_attempts : Z;
  ob_last_error : option string;
  ob_created_at : datetime;
  ob_published_at : option datetime;
}.

(** models/task_retry.py; the status columns of the three tables. *)
Inductive LogicalTaskStatus : Type := LRunning | LRetryScheduled | LCompleted | LFailed.
Inductive AttemptStatus : Type :=
| AScheduled | AQueued | ARunning | AClaimed | AResultRecorded | ACompleted | AFailed.
Inductive DispatchStatus : Type := DPending | DPublished.

Record LogicalTaskRecord : Type := {
  lt_task_id : string;
  lt_execution_id : UUID;
  lt_node_id : string;
  lt_handler : string;
  lt_handler_config : pydict;
  lt_resolved_input : pydict;
  lt_status : LogicalTaskStatus;
  lt_final_error_message : option string;
  lt_final_error_type : option string;
  lt_created_at : datetime;
}.

Record TaskAttemptRecord : Type := {
  at_attempt_id : UUID;
  at_task_id : string;
  at_attempt_number : Z;
  at_status : AttemptStatus;
  at_failure_event_id : option UUID;
  at_completion_event_id : option UUID;
  at_error_message : option string;
  at_error_type : option string;
  at_started_at : option datetime;
  at_failed_at : option datetime;
  at_scheduled_at : option datetime;
  at_completed_at : option datetime;
  at_claimed_by : option string;
  at_claimed_at : option datetime;
  at_claim_expires_at : option datetime;
  at_result_data : pyobj;
  at_completion_published_at : option datetime;
  at_created_at : datetime;
}.

Record TaskRetryDispatchRecord : Type := {
  rd_attempt_id : UUID;
  rd_available_at : datetime;
  rd_status : DispatchStatus;
  rd_published_at : option datetime;
  rd_created_at : datetime;
}.

(** models/task_processing.py *)
Inductive ProcessingStatus : Type := PClaimed | PResultRecorded | PCompleted.

Record TaskProcessingRecord : Type := {
  tp_task_id : string;
  tp_execution_id : UUID;
  tp_node_id : string;
  tp_status : ProcessingStatus;
  tp_claimed_by : option string;
  tp_claimed_at : datetime;
  tp_claim_expires_at : option datetime;
  tp_result_data : pyobj;
  tp_error_message : option string;
  tp_error_type : option string;
  tp_completion_event_id : option UUID;
  tp_completion_published_at : option datetime;
  tp_completed_at : option datetime;
}.

#[export] Instance outbox_status_eq_dec : EqDecision OutboxStatus.
Proof. solve_decision. Defined.
#[export] Instance logical_task_status_eq_dec : EqDecision LogicalTaskStatus.
Proof. solve_decision. Defined.
#[export] Instance attempt_status_eq_dec : EqDecision AttemptStatus.
Proof. solve_decision. Defined.
#[export] Instance dispatch_status_eq_dec : EqDecision DispatchStatus.
Proof. solve_decision. Defined.
#[export] Instance processing_status_eq_dec : EqDecision ProcessingStatus.
Proof. solve_decision. Defined.

(** ** Tables, by primary key *)

Record Db : Type := {
  workflows : gmap UUID WorkflowRecord;
  workflow_executions : gmap UUID WorkflowExecution;
  node_executions : gmap (UUID * string) NodeExecution;
  outbox_events : gmap UUID OutboxEventRecord;
  logical_tasks : gmap string LogicalTaskRecord;
  task_attempts : gmap UUID TaskAttemptRecord;
  task_retry_dispatches : gmap UUID TaskRetryDispatchRecord;
  task_processing : gmap string TaskProcessingRecord;
}.

(** The tables a migration leaves behind. *)
Definition empty_db : Db :=
  {| workflows := ∅; workflow_executions := ∅; node_executions := ∅; outbox_events := ∅;
     logical_tasks := ∅; task_attempts := ∅; task_retry_dispatches := ∅; task_processing := ∅ |}.

Definition set_workflows (t : gmap UUID WorkflowRecord) (d : Db) : Db :=
  {| workflows := t; workflow_executions := workflow_executions d;
     node_executions := node_executions d; outbox_events := outbox_events d;
     logical_tasks := logical_tasks d; task_attempts := task_attempts d;
     task_retry_dispatches := task_retry_dispatches d; task_processing := task_processing d |}.
Definition set_executions (t : gmap UUID WorkflowExecution) (d : Db) : Db :=
  {| workflows := workflows d; workflow_executions := t;
     node_executions := node_executions d; outbox_events := outbox_events d;
     logical_tasks := logical_tasks d; task_attempts := task_attempts d;
     task_retry_dispatches := task_retry_dispatches d; task_processing := task_processing d |}.
Definition set_nodes (t : gmap (UUID * string) NodeExecution) (d : Db) : Db :=
  {| workflows := workflows d; workflow_executions := workflow_executions d;
     node_executions := t; outbox_events := outbox_events d;
     logical_tasks := logical_tasks d; task_attempts := task_attempts d;
     task_retry_dispatches := task_retry_dispatches d; task_processing := task_processing d |}.
Definition set_outbox (t : gmap UUID OutboxEventRecord) (d : Db) : Db :=
  {| workflows := workflows d; workflow_executions := workflow_executions d;
     node_executions := node_executions d; outbox_events := t;
     logical_tasks := logical_tasks d; task_attempts := task_attempts d;
     task_retry_dispatches := task_retry_dispatches d; task_processing := task_processing d |}.
Definition set_logical_tasks (t : gmap string LogicalTaskRecord) (d : Db) : Db :=
  {| workflows := workflows d; workflow_executions := workflow_executions d;
     node_executions := node_executions d; outbox_events := outbox_events d;
     logical_tasks := t; task_attempts := task_attempts d;
     task_retry_dispatches := task_retry_dispatches d; task_processing := task_processing d |}.
Definition set_attempts (t : gmap UUID TaskAttemptRecord) (d : Db) : Db :=
  {| workflows := workflows d; workflow_executions := workflow_executions d;
     node_executions := node_executions d; outbox_events := outbox_events d;
     logical_tasks := logical_tasks d; task_attempts := t;
     task_retry_dispatches := task_retry_dispatches d; task_processing := task_processing d |}.
Definition set_dispatches (t : gmap UUID TaskRetryDispatchRecord) (d : Db) : Db :=
  {| workflows := workflows d; workflow_executions := workflow_executions d;
     node_executions := node_executions d; outbox_events := outbox_events d;
     logical_tasks := logical_tasks d; task_attempts := task_attempts d;
     task_retry_dispatches := t; task_processing := task_processing d |}.
Definition set_processing (t : gmap string TaskProcessingRecord) (d : Db) : Db :=
  {| workflows := workflows d; workflow_executions := workflow_executions d;
     node_executions := node_executions d; outbox_events := outbox_events d;
     logical_tasks := logical_tasks d; task_attempts := task_attempts d;
     task_retry_dispatches := task_retry_dispatches d; task_processing := t |}.

(** ** The effect monad *)

(** The state of a process: the tables, the Redis streams in publication
    order, the acknowledgements (stream, group, message), and how many times
    the clock, the random source and Redis have been used. *)
Record World : Type := {
  w_db : Db;
  w_streams : list (string * stream_fields);
  w_acks : list (string * string * string);
  w_ticks : nat;
  w_draws : nat;
  w_calls : nat;
}.

(** The outside: the clock, [uuid4], whether the n-th Redis call fails, and
    [uuid5], which is a function of its arguments. *)
Class Env : Type := {
  clock : nat → datetime;
  uuid4_draw : nat → UUID;
  redis_failure : nat → option string;
  uuid5 : UUID → string → UUID;
}.

Definition IO (A : Type) : Type := World → World * py A.

#[export] Instance io_ret : MRet IO := λ A a w, (w, Ok a).
#[export] Instance io_bind : MBind IO := λ A B f m w,
  match m w with
  | (w', Ok a) => f a w'
  | (w', Raise e) => (w', Raise e)
  end.

Definition set_db (d : Db) (w : World) : World :=
  {| w_db := d; w_streams := w_streams w; w_acks := w_acks w; w_ticks := w_ticks w;
     w_draws := w_draws w; w_calls := w_calls w |}.

Definition raise {A} (e : exn) : IO A := λ w, (w, Raise e).
Definition lift {A} (m : py A) : IO A := λ w, (w, m).
Definition get_db : IO Db := λ w, (w, Ok (w_db w)).
Definition put_db (d : Db) : IO unit := λ w, (set_db d w, Ok tt).

Definition guard_io (b : bool) (e : exn) : IO unit := if b then mret tt else raise e.

(** [try ... except Exception] around a computation: its result as a value. *)
Definition try_io {A} (m : IO A) : IO (py A) := λ w, let '(w', r) := m w in (w', Ok r).

(** A [for] loop over a list. *)
Fixpoint iter_io {A} (f : A → IO unit) (l : list A) : IO unit :=
  match l with
  | [] => mret tt
  | x :: l' => f x ≫= λ _, iter_io f l'
  end.

(** [_UnavailableRepository] aside, [SqlAlchemyUnitOfWork.transaction]: the
    body's writes are committed when it returns and rolled back when it
    raises; database errors are translated. *)
Definition transaction {A} (body : IO A) : IO A := λ w,
  match body w with
  | (w', Ok a) => (w', Ok a)
  | (w', Raise e) =>
      (set_db (w_db w) w',
       Raise (if is_sqlalchemy_error e
              then WorkflowPersistenceError "Unable to persist workflow data." else e))
  end.

Section effects.
Context `{Env}.

Definition now : IO datetime := λ w,
  ({| w_db := w_db w; w_streams := w_streams w; w_acks := w_acks w; w_ticks := S (w_ticks w);
      w_draws := w_draws w; w_calls := w_calls w |}, Ok (clock (w_ticks w))).

Definition uuid4 : IO UUID := λ w,
  ({| w_db := w_db w; w_streams := w_streams w; w_acks := w_acks w; w_ticks := w_ticks w;
      w_draws := S (w_draws w); w_calls := w_calls w |}, Ok (uuid4_draw (w_draws w))).

(** [publish] and [ack] of src/app/messaging/redis/streams.py. *)
Definition publish (stream : string) (fields : stream_fields) : IO unit := λ w,
  match redis_failure (w_calls w) with
  | Some m =>
      ({| w_db := w_db w; w_streams := w_streams w; w_acks := w_acks w; w_ticks := w_ticks w;
          w_draws := w_draws w; w_calls := S (w_calls w) |}, Raise (RedisError m))
  | None =>
      ({| w_db := w_db w; w_streams := w_streams w ++ [(stream, fields)]; w_acks := w_acks w;
          w_ticks := w_ticks w; w_draws := w_draws w; w_calls := S (w_calls w) |}, Ok tt)
  end.

Definition ack (stream group message_id : string) : IO unit := λ w,
  match redis_failure (w_calls w) with
  | Some m =>
      ({| w_db := w_db w; w_streams := w_streams w; w_acks := w_acks w; w_ticks := w_ticks w;
          w_draws := w_draws w; w_calls := S (w_calls w) |}, Raise (RedisError m))
  | None =>
      ({| w_db := w_db w; w_streams := w_streams w; w_acks := w_acks w ++ [(stream, group, message_id)];
          w_ticks := w_ticks w; w_draws := w_draws w; w_calls := S (w_calls w) |}, Ok tt)
  end.
End effects.

(** ** Constraints *)

(** A [String(n)] column. *)
Definition varchar (n : nat) (s : string) : IO unit :=
  guard_io (String.length s <=? n) (SQLAlchemyError "value too long for type character varying").

Definition varchar_opt (n : nat) (s : option string) : IO unit :=
  match s with Some s => varchar n s | None => mret tt end.

(** A foreign key, and a primary key that must be new. *)
Definition foreign_key (present : bool) : IO unit :=
  guard_io present (SQLAlchemyError "insert violates foreign key constraint").
Definition unique_key (present : bool) : IO unit :=
  guard_io (negb present) (SQLAlchemyError "duplicate key value violates unique constraint").

Definition has {K V} `{Countable K} (k : K) (t : gmap K V) : bool := bool_decide (is_Some (t !! k)).

Lemma has_true {K V} `{Countable K} (k : K) (t : gmap K V) : has k t = true ↔ is_Some (t !! k).
Proof. apply bool_decide_eq_true. Qed.
Lemma has_false {K V} `{Countable K} (k : K) (t : gmap K V) : has k t = false ↔ t !! k = None.
Proof. unfold has. by rewrite bool_decide_eq_false, <- eq_None_not_Some. Qed.

(** ** Reasoning about effects *)

Lemma io_bind_Ok {A B} (m : IO A) (f : A → IO B) w w' b :
  (m ≫= f) w = (w', Ok b) → ∃ w1 a, m w = (w1, Ok a) ∧ f a w1 = (w', Ok b).
Proof. unfold mbind, io_bind. destruct (m w) as [w1 [a|e]]; naive_solver. Qed.

Lemma io_bind_run {A B} (m : IO A) (f : A → IO B) w w1 a :
  m w = (w1, Ok a) → (m ≫= f) w = f a w1.
Proof. unfold mbind, io_bind. by intros ->. Qed.

Lemma io_bind_raise {A B} (m : IO A) (f : A → IO B) w w1 e :
  m w = (w1, Raise e) → (m ≫= f) w = (w1, Raise e).
Proof. unfold mbind, io_bind. by intros ->. Qed.

Lemma transaction_Ok {A} (body : IO A) w w' a :
  transaction body w = (w', Ok a) ↔ body w = (w', Ok a).
Proof. unfold transaction. destruct (body w) as [w1 [b|e]]; naive_solver. Qed.

Lemma transaction_Ok_inv {A} (body : IO A) w w' a :
  transaction body w = (w', Ok a) → body w = (w', Ok a).
Proof. by rewrite transaction_Ok. Qed.

(** A transaction that raises has written nothing. *)
Lemma transaction_rollback {A} (body : IO A) w w' e :
  transaction body w = (w', Raise e) → w_db w' = w_db w.
Proof. unfold transaction. destruct (body w) as [w1 [b|e']]; naive_solver. Qed.

(** [keeps R m]: whatever [m] returns or raises, the tables move along [R]. *)
Definition keeps {A} (R : Db → Db → Prop) (m : IO A) : Prop :=
  ∀ w, R (w_db w) (w_db (m w).1).

Section keeps.
Context (R : Db → Db → Prop) `{!PreOrder R}.

Lemma keeps_ret {A} (a : A) : keeps R (mret a).
Proof. intros w. simpl. reflexivity. Qed.
Lemma keeps_raise {A} e : keeps R (raise e : IO A).
Proof. intros w. simpl. reflexivity. Qed.
Lemma keeps_lift {A} (m : py A) : keeps R (lift m).
Proof. intros w. simpl. reflexivity. Qed.
Lemma keeps_guard b e : keeps R (guard_io b e).
Proof. destruct b; [apply keeps_ret|apply keeps_raise]. Qed.

Lemma keeps_bind {A B} (m : IO A) (f : A → IO B) :
  keeps R m → (∀ a, keeps R (f a)) → keeps R (m ≫= f).
Proof.
  intros Hm Hf w. unfold mbind, io_bind. specialize (Hm w).
  destruct (m w) as [w1 [a|e]]; simpl in *; [|done]. etrans; [exact Hm|apply Hf].
Qed.

Lemma keeps_iter {A} (f : A → IO unit) l : (∀ x, keeps R (f x)) → keeps R (iter_io f l).
Proof.
  intros H. induction l as [|x l IH]; simpl; [apply keeps_ret|].
  apply keeps_bind; auto.
Qed.

Lemma keeps_transaction {A} (m : IO A) : keeps R m → keeps R (transaction m).
Proof.
  intros Hm w. specialize (Hm w). unfold transaction.
  destruct (m w) as [w1 [a|e]]; simpl in *; [done|reflexivity].
Qed.

Lemma keeps_try {A} (m : IO A) : keeps R m → keeps R (try_io m).
Proof. intros Hm w. specialize (Hm w). unfold try_io. by destruct (m w). Qed.

Lemma keeps_now `{Env} : keeps R now.
Proof. intros w. simpl. reflexivity. Qed.
Lemma keeps_uuid4 `{Env} : keeps R uuid4.
Proof. intros w. simpl. reflexivity. Qed.
Lemma keeps_publish `{Env} s f : keeps R (publish s f).
Proof. intros w. unfold publish. destruct (redis_failure _); simpl; reflexivity. Qed.
Lemma keeps_ack `{Env} s g i : keeps R (ack s g i).
Proof. intros w. unfold ack. destruct (redis_failure _); simpl; reflexivity. Qed.
End keeps.

#[export] Hint Resolve keeps_ret keeps_raise keeps_lift keeps_guard keeps_bind keeps_iter
  keeps_transaction keeps_try keeps_now keeps_uuid4 keeps_publish keeps_ack : keeps.

#[export] Hint Extern 0 (PreOrder _) => typeclasses eauto : keeps.

(** *** From known tables

    [from d R m]: started on the tables [d], the computation moves them along
    [R].  The rules follow the syntax of an operation, so a write produces the
    obligation that relates the tables read to the tables written. *)

Definition from {A} (d : Db) (R : Db → Db → Prop) (m : IO A) : Prop :=
  ∀ w, w_db w = d → R d (w_db (m w).1).

(** Computations that do not write. *)
Definition quiet {A} (m : IO A) : Prop := ∀ w, w_db (m w).1 = w_db w.

Lemma keeps_from {A} R (m : IO A) : (∀ d, from d R m) → keeps R m.
Proof. intros H w. by apply (H (w_db w)). Qed.

Lemma from_keeps {A} R (m : IO A) d : keeps R m → from d R m.
Proof. intros H w <-. apply H. Qed.

Section quiet.
Lemma quiet_ret {A} (a : A) : quiet (mret a). Proof. done. Qed.
Lemma quiet_raise {A} e : quiet (raise e : IO A). Proof. done. Qed.
Lemma quiet_lift {A} (m : py A) : quiet (lift m). Proof. done. Qed.
Lemma quiet_get : quiet get_db. Proof. done. Qed.
Lemma quiet_guard b e : quiet (guard_io b e). Proof. by destruct b. Qed.
Lemma quiet_varchar n s : quiet (varchar n s). Proof. apply quiet_guard. Qed.
Lemma quiet_varchar_opt n s : quiet (varchar_opt n s).
Proof. destruct s; [apply quiet_varchar|done]. Qed.
Lemma quiet_foreign_key b : quiet (foreign_key b). Proof. apply quiet_guard. Qed.
Lemma quiet_unique_key b : quiet (unique_key b). Proof. apply quiet_guard. Qed.
Lemma quiet_now `{Env} : quiet now. Proof. done. Qed.
Lemma quiet_uuid4 `{Env} : quiet uuid4. Proof. done. Qed.
Lemma quiet_publish `{Env} s f : quiet (publish s f).
Proof. intros w. unfold publish. by destruct (redis_failure _). Qed.
Lemma quiet_ack `{Env} s g i : quiet (ack s g i).
Proof. intros w. unfold ack. by destruct (redis_failure _). Qed.
Lemma quiet_bind {A B} (m : IO A) (f : A → IO B) :
  quiet m → (∀ a, quiet (f a)) → quiet (m ≫= f).
Proof.
  intros Hm Hf w. unfold mbind, io_bind. specialize (Hm w).
  destruct (m w) as [w1 [a|e]]; simpl in *; [|done]. by rewrite Hf.
Qed.
Lemma quiet_transaction {A} (m : IO A) : quiet m → quiet (transaction m).
Proof. intros Hm w. specialize (Hm w). unfold transaction. by destruct (m w) as [w1 []]. Qed.
End quiet.

#[export] Hint Resolve quiet_ret quiet_raise quiet_lift quiet_get quiet_guard quiet_varchar
  quiet_varchar_opt quiet_foreign_key quiet_unique_key quiet_now quiet_uuid4 quiet_publish
  quiet_ack quiet_bind quiet_transaction : keeps.

Section from.
Context (R : Db → Db → Prop) `{!PreOrder R}.

Lemma from_quiet {A} d (m : IO A) : quiet m → from d R m.
Proof. intros Hm w <-. rewrite Hm. reflexivity. Qed.

Lemma from_get_bind {A} d (f : Db → IO A) : from d R (f d) → from d R (get_db ≫= f).
Proof. intros Hf w <-. by apply Hf. Qed.

Lemma from_put d d' : R d d' → from d R (put_db d').
Proof. intros H w <-. done. Qed.

Lemma from_put_bind {A} d d' (f : unit → IO A) :
  R d d' → from d' R (f tt) → from d R (put_db d' ≫= f).
Proof.
  intros H Hf w <-. unfold mbind, io_bind, put_db.
  etrans; [exact H|]. by apply (Hf (set_db d' w)).
Qed.

Lemma from_quiet_bind {A B} d (m : IO A) (f : A → IO B) :
  quiet m → (∀ a, from d R (f a)) → from d R (m ≫= f).
Proof.
  intros Hm Hf w <-. unfold mbind, io_bind. specialize (Hm w).
  destruct (m w) as [w1 [a|e]]; simpl in *; [|rewrite Hm; reflexivity].
  by apply Hf.
Qed.

Lemma from_ret_bind {A B} d (a : A) (f : A → IO B) : from d R (f a) → from d R (mret a ≫= f).
Proof. done. Qed.

(** What a passed check establishes. *)
Lemma from_guard_bind {A} d b e (f : unit → IO A) :
  (b = true → from d R (f tt)) → from d R (guard_io b e ≫= f).
Proof.
  destruct b; [intros H; by apply H|]. intros _ w <-. simpl. reflexivity.
Qed.
Lemma from_unique_bind {A} d b (f : unit → IO A) :
  (b = false → from d R (f tt)) → from d R (unique_key b ≫= f).
Proof. intros H. apply from_guard_bind. intros Hb. apply H. by destruct b. Qed.
Lemma from_foreign_bind {A} d b (f : unit → IO A) :
  (b = true → from d R (f tt)) → from d R (foreign_key b ≫= f).
Proof. apply from_guard_bind. Qed.

Lemma from_assoc {A B C} d (m : IO A) (g : A → IO B) (f : B → IO C) :
  from d R (m ≫= λ a, g a ≫= f) → from d R ((m ≫= g) ≫= f).
Proof.
  intros Hm w Hw. specialize (Hm w Hw). unfold mbind, io_bind in *.
  by destruct (m w) as [w1 [a|e]].
Qed.

(** After an operation whose result is not followed, only [R] is known. *)
Lemma from_bind {A B} d (m : IO A) (f : A → IO B) :
  from d R m → (∀ a, keeps R (f a)) → from d R (m ≫= f).
Proof.
  intros Hm Hf w Hw. specialize (Hm w Hw). unfold mbind, io_bind.
  destruct (m w) as [w1 [a|e]]; simpl in *; [|done]. etrans; [exact Hm|apply Hf].
Qed.
End from.

(** Walk through an operation; what remains are the obligations of its writes. *)
Ltac walk_step :=
  lazymatch goal with
  | |- from _ _ ((_ ≫= _) ≫= _) => apply from_assoc
  | |- from _ _ (get_db ≫= _) => apply from_get_bind
  | |- from _ _ (put_db _ ≫= _) => apply from_put_bind; [typeclasses eauto| |]
  | |- from _ _ (put_db _) => apply from_put
  | |- from _ _ (mret _ ≫= _) => apply from_ret_bind
  | |- from _ _ (guard_io _ _ ≫= _) => apply from_guard_bind; [typeclasses eauto|intros ?]
  | |- from _ _ (unique_key _ ≫= _) => apply from_unique_bind; [typeclasses eauto|intros ?]
  | |- from _ _ (foreign_key _ ≫= _) => apply from_foreign_bind; [typeclasses eauto|intros ?]
  | |- from _ _ (match ?x with _ => _ end) => destruct x eqn:?
  | |- from _ _ (match ?x with _ => _ end ≫= _) => destruct x eqn:?
  | |- from _ _ (_ ≫= _) =>
      apply from_quiet_bind; [typeclasses eauto|solve [eauto with keeps]|intros ?]
  | |- from _ _ _ =>
      first [ apply from_quiet; [typeclasses eauto|solve [eauto with keeps]]
            | apply from_keeps; solve [eauto with keeps] ]
  end; cbv beta.

Ltac walk := repeat walk_step.

(** The same for an operation composed of operations already related. *)
Ltac compose :=
  apply keeps_from; intros ?;
  repeat first
    [ walk_step
    | lazymatch goal with
      | |- from _ _ (_ ≫= _) =>
          apply from_bind; [typeclasses eauto|apply from_keeps; solve [eauto with keeps]|
            intros ?; apply keeps_from; intros ?]
      end ].
