(* ===== verification/Repositories.v ===== *)
(** * Repositories

    src/app/infrastructure/persistence/repositories/: one definition per
    method, over the tables of [Store].  A conditional [UPDATE ... RETURNING]
    is a lookup of the row followed by a write of the changed row. *)

From S2P Require Import Prelude Numerals PyVal States Errors Domain Messages Store.

(** ** Bulk statements *)

(** [UPDATE t SET f WHERE p], and the keys it returns. *)
Definition update_where {K V} `{Countable K} (p : K → V → bool) (f : V → V) (t : gmap K V)
    : gmap K V := map_imap (λ k v, Some (if p k v then f v else v)) t.
Definition keys_where {K V} `{Countable K} (p : K → V → bool) (t : gmap K V) : list K :=
  (filter (λ kv, p kv.1 kv.2 = true) (map_to_list t)).*1.
Definition rows_where {K V} `{Countable K} (p : K → V → bool) (t : gmap K V) : list V :=
  (filter (λ kv, p kv.1 kv.2 = true) (map_to_list t)).*2.

Lemma lookup_update_where {K V} `{Countable K} p f (t : gmap K V) k :
  update_where p f t !! k = (λ v, if p k v then f v else v) <$> t !! k.
Proof. unfold update_where. rewrite map_lookup_imap. by destruct (t !! k). Qed.

Lemma elem_of_keys_where {K V} `{Countable K} p (t : gmap K V) k :
  k ∈ keys_where p t ↔ ∃ v, t !! k = Some v ∧ p k v = true.
Proof.
  unfold keys_where. rewrite list_elem_of_fmap. split.
  - intros ([k' v] & -> & [Hp Hin]%list_elem_of_filter). apply elem_of_map_to_list in Hin. eauto.
  - intros (v & Hv & Hp). exists (k, v). split; [done|]. apply list_elem_of_filter. split; [done|].
    by apply elem_of_map_to_list.
Qed.

Lemma elem_of_rows_where {K V} `{Countable K} p (t : gmap K V) v :
  v ∈ rows_where p t ↔ ∃ k, t !! k = Some v ∧ p k v = true.
Proof.
  unfold rows_where. rewrite list_elem_of_fmap. split.
  - intros ([k v'] & -> & [Hp Hin]%list_elem_of_filter). apply elem_of_map_to_list in Hin. eauto.
  - intros (k & Hv & Hp). exists (k, v). split; [done|]. apply list_elem_of_filter. split; [done|].
    by apply elem_of_map_to_list.
Qed.

Lemma NoDup_keys_where {K V} `{Countable K} p (t : gmap K V) : NoDup (keys_where p t).
Proof.
  unfold keys_where. pose proof (NoDup_fst_map_to_list t) as Hnd.
  induction (map_to_list t) as [|[k v] l IH]; [constructor|].
  csimpl in Hnd. apply NoDup_cons in Hnd as [Hk Hnd]. rewrite filter_cons. case_decide; [|auto].
  csimpl. apply NoDup_cons. split; [|auto]. intros Hin. apply Hk.
  apply list_elem_of_fmap in Hin as (y & -> & [_ Hy]%list_elem_of_filter).
  by apply list_elem_of_fmap_2.
Qed.

(** Rows that carry their key are listed once. *)
Lemma NoDup_rows_where {K V} `{Countable K} p (f : V → K) (t : gmap K V) :
  (∀ k v, t !! k = Some v → f v = k) → NoDup (f <$> rows_where p t).
Proof.
  intros Hk. assert (Heq : f <$> rows_where p t = keys_where p t).
  { unfold rows_where, keys_where. rewrite <- list_fmap_compose. apply list_fmap_ext.
    intros i [k r] Hi. simpl. apply list_elem_of_lookup_2, list_elem_of_filter in Hi as [_ Hi].
    apply elem_of_map_to_list in Hi. by apply Hk. }
  rewrite Heq. apply NoDup_keys_where.
Qed.

(** ** Workflow definitions

    Storing a definition dumps its DAG to JSON and loading validates it again;
    both are pydantic's work, and so is [Workflow.model_validate] on a
    submitted payload, which takes the identifier and the creation time that
    the model's default factories draw. *)

Class WorkflowSchema : Type := {
  model_validate : UUID → datetime → pydict → py Workflow;
  dump_dag : WorkflowDag → pydict;
  load_workflow : UUID → string → pyobj → datetime → py Workflow;
}.

Section workflow_repository.
Context `{WorkflowSchema}.

Definition create_workflow (w : Workflow) : IO unit :=
  d ← get_db;
  unique_key (has (wf_workflow_id w) (workflows d)) ≫= λ _,
  varchar 255 (wf_name w) ≫= λ _,
  put_db (set_workflows (<[wf_workflow_id w :=
    {| wr_workflow_id := wf_workflow_id w; wr_name := wf_name w;
       wr_dag_definition := dump_dag (wf_dag w); wr_created_at := wf_created_at w |}]>
    (workflows d)) d).

Definition read_workflow (d : Db) (workflow_id : UUID) : py (option Workflow) :=
  match workflows d !! workflow_id with
  | None => Ok None
  | Some r =>
      w ← load_workflow (wr_workflow_id r) (wr_name r)
            (default (PList []) (dict_get "nodes" (wr_dag_definition r))) (wr_created_at r);
      Ok (Some w)
  end.

Definition get_workflow_by_id (workflow_id : UUID) : IO (option Workflow) :=
  d ← get_db; lift (read_workflow d workflow_id).
End workflow_repository.

(** ** Workflow executions *)

Definition create_execution (e : WorkflowExecution) : IO unit :=
  d ← get_db;
  unique_key (has (we_execution_id e) (workflow_executions d)) ≫= λ _,
  foreign_key (has (we_workflow_id e) (workflows d)) ≫= λ _,
  put_db (set_executions (<[we_execution_id e := e]> (workflow_executions d)) d).

Definition get_execution_by_id (execution_id : UUID) : IO (option WorkflowExecution) :=
  d ← get_db; mret (workflow_executions d !! execution_id).

(** The row lock of [FOR UPDATE] is subsumed by the atomicity of the
    transaction. *)
Definition get_execution_by_id_for_update (execution_id : UUID) : IO (option WorkflowExecution) :=
  d ← get_db; mret (workflow_executions d !! execution_id).

(** Keyword arguments left at [None] do not touch their columns. *)
Definition or_keep {A} (x old : option A) : option A := match x with Some _ => x | None => old end.

Definition update_execution_status (new_status : WorkflowExecutionStatus)
    (started_at completed_at : option datetime) (input_data : option pydict)
    (e : WorkflowExecution) : WorkflowExecution :=
  {| we_execution_id := we_execution_id e; we_workflow_id := we_workflow_id e;
     we_status := new_status; we_input_data := default (we_input_data e) input_data;
     we_created_at := we_created_at e;
     we_started_at := or_keep started_at (we_started_at e);
     we_completed_at := or_keep completed_at (we_completed_at e) |}.

Definition execution_update_status_if_current (execution_id : UUID)
    (expected_current_status new_status : WorkflowExecutionStatus)
    (started_at completed_at : option datetime) (input_data : option pydict) : IO bool :=
  d ← get_db;
  match workflow_executions d !! execution_id with
  | Some e =>
      if decide (we_status e = expected_current_status) then
        put_db (set_executions (<[execution_id :=
          update_execution_status new_status started_at completed_at input_data e]>
          (workflow_executions d)) d) ≫= λ _, mret true
      else mret false
  | None => mret false
  end.

(** ** Node executions *)

Definition nodes_of_execution (execution_id : UUID) (d : Db) : list NodeExecution :=
  rows_where (λ k _, bool_decide (k.1 = execution_id)) (node_executions d).

Definition get_node_executions_for_execution (execution_id : UUID) : IO (list NodeExecution) :=
  d ← get_db; mret (nodes_of_execution execution_id d).

Definition upsert_node_execution (n : NodeExecution) : IO unit :=
  d ← get_db;
  foreign_key (has (ne_workflow_execution_id n) (workflow_executions d)) ≫= λ _,
  varchar 255 (ne_node_id n) ≫= λ _,
  varchar_opt 255 (ne_error_type n) ≫= λ _,
  let k := (ne_workflow_execution_id n, ne_node_id n) in
  let row := match node_executions d !! k with
             | None => n
             | Some old =>
                 {| ne_workflow_execution_id := ne_workflow_execution_id n; ne_node_id := ne_node_id n;
                    ne_status := ne_status n; ne_output_data := ne_output_data n;
                    ne_error_message := ne_error_message n; ne_error_type := ne_error_type n;
                    ne_created_at := ne_created_at old; ne_started_at := ne_started_at n;
                    ne_completed_at := ne_completed_at n |}
             end in
  put_db (set_nodes (<[k := row]> (node_executions d)) d).

Definition update_node_status (new_status : NodeExecutionStatus) (output_data : option pyobj)
    (error_message error_type : option string) (started_at completed_at : option datetime)
    (n : NodeExecution) : NodeExecution :=
  {| ne_workflow_execution_id := ne_workflow_execution_id n; ne_node_id := ne_node_id n;
     ne_status := new_status; ne_output_data := default (ne_output_data n) output_data;
     ne_error_message := or_keep error_message (ne_error_message n);
     ne_error_type := or_keep error_type (ne_error_type n); ne_created_at := ne_created_at n;
     ne_started_at := or_keep started_at (ne_started_at n);
     ne_completed_at := or_keep completed_at (ne_completed_at n) |}.

Definition node_update_status_if_current (execution_id : UUID) (node_id : string)
    (expected_current_status new_status : NodeExecutionStatus) (output_data : option pyobj)
    (error_message error_type : option string) (started_at completed_at : option datetime) : IO bool :=
  d ← get_db;
  match node_executions d !! (execution_id, node_id) with
  | Some n =>
      if decide (ne_status n = expected_current_status) then
        varchar_opt 255 error_type ≫= λ _,
        put_db (set_nodes (<[(execution_id, node_id) :=
          update_node_status new_status output_data error_message error_type started_at completed_at n]>
          (node_executions d)) d) ≫= λ _, mret true
      else mret false
  | None => mret false
  end.

(** The rows a bulk statement over pending nodes selects. *)
Definition pending_among (execution_id : UUID) (node_ids : list string)
    (k : UUID * string) (n : NodeExecution) : bool :=
  bool_decide (k.1 = execution_id) && memb k.2 node_ids && bool_decide (ne_status n = NPending).

Section node_repository.
Context `{Env}.

Definition claim_pending_nodes (execution_id : UUID) (node_ids : list string) : IO (list string) :=
  match node_ids with
  | [] => mret []
  | _ =>
      started_at ← now;
      d ← get_db;
      let p := pending_among execution_id node_ids in
      put_db (set_nodes (update_where p
        (update_node_status NRunning None None None (Some started_at) None)
        (node_executions d)) d) ≫= λ _,
      mret (snd <$> keys_where p (node_executions d))
  end.

Definition fail_pending_nodes (execution_id : UUID) (node_ids : list string)
    (reason : string) (completed_at : datetime) : IO (list string) :=
  match node_ids with
  | [] => mret []
  | _ =>
      d ← get_db;
      let p := pending_among execution_id node_ids in
      put_db (set_nodes (update_where p
        (update_node_status NFailed None (Some reason) (Some "FailedDependency") None
           (Some completed_at)) (node_executions d)) d) ≫= λ _,
      mret (snd <$> keys_where p (node_executions d))
  end.
End node_repository.

(** ** Outbox *)

Section outbox_repository.
Context `{Env}.

Definition add_message (message_id : UUID) (message_type target_stream : string)
    (payload : pydict) (aggregate_id : option UUID) : IO unit :=
  created_at ← now;
  d ← get_db;
  unique_key (has message_id (outbox_events d)) ≫= λ _,
  varchar 128 message_type ≫= λ _,
  varchar 128 target_stream ≫= λ _,
  put_db (set_outbox (<[message_id :=
    {| ob_event_id := message_id; ob_event_type := message_type; ob_aggregate_id := aggregate_id;
       ob_target_stream := target_stream; ob_payload := payload; ob_status := OPending;
       ob_publish_attempts := 0; ob_last_error := None; ob_created_at := created_at;
       ob_published_at := None |}]> (outbox_events d)) d).

Definition add_execution_triggered (execution_id : UUID) : IO unit :=
  message_id ← uuid4;
  add_message message_id "workflow.execution.triggered" "workflow.events"
    (obj [("execution_id", PStr (uuid_str execution_id))]) (Some execution_id).

Definition add_task (message_id : UUID) (payload : pydict) (aggregate_id : option UUID) : IO unit :=
  add_message message_id "workflow.task" "workflow.tasks" payload aggregate_id.
End outbox_repository.
