(* ===== verification/TaskRepositories.v ===== *)
(** * Task repositories

    The worker's claim tables (task_processing_repository.py and
    task_attempt_processing_repository.py) and the retry tables
    (task_retry_repository.py). *)

From S2P Require Import Prelude Numerals PyVal States Errors Domain Messages Store Repositories.

(** src/app/domain/repositories/task_processing_repository.py *)
Inductive TaskClaimOutcome : Type := CLAIMED | ALREADY_COMPLETED | CURRENTLY_CLAIMED | RESULT_RECORDED.

#[export] Instance task_claim_outcome_eq_dec : EqDecision TaskClaimOutcome.
Proof. solve_decision. Defined.

Record TaskProcessingResult : Type := {
  tr_event_id : UUID;
  tr_result_data : pyobj;
  tr_error_message : option string;
  tr_error_type : option string;
}.

(** A lease column that is set and not later than the given time. *)
Definition lease_expired (claim_expires_at : option datetime) (at_time : datetime) : bool :=
  match claim_expires_at with Some t => (t <=? at_time)%Z | None => false end.

(** ** Claims by task (task_processing_repository.py) *)

Definition set_processing_row (task_id : string) (r : TaskProcessingRecord) : IO unit :=
  d ← get_db; put_db (set_processing (<[task_id := r]> (task_processing d)) d).

Definition claim_task (task_id : string) (execution_id : UUID) (node_id worker_id : string)
    (claimed_at claim_expires_at : datetime) : IO TaskClaimOutcome :=
  d ← get_db;
  match task_processing d !! task_id with
  | None =>
      varchar 255 task_id ≫= λ _,
      foreign_key (has execution_id (workflow_executions d)) ≫= λ _,
      varchar 255 node_id ≫= λ _,
      varchar 255 worker_id ≫= λ _,
      set_processing_row task_id
        {| tp_task_id := task_id; tp_execution_id := execution_id; tp_node_id := node_id;
           tp_status := PClaimed; tp_claimed_by := Some worker_id; tp_claimed_at := claimed_at;
           tp_claim_expires_at := Some claim_expires_at; tp_result_data := PNone;
           tp_error_message := None; tp_error_type := None; tp_completion_event_id := None;
           tp_completion_published_at := None; tp_completed_at := None |} ≫= λ _,
      mret CLAIMED
  | Some r =>
      guard_io (bool_decide (tp_execution_id r = execution_id ∧ tp_node_id r = node_id))
        (ValueError ("Task '" +:+ task_id
           +:+ "' does not match its existing execution and node identity.")) ≫= λ _,
      match tp_status r with
      | PCompleted => mret ALREADY_COMPLETED
      | PResultRecorded => mret RESULT_RECORDED
      | PClaimed =>
          if lease_expired (tp_claim_expires_at r) claimed_at then
            varchar 255 worker_id ≫= λ _,
            set_processing_row task_id
              {| tp_task_id := task_id; tp_execution_id := execution_id; tp_node_id := node_id;
                 tp_status := tp_status r; tp_claimed_by := Some worker_id;
                 tp_claimed_at := claimed_at; tp_claim_expires_at := Some claim_expires_at;
                 tp_result_data := tp_result_data r; tp_error_message := tp_error_message r;
                 tp_error_type := tp_error_type r; tp_completion_event_id := tp_completion_event_id r;
                 tp_completion_published_at := tp_completion_published_at r;
                 tp_completed_at := tp_completed_at r |} ≫= λ _,
            mret CLAIMED
          else mret CURRENTLY_CLAIMED
      end
  end.

Definition task_record_result (task_id : string) (event_id : UUID) (result_data : pyobj)
    (error_message error_type : option string) : IO unit :=
  d ← get_db;
  match task_processing d !! task_id with
  | Some r =>
      if decide (tp_status r = PClaimed) then
        varchar_opt 255 error_type ≫= λ _,
        set_processing_row task_id
          {| tp_task_id := tp_task_id r; tp_execution_id := tp_execution_id r;
             tp_node_id := tp_node_id r; tp_status := PResultRecorded;
             tp_claimed_by := tp_claimed_by r; tp_claimed_at := tp_claimed_at r;
             tp_claim_expires_at := tp_claim_expires_at r; tp_result_data := result_data;
             tp_error_message := error_message; tp_error_type := error_type;
             tp_completion_event_id := Some event_id;
             tp_completion_published_at := tp_completion_published_at r;
             tp_completed_at := tp_completed_at r |}
      else raise (ValueError ("Task '" +:+ task_id +:+ "' is not available to record a result."))
  | None => raise (ValueError ("Task '" +:+ task_id +:+ "' is not available to record a result."))
  end.

(** [scalar_one] raises when there is no row. *)
Definition task_get_result (task_id : string) : IO TaskProcessingResult :=
  d ← get_db;
  match task_processing d !! task_id with
  | None => raise (SQLAlchemyError "No row was found when one was required")
  | Some r =>
      match tp_completion_event_id r with
      | None => raise (ValueError ("Task '" +:+ task_id +:+ "' has no completion event to replay."))
      | Some e => mret {| tr_event_id := e; tr_result_data := tp_result_data r;
                          tr_error_message := tp_error_message r; tr_error_type := tp_error_type r |}
      end
  end.

Definition task_mark_completed (task_id : string) (completed_at : datetime) : IO unit :=
  d ← get_db;
  match task_processing d !! task_id with
  | Some r =>
      if decide (tp_status r = PResultRecorded) then
        set_processing_row task_id
          {| tp_task_id := tp_task_id r; tp_execution_id := tp_execution_id r;
             tp_node_id := tp_node_id r; tp_status := PCompleted; tp_claimed_by := tp_claimed_by r;
             tp_claimed_at := tp_claimed_at r; tp_claim_expires_at := None;
             tp_result_data := tp_result_data r; tp_error_message := tp_error_message r;
             tp_error_type := tp_error_type r; tp_completion_event_id := tp_completion_event_id r;
             tp_completion_published_at := Some completed_at; tp_completed_at := Some completed_at |}
      else raise (ValueError ("Task '" +:+ task_id +:+ "' is not available to mark completed."))
  | None => raise (ValueError ("Task '" +:+ task_id +:+ "' is not available to mark completed."))
  end.

Definition task_renew_claim (task_id worker_id : string) (claim_expires_at : datetime) : IO bool :=
  d ← get_db;
  match task_processing d !! task_id with
  | Some r =>
      if decide (tp_status r = PClaimed ∧ tp_claimed_by r = Some worker_id) then
        set_processing_row task_id
          {| tp_task_id := tp_task_id r; tp_execution_id := tp_execution_id r;
             tp_node_id := tp_node_id r; tp_status := tp_status r; tp_claimed_by := tp_claimed_by r;
             tp_claimed_at := tp_claimed_at r; tp_claim_expires_at := Some claim_expires_at;
             tp_result_data := tp_result_data r; tp_error_message := tp_error_message r;
             tp_error_type := tp_error_type r; tp_completion_event_id := tp_completion_event_id r;
             tp_completion_published_at := tp_completion_published_at r;
             tp_completed_at := tp_completed_at r |} ≫= λ _, mret true
      else mret false
  | None => mret false
  end.

(** ** Claims by attempt (task_attempt_processing_repository.py) *)

Definition set_attempt_row (attempt_id : UUID) (a : TaskAttemptRecord) : IO unit :=
  d ← get_db; put_db (set_attempts (<[attempt_id := a]> (task_attempts d)) d).

(** The columns [claim_attempt] writes. *)
Definition attempt_claimed (worker_id : string) (claimed_at claim_expires_at : datetime)
    (a : TaskAttemptRecord) : TaskAttemptRecord :=
  {| at_attempt_id := at_attempt_id a; at_task_id := at_task_id a;
     at_attempt_number := at_attempt_number a; at_status := AClaimed;
     at_failure_event_id := at_failure_event_id a; at_completion_event_id := at_completion_event_id a;
     at_error_message := at_error_message a; at_error_type := at_error_type a;
     at_started_at := at_started_at a; at_failed_at := at_failed_at a;
     at_scheduled_at := at_scheduled_at a; at_completed_at := at_completed_at a;
     at_claimed_by := Some worker_id; at_claimed_at := Some claimed_at;
     at_claim_expires_at := Some claim_expires_at; at_result_data := at_result_data a;
     at_completion_published_at := at_completion_published_at a; at_created_at := at_created_at a |}.

Definition claim_attempt (attempt_id : UUID) (task_id : string) (execution_id : UUID)
    (node_id worker_id : string) (claimed_at claim_expires_at : datetime) : IO TaskClaimOutcome :=
  d ← get_db;
  match task_attempts d !! attempt_id with
  | None => raise (ValueError ("Attempt '" +:+ uuid_str attempt_id +:+ "' was not found."))
  | Some a =>
      guard_io
        match logical_tasks d !! task_id with
        | None => false
        | Some l => bool_decide (at_task_id a = task_id ∧ lt_execution_id l = execution_id ∧
                                 lt_node_id l = node_id)
        end
        (ValueError ("Attempt '" +:+ uuid_str attempt_id +:+ "' does not match task '"
           +:+ task_id +:+ "'.")) ≫= λ _,
      if decide (at_status a = ACompleted) then mret ALREADY_COMPLETED
      else if decide (at_status a = AResultRecorded) then mret RESULT_RECORDED
      else if bool_decide (is_Some (at_claimed_by a)) &&
              negb (lease_expired (at_claim_expires_at a) claimed_at)
      then mret CURRENTLY_CLAIMED
      else
        varchar 255 worker_id ≫= λ _,
        set_attempt_row attempt_id (attempt_claimed worker_id claimed_at claim_expires_at a) ≫= λ _,
        mret CLAIMED
  end.

Definition attempt_recorded (event_id : UUID) (result_data : pyobj)
    (error_message error_type : option string) (a : TaskAttemptRecord) : TaskAttemptRecord :=
  {| at_attempt_id := at_attempt_id a; at_task_id := at_task_id a;
     at_attempt_number := at_attempt_number a; at_status := AResultRecorded;
     at_failure_event_id := at_failure_event_id a; at_completion_event_id := Some event_id;
     at_error_message := error_message; at_error_type := error_type;
     at_started_at := at_started_at a; at_failed_at := at_failed_at a;
     at_scheduled_at := at_scheduled_at a; at_completed_at := at_completed_at a;
     at_claimed_by := at_claimed_by a; at_claimed_at := at_claimed_at a;
     at_claim_expires_at := at_claim_expires_at a; at_result_data := result_data;
     at_completion_published_at := at_completion_published_at a; at_created_at := at_created_at a |}.

Definition attempt_record_result (attempt_id : UUID) (event_id : UUID) (result_data : pyobj)
    (error_message error_type : option string) : IO unit :=
  d ← get_db;
  match task_attempts d !! attempt_id with
  | Some a =>
      if decide (at_status a = AClaimed) then
        varchar_opt 255 error_type ≫= λ _,
        set_attempt_row attempt_id (attempt_recorded event_id result_data error_message error_type a)
      else raise (ValueError
        ("Attempt '" +:+ uuid_str attempt_id +:+ "' is not available to record a result."))
  | None => raise (ValueError
      ("Attempt '" +:+ uuid_str attempt_id +:+ "' is not available to record a result."))
  end.

Definition attempt_get_result (attempt_id : UUID) : IO TaskProcessingResult :=
  d ← get_db;
  match task_attempts d !! attempt_id with
  | None => raise (SQLAlchemyError "No row was found when one was required")
  | Some a =>
      match at_completion_event_id a with
      | None => raise (ValueError
          ("Attempt '" +:+ uuid_str attempt_id +:+ "' has no completion event to replay."))
      | Some e => mret {| tr_event_id := e; tr_result_data := at_result_data a;
                          tr_error_message := at_error_message a; tr_error_type := at_error_type a |}
      end
  end.

Definition attempt_completed (completed_at : datetime) (a : TaskAttemptRecord) : TaskAttemptRecord :=
  {| at_attempt_id := at_attempt_id a; at_task_id := at_task_id a;
     at_attempt_number := at_attempt_number a; at_status := ACompleted;
     at_failure_event_id := at_failure_event_id a; at_completion_event_id := at_completion_event_id a;
     at_error_message := at_error_message a; at_error_type := at_error_type a;
     at_started_at := at_started_at a; at_failed_at := at_failed_at a;
     at_scheduled_at := at_scheduled_at a; at_completed_at := Some completed_at;
     at_claimed_by := at_claimed_by a; at_claimed_at := at_claimed_at a;
     at_claim_expires_at := None; at_result_data := at_result_data a;
     at_completion_published_at := Some completed_at; at_created_at := at_created_at a |}.

Definition attempt_mark_completed (attempt_id : UUID) (completed_at : datetime) : IO unit :=
  d ← get_db;
  match task_attempts d !! attempt_id with
  | Some a =>
      if decide (at_status a = AResultRecorded) then set_attempt_row attempt_id (attempt_completed completed_at a)
      else raise (ValueError
        ("Attempt '" +:+ uuid_str attempt_id +:+ "' is not available to mark completed."))
  | None => raise (ValueError
      ("Attempt '" +:+ uuid_str attempt_id +:+ "' is not available to mark completed."))
  end.

Definition attempt_renewed (claim_expires_at : datetime) (a : TaskAttemptRecord) : TaskAttemptRecord :=
  {| at_attempt_id := at_attempt_id a; at_task_id := at_task_id a;
     at_attempt_number := at_attempt_number a; at_status := at_status a;
     at_failure_event_id := at_failure_event_id a; at_completion_event_id := at_completion_event_id a;
     at_error_message := at_error_message a; at_error_type := at_error_type a;
     at_started_at := at_started_at a; at_failed_at := at_failed_at a;
     at_scheduled_at := at_scheduled_at a; at_completed_at := at_completed_at a;
     at_claimed_by := at_claimed_by a; at_claimed_at := at_claimed_at a;
     at_claim_expires_at := Some claim_expires_at; at_result_data := at_result_data a;
     at_completion_published_at := at_completion_published_at a; at_created_at := at_created_at a |}.

Definition attempt_renew_claim (attempt_id : UUID) (worker_id : string)
    (claim_expires_at : datetime) : IO bool :=
  d ← get_db;
  match task_attempts d !! attempt_id with
  | Some a =>
      if decide (at_status a = AClaimed ∧ at_claimed_by a = Some worker_id) then
        set_attempt_row attempt_id (attempt_renewed claim_expires_at a) ≫= λ _, mret true
      else mret false
  | None => mret false
  end.

(** ** Retries (task_retry_repository.py) *)

(** src/app/domain/repositories/task_retry_repository.py *)
Inductive RetryDecisionOutcome : Type := RETRY_SCHEDULED | EXHAUSTED | DUPLICATE.

Record RetryDecision : Type := {
  dec_outcome : RetryDecisionOutcome;
  dec_next_attempt_id : option UUID;
  dec_next_attempt_number : option Z;
}.

Definition retry_decision (o : RetryDecisionOutcome) : RetryDecision :=
  {| dec_outcome := o; dec_next_attempt_id := None; dec_next_attempt_number := None |}.

Record DueRetryTask : Type := {
  dr_task_id : string;
  dr_attempt_id : UUID;
  dr_attempt_number : Z;
  dr_execution_id : UUID;
  dr_node_id : string;
  dr_handler : string;
  dr_handler_config : pydict;
  dr_resolved_input : pydict;
}.

Definition set_logical_status (s : LogicalTaskStatus) (l : LogicalTaskRecord) : LogicalTaskRecord :=
  {| lt_task_id := lt_task_id l; lt_execution_id := lt_execution_id l; lt_node_id := lt_node_id l;
     lt_handler := lt_handler l; lt_handler_config := lt_handler_config l;
     lt_resolved_input := lt_resolved_input l; lt_status := s;
     lt_final_error_message := lt_final_error_message l; lt_final_error_type := lt_final_error_type l;
     lt_created_at := lt_created_at l |}.

Definition logical_failed (error_message error_type : string) (l : LogicalTaskRecord)
    : LogicalTaskRecord :=
  {| lt_task_id := lt_task_id l; lt_execution_id := lt_execution_id l; lt_node_id := lt_node_id l;
     lt_handler := lt_handler l; lt_handler_config := lt_handler_config l;
     lt_resolved_input := lt_resolved_input l; lt_status := LFailed;
     lt_final_error_message := Some error_message; lt_final_error_type := Some error_type;
     lt_created_at := lt_created_at l |}.

Definition set_logical_row (task_id : string) (l : LogicalTaskRecord) : IO unit :=
  d ← get_db; put_db (set_logical_tasks (<[task_id := l]> (logical_tasks d)) d).

(** The columns [record_success] writes. *)
Definition attempt_succeeded (completion_event_id : UUID) (completed_at : datetime)
    (a : TaskAttemptRecord) : TaskAttemptRecord :=
  {| at_attempt_id := at_attempt_id a; at_task_id := at_task_id a;
     at_attempt_number := at_attempt_number a; at_status := ACompleted;
     at_failure_event_id := at_failure_event_id a; at_completion_event_id := Some completion_event_id;
     at_error_message := at_error_message a; at_error_type := at_error_type a;
     at_started_at := at_started_at a; at_failed_at := at_failed_at a;
     at_scheduled_at := at_scheduled_at a; at_completed_at := Some completed_at;
     at_claimed_by := at_claimed_by a; at_claimed_at := at_claimed_at a;
     at_claim_expires_at := at_claim_expires_at a; at_result_data := at_result_data a;
     at_completion_published_at := at_completion_published_at a; at_created_at := at_created_at a |}.

Definition record_success (task_id : string) (attempt_id completion_event_id : UUID)
    (completed_at : datetime) : IO bool :=
  d ← get_db;
  match logical_tasks d !! task_id with
  | None => mret true
  | Some l =>
      match task_attempts d !! attempt_id with
      | Some a =>
          if decide (at_task_id a = task_id) then
            if decide (at_completion_event_id a = Some completion_event_id) then mret false
            else if bool_decide (at_status a = ACompleted ∨ at_status a = AFailed) &&
                    bool_decide (is_Some (at_completion_event_id a)) then mret false
            else
              set_attempt_row attempt_id (attempt_succeeded completion_event_id completed_at a) ≫= λ _,
              set_logical_row task_id (set_logical_status LCompleted l) ≫= λ _,
              mret true
          else raise (ValueError ("Attempt '" +:+ uuid_str attempt_id
                 +:+ "' does not belong to task '" +:+ task_id +:+ "'."))
      | None => raise (ValueError ("Attempt '" +:+ uuid_str attempt_id
                 +:+ "' does not belong to task '" +:+ task_id +:+ "'."))
      end
  end.

(** The columns [record_failure] writes to the failed attempt. *)
Definition attempt_failed (failure_event_id : UUID) (error_message error_type : string)
    (failed_at : datetime) (a : TaskAttemptRecord) : TaskAttemptRecord :=
  {| at_attempt_id := at_attempt_id a; at_task_id := at_task_id a;
     at_attempt_number := at_attempt_number a; at_status := AFailed;
     at_failure_event_id := Some failure_event_id; at_completion_event_id := at_completion_event_id a;
     at_error_message := Some error_message; at_error_type := Some error_type;
     at_started_at := at_started_at a; at_failed_at := Some failed_at;
     at_scheduled_at := at_scheduled_at a; at_completed_at := at_completed_at a;
     at_claimed_by := at_claimed_by a; at_claimed_at := at_claimed_at a;
     at_claim_expires_at := at_claim_expires_at a; at_result_data := at_result_data a;
     at_completion_published_at := at_completion_published_at a; at_created_at := at_created_at a |}.

(** A new attempt, with its remaining columns at their defaults. *)
Definition new_attempt (attempt_id : UUID) (task_id : string) (number : Z) (status : AttemptStatus)
    (started_at scheduled_at : option datetime) (created_at : datetime) : TaskAttemptRecord :=
  {| at_attempt_id := attempt_id; at_task_id := task_id; at_attempt_number := number;
     at_status := status; at_failure_event_id := None; at_completion_event_id := None;
     at_error_message := None; at_error_type := None; at_started_at := started_at;
     at_failed_at := None; at_scheduled_at := scheduled_at; at_completed_at := None;
     at_claimed_by := None; at_claimed_at := None; at_claim_expires_at := None;
     at_result_data := PNone; at_completion_published_at := None; at_created_at := created_at |}.

(** [INSERT] with the table's two unique constraints and its foreign key. *)
Definition insert_attempt (a : TaskAttemptRecord) : IO unit :=
  d ← get_db;
  unique_key (has (at_attempt_id a) (task_attempts d)) ≫= λ _,
  unique_key (bool_decide (rows_where (λ _ b, bool_decide (at_task_id b = at_task_id a ∧
    at_attempt_number b = at_attempt_number a)) (task_attempts d) ≠ [])) ≫= λ _,
  foreign_key (has (at_task_id a) (logical_tasks d)) ≫= λ _,
  set_attempt_row (at_attempt_id a) a.

Definition insert_dispatch (r : TaskRetryDispatchRecord) : IO unit :=
  d ← get_db;
  unique_key (has (rd_attempt_id r) (task_retry_dispatches d)) ≫= λ _,
  put_db (set_dispatches (<[rd_attempt_id r := r]> (task_retry_dispatches d)) d).

Section retry_repository.
Context `{Env}.

Definition record_failure (task_id : string) (attempt_id failure_event_id : UUID)
    (error_message error_type : string) (failed_at : datetime) (max_attempts : Z)
    (retry_at : datetime) : IO RetryDecision :=
  guard_io (1 <=? max_attempts)%Z (ValueError "max_attempts must be at least one.") ≫= λ _,
  d ← get_db;
  match logical_tasks d !! task_id with
  | None => mret (retry_decision EXHAUSTED)
  | Some l =>
      if bool_decide (rows_where (λ _ b, bool_decide (at_failure_event_id b = Some failure_event_id))
           (task_attempts d) ≠ [])
      then mret (retry_decision DUPLICATE)
      else
        match task_attempts d !! attempt_id with
        | Some a =>
            if decide (at_task_id a = task_id) then
              if bool_decide (is_Some (at_failure_event_id a)) ||
                 (bool_decide (at_status a = ACompleted) &&
                  negb (bool_decide (at_completion_event_id a = Some failure_event_id)))
              then mret (retry_decision DUPLICATE)
              else
                varchar 255 error_type ≫= λ _,
                set_attempt_row attempt_id (attempt_failed failure_event_id error_message error_type failed_at a)
                ≫= λ _,
                if (max_attempts <=? at_attempt_number a)%Z then
                  set_logical_row task_id (logical_failed error_message error_type l) ≫= λ _,
                  mret (retry_decision EXHAUSTED)
                else
                  next_attempt_id ← uuid4;
                  let next_attempt_number := (at_attempt_number a + 1)%Z in
                  insert_attempt (new_attempt next_attempt_id task_id next_attempt_number AScheduled
                    None (Some retry_at) failed_at) ≫= λ _,
                  insert_dispatch {| rd_attempt_id := next_attempt_id; rd_available_at := retry_at;
                    rd_status := DPending; rd_published_at := None; rd_created_at := failed_at |} ≫= λ _,
                  set_logical_row task_id (set_logical_status LRetryScheduled l) ≫= λ _,
                  mret {| dec_outcome := RETRY_SCHEDULED;
                          dec_next_attempt_id := Some next_attempt_id;
                          dec_next_attempt_number := Some next_attempt_number |}
            else raise (ValueError ("Attempt '" +:+ uuid_str attempt_id
                   +:+ "' does not belong to task '" +:+ task_id +:+ "'."))
        | None => raise (ValueError ("Attempt '" +:+ uuid_str attempt_id
                   +:+ "' does not belong to task '" +:+ task_id +:+ "'."))
        end
  end.

(** [INSERT ... ON CONFLICT DO NOTHING] of the logical task. *)
Definition insert_logical_task (l : LogicalTaskRecord) : IO unit :=
  d ← get_db;
  if has (lt_task_id l) (logical_tasks d) then mret tt
  else
    foreign_key (has (lt_execution_id l) (workflow_executions d)) ≫= λ _,
    varchar 255 (lt_task_id l) ≫= λ _,
    varchar 255 (lt_node_id l) ≫= λ _,
    varchar 255 (lt_handler l) ≫= λ _,
    set_logical_row (lt_task_id l) l.

Definition register_initial_task (task_id : string) (execution_id : UUID) (node_id handler : string)
    (handler_config resolved_input : pydict) (attempt_id : UUID) (started_at : datetime) : IO UUID :=
  insert_logical_task
    {| lt_task_id := task_id; lt_execution_id := execution_id; lt_node_id := node_id;
       lt_handler := handler; lt_handler_config := handler_config;
       lt_resolved_input := resolved_input; lt_status := LRunning;
       lt_final_error_message := None; lt_final_error_type := None;
       lt_created_at := started_at |} ≫= λ _,
  d ← get_db;
  match keys_where (λ _ b, bool_decide (at_task_id b = task_id ∧ at_attempt_number b = 1%Z))
          (task_attempts d) with
  | existing_attempt_id :: _ => mret existing_attempt_id
  | [] =>
      insert_attempt (new_attempt attempt_id task_id 1 ARunning (Some started_at) None started_at)
      ≫= λ _, mret attempt_id
  end.

(** The join of the three tables: a due, pending dispatch of a scheduled
    attempt with its logical task. *)
Definition due_retry (d : Db) (available_at : datetime) (a : TaskAttemptRecord) : option DueRetryTask :=
  r ← task_retry_dispatches d !! at_attempt_id a;
  l ← logical_tasks d !! at_task_id a;
  if decide (rd_status r = DPending ∧ (rd_available_at r ≤ available_at)%Z ∧ at_status a = AScheduled)
  then Some {| dr_task_id := lt_task_id l; dr_attempt_id := at_attempt_id a;
               dr_attempt_number := at_attempt_number a; dr_execution_id := lt_execution_id l;
               dr_node_id := lt_node_id l; dr_handler := lt_handler l;
               dr_handler_config := lt_handler_config l; dr_resolved_input := lt_resolved_input l |}
  else None.

Definition get_due_retries (available_at : datetime) : IO (list DueRetryTask) :=
  d ← get_db;
  mret (omap (due_retry d available_at) (rows_where (λ _ _, true) (task_attempts d))).

Definition attempt_queued (a : TaskAttemptRecord) : TaskAttemptRecord :=
  {| at_attempt_id := at_attempt_id a; at_task_id := at_task_id a;
     at_attempt_number := at_attempt_number a; at_status := AQueued;
     at_failure_event_id := at_failure_event_id a;
     at_completion_event_id := at_completion_event_id a;
     at_error_message := at_error_message a; at_error_type := at_error_type a;
     at_started_at := at_started_at a; at_failed_at := at_failed_at a;
     at_scheduled_at := at_scheduled_at a; at_completed_at := at_completed_at a;
     at_claimed_by := at_claimed_by a; at_claimed_at := at_claimed_at a;
     at_claim_expires_at := at_claim_expires_at a; at_result_data := at_result_data a;
     at_completion_published_at := at_completion_published_at a;
     at_created_at := at_created_at a |}.

Definition mark_retry_published (attempt_id : UUID) (published_at : datetime) : IO bool :=
  d ← get_db;
  match task_retry_dispatches d !! attempt_id with
  | Some r =>
      if decide (rd_status r = DPending) then
        put_db (set_dispatches (<[attempt_id :=
          {| rd_attempt_id := rd_attempt_id r; rd_available_at := rd_available_at r;
             rd_status := DPublished; rd_published_at := Some published_at;
             rd_created_at := rd_created_at r |}]> (task_retry_dispatches d)) d) ≫= λ _,
        d ← get_db;
        match task_attempts d !! attempt_id with
        | Some a =>
            if decide (at_status a = AScheduled) then set_attempt_row attempt_id (attempt_queued a) ≫= λ _, mret true
            else mret true
        | None => mret true
        end
      else mret false
  | None => mret false
  end.
End retry_repository.
