(* ===== verification/Services.v ===== *)
(** * Application services: submission, triggering, readiness, queries

    src/app/services/workflow_definition_service.py,
    workflow_trigger_service.py, workflow_readiness_service.py,
    workflow_finalization_service.py, workflow_execution_status_service.py and
    workflow_execution_results_service.py. *)

From S2P Require Import Prelude Numerals PyVal States Errors Domain Dag Graph Readiness Failure.
From S2P Require Import Cycles Validation Messages Store Repositories.

Definition WORKFLOW_TASKS_STREAM : string := "workflow.tasks".
Definition WORKFLOW_EVENTS_STREAM : string := "workflow.events".

(** [{item.node_id: item.status for item in node_executions}]. *)
Definition statuses_by_id (l : list NodeExecution) : gmap string NodeExecutionStatus :=
  foldl (λ m n, <[ne_node_id n := ne_status n]> m) ∅ l.

(** ** Submission *)

Record WorkflowSubmission : Type := {
  ws_execution_id : UUID;
  ws_name : string;
  ws_created_at : datetime;
}.

Section definition_service.
Context `{WorkflowSchema} `{Env}.
Variable rules : list rule.

(** The model's default factories draw the identifier and the time. *)
Definition accept (definition : pydict) : IO Workflow :=
  errors ← lift (validate rules definition);
  match errors with
  | [] =>
      workflow_id ← uuid4;
      created_at ← now;
      lift (model_validate workflow_id created_at definition)
  | _ => raise (InvalidWorkflowDefinitionError errors)
  end.

Definition build_dag (definition : pydict) : IO DAG :=
  w ← accept definition; lift (from_workflow w).

(** [WorkflowExecution(workflow_id=...)]: the other fields have defaults. *)
Definition new_execution (workflow_id : UUID) : IO WorkflowExecution :=
  execution_id ← uuid4;
  created_at ← now;
  mret {| we_execution_id := execution_id; we_workflow_id := workflow_id; we_status := WPending;
          we_input_data := []; we_created_at := created_at; we_started_at := None;
          we_completed_at := None |}.

(** [NodeExecution(workflow_execution_id=..., node_id=...)]. *)
Definition new_node_execution (execution_id : UUID) (node_id : string) : IO NodeExecution :=
  created_at ← now;
  mret {| ne_workflow_execution_id := execution_id; ne_node_id := node_id; ne_status := NPending;
          ne_output_data := PDict []; ne_error_message := None; ne_error_type := None;
          ne_created_at := created_at; ne_started_at := None; ne_completed_at := None |}.

Definition persist_submission (workflow : Workflow) (execution : WorkflowExecution) : IO unit :=
  create_workflow workflow ≫= λ _,
  create_execution execution ≫= λ _,
  iter_io (λ node,
    n ← new_node_execution (we_execution_id execution) (wn_id node);
    upsert_node_execution n) (nodes_of workflow).

Definition submit (definition : pydict) : IO WorkflowSubmission :=
  workflow ← accept definition;
  execution ← new_execution (wf_workflow_id workflow);
  transaction (persist_submission workflow execution) ≫= λ _,
  mret {| ws_execution_id := we_execution_id execution; ws_name := wf_name workflow;
          ws_created_at := wf_created_at workflow |}.
End definition_service.

(** ** Triggering *)

Record WorkflowTriggerDecision : Type := {
  wt_execution_id : UUID;
  wt_status : WorkflowExecutionStatus;
}.

Section trigger_service.
Context `{Env}.

Definition trigger_body (execution_id : UUID) (input_data : option pydict) : IO unit :=
  execution ← get_execution_by_id execution_id;
  match execution with
  | None => raise (WorkflowExecutionNotFoundError (uuid_str execution_id))
  | Some e =>
      if decide (we_status e = WPending) then
        started_at ← now;
        transitioned ← execution_update_status_if_current execution_id WPending WRunning
                         (Some started_at) None input_data;
        if transitioned : bool then
          message_id ← uuid4;
          add_message message_id "workflow.execution.triggered" WORKFLOW_EVENTS_STREAM
            (obj [("execution_id", PStr (uuid_str execution_id))]) (Some execution_id)
        else raise (WorkflowExecutionNotTriggerableError (uuid_str execution_id) (we_status e))
      else raise (WorkflowExecutionNotTriggerableError (uuid_str execution_id) (we_status e))
  end.

Definition trigger (execution_id : UUID) (input_data : option pydict) : IO WorkflowTriggerDecision :=
  transaction (trigger_body execution_id input_data) ≫= λ _,
  mret {| wt_execution_id := execution_id; wt_status := WRunning |}.
End trigger_service.

(** ** Readiness *)

Record WorkflowReadinessDecision : Type := {
  rd_execution_id : UUID;
  rd_ready_node_ids : list string;
}.

Section readiness_service.
Context `{WorkflowSchema}.

Definition readiness_in_transaction (execution_id : UUID) (execution : option WorkflowExecution)
    : IO WorkflowReadinessDecision :=
  persisted_execution ← (match execution with
                         | None => get_execution_by_id execution_id
                         | Some e => mret (Some e)
                         end);
  match persisted_execution with
  | None => raise (WorkflowExecutionNotFoundError (uuid_str execution_id))
  | Some e =>
      workflow ← get_workflow_by_id (we_workflow_id e);
      match workflow with
      | None => raise (LookupError ("Workflow '" +:+ uuid_str (we_workflow_id e) +:+ "' was not found."))
      | Some w =>
          node_executions ← get_node_executions_for_execution execution_id;
          mret {| rd_execution_id := execution_id;
                  rd_ready_node_ids :=
                    evaluate_ready_node_ids w (statuses_by_id node_executions) |}
      end
  end.

Definition readiness_evaluate (execution_id : UUID) : IO WorkflowReadinessDecision :=
  transaction
    (execution ← get_execution_by_id execution_id;
     match execution with
     | None => raise (WorkflowExecutionNotFoundError (uuid_str execution_id))
     | Some e => readiness_in_transaction execution_id (Some e)
     end).
End readiness_service.

(** ** Finalization *)

Record WorkflowFinalizationDecision : Type := {
  fin_execution_id : UUID;
  fin_status : WorkflowExecutionStatus;
}.

Section finalization_service.
Context `{WorkflowSchema} `{Env}.

Definition _workflow_event_id (correlation_id : option UUID) (execution_id : UUID) (status : string)
    : IO UUID :=
  match correlation_id with
  | Some c => mret (uuid5 c ("workflow:" +:+ uuid_str execution_id +:+ ":" +:+ status))
  | None => uuid4
  end.

(** Both terminal branches: the guarded transition and its event. *)
Definition finalize (execution_id : UUID) (correlation_id : option UUID)
    (status : WorkflowExecutionStatus) : IO WorkflowFinalizationDecision :=
  completed_at ← now;
  updated ← execution_update_status_if_current execution_id WRunning status None
              (Some completed_at) None;
  (if updated : bool then
     message_id ← _workflow_event_id correlation_id execution_id (workflow_status_value status);
     add_message message_id ("workflow.execution." +:+ workflow_status_value status)
       WORKFLOW_EVENTS_STREAM
       (obj [("execution_id", PStr (uuid_str execution_id));
             ("status", PStr (workflow_status_value status))]) (Some execution_id)
   else mret tt) ≫= λ _,
  mret {| fin_execution_id := execution_id; fin_status := status |}.

Definition finalization_in_transaction (execution_id : UUID) (execution : option WorkflowExecution)
    (correlation_id : option UUID) : IO WorkflowFinalizationDecision :=
  persisted_execution ← (match execution with
                         | None => get_execution_by_id execution_id
                         | Some e => mret (Some e)
                         end);
  match persisted_execution with
  | None => raise (WorkflowExecutionNotFoundError (uuid_str execution_id))
  | Some e =>
      node_executions ← get_node_executions_for_execution execution_id;
      if existsb (λ n, bool_decide (ne_status n = NFailed)) node_executions then
        finalize execution_id correlation_id WFailed
      else
        workflow ← get_workflow_by_id (we_workflow_id e);
        match workflow with
        | None => raise (LookupError ("Workflow '" +:+ uuid_str (we_workflow_id e) +:+ "' was not found."))
        | Some w =>
            let st := statuses_by_id node_executions in
            if forallb (λ n, bool_decide (st !! wn_id n = Some NCompleted)) (nodes_of w) then
              finalize execution_id correlation_id WCompleted
            else mret {| fin_execution_id := execution_id; fin_status := we_status e |}
        end
  end.

Definition finalization_evaluate (execution_id : UUID) : IO WorkflowFinalizationDecision :=
  transaction
    (execution ← get_execution_by_id execution_id;
     match execution with
     | None => raise (WorkflowExecutionNotFoundError (uuid_str execution_id))
     | Some e => finalization_in_transaction execution_id (Some e) None
     end).
End finalization_service.

(** ** Status and results *)

Record WorkflowExecutionState : Type := {
  ws_execution : WorkflowExecution;
  ws_node_executions : list NodeExecution;
}.

Definition status_get (execution_id : UUID) : IO (option WorkflowExecutionState) :=
  transaction
    (execution ← get_execution_by_id execution_id;
     match execution with
     | None => mret None
     | Some e =>
         node_executions ← get_node_executions_for_execution execution_id;
         mret (Some {| ws_execution := e; ws_node_executions := node_executions |})
     end).

Record WorkflowNodeResult : Type := {
  nr_node_id : string;
  nr_status : NodeExecutionStatus;
  nr_output_data : pyobj;
  nr_error_message : option string;
  nr_error_type : option string;
  nr_created_at : datetime;
  nr_started_at : option datetime;
  nr_completed_at : option datetime;
}.

Record WorkflowExecutionResults : Type := {
  er_execution : WorkflowExecution;
  er_message : option string;
  er_results : option (list WorkflowNodeResult);
}.

Definition node_result (n : NodeExecution) : WorkflowNodeResult :=
  {| nr_node_id := ne_node_id n; nr_status := ne_status n; nr_output_data := ne_output_data n;
     nr_error_message := ne_error_message n; nr_error_type := ne_error_type n;
     nr_created_at := ne_created_at n; nr_started_at := ne_started_at n;
     nr_completed_at := ne_completed_at n |}.

Definition results_of (s : WorkflowExecutionState) : WorkflowExecutionResults :=
  let no_results := λ m, {| er_execution := ws_execution s; er_message := Some m; er_results := None |} in
  match we_status (ws_execution s) with
  | WPending => no_results "Workflow execution is pending. Results are not available yet."
  | WRunning => no_results "Workflow execution is running. Results are not available yet."
  | WFailed => no_results "Workflow execution failed. Final results are not available."
  | WCompleted =>
      if existsb (λ n, bool_decide (ne_status n = NFailed)) (ws_node_executions s) then
        no_results ("Workflow execution state is inconsistent: completed execution contains "
                    +:+ "failed node executions. Final results are not available.")
      else
        {| er_execution := ws_execution s; er_message := None;
           er_results := Some (node_result <$>
             filter (λ n, ne_status n = NCompleted) (ws_node_executions s)) |}
  end.

Definition results_get (execution_id : UUID) : IO (option WorkflowExecutionResults) :=
  s ← status_get execution_id; mret (results_of <$> s).
