(* ===== verification/Dispatch.v ===== *)
(** * Task dispatch

    src/app/services/node_task_dispatcher.py and workflow_dispatch_service.py:
    claiming a ready node, registering its logical task and storing the task
    message in the outbox, all in one transaction; publishing due retries. *)

From S2P Require Import Prelude Numerals PyVal States Errors Domain Dag Graph Readiness Failure.
From S2P Require Import Cycles Validation Templates Resolver Json Messages Store Repositories.
From S2P Require Import TaskRepositories Services.

Definition TASK_ID_NAMESPACE : UUID := 0x1f3cd7dd05c948e99ad395520ee7ae8d%N.

Inductive DispatchOutcome : Type := DISPATCHED | ALREADY_STARTED | FAILED_TO_PUBLISH.

Record DispatchResult : Type := {
  dp_execution_id : UUID;
  dp_node_id : string;
  dp_task_id : option string;
  dp_outcome : DispatchOutcome;
  dp_reason : option string;
}.

(** [asyncio.gather] over coroutines whose transactions are atomic: every one
    runs, and the first exception is raised. *)
Fixpoint gather {A} (l : list (IO A)) : IO (list A) :=
  match l with
  | [] => mret []
  | m :: l' => λ w,
      let '(w1, r) := m w in
      let '(w2, rs) := gather l' w1 in
      (w2, match r, rs with
           | Ok a, Ok l => Ok (a :: l)
           | Raise e, _ => Raise e
           | _, Raise e => Raise e
           end)
  end.

Section dispatcher.
Context `{WorkflowSchema} `{Env} `{Json} `{Pydantic}.
Variables (float_str : spec_float → string) (repr : string → string).

Definition create_task_id (execution_id : UUID) (node_id : string) : string :=
  uuid_str (uuid5 TASK_ID_NAMESPACE (uuid_str execution_id +:+ ":" +:+ node_id)).

(** Some dependency has failed. *)
Definition dependency_failed (node : WorkflowNode) (st : gmap string NodeExecutionStatus) : bool :=
  existsb (λ d, bool_decide (st !! d = Some NFailed)) (wn_dependencies node).

(** [completed_dependency_outputs]. *)
Definition completed_dependency_outputs (execution_id : UUID) (node : WorkflowNode)
    (node_executions : list NodeExecution) : pydict :=
  (λ n, (PStr (ne_node_id n), ne_output_data n)) <$>
    filter (λ n, ne_workflow_execution_id n = execution_id ∧
                 ne_node_id n ∈ wn_dependencies node ∧ ne_status n = NCompleted) node_executions.

Definition task_payload (m : NodeTaskMessage) : pydict :=
  obj [("task_id", PStr (tm_task_id m)); ("attempt_id", PStr (uuid_str (tm_attempt_id m)));
       ("attempt_number", PInt (tm_attempt_number m));
       ("execution_id", PStr (uuid_str (tm_execution_id m)));
       ("node_id", PStr (tm_node_id m)); ("handler", PStr (tm_handler m));
       ("handler_config", PDict (tm_handler_config m));
       ("resolved_input", PDict (tm_resolved_input m))].

(** The part of the transaction that runs when the node was claimed. *)
Definition store_task (x : UUID) (node : WorkflowNode) (task_id : string) (resolved_input : pydict)
    (attempt_id : UUID) : IO unit :=
  started_at ← now;
  attempt_id ← register_initial_task task_id x (wn_id node) (wn_handler node)
                 (wn_config node) resolved_input attempt_id started_at;
  task_message ← lift (NodeTaskMessage_init
    {| tm_message_id := None; tm_task_id := task_id; tm_attempt_id := attempt_id;
       tm_attempt_number := 1; tm_execution_id := x; tm_node_id := wn_id node;
       tm_handler := wn_handler node; tm_handler_config := wn_config node;
       tm_resolved_input := resolved_input |});
  message_id ← lift (py_UUID task_id);
  add_task message_id (task_payload task_message) (Some x).

(** The transaction of [dispatch]; it returns [None] when a dependency has
    failed and otherwise whether the node was claimed. *)
Definition dispatch_body (execution : WorkflowExecution) (node : WorkflowNode) : IO (option bool) :=
  let x := we_execution_id execution in
  let task_id := create_task_id x (wn_id node) in
  locked ← get_execution_by_id_for_update x;
  match locked with
  | None => raise (WorkflowExecutionNotFoundError (uuid_str x))
  | Some _ =>
      node_executions ← get_node_executions_for_execution x;
      if dependency_failed node (statuses_by_id node_executions) then
        completed_at ← now;
        fail_pending_nodes x [wn_id node] "A required dependency failed." completed_at ≫= λ _,
        mret None
      else
        resolved_input ← lift (resolve float_str repr
          (completed_dependency_outputs x node node_executions) node (we_input_data execution));
        claimed_ids ← claim_pending_nodes x [wn_id node];
        let claimed := bool_decide (claimed_ids ≠ []) in
        attempt_id ← uuid4;
        (if claimed : bool then store_task x node task_id resolved_input attempt_id
         else mret tt) ≫= λ _,
        mret (Some claimed)
  end.

Definition dispatch (execution : WorkflowExecution) (node : WorkflowNode) : IO DispatchResult :=
  let x := we_execution_id execution in
  let result := λ outcome reason,
    {| dp_execution_id := x; dp_node_id := wn_id node;
       dp_task_id := Some (create_task_id x (wn_id node)); dp_outcome := outcome;
       dp_reason := reason |} in
  claimed ← transaction (dispatch_body execution node);
  mret match claimed with
       | None => result ALREADY_STARTED (Some "A required dependency failed; node was marked failed.")
       | Some false => result ALREADY_STARTED
           (Some "Node was already dispatched or is no longer eligible to dispatch.")
       | Some true => result DISPATCHED None
       end.

Definition dispatch_many (execution : WorkflowExecution) (nodes : list WorkflowNode)
    : IO (list DispatchResult) := gather (dispatch execution <$> nodes).

(** ** Retries *)

Definition retry_message (r : DueRetryTask) : NodeTaskMessage :=
  {| tm_message_id := None; tm_task_id := dr_task_id r; tm_attempt_id := dr_attempt_id r;
     tm_attempt_number := dr_attempt_number r; tm_execution_id := dr_execution_id r;
     tm_node_id := dr_node_id r; tm_handler := dr_handler r;
     tm_handler_config := dr_handler_config r; tm_resolved_input := dr_resolved_input r |}.

Fixpoint publish_retries (available_at : datetime) (due : list DueRetryTask) (published : Z) : IO Z :=
  match due with
  | [] => mret published
  | r :: due' =>
      m ← lift (NodeTaskMessage_init (retry_message r));
      fields ← lift (message_to_stream_fields m);
      publish WORKFLOW_TASKS_STREAM fields ≫= λ _,
      marked ← transaction (mark_retry_published (dr_attempt_id r) available_at);
      publish_retries available_at due' (if marked : bool then published + 1 else published)%Z
  end.

Definition publish_due_retries (at_time : option datetime) : IO Z :=
  available_at ← (match at_time with Some t => mret t | None => now end);
  due ← transaction (get_due_retries available_at);
  publish_retries available_at due 0.

(** ** workflow_dispatch_service.py *)

Record WorkflowDispatchDecision : Type := {
  wd_execution_id : UUID;
  wd_results : list DispatchResult;
}.

Definition load_ready_nodes (execution_id : UUID) (ready_node_ids : list string)
    : IO (WorkflowExecution * list WorkflowNode) :=
  execution ← get_execution_by_id execution_id;
  match execution with
  | None => raise (WorkflowExecutionNotFoundError (uuid_str execution_id))
  | Some e =>
      workflow ← get_workflow_by_id (we_workflow_id e);
      match workflow with
      | None => raise (LookupError ("Workflow '" +:+ uuid_str (we_workflow_id e) +:+ "' was not found."))
      | Some w => mret (e, filter (λ n, wn_id n ∈ ready_node_ids) (nodes_of w))
      end
  end.

Definition dispatch_ready (execution_id : UUID) (ready_node_ids : list string)
    : IO WorkflowDispatchDecision :=
  match ready_node_ids with
  | [] => mret {| wd_execution_id := execution_id; wd_results := [] |}
  | _ =>
      en ← transaction (load_ready_nodes execution_id ready_node_ids);
      results ← dispatch_many en.1 en.2;
      mret {| wd_execution_id := execution_id; wd_results := results |}
  end.
End dispatcher.
