(* ===== verification/Completion.v ===== *)
(** * Completion processing

    src/app/services/task_completion_service.py: the retry policy and the
    transaction that applies one worker-reported completion event. *)

From Stdlib Require Import SpecFloat.
From S2P Require Import Prelude Numerals PyVal States Errors Domain Dag Graph Readiness Failure.
From S2P Require Import Cycles Validation Templates Resolver Json Messages Store Repositories.
From S2P Require Import TaskRepositories Services Dispatch.

(** ** Binary64 arithmetic and durations *)

Definition float_of_Z (z : Z) : spec_float := binary_normalize 53 1024 z 0 false.
Definition fmul (x y : spec_float) : spec_float := SFmul 53 1024 x y.

(** Integer part and remainder of [m * 2 ^ e], the remainder over [2 ^ -e]. *)
Definition float_split (m : positive) (e : Z) : Z * Z :=
  if (0 <=? e)%Z then ((Zpos m * 2 ^ e)%Z, 0%Z)
  else ((Zpos m / 2 ^ (- e))%Z, (Zpos m mod 2 ^ (- e))%Z).

(** Rounding [q + r / 2 ^ -e] to an integer, ties to even. *)
Definition round_half_even (q r e : Z) : Z :=
  let twice := (2 * r)%Z in
  let unit := (2 ^ (- e))%Z in
  if (twice <? unit)%Z then q
  else if (unit <? twice)%Z then (q + 1)%Z
  else if Z.even q then q else (q + 1)%Z.

Definition MICROSECONDS : Z := 1000000.
Definition MAX_DELTA_DAYS : Z := 999999999.

(** [timedelta(seconds=f)] in microseconds: whole seconds are exact, the
    fraction is multiplied in binary64 and rounded. *)
Definition timedelta_seconds (f : spec_float) : py Z :=
  match f with
  | S754_zero _ => Ok 0%Z
  | S754_infinity _ => Raise (OverflowError "cannot convert float infinity to integer")
  | S754_nan => Raise (ValueError "cannot convert float NaN to integer")
  | S754_finite s m e =>
      let '(whole, fraction) := float_split m e in
      let us := match fmul (float_of_Z MICROSECONDS) (binary_normalize 53 1024 fraction e false) with
                | S754_finite _ m' e' =>
                    let '(q, r) := float_split m' e' in
                    round_half_even q r (if (0 <=? e')%Z then 0 else e')
                | _ => 0%Z
                end in
      let total := (whole * MICROSECONDS + us)%Z in
      let signed := if s then (- total)%Z else total in
      if (Z.abs (signed / (86400 * MICROSECONDS)) <=? MAX_DELTA_DAYS)%Z then Ok signed
      else Raise (OverflowError "days out of range for timedelta")
  end.

(** The range of [datetime], in microseconds since the epoch. *)
Definition MIN_DATETIME : Z := -62135596800000000.
Definition MAX_DATETIME : Z := 253402300799999999.

Definition datetime_add (t : datetime) (delta : Z) : py datetime :=
  let r := (t + delta)%Z in
  if (MIN_DATETIME <=? r)%Z && (r <=? MAX_DATETIME)%Z then Ok r
  else Raise (OverflowError "date value out of range").

(** ** Retry policy *)

Record RetryPolicy : Type := {
  rp_max_attempts : Z;
  rp_initial_delay_seconds : spec_float;
  rp_backoff_multiplier : spec_float;
  rp_max_delay_seconds : option spec_float;
}.

Definition default_policy : RetryPolicy :=
  {| rp_max_attempts := 3; rp_initial_delay_seconds := float_of_Z 1;
     rp_backoff_multiplier := float_of_Z 2; rp_max_delay_seconds := None |}.

(** [__post_init__]: the constructor with its checks. *)
Definition RetryPolicy_init (p : RetryPolicy) : py RetryPolicy :=
  if (rp_max_attempts p <? 1)%Z then Raise (ValueError "max_attempts must be at least one.")
  else if SFltb (rp_initial_delay_seconds p) (float_of_Z 0)
  then Raise (ValueError "initial_delay_seconds must not be negative.")
  else if SFltb (rp_backoff_multiplier p) (float_of_Z 1)
  then Raise (ValueError "backoff_multiplier must be at least one.")
  else match rp_max_delay_seconds p with
       | Some m => if SFltb m (float_of_Z 0)
                   then Raise (ValueError "max_delay_seconds must not be negative.") else Ok p
       | None => Ok p
       end.

(** [from_environment]; [getenv] reads the environment and [parse_float] is
    the text conversion of [float]. *)
Definition from_environment (getenv : string → option string)
    (parse_float : string → py spec_float) : py RetryPolicy :=
  max_attempts ← int (default "3" (getenv "WORKFLOW_TASK_MAX_ATTEMPTS"));
  initial ← parse_float (default "1" (getenv "WORKFLOW_TASK_RETRY_INITIAL_DELAY_SECONDS"));
  multiplier ← parse_float (default "2" (getenv "WORKFLOW_TASK_RETRY_BACKOFF_MULTIPLIER"));
  max_delay ← (match getenv "WORKFLOW_TASK_RETRY_MAX_DELAY_SECONDS" with
               | None => Ok None
               | Some s => f ← parse_float s; Ok (Some f)
               end);
  RetryPolicy_init {| rp_max_attempts := max_attempts; rp_initial_delay_seconds := initial;
    rp_backoff_multiplier := multiplier; rp_max_delay_seconds := max_delay |}.

(** ** Decisions *)

Inductive TaskCompletionOutcome : Type := TPROCESSED | TDUPLICATE | TRETRY_SCHEDULED.
#[export] Instance TaskCompletionOutcome_eq_dec : EqDecision TaskCompletionOutcome.
Proof. solve_decision. Defined.

Record TaskCompletionDecision : Type := {
  tc_event_id : string;
  tc_execution_id : string;
  tc_node_id : string;
  tc_outcome : TaskCompletionOutcome;
  tc_ready_node_ids : list string;
  tc_retry_attempt_id : option string;
  tc_retry_attempt_number : option Z;
}.

Definition completion_decision (e : TaskCompletionEvent) (o : TaskCompletionOutcome)
    (ready : list string) (retry_id : option string) (retry_number : option Z)
    : TaskCompletionDecision :=
  {| tc_event_id := uuid_str (ev_event_id e); tc_execution_id := uuid_str (ev_execution_id e);
     tc_node_id := ev_node_id e; tc_outcome := o; tc_ready_node_ids := ready;
     tc_retry_attempt_id := retry_id; tc_retry_attempt_number := retry_number |}.

Definition duplicate_decision (e : TaskCompletionEvent) : TaskCompletionDecision :=
  completion_decision e TDUPLICATE [] None None.

Section completion_service.
Context `{WorkflowSchema} `{Env}.
(** [math.pow] of the platform, on a float and an integer exponent. *)
Variable pow : spec_float → Z → py spec_float.
Variable policy : RetryPolicy.

Definition delay_for (attempt_number : Z) : py spec_float :=
  if (attempt_number <? 1)%Z then Raise (ValueError "attempt_number must be at least one.")
  else
    p ← pow (rp_backoff_multiplier policy) (attempt_number - 1);
    let delay := fmul (rp_initial_delay_seconds policy) p in
    Ok match rp_max_delay_seconds policy with
       | Some m => if SFltb m delay then m else delay
       | None => delay
       end.

(** The retry bookkeeping that precedes the node's transition: [Some d] when
    the event is settled by it. *)
Definition record_attempt (e : TaskCompletionEvent) (existing : NodeExecution)
    : IO (option TaskCompletionDecision) :=
  match ev_status e with
  | TCompleted =>
      completed_at ← now;
      recorded ← record_success (ev_task_id e) (ev_attempt_id e) (ev_event_id e) completed_at;
      mret (if negb recorded && negb (bool_decide (ne_status existing = NRunning))
            then Some (duplicate_decision e) else None)
  | TFailed =>
      match ev_error_message e, ev_error_type e with
      | Some error_message, Some error_type =>
          failed_at ← now;
          base ← now;
          delay ← lift (delay_for (ev_attempt_number e));
          delta ← lift (timedelta_seconds delay);
          retry_at ← lift (datetime_add base delta);
          decision ← record_failure (ev_task_id e) (ev_attempt_id e) (ev_event_id e)
                       error_message error_type failed_at (rp_max_attempts policy) retry_at;
          mret match dec_outcome decision with
               | DUPLICATE => Some (duplicate_decision e)
               | RETRY_SCHEDULED => Some (completion_decision e TRETRY_SCHEDULED []
                   (uuid_str <$> dec_next_attempt_id decision) (dec_next_attempt_number decision))
               | EXHAUSTED => None
               end
      | _, _ => raise (ValueError "Failed completion events require error information.")
      end
  end.

(** A failed node blocks the pending nodes that depend on it. *)
Definition propagate_failure (e : TaskCompletionEvent) (execution : WorkflowExecution)
    (node_executions : list NodeExecution) : IO unit :=
  workflow ← get_workflow_by_id (we_workflow_id execution);
  match workflow with
  | None => raise (LookupError ("Workflow '" +:+ uuid_str (we_workflow_id execution)
              +:+ "' was not found."))
  | Some w =>
      let st := <[ev_node_id e := NFailed]> (statuses_by_id node_executions) in
      blocked ← lift (run_fuel (evaluate_failed_dependency_node_ids w st));
      completed_at ← now;
      let reason := "Dependency '" +:+ ev_node_id e +:+ "' failed." in
      failed ← fail_pending_nodes (ev_execution_id e) blocked reason completed_at;
      iter_io (λ failed_node_id,
        add_message
          (uuid5 (ev_event_id e)
             ("node:" +:+ uuid_str (ev_execution_id e) +:+ ":" +:+ failed_node_id +:+ ":failed"))
          "workflow.node.failed" WORKFLOW_EVENTS_STREAM
          (obj [("execution_id", PStr (uuid_str (ev_execution_id e)));
                ("node_id", PStr failed_node_id); ("status", PStr "failed");
                ("reason", PStr reason)]) (Some (ev_execution_id e))) failed
  end.

Definition opt_str (s : option string) : pyobj := match s with Some s => PStr s | None => PNone end.

Definition event_payload (e : TaskCompletionEvent) : pydict :=
  obj [("execution_id", PStr (uuid_str (ev_execution_id e))); ("node_id", PStr (ev_node_id e));
       ("status", PStr (completion_status_value (ev_status e))); ("task_id", PStr (ev_task_id e));
       ("attempt_id", PStr (uuid_str (ev_attempt_id e)));
       ("attempt_number", PInt (ev_attempt_number e)); ("output_data", ev_output_data e);
       ("error_message", opt_str (ev_error_message e)); ("error_type", opt_str (ev_error_type e))].

(** Applying the terminal transition and what follows from it. *)
Definition apply_completion (e : TaskCompletionEvent) (execution : WorkflowExecution)
    (node_executions : list NodeExecution) (existing : NodeExecution) : IO TaskCompletionDecision :=
  let is_completed := bool_decide (ev_status e = TCompleted) in
  completed_at ← now;
  updated ← node_update_status_if_current (ev_execution_id e) (ev_node_id e) NRunning
    (if is_completed : bool then NCompleted else NFailed)
    (Some (if is_completed : bool then ev_output_data e else PNone))
    (if is_completed : bool then None else ev_error_message e)
    (if is_completed : bool then None else ev_error_type e) None (Some completed_at);
  if updated : bool then
    (if is_completed : bool then mret tt else propagate_failure e execution node_executions) ≫= λ _,
    add_message (ev_event_id e) ("workflow.node." +:+ completion_status_value (ev_status e))
      WORKFLOW_EVENTS_STREAM (event_payload e) (Some (ev_execution_id e)) ≫= λ _,
    ready ← (if is_completed : bool
             then readiness_in_transaction (ev_execution_id e) (Some execution) ≫= λ r,
                  mret (rd_ready_node_ids r)
             else mret []);
    finalization_in_transaction (ev_execution_id e) (Some execution) (Some (ev_event_id e)) ≫= λ _,
    mret (completion_decision e TPROCESSED ready None None)
  else if bool_decide (ne_status existing = NCompleted ∨ ne_status existing = NFailed) then
    mret (duplicate_decision e)
  else raise (ValueError ("Node execution '" +:+ ev_node_id e +:+ "' cannot complete from status '"
         +:+ node_status_value (ne_status existing) +:+ "'.")).

Definition process_body (e : TaskCompletionEvent) : IO TaskCompletionDecision :=
  execution ← get_execution_by_id_for_update (ev_execution_id e);
  match execution with
  | None => raise (WorkflowExecutionNotFoundError (uuid_str (ev_execution_id e)))
  | Some execution =>
      node_executions ← get_node_executions_for_execution (ev_execution_id e);
      match list_find (λ n, ne_node_id n = ev_node_id e) node_executions with
      | None => raise (LookupError ("Node execution '" +:+ ev_node_id e +:+ "' was not found "
                  +:+ "for execution '" +:+ uuid_str (ev_execution_id e) +:+ "'."))
      | Some (_, existing) =>
          settled ← record_attempt e existing;
          match settled with
          | Some d => mret d
          | None => apply_completion e execution node_executions existing
          end
      end
  end.

Definition process (e : TaskCompletionEvent) : IO TaskCompletionDecision :=
  guard_io (String.eqb (ev_task_id e) (create_task_id (ev_execution_id e) (ev_node_id e)))
    (ValueError "Task completion event task_id does not match its execution and node.") ≫= λ _,
  transaction (process_body e).
End completion_service.

Example timedelta_examples :
  timedelta_seconds (float_of_Z 4) = Ok 4000000%Z ∧
  timedelta_seconds (binary_normalize 53 1024 5 (-1) false) = Ok 2500000%Z ∧
  timedelta_seconds (binary_normalize 53 1024 3602879701896397 (-55) false) = Ok 100000%Z.
Proof. vm_compute. done. Qed.
