(* ===== verification/Redis.v ===== *)
(** * Reading Redis streams

    [consume] of src/app/messaging/redis/streams.py, and the surroundings of a
    process that the orchestrator and the worker share.  [publish] and [ack]
    are in [Store]. *)

From Stdlib Require Import SpecFloat.
From S2P Require Import Prelude Numerals PyVal States Errors Domain Json Messages Store.

(** Messages as Redis returns them: by stream, with their identifiers. *)
Definition stream_batch : Type := list (string * list (string * stream_fields)).

(** The messages of a batch in the order the nested loops visit them. *)
Definition batch_messages (b : stream_batch) : list (string * string * stream_fields) :=
  b ≫= λ sm, (λ m, (sm.1, m.1, m.2)) <$> sm.2.

(** The process's surroundings: the environment, the text conversion of
    [float], the random generator seeded with an integer (its first draw and
    the choice of one of three items), the hash of a text as an integer, the
    n-th reading of [time.monotonic], Python's [format(_, ".1f")] and [repr],
    and what Redis answers to the n-th call: when it reads a stream after an
    identifier for some milliseconds, and when a consumer of a group asks for
    new messages of a stream whose log is given.  [patience t] is how many
    readings a wait of [t] seconds is followed for. *)
Class Host : Type := {
  getenv : string → option string;
  parse_float : string → option spec_float;
  random_draw : Z → spec_float;
  random_choice : Z → nat;
  sha256_int : string → Z;
  monotonic_at : nat → spec_float;
  xread_answer : string → string → Z → nat → stream_batch;
  xreadgroup_answer : string → string → string → Z → nat → list stream_fields → stream_batch;
  one_decimal : spec_float → string;
  quoted : string → string;
  patience : spec_float → nat;
}.

(** The entries of a stream, oldest first. *)
Definition entries (stream : string) (log : list (string * stream_fields)) : list stream_fields :=
  omap (λ m, if String.eqb m.1 stream then Some m.2 else None) log.

Lemma elem_of_entries s log f : f ∈ entries s log ↔ (s, f) ∈ log.
Proof.
  unfold entries. rewrite list_elem_of_omap. split.
  - intros ([s' f'] & Hin & Hf). simpl in Hf. destruct (String.eqb_spec s' s); [|done]. by simplify_eq.
  - intros Hin. exists (s, f). split; [done|]. simpl. by rewrite String.eqb_refl.
Qed.

(** What the program relies on: a consumer of a stream gets messages that were
    added to that stream. *)
Class HostLaws `{Host} : Prop := {
  answer_published g c s n k l m :
    m ∈ batch_messages (xreadgroup_answer g c s n k l) → m.1.1 = s ∧ m.2 ∈ l;
}.

Section redis.
Context `{Env} `{Host}.

(** A Redis call that leaves the streams alone. *)
Definition redis_call : IO unit := λ w,
  ({| w_db := w_db w; w_streams := w_streams w; w_acks := w_acks w; w_ticks := w_ticks w;
      w_draws := w_draws w; w_calls := S (w_calls w) |},
   match redis_failure (w_calls w) with Some m => Raise (RedisError m) | None => Ok tt end).

(** [consume] with one stream and the identifier [">"]. *)
Definition consume (group consumer stream : string) (count : Z) : IO stream_batch := λ w,
  let '(w', r) := redis_call w in
  (w', r ≫= λ _, Ok (xreadgroup_answer group consumer stream count (w_calls w) (entries stream (w_streams w)))).

Lemma consume_effect g c s n w :
  let '(w', r) := consume g c s n w in
  w_db w' = w_db w ∧ w_streams w' = w_streams w ∧ w_acks w' = w_acks w ∧
  match r with
  | Ok b => b = xreadgroup_answer g c s n (w_calls w) (entries s (w_streams w))
  | Raise e => is_redis_error e = true
  end.
Proof. unfold consume, redis_call. by destruct (redis_failure (w_calls w)). Qed.

Lemma consume_published `{!HostLaws} g c s n w w' b m :
  consume g c s n w = (w', Ok b) → m ∈ batch_messages b → m.1.1 = s ∧ (s, m.2) ∈ w_streams w'.
Proof.
  intros Hrun Hm. pose proof (consume_effect g c s n w) as Hc. rewrite Hrun in Hc.
  destruct Hc as (_ & -> & _ & ->). apply answer_published in Hm as [? Hm]. split; [done|].
  by apply elem_of_entries.
Qed.
End redis.
