(* ===== verification/Startup.v ===== *)
(** * Start-up

    What the processes set up before they serve: the Redis clients of
    src/app/messaging/redis/client.py, the database engine of
    src/app/db/session.py and of src/alembic/env.py, the application of
    src/app/api/main.py, and the log records of src/app/worker/logging.py.
    What a library makes of an address is a parameter. *)

From Stdlib Require Import SpecFloat.
From S2P Require Import Prelude Numerals PyVal States Errors Domain Json Messages Store.
From S2P Require Import Repositories TaskRepositories Services Completion Redis.

(** ** Redis clients (client.py) *)

(** Clients are numbered in the order they are made. *)
Inductive slot : Type := SyncClient | AsyncClient.
#[export] Instance slot_eq_dec : EqDecision slot.
Proof. solve_decision. Defined.

Record Clients : Type := {
  _redis_client : option nat;
  _async_redis_client : option nat;
  made : nat;
  closed : list nat;
}.

Definition no_clients : Clients :=
  {| _redis_client := None; _async_redis_client := None; made := 0; closed := [] |}.

Definition client_at (s : slot) (c : Clients) : option nat :=
  match s with SyncClient => _redis_client c | AsyncClient => _async_redis_client c end.

Definition set_client (s : slot) (v : option nat) (c : Clients) : Clients :=
  match s with
  | SyncClient => {| _redis_client := v; _async_redis_client := _async_redis_client c; made := made c; closed := closed c |}
  | AsyncClient => {| _redis_client := _redis_client c; _async_redis_client := v; made := made c; closed := closed c |}
  end.

Section clients.
Context `{Host}.
(** [from_url] of the library: whether it accepts an address; and whether
    closing the [n]-th client raises. *)
Variable from_url : string → py unit.
Variable close : nat → py unit.

Definition _get_redis_url : py string :=
  match getenv "REDIS_URL" with
  | None | Some EmptyString => Raise (RuntimeError "REDIS_URL environment variable is required")
  | Some url => Ok url
  end.

Definition get_client (s : slot) (c : Clients) : Clients * py nat :=
  match client_at s c with
  | Some n => (c, Ok n)
  | None =>
      match _get_redis_url ≫= from_url with
      | Ok _ =>
          (set_client s (Some (made c))
             {| _redis_client := _redis_client c; _async_redis_client := _async_redis_client c;
                made := S (made c); closed := closed c |}, Ok (made c))
      | Raise e => (c, Raise e)
      end
  end.

Definition close_client (s : slot) (c : Clients) : Clients * py unit :=
  match client_at s c with
  | None => (c, Ok tt)
  | Some n =>
      match close n with
      | Ok _ =>
          (set_client s None
             {| _redis_client := _redis_client c; _async_redis_client := _async_redis_client c;
                made := made c; closed := n :: closed c |}, Ok tt)
      | Raise e => (c, Raise e)
      end
  end.

Definition get_redis_client : Clients → Clients * py nat := get_client SyncClient.
Definition close_redis_client : Clients → Clients * py unit := close_client SyncClient.
Definition get_async_redis_client : Clients → Clients * py nat := get_client AsyncClient.
Definition close_async_redis_client : Clients → Clients * py unit := close_client AsyncClient.

(** [ping_redis] and [ping_async_redis]; [ping] is the answer of client [n]. *)
Definition ping_client (ping : nat → py bool) (s : slot) (c : Clients) : Clients * py bool :=
  match get_client s c with
  | (c', Ok n) => (c', ping n)
  | (c', Raise e) => (c', Raise e)
  end.

Inductive client_step : relation Clients :=
| cl_get s c : client_step c (get_client s c).1
| cl_ping ping s c : client_step c (ping_client ping s c).1
| cl_close s c : client_step c (close_client s c).1.
End clients.

Section client_facts.
Context `{Host}.
Variable from_url : string → py unit.
Variable close : nat → py unit.

Definition in_use (c : Clients) (n : nat) : Prop := ∃ s, client_at s c = Some n.

Record clients_inv (c : Clients) : Prop := {
  cl_made n : n < made c ↔ in_use c n ∨ n ∈ closed c;
  cl_open n : in_use c n → n ∉ closed c;
  cl_apart s s' n : client_at s c = Some n → client_at s' c = Some n → s = s';
  cl_once : NoDup (closed c);
}.

Lemma client_at_set s s' v c : client_at s' (set_client s v c) = if decide (s = s') then v else client_at s' c.
Proof. by destruct s, s'. Qed.

Lemma get_client_inv s c : clients_inv c → clients_inv (get_client from_url s c).1.
Proof.
  intros [Hm Ho Ha Hn]. unfold get_client. destruct (client_at s c) as [n|] eqn:Hc; [done|].
  destruct (_ ≫= from_url); [|done]. set (c1 := {| made := S (made c) |}).
  assert (Hat : ∀ s', client_at s' c1 = client_at s' c) by (by intros []). simpl.
  assert (Hfresh : ¬ in_use c (made c) ∧ made c ∉ closed c).
  { pose proof (proj2 (Hm (made c))) as Hlt. split; intros Hx; exact (Nat.lt_irrefl _ (Hlt ltac:(auto))). }
  assert (Huse : ∀ n, in_use (set_client s (Some (made c)) c1) n ↔ n = made c ∨ in_use c n).
  { intros n. unfold in_use. split.
    - intros [s' Hs']. rewrite client_at_set, Hat in Hs'. case_decide; [naive_solver|eauto].
    - intros [->|[s' Hs']]; [exists s; by rewrite client_at_set, decide_True|].
      exists s'. rewrite client_at_set, Hat, decide_False; [done|congruence]. }
  assert (Hcl : closed (set_client s (Some (made c)) c1) = closed c) by (by destruct s).
  assert (Hmd : made (set_client s (Some (made c)) c1) = S (made c)) by (by destruct s).
  split; rewrite ?Hcl, ?Hmd.
  - intros n. rewrite Huse, Nat.lt_succ_r, Nat.lt_eq_cases, Hm. naive_solver.
  - intros n [->|Hn']%Huse; [apply Hfresh|by apply Ho].
  - intros s1 s2 n. rewrite !client_at_set, !Hat. repeat case_decide; subst; try done; intros E1 E2.
    + injection E1 as <-. destruct Hfresh as [[] _]. by exists s2.
    + injection E2 as <-. destruct Hfresh as [[] _]. by exists s1.
    + by eapply Ha.
  - done.
Qed.

Lemma close_client_inv s c : clients_inv c → clients_inv (close_client close s c).1.
Proof.
  intros [Hm Ho Ha Hn]. unfold close_client. destruct (client_at s c) as [k|] eqn:Hc; [|done].
  destruct (close k); [|done]. set (c1 := {| closed := k :: closed c |}).
  assert (Hat : ∀ s', client_at s' c1 = client_at s' c) by (by intros []). simpl.
  assert (Huse : ∀ n, in_use (set_client s None c1) n ↔ n ≠ k ∧ in_use c n).
  { intros n. unfold in_use. split.
    - intros [s' Hs']. rewrite client_at_set, Hat in Hs'. case_decide; [done|].
      split; [|eauto]. intros ->. by destruct (Ha s s' k Hc Hs').
    - intros [Hne [s' Hs']]. exists s'. rewrite client_at_set, Hat, decide_False; [done|congruence]. }
  assert (Hcl : closed (set_client s None c1) = k :: closed c) by (by destruct s).
  assert (Hmd : made (set_client s None c1) = made c) by (by destruct s).
  assert (Hk : in_use c k) by (by exists s).
  split; rewrite ?Hcl, ?Hmd.
  - intros n. rewrite Huse, elem_of_cons, (Hm n). destruct (decide (n = k)) as [->|]; intuition.
  - intros n [Hne Hu]%Huse. apply not_elem_of_cons. split; [done|by apply Ho].
  - intros s1 s2 n. rewrite !client_at_set, !Hat. repeat case_decide; try done. apply Ha.
  - constructor; [by apply Ho|done].
Qed.

(** The clients of a process.  However they are obtained, pinged and closed, a
    client is handed out again until it is closed, each is closed at most once
    and is not used afterwards, the two kinds are kept apart, and every client
    that was made is in use or closed.  Without an address, or with one the
    library refuses, nothing changes. *)
Theorem clients_correct c :
  rtc (client_step from_url close) no_clients c →
  (∀ n, n < made c ↔ in_use c n ∨ n ∈ closed c) ∧ (∀ n, in_use c n → n ∉ closed c) ∧ NoDup (closed c) ∧
  (∀ s s' n, client_at s c = Some n → client_at s' c = Some n → s = s') ∧
  ∀ s, let '(c', r) := get_client from_url s c in
    match r with
    | Ok n => client_at s c' = Some n ∧ get_client from_url s c' = (c', Ok n)
    | Raise _ => c' = c
    end.
Proof.
  intros Hr. assert (Hi : clients_inv c).
  { assert (H0 : clients_inv no_clients).
    { split; simpl; [|by intros n [[] ?]|by intros [] [] n|constructor].
      intros n. split; [lia|]. intros [[[] ?]|?%elem_of_nil]; done. }
    revert H0. induction Hr as [c|c c1 c2 Hs _ IH]; [done|]. intros Hc. apply IH. destruct Hs as [s c|ping s c|s c].
    - by apply get_client_inv.
    - unfold ping_client. pose proof (get_client_inv s c Hc) as Hg. by destruct (get_client from_url s c) as [c' []].
    - by apply close_client_inv. }
  destruct Hi as [Hm Ho Ha Hn]. do 4 (split; [done|]). intros s.
  destruct (get_client from_url s c) as [c' r] eqn:Hg. unfold get_client in Hg.
  destruct (client_at s c) as [n|] eqn:Hc.
  - injection Hg as <- <-. split; [done|]. unfold get_client. by rewrite Hc.
  - destruct (_ ≫= from_url); injection Hg as <- <-; [|done]. unfold get_client.
    rewrite client_at_set, decide_True by done. done.
Qed.
End client_facts.

(** ** Databases (session.py, alembic/env.py) *)

Inductive pooling : Type := NullPool | PrePing.

Section databases.
Context `{Host}.

(** The address of the engine and how it keeps connections. *)
Definition database_engine : py (string * pooling) :=
  match getenv "DATABASE_URL" with
  | None | Some EmptyString => Raise (RuntimeError "DATABASE_URL environment variable is required")
  | Some url => Ok (url, if decide (getenv "INTEGRATION_TEST" = Some "1") then NullPool else PrePing)
  end.

(** [os.getenv(a) or os.getenv(b)]. *)
Definition getenv_or (a b : string) : option string :=
  match getenv a with None | Some EmptyString => getenv b | v => v end.

Definition migration_url : py string :=
  match getenv_or "ALEMBIC_DATABASE_URL" "DATABASE_URL" with
  | None | Some EmptyString =>
      Raise (RuntimeError "DATABASE_URL environment variable is required for Alembic migrations")
  | Some url => Ok url
  end.

(** Where the services can start, the migrations can run. *)
Lemma services_and_migrations url pool :
  database_engine = Ok (url, pool) →
  migration_url = Ok (match getenv "ALEMBIC_DATABASE_URL" with None | Some EmptyString => url | Some u => u end).
Proof.
  unfold database_engine, migration_url, getenv_or. destruct (getenv "DATABASE_URL") as [[|a u]|] eqn:Hd; [done| |done].
  intros [= <- _]. by destruct (getenv "ALEMBIC_DATABASE_URL") as [[|b v]|].
Qed.
End databases.

(** ** The application (api/main.py) *)

Definition _application_version (manifest_path : string) (manifest : pyobj) : py string :=
  match manifest with
  | PDict d =>
      match dict_get "." d with
      | Some (PStr version) => Ok version
      | _ => Raise (RuntimeError ("Invalid release-please manifest: " +:+ manifest_path))
      end
  | _ => Raise (RuntimeError ("Invalid release-please manifest: " +:+ manifest_path))
  end.

Definition root : pydict := obj [("status", PStr "ok")].
Definition health : pydict := obj [("status", PStr "healthy")].

(** ** Log records (worker/logging.py) *)

Section logging.
(** The attributes that every log record has, and the text of a mapping as
    [json.dumps] writes it with sorted keys. *)
Variable _LOG_RECORD_FIELDS : gset string.
Variable dumps_sorted : gmap string pyobj → string.

(** [record.__dict__] is [attributes]; [timestamp] is the time of the call and
    [exception] the text of [exc_info], if there is one. *)
Definition log_payload (timestamp levelname name message : string) (attributes : gmap string pyobj)
    (exception : option string) : gmap string pyobj :=
  let payload : gmap string pyobj :=
    <["timestamp" := PStr timestamp]> (<["level" := PStr levelname]>
      (<["logger" := PStr name]> (<["message" := PStr message]> ∅))) in
  let payload := filter (λ kv, kv.1 ∉ _LOG_RECORD_FIELDS) attributes ∪ payload in
  match exception with Some text => <["exception" := PStr text]> payload | None => payload end.

Definition json_format (timestamp levelname name message : string) (attributes : gmap string pyobj)
    (exception : option string) : string :=
  dumps_sorted (log_payload timestamp levelname name message attributes exception).

(** Every contextual field of a record is in its payload, even when it is
    named like one of the four standard entries; only a field called
    "exception" gives way, to the text of the exception. *)
Lemma log_payload_context t l n m attributes exception k v :
  attributes !! k = Some v → k ∉ _LOG_RECORD_FIELDS → (exception = None ∨ k ≠ "exception") →
  log_payload t l n m attributes exception !! k = Some v.
Proof.
  intros Hk Hstd Hexc. unfold log_payload. cbv zeta.
  assert (Hf : filter (λ kv : string * pyobj, kv.1 ∉ _LOG_RECORD_FIELDS) attributes !! k = Some v)
    by (by apply map_lookup_filter_Some).
  destruct exception as [text|]; [destruct Hexc as [|Hne]; [done|]; rewrite lookup_insert_ne by done|];
    by apply lookup_union_Some_l.
Qed.
End logging.
