(* ===== verification/Barriers.v ===== *)
(** * Integration barriers

    src/app/messaging/redis/barriers.py: a participant records its arrival in
    one stream and reads another until it finds its release or its time is up. *)

From Stdlib Require Import SpecFloat.
From S2P Require Import Prelude Numerals PyVal States Errors Domain Json Messages Store.
From S2P Require Import Repositories TaskRepositories Services Completion Redis.

Definition fadd (x y : spec_float) : spec_float := SFadd 53 1024 x y.
Definition fsub (x y : spec_float) : spec_float := SFsub 53 1024 x y.

(** [int(f)]: towards zero. *)
Definition int_of_float (f : spec_float) : py Z :=
  match f with
  | S754_zero _ => Ok 0%Z
  | S754_infinity _ => Raise (OverflowError "cannot convert float infinity to integer")
  | S754_nan => Raise (ValueError "cannot convert float NaN to integer")
  | S754_finite s m e => let q := (float_split m e).1 in Ok (if s then (- q)%Z else q)
  end.

Section barriers.
Context `{Env} `{Host}.

Definition monotonic : IO spec_float := λ w,
  ({| w_db := w_db w; w_streams := w_streams w; w_acks := w_acks w; w_ticks := S (w_ticks w);
      w_draws := w_draws w; w_calls := w_calls w |}, Ok (monotonic_at (w_ticks w))).

(** Reading a stream after an identifier. *)
Definition xread (stream after : string) (block : Z) : IO stream_batch := λ w,
  let '(w', r) := redis_call w in (w', r ≫= λ _, Ok (xread_answer stream after block (w_calls w))).

Definition arrival_stream (name : string) : string := "integration.barrier:" +:+ name +:+ ":arrivals".
Definition release_stream (name : string) : string := "integration.barrier:" +:+ name +:+ ":releases".

(** The two loops over an answer: the identifier of the last message they
    look at, and whether it is the participant's release. *)
Fixpoint find_release (participant stream_id : string) (messages : list (string * string * stream_fields))
    : string * bool :=
  match messages with
  | [] => (stream_id, false)
  | (_, message_id, fields) :: messages' =>
      if bool_decide (aget "participant" fields = Some participant) then (message_id, true)
      else find_release participant message_id messages'
  end.

Section waiting.
Variables (name participant : string) (timeout_seconds : spec_float).

Definition barrier_timeout : exn :=
  RedisBarrierTimeout ("Timed out after " +:+ one_decimal timeout_seconds +:+ "s waiting for release of "
    +:+ quoted participant +:+ " on barrier " +:+ quoted name +:+ ".").

(** Milliseconds to block for, at most a second. *)
Definition block_ms (remaining_seconds : spec_float) : py Z :=
  ms ← int_of_float (fmul remaining_seconds (float_of_Z 1000)); Ok (Z.max 1 (Z.min 1000 ms)).

Fixpoint await_release (fuel : nat) (deadline : spec_float) (stream_id : string) : IO unit :=
  match fuel with
  | O => raise fuel_exhausted
  | S fuel' =>
      t ← monotonic;
      let remaining_seconds := fsub deadline t in
      if SFleb remaining_seconds (float_of_Z 0) then raise barrier_timeout
      else
        block ← lift (block_ms remaining_seconds);
        messages ← xread (release_stream name) stream_id block;
        let '(stream_id', released) := find_release participant stream_id (batch_messages messages) in
        if released then mret tt else await_release fuel' deadline stream_id'
  end.

Definition participate_in_barrier : IO unit :=
  if SFleb timeout_seconds (float_of_Z 0) then
    raise (ValueError "Barrier timeout must be greater than zero.")
  else
    publish (arrival_stream name) [("participant", participant)] ≫= λ _,
    start ← monotonic;
    await_release (S (patience timeout_seconds)) (fadd start timeout_seconds) "0-0".
End waiting.
End barriers.

(** ** What a wait does *)

Definition release_among (participant : string) (messages : list (string * string * stream_fields)) : Prop :=
  ∃ m, m ∈ messages ∧ aget "participant" m.2 = Some participant.

Definition last_id (stream_id : string) (messages : list (string * string * stream_fields)) : string :=
  default stream_id (last ((λ m, m.1.2) <$> messages)).

Lemma last_id_app i l k : last_id i (l ++ k) = last_id (last_id i l) k.
Proof.
  unfold last_id. rewrite fmap_app, last_app. by destruct (last (_ <$> k)).
Qed.

Lemma find_release_spec p i messages :
  let '(j, released) := find_release p i messages in
  if released then release_among p messages
  else ¬ release_among p messages ∧ j = last_id i messages.
Proof.
  revert i. induction messages as [|[[s k] f] l IH]; intros i; simpl.
  { split; [|done]. by intros (m & ?%elem_of_nil & _). }
  case_bool_decide as Hf; [exists (s, k, f); set_solver|]. specialize (IH k).
  destruct (find_release p k l) as [j []].
  - destruct IH as (m & Hm & Hp). exists m. set_solver.
  - destruct IH as [Hn ->]. split.
    + intros (m & [->|Hm]%elem_of_cons & Hp); [done|]. apply Hn. by exists m.
    + change (last_id k l = last_id i ([(s, k, f)] ++ l)). by rewrite last_id_app.
Qed.

Section waits.
Context `{Env} `{Host}.
Variables (name participant : string) (timeout_seconds : spec_float).

(** [answers] are what Redis answered to successive reads of the release
    stream, each for what follows the last message seen, blocking for a
    millisecond to a second. *)
Definition polled (stream_id : string) (call : nat) (answers : list stream_batch) : Prop :=
  ∀ j a, answers !! j = Some a → ∃ block, (1 ≤ block ≤ 1000)%Z ∧
    a = xread_answer (release_stream name) (last_id stream_id (take j answers ≫= batch_messages)) block (call + j).

Lemma polled_none i k : polled i k []. Proof. by intros j a. Qed.

Lemma polled_cons i k b a answers :
  (1 ≤ b ≤ 1000)%Z → a = xread_answer (release_stream name) i b k →
  polled (last_id i (batch_messages a)) (S k) answers → polled i k (a :: answers).
Proof.
  intros Hb Ha Hp [|j] c; simpl.
  - intros [= <-]. exists b. by rewrite Nat.add_0_r.
  - intros Hc. destruct (Hp j c Hc) as (b' & Hb' & ->). exists b'. split; [done|].
    rewrite last_id_app. by replace (k + S j) with (S k + j) by lia.
Qed.

Definition passed (deadline : spec_float) (tick : nat) : Prop :=
  SFleb (fsub deadline (monotonic_at tick)) (float_of_Z 0) = true.

(** How a wait that read [answers] from reading [tick] on ended. *)
Definition wait_ended (deadline : spec_float) (tick fuel : nat) (answers : list stream_batch) (r : py unit) : Prop :=
  match r with
  | Ok _ => ∃ earlier a, answers = earlier ++ [a] ∧
      ¬ release_among participant (earlier ≫= batch_messages) ∧ release_among participant (batch_messages a)
  | Raise e => ¬ release_among participant (answers ≫= batch_messages) ∧
      (e = barrier_timeout name participant timeout_seconds → passed deadline (tick + length answers)) ∧
      (e = fuel_exhausted → ∀ n, n < fuel → ¬ passed deadline (tick + n))
  end.

Lemma wait_ended_cons d t fuel a answers r :
  ¬ passed d t → ¬ release_among participant (batch_messages a) →
  wait_ended d (S t) fuel answers r → wait_ended d t (S fuel) (a :: answers) r.
Proof.
  intros Ht Ha. assert (Hcons : ∀ l, ¬ release_among participant (l ≫= batch_messages) →
    ¬ release_among participant ((a :: l) ≫= batch_messages)).
  { intros l Hl (m & [Hm|Hm]%elem_of_app & Hp); [apply Ha|apply Hl]; by exists m. }
  destruct r as [[]|e]; simpl.
  - intros (earlier & b & -> & Hn & Hb). exists (a :: earlier), b. auto.
  - intros (Hn & Hto & Hf). split; [by apply Hcons|]. split.
    + intros He. rewrite <- plus_n_Sm. by apply Hto.
    + intros He [|n] Hlt; [by rewrite Nat.add_0_r|]. rewrite <- plus_n_Sm. apply Hf; [done|lia].
Qed.

Lemma block_ms_bounds f b : block_ms f = Ok b → (1 ≤ b ≤ 1000)%Z.
Proof. unfold block_ms. destruct (int_of_float _); [|done]. intros [= <-]. lia. Qed.

Lemma wait_raises d t fuel e :
  (e = barrier_timeout name participant timeout_seconds → passed d t) → 
  (e = fuel_exhausted → fuel = 0) → wait_ended d t fuel [] (Raise e).
Proof.
  intros Hto Hf. split; [by intros (m & ?%elem_of_nil & _)|]. split.
  - simpl. by rewrite Nat.add_0_r.
  - intros ->%Hf n Hn. lia.
Qed.

Lemma block_ms_raise f e : block_ms f = Raise e → e ≠ barrier_timeout name participant timeout_seconds ∧ e ≠ fuel_exhausted.
Proof. unfold block_ms, int_of_float. destruct (fmul _ _); simpl; intros [= <-]; done. Qed.

Lemma await_release_effect fuel d i w w' r :
  await_release name participant timeout_seconds fuel d i w = (w', r) →
  w_db w' = w_db w ∧ w_streams w' = w_streams w ∧ w_acks w' = w_acks w ∧
  ∃ answers, polled i (w_calls w) answers ∧ wait_ended d (w_ticks w) fuel answers r.
Proof.
  revert i w. induction fuel as [|fuel IH]; intros i w; simpl.
  { intros [= <- <-]. repeat split; [..|exists []]. split; [apply polled_none|by apply wait_raises]. }
  unfold mbind at 1, io_bind at 1. simpl. destruct (SFleb _ _) eqn:Hle.
  { intros [= <- <-]. simpl. repeat split. exists []. split; [apply polled_none|by apply wait_raises]. }
  destruct (block_ms _) as [b|e] eqn:Hb; unfold mbind at 1, io_bind at 1; simpl.
  2:{ apply block_ms_raise in Hb as [? ?]. intros [= <- <-]. repeat split. exists [].
      split; [apply polled_none|by apply wait_raises]. }
  unfold xread, redis_call, mbind at 1, io_bind at 1. simpl. destruct (redis_failure (w_calls w)) as [m|]; simpl.
  { intros [= <- <-]. repeat split. exists []. split; [apply polled_none|by apply wait_raises]. }
  set (a := xread_answer _ _ _ _). pose proof (find_release_spec participant i (batch_messages a)) as Hfind.
  apply block_ms_bounds in Hb. destruct (find_release _ _ _) as [j []].
  - intros [= <- <-]. repeat split. exists [a]. split; [by eapply polled_cons; [|done|apply polled_none]|].
    exists [], a. split; [done|]. split; [|done]. by intros (m & ?%elem_of_nil & _).
  - destruct Hfind as [Hn ->]. intros (Hd & Hs & Hk & answers & Hp & Hend)%IH. simpl in *. repeat split; [done..|].
    exists (a :: answers). split; [by eapply polled_cons|]. apply wait_ended_cons; [|done|done].
    intros Hpass. exact (eq_true_false_abs _ Hpass Hle).
Qed.

(** The arrival, if any, is all that is written. *)
Lemma participate_frame w :
  let w' := (participate_in_barrier name participant timeout_seconds w).1 in
  w_db w' = w_db w ∧ w_acks w' = w_acks w ∧
  (w_streams w' = w_streams w ∨
   w_streams w' = w_streams w ++ [(arrival_stream name, [("participant", participant)])]).
Proof.
  destruct (participate_in_barrier name participant timeout_seconds w) as [w' r] eqn:Hrun. cbn [fst].
  unfold participate_in_barrier in Hrun. destruct (SFleb timeout_seconds _); [injection Hrun as <- _; auto|].
  unfold publish, mbind at 1, io_bind at 1 in Hrun. destruct (redis_failure (w_calls w)); [injection Hrun as <- _; auto|].
  unfold mbind at 1, io_bind at 1, monotonic at 1 in Hrun. cbn beta iota in Hrun.
  apply await_release_effect in Hrun as (Hd & Hs & Hk & _). simpl in *. auto.
Qed.
End waits.

(** Waiting at a barrier.  A timeout that is not positive is refused.
    Otherwise the arrival is written once, and nothing else; the participant
    goes on when the first answer with its release has been read, and reports
    a timeout only when the deadline has passed and no answer held its
    release.  If the clock passes the deadline within the readings that are
    followed, the wait ends. *)
Theorem barrier_correct `{Env} `{Host} name participant t w :
  let '(w', r) := participate_in_barrier name participant t w in
  let deadline := fadd (monotonic_at (w_ticks w)) t in
  w_db w' = w_db w ∧ w_acks w' = w_acks w ∧
  if SFleb t (float_of_Z 0)
  then w' = w ∧ r = Raise (ValueError "Barrier timeout must be greater than zero.")
  else match redis_failure (w_calls w) with
    | Some m => w_streams w' = w_streams w ∧ r = Raise (RedisError m)
    | None =>
        w_streams w' = w_streams w ++ [(arrival_stream name, [("participant", participant)])] ∧
        (∃ answers, polled name "0-0" (S (w_calls w)) answers ∧
           wait_ended name participant t deadline (S (w_ticks w)) (S (patience t)) answers r) ∧
        ((∃ n, n ≤ patience t ∧ passed deadline (S (w_ticks w) + n)) → r ≠ Raise fuel_exhausted)
    end.
Proof.
  destruct (participate_in_barrier name participant t w) as [w' r] eqn:Hrun. unfold participate_in_barrier in Hrun.
  cbv zeta. destruct (SFleb t (float_of_Z 0)); [by injection Hrun as <- <-|].
  unfold publish, mbind at 1, io_bind at 1 in Hrun. destruct (redis_failure (w_calls w)) as [m|].
  { by injection Hrun as <- <-. }
  unfold mbind at 1, io_bind at 1, monotonic at 1 in Hrun. cbn beta iota in Hrun.
  apply await_release_effect in Hrun as (Hd & Hs & Hk & answers & Hp & Hend). simpl in *.
  split; [done|]. split; [done|]. split; [done|]. split; [by exists answers|].
  intros (n & Hn & Hpass) ->. destruct Hend as (_ & _ & Hf). apply (Hf eq_refl n); [lia|done].
Qed.
