(* ===== verification/Outbox.v ===== *)
(** * The outbox publisher

    src/app/messaging/outbox_publisher.py and src/app/orchestrator/outbox.py:
    draining pending rows to their streams and deleting old published rows. *)

From S2P Require Import Prelude Numerals PyVal States Errors Domain Json Messages Store.
From S2P Require Import Repositories Services Completion.

(** [ORDER BY key ASC]. *)
Fixpoint insert_by {A} (key : A → Z) (x : A) (l : list A) : list A :=
  match l with
  | [] => [x]
  | y :: l' => if (key x <=? key y)%Z then x :: l else y :: insert_by key x l'
  end.
Definition order_by {A} (key : A → Z) (l : list A) : list A := foldr (insert_by key) [] l.

(** [dict(pairs)] after a literal prefix: later keys replace earlier ones. *)
Definition with_items (fields items : stream_fields) : stream_fields :=
  foldl (λ f kv, aset kv.1 kv.2 f) fields items.

Section publisher.
Context `{Env} `{Json}.

Definition _redis_field_value (v : pyobj) : py string :=
  match v with PStr s => Ok s | _ => dumps v end.

(** [row.target_stream or WORKFLOW_EVENTS_STREAM]. *)
Definition target_of (row : OutboxEventRecord) : string :=
  if String.eqb (ob_target_stream row) "" then WORKFLOW_EVENTS_STREAM else ob_target_stream row.

Definition _stream_fields (row : OutboxEventRecord) : py stream_fields :=
  if String.eqb (target_of row) WORKFLOW_EVENTS_STREAM then
    payload ← dumps (PDict (ob_payload row));
    Ok ([("message_id", uuid_str (ob_event_id row)); ("event_id", uuid_str (ob_event_id row));
         ("event_type", ob_event_type row); ("payload", payload)]
        ++ match ob_aggregate_id row with
           | Some a => [("aggregate_id", uuid_str a)]
           | None => []
           end)
  else
    items ← mapM (λ kv, v ← _redis_field_value kv.2; Ok (default "" (as_str kv.1), v))
              (ob_payload row);
    Ok (with_items [("message_id", uuid_str (ob_event_id row)); ("message_type", ob_event_type row)]
          items).

(** The columns a successful and a failed publication write. *)
Definition row_published (published_at : datetime) (r : OutboxEventRecord) : OutboxEventRecord :=
  {| ob_event_id := ob_event_id r; ob_event_type := ob_event_type r;
     ob_aggregate_id := ob_aggregate_id r; ob_target_stream := ob_target_stream r;
     ob_payload := ob_payload r; ob_status := OPublished;
     ob_publish_attempts := ob_publish_attempts r + 1; ob_last_error := None;
     ob_created_at := ob_created_at r; ob_published_at := Some published_at |}.

Definition row_failed (message : string) (r : OutboxEventRecord) : OutboxEventRecord :=
  {| ob_event_id := ob_event_id r; ob_event_type := ob_event_type r;
     ob_aggregate_id := ob_aggregate_id r; ob_target_stream := ob_target_stream r;
     ob_payload := ob_payload r; ob_status := ob_status r;
     ob_publish_attempts := ob_publish_attempts r + 1; ob_last_error := Some message;
     ob_created_at := ob_created_at r; ob_published_at := ob_published_at r |}.

Definition set_outbox_row (k : UUID) (r : OutboxEventRecord) (d : Db) : Db :=
  set_outbox (<[k := r]> (outbox_events d)) d.

(** The loop over the selected rows.  [pending] is the session's view of the
    tables, which becomes the database's at a commit: at the end, or before
    a Redis error is raised again.  Any other exception leaves it behind. *)
Fixpoint publish_rows (rows : list OutboxEventRecord) (pending : Db) (published : Z) : IO Z :=
  match rows with
  | [] => put_db pending ≫= λ _, mret published
  | row :: rows' => λ w,
      match (fields ← lift (_stream_fields row); publish (target_of row) fields) w with
      | (w', Ok _) =>
          (published_at ← now;
           publish_rows rows' (set_outbox_row (ob_event_id row) (row_published published_at row) pending)
             (published + 1)%Z) w'
      | (w', Raise (RedisError m)) =>
          (set_db (set_outbox_row (ob_event_id row) (row_failed m row) pending) w',
           Raise (RedisError m))
      | (w', Raise e) => (w', Raise e)
      end
  end.

Definition pending_rows (d : Db) : list OutboxEventRecord :=
  take 100 (order_by ob_created_at
    (rows_where (λ _ r, bool_decide (ob_status r = OPending)) (outbox_events d))).

Definition publish_pending : IO Z :=
  d ← get_db; publish_rows (pending_rows d) d 0.

(** Rows published at or before the cutoff. *)
Definition expired (cutoff : datetime) (r : OutboxEventRecord) : bool :=
  bool_decide (ob_status r = OPublished) &&
  match ob_published_at r with Some t => (t <=? cutoff)%Z | None => false end.

Definition cleanup_published (retention : Z) (batch_size : Z) : IO Z :=
  if (retention <? 0)%Z then raise (ValueError "retention must not be negative.")
  else if (batch_size <? 1)%Z then raise (ValueError "batch_size must be at least one.")
  else
    t ← now;
    cutoff ← lift (datetime_add t (- retention));
    d ← get_db;
    let message_ids := ob_event_id <$> take (Z.to_nat batch_size)
      (order_by (λ r, default 0%Z (ob_published_at r))
         (rows_where (λ _ r, expired cutoff r) (outbox_events d))) in
    match message_ids with
    | [] => mret 0%Z
    | _ =>
        put_db (set_outbox (foldl (λ t k, delete k t) (outbox_events d) message_ids) d) ≫= λ _,
        mret (Z.of_nat (length message_ids))
    end.

(** orchestrator/outbox.py *)
Definition publish_outbox_events : IO Z := publish_pending.
Definition cleanup_published_outbox (retention_seconds : spec_float) : IO Z :=
  retention ← lift (timedelta_seconds retention_seconds); cleanup_published retention 100.
End publisher.
