(* ===== verification/Worker.v ===== *)
(** * The worker

    src/app/worker/task_processor.py, the handler registry of
    src/app/worker/handlers/ and the message handling of
    src/app/worker/main.py. *)

From Stdlib Require Import SpecFloat.
From S2P Require Import Prelude Numerals PyVal States Errors Domain Json Messages Store.
From S2P Require Import Repositories TaskRepositories Services Completion Redis Barriers.

Definition WORKFLOW_TASK_COMPLETIONS_STREAM : string := "workflow.task-completions".
Definition WORKFLOW_TASK_DEAD_LETTER_STREAM : string := "workflow.task-dead-letter".
Definition WORKFLOW_TASKS_GROUP : string := "workers".

(** ** Handlers (handlers/registry.py and its implementations) *)

Inductive NodeHandler : Type :=
| InputNodeHandler
| IntegrationBarrierNodeHandler
| OutputNodeHandler
| MockExternalServiceNodeHandler
| MockLlmServiceNodeHandler.

(** [NodeHandlerRegistry.resolve] with the default registry. *)
Definition resolve_handler (handler_name : string) : py NodeHandler :=
  if String.eqb handler_name "input" then Ok InputNodeHandler
  else if String.eqb handler_name "integration_barrier" then Ok IntegrationBarrierNodeHandler
  else if String.eqb handler_name "output" then Ok OutputNodeHandler
  else if String.eqb handler_name "call_external_service" then Ok MockExternalServiceNodeHandler
  else if String.eqb handler_name "llm_service" then Ok MockLlmServiceNodeHandler
  else Raise (UnknownNodeHandlerError
         ("No worker handler is registered for '" +:+ handler_name +:+ "'.")).

(** The settings both mock services read. *)
Record MockSettings : Type := {
  ms_seed : Z;
  ms_latency_ms : Z;
  ms_force_fail : bool;
  ms_failure_rate : spec_float;
  ms_failure_message : string;
}.

Section handlers.
Context `{Env} `{Host}.

Definition integer_environment_value (name : string) (default_value : Z) : py Z :=
  match getenv name with
  | None => Ok default_value
  | Some value => match py_int 10 value with
                  | Some z => Ok z
                  | None => Raise (ValueError (name +:+ " must be an integer."))
                  end
  end.

Definition float_environment_value (name : string) (default_value : spec_float) : py spec_float :=
  match getenv name with
  | None => Ok default_value
  | Some value => match parse_float value with
                  | Some f => Ok f
                  | None => Raise (ValueError (name +:+ " must be a number from 0 to 1."))
                  end
  end.

(** [value.lower()] on the two words it is compared with. *)
Definition lower_char (c : Ascii.ascii) : Ascii.ascii :=
  if is_upper c then Ascii.ascii_of_nat (code c + 32) else c.
Fixpoint lower (s : string) : string :=
  match s with EmptyString => EmptyString | String c s' => String (lower_char c) (lower s') end.

Definition boolean_environment_value (name : string) (default_value : bool) : py bool :=
  match getenv name with
  | None => Ok default_value
  | Some value =>
      if String.eqb (lower value) "true" then Ok true
      else if String.eqb (lower value) "false" then Ok false
      else Raise (ValueError (name +:+ " must be true or false."))
  end.

(** [_settings_from_environment] of both mocks, by variable prefix. *)
Definition settings_from_environment (prefix : string) (default_latency : Z)
    (default_message : string) : py MockSettings :=
  latency_ms ← integer_environment_value (prefix +:+ "_LATENCY_MS") default_latency;
  if (latency_ms <? 0)%Z
  then Raise (ValueError (prefix +:+ "_LATENCY_MS must be a non-negative integer."))
  else
    failure_rate ← float_environment_value (prefix +:+ "_FAILURE_RATE") (float_of_Z 0);
    if negb (SFleb (float_of_Z 0) failure_rate && SFleb failure_rate (float_of_Z 1))
    then Raise (ValueError (prefix +:+ "_FAILURE_RATE must be from 0 to 1."))
    else
      let failure_message := default default_message (getenv (prefix +:+ "_FAILURE_MESSAGE")) in
      if String.eqb failure_message ""
      then Raise (ValueError (prefix +:+ "_FAILURE_MESSAGE must be a non-empty string."))
      else
        seed ← integer_environment_value (prefix +:+ "_SEED") 0;
        force_fail ← boolean_environment_value (prefix +:+ "_FORCE_FAIL") false;
        Ok {| ms_seed := seed; ms_latency_ms := latency_ms; ms_force_fail := force_fail;
              ms_failure_rate := failure_rate; ms_failure_message := failure_message |}.

Definition external_service_settings : py MockSettings :=
  settings_from_environment "MOCK_EXTERNAL_SERVICE" 1500 "Mock external service failure.".
Definition llm_settings : py MockSettings :=
  settings_from_environment "MOCK_LLM" 10 "Mock LLM service failure.".

Definition should_fail (s : MockSettings) (seed : Z) : bool :=
  ms_force_fail s || SFltb (random_draw seed) (ms_failure_rate s).

(** mock_external_service.py: [_latency_ms]; the sleep itself has no effect
    on the result. *)
Definition external_latency (s : MockSettings) (config : pydict) : py Z :=
  match get_or_none "latency_ms" config with
  | PNone => Ok (ms_latency_ms s)
  | PInt z =>
      if (z <? 0)%Z
      then Raise (ValueError
        "Handler 'call_external_service' config.latency_ms must be non-negative.")
      else Ok z
  | _ => Raise (ValueError "Handler 'call_external_service' config.latency_ms must be an integer.")
  end.

Definition external_service_execute (s : MockSettings) (task : NodeTaskMessage) : py pydict :=
  match dict_get "url" (tm_handler_config task) with
  | Some (PStr url) =>
      if nonblank url then
        _ ← external_latency s (tm_handler_config task);
        if should_fail s (ms_seed s + sha256_int url)
        then Raise (ValueError (ms_failure_message s))
        else Ok (obj [("status", PStr "mocked"); ("url", PStr url);
                      ("input", PDict (tm_resolved_input task))])
      else Raise (ValueError "Handler 'call_external_service' requires a non-empty config.url.")
  | _ => Raise (ValueError "Handler 'call_external_service' requires a non-empty config.url.")
  end.

(** mock_llm.py *)
Definition RESPONSE_TEMPLATES : list string :=
  ["Mock analysis: "; "Mock generated response based on: "; "Mock completion: "].

Definition llm_execute (s : MockSettings) (task : NodeTaskMessage) : py pydict :=
  match dict_get "prompt" (tm_resolved_input task) with
  | Some (PStr prompt) =>
      let seed := (ms_seed s + sha256_int prompt)%Z in
      if should_fail s seed then Raise (ValueError (ms_failure_message s))
      else
        let template := default "" (RESPONSE_TEMPLATES !! (random_choice seed `mod` 3)) in
        Ok (obj [("response", PStr (template +:+ String.substring 0 160 prompt))])
  | _ => Raise (ValueError "Handler 'llm_service' requires a string resolved_input.prompt.")
  end.

(** integration_barrier.py *)
Definition barrier_text (name : string) (d : pydict) : py string :=
  match dict_get name d with
  | Some (PStr s) =>
      if nonblank s then Ok s
      else Raise (ValueError ("Handler 'integration_barrier' requires a non-empty barrier." +:+ name +:+ "."))
  | _ => Raise (ValueError ("Handler 'integration_barrier' requires a non-empty barrier." +:+ name +:+ "."))
  end.

Definition _execution_counter_key (config : pydict) : py (option string) :=
  match get_or_none "execution_counter" config with
  | PNone => Ok None
  | PStr s =>
      if nonblank s then Ok (Some ("integration.handler-executions:" +:+ s))
      else Raise (ValueError
        "Handler 'integration_barrier' requires execution_counter to be a non-empty string.")
  | _ => Raise (ValueError
      "Handler 'integration_barrier' requires execution_counter to be a non-empty string.")
  end.

(** [float(os.getenv("INTEGRATION_BARRIER_TIMEOUT_SECONDS", "30"))], which must
    be positive. *)
Definition _timeout_seconds : py spec_float :=
  match parse_float (default "30" (getenv "INTEGRATION_BARRIER_TIMEOUT_SECONDS")) with
  | Some f =>
      if SFleb f (float_of_Z 0)
      then Raise (ValueError "INTEGRATION_BARRIER_TIMEOUT_SECONDS must be greater than zero.")
      else Ok f
  | None => Raise (ValueError "could not convert string to float")
  end.

Definition _barrier_config (config : pydict) : py (string * string) :=
  match dict_get "barrier" config with
  | Some (PDict d) =>
      name ← barrier_text "name" d;
      participant ← barrier_text "participant" d;
      Ok (name, participant)
  | _ => Raise (ValueError "Handler 'integration_barrier' requires a config.barrier object.")
  end.

(** The counter in Redis, which the program does not read, is left out; the
    call that increments it is not. *)
Definition barrier_execute (task : NodeTaskMessage) : IO pydict :=
  if negb (bool_decide (getenv "INTEGRATION_TEST" = Some "1")) then
    raise (RuntimeError "The integration barrier handler is only available in integration tests.")
  else
    barrier ← lift (_barrier_config (tm_handler_config task));
    counter_key ← lift (_execution_counter_key (tm_handler_config task));
    match counter_key with Some _ => redis_call | None => mret tt end ≫= λ _,
    timeout_seconds ← lift _timeout_seconds;
    participate_in_barrier barrier.1 barrier.2 timeout_seconds ≫= λ _,
    mret (obj [("barrier", PStr barrier.1); ("participant", PStr barrier.2);
               ("status", PStr "released")]).

Definition handler_execute (h : NodeHandler) (task : NodeTaskMessage) : IO pydict :=
  match h with
  | InputNodeHandler | OutputNodeHandler => mret (tm_resolved_input task)
  | IntegrationBarrierNodeHandler => barrier_execute task
  | MockExternalServiceNodeHandler => lift (s ← external_service_settings; external_service_execute s task)
  | MockLlmServiceNodeHandler => lift (s ← llm_settings; llm_execute s task)
  end.

(** [WorkerTaskExecutor.execute]. *)
Definition execute (task : NodeTaskMessage) : IO pydict :=
  h ← lift (resolve_handler (tm_handler task)); handler_execute h task.
End handlers.

(** ** The task processor (task_processor.py) *)

Fixpoint repeat_io (k : nat) (m : IO unit) : IO unit :=
  match k with O => mret tt | S k' => m ≫= λ _, repeat_io k' m end.

Section processor.
Context `{Env} `{Json} `{Pydantic} `{Host}.
Variables (worker_id : string) (task_claim_lease_seconds : spec_float).

(** [__init__]: the lease must be positive. *)
Definition processor_init : py unit :=
  if SFleb task_claim_lease_seconds (float_of_Z 0)
  then Raise (ValueError "task_claim_lease_seconds must be greater than zero.") else Ok tt.

Definition lease_end (t : datetime) : py datetime :=
  delta ← timedelta_seconds task_claim_lease_seconds; datetime_add t delta.

Definition completed_event (event_id : UUID) (task : NodeTaskMessage) (output : pyobj)
    : TaskCompletionEvent :=
  {| ev_event_id := event_id; ev_task_id := tm_task_id task;
     ev_execution_id := tm_execution_id task; ev_node_id := tm_node_id task;
     ev_status := TCompleted; ev_attempt_id := tm_attempt_id task;
     ev_attempt_number := tm_attempt_number task; ev_output_data := output;
     ev_error_message := None; ev_error_type := None |}.

Definition failed_event (event_id : UUID) (task : NodeTaskMessage) (error_message error_type : string)
    : TaskCompletionEvent :=
  {| ev_event_id := event_id; ev_task_id := tm_task_id task;
     ev_execution_id := tm_execution_id task; ev_node_id := tm_node_id task;
     ev_status := TFailed; ev_attempt_id := tm_attempt_id task;
     ev_attempt_number := tm_attempt_number task; ev_output_data := PNone;
     ev_error_message := Some error_message; ev_error_type := Some error_type |}.

Definition _failure_event (task : NodeTaskMessage) (error : exn) : IO TaskCompletionEvent :=
  event_id ← uuid4; mret (failed_event event_id task (exn_str error) (exn_type_name error)).

(** Running the handler and turning its result into an event. *)
Definition handler_event (task : NodeTaskMessage) : IO TaskCompletionEvent :=
  result ← try_io (execute task);
  match result with
  | Raise e => _failure_event task e
  | Ok output =>
      if negb (is_json_value (PDict output)) then
        _failure_event task (TypeError "Worker task output must contain only JSON-compatible values.")
      else event_id ← uuid4; mret (completed_event event_id task (PDict output))
  end.

Definition _claim_task (task : NodeTaskMessage) : IO TaskClaimOutcome :=
  claimed_at ← now;
  claim_expires_at ← lift (lease_end claimed_at);
  transaction (claim_attempt (tm_attempt_id task) (tm_task_id task) (tm_execution_id task)
    (tm_node_id task) worker_id claimed_at claim_expires_at).

(** One turn of [_renew_claim_until_complete]. *)
Definition renew_claim_once (task : NodeTaskMessage) : IO unit :=
  t ← now;
  expires_at ← lift (lease_end t);
  renewed ← transaction (attempt_renew_claim (tm_attempt_id task) worker_id expires_at);
  guard_io renewed (RuntimeError ("Worker claim for attempt '" +:+ uuid_str (tm_attempt_id task)
    +:+ "' is no longer active.")).

Definition _record_result (e : TaskCompletionEvent) : IO unit :=
  transaction (attempt_record_result (ev_attempt_id e) (ev_event_id e) (ev_output_data e)
    (ev_error_message e) (ev_error_type e)).

(** The claim is renewed [renewals] times while the handler runs; awaiting
    the renewal task raises the exception that ended it, if one did. *)
Definition _execute_and_record (renewals : nat) (task : NodeTaskMessage) : IO TaskCompletionEvent :=
  renewal ← try_io (repeat_io renewals (renew_claim_once task));
  event ← handler_event task;
  lift renewal ≫= λ _,
  _record_result event ≫= λ _,
  mret event.

Definition _event_from_result (task : NodeTaskMessage) (r : TaskProcessingResult)
    : py TaskCompletionEvent :=
  match tr_error_message r, tr_error_type r with
  | None, None => Ok (completed_event (tr_event_id r) task (tr_result_data r))
  | Some m, Some t => Ok (failed_event (tr_event_id r) task m t)
  | _, _ => Raise (ValueError "Persisted failed task results require error information.")
  end.

Definition _replay_result (task : NodeTaskMessage) : IO TaskCompletionEvent :=
  result ← transaction (attempt_get_result (tm_attempt_id task));
  lift (_event_from_result task result).

Definition _publish_complete_and_ack (stream message_id : string) (e : TaskCompletionEvent) : IO unit :=
  fields ← lift (event_to_stream_fields e);
  publish WORKFLOW_TASK_COMPLETIONS_STREAM fields ≫= λ _,
  transaction (completed_at ← now; attempt_mark_completed (ev_attempt_id e) completed_at) ≫= λ _,
  ack stream WORKFLOW_TASKS_GROUP message_id.

Definition _publish_and_ack (stream message_id : string) (e : TaskCompletionEvent) : IO unit :=
  fields ← lift (event_to_stream_fields e);
  publish WORKFLOW_TASK_COMPLETIONS_STREAM fields ≫= λ _,
  ack stream WORKFLOW_TASKS_GROUP message_id.

(** [process], with the unit-of-work factory that [main] passes. *)
Definition process_task (renewals : nat) (stream message_id : string) (task : NodeTaskMessage)
    : IO unit :=
  claim_outcome ← _claim_task task;
  match claim_outcome with
  | CLAIMED =>
      event ← _execute_and_record renewals task;
      _publish_complete_and_ack stream message_id event
  | RESULT_RECORDED =>
      event ← _replay_result task;
      _publish_complete_and_ack stream message_id event
  | ALREADY_COMPLETED | CURRENTLY_CLAIMED => ack stream WORKFLOW_TASKS_GROUP message_id
  end.

(** [process] without a unit-of-work factory. *)
Definition process_task_untracked (stream message_id : string) (task : NodeTaskMessage) : IO unit :=
  event ← handler_event task;
  _publish_and_ack stream message_id event.

Definition _publish_dead_letter_and_ack (stream message_id : string) (fields : stream_fields)
    (error identity_error : exn) : IO unit :=
  raw_fields ← lift (dumps (PDict (obj ((λ kv, (kv.1, PStr kv.2)) <$> fields))));
  publish WORKFLOW_TASK_DEAD_LETTER_STREAM
    [("source_stream", stream); ("source_message_id", message_id); ("raw_fields", raw_fields);
     ("error_message", exn_str error); ("error_type", exn_type_name error);
     ("identity_error", exn_str identity_error)] ≫= λ _,
  ack stream WORKFLOW_TASKS_GROUP message_id.

(** The identity of a malformed message, as an event without an error. *)
Definition recover_identity (fields : stream_fields) : py (string * UUID * Z * UUID * string) :=
  let kind := "Task message" in
  task_id ← required_field fields "task_id" kind;
  attempt_id ← (s ← required_field fields "attempt_id" kind; py_UUID s);
  attempt_number ← (s ← required_field fields "attempt_number" kind; int s);
  execution_id ← (s ← required_field fields "execution_id" kind; py_UUID s);
  node_id ← required_field fields "node_id" kind;
  Ok (task_id, attempt_id, attempt_number, execution_id, node_id).

Definition process_malformed (stream message_id : string) (fields : stream_fields) (error : exn)
    : IO unit :=
  match recover_identity fields with
  | Raise identity_error =>
      if is_value_error identity_error
      then _publish_dead_letter_and_ack stream message_id fields error identity_error
      else raise identity_error
  | Ok (task_id, attempt_id, attempt_number, execution_id, node_id) =>
      event_id ← uuid4;
      _publish_and_ack stream message_id
        {| ev_event_id := event_id; ev_task_id := task_id; ev_execution_id := execution_id;
           ev_node_id := node_id; ev_status := TFailed; ev_attempt_id := attempt_id;
           ev_attempt_number := attempt_number; ev_output_data := PNone;
           ev_error_message := Some (exn_str error); ev_error_type := Some (exn_type_name error) |}
  end.

(** [WorkerRuntime._process_one]: exceptions of either processor are logged
    and swallowed. *)
Definition _process_one (renewals : nat) (stream message_id : string) (fields : stream_fields)
    : IO unit :=
  match message_from_stream_fields fields with
  | Ok task => try_io (process_task renewals stream message_id task) ≫= λ _, mret tt
  | Raise error =>
      if is_value_error error
      then try_io (process_malformed stream message_id fields error) ≫= λ _, mret tt
      else raise error
  end.
End processor.
