(* ===== verification/Orchestrator.v ===== *)
(** * The orchestrator's consumers

    src/app/orchestrator/workflow_trigger_consumer.py,
    task_completion_consumer.py and the loop of main.py. *)

From Stdlib Require Import Ascii SpecFloat.
From S2P Require Import Prelude Numerals PyVal States Errors Domain Dag Graph Readiness Failure.
From S2P Require Import Cycles Validation Templates Resolver Json Messages Store Repositories.
From S2P Require Import TaskRepositories Services Dispatch Completion Redis Barriers Outbox Worker.

Definition _ORCHESTRATOR_EVENTS_GROUP : string := "orchestrator".
Definition ORCHESTRATOR_COMPLETIONS_GROUP : string := "orchestrator-completions".
Definition _EXECUTION_TRIGGERED_EVENT_TYPE : string := "workflow.execution.triggered".

Section orchestrator.
Context `{WorkflowSchema} `{Env} `{Json} `{Pydantic} `{Host}.
Variables (float_str : spec_float → string) (repr : string → string).
Variable pow : spec_float → Z → py spec_float.
Variable policy : RetryPolicy.
Variable consumer_name : string.

(** ** Trigger events *)

Definition _execution_id (fields : stream_fields) : py UUID :=
  event_type ← required_field fields "event_type" "Workflow event";
  if negb (String.eqb event_type _EXECUTION_TRIGGERED_EVENT_TYPE)
  then Raise (ValueError ("Unsupported workflow event type '" +:+ event_type +:+ "'."))
  else
    payload ← json_object_field fields "payload" "Workflow event";
    match dict_get "execution_id" payload with
    | Some (PStr raw) =>
        match uuid_parse raw with
        | Some u => Ok u
        | None => Raise (ValueError "Workflow event payload execution_id must be a UUID.")
        end
    | _ => Raise (ValueError "Workflow event payload requires a string execution_id.")
    end.

Definition handle_trigger (stream message_id : string) (fields : stream_fields) : IO unit :=
  event_type ← lift (required_field fields "event_type" "Workflow event");
  if negb (String.eqb event_type _EXECUTION_TRIGGERED_EVENT_TYPE)
  then ack stream _ORCHESTRATOR_EVENTS_GROUP message_id
  else
    execution_id ← lift (_execution_id fields);
    readiness ← readiness_evaluate execution_id;
    dispatch_ready float_str repr execution_id (rd_ready_node_ids readiness) ≫= λ _,
    ack stream _ORCHESTRATOR_EVENTS_GROUP message_id.

Definition trigger_consume_once : IO Z :=
  messages ← consume _ORCHESTRATOR_EVENTS_GROUP consumer_name WORKFLOW_EVENTS_STREAM 100;
  iter_io (λ m, handle_trigger m.1.1 m.1.2 m.2) (batch_messages messages) ≫= λ _,
  mret (Z.of_nat (length (batch_messages messages))).

(** ** Completion events *)

(** Selected completion events wait at a barrier, in integration tests only. *)
Definition _wait_for_integration_barrier (e : TaskCompletionEvent) : IO unit :=
  if negb (bool_decide (getenv "INTEGRATION_TEST" = Some "1")) then mret tt
  else
    let prefix := default "" (getenv "INTEGRATION_COMPLETION_BARRIER_PREFIX") in
    let barrier_nodes := filter (λ node_id, node_id ≠ "")
      (split_on ","%char (default "" (getenv "INTEGRATION_COMPLETION_BARRIER_NODES"))) in
    if String.eqb prefix "" || negb (memb (ev_node_id e) barrier_nodes) then mret tt
    else
      timeout_seconds ← lift _timeout_seconds;
      participate_in_barrier (prefix +:+ ":" +:+ uuid_str (ev_execution_id e)) (ev_node_id e)
        timeout_seconds.

Definition handle_completion (stream message_id : string) (fields : stream_fields) : IO unit :=
  event ← lift (event_from_stream_fields fields);
  _wait_for_integration_barrier event ≫= λ _,
  decision ← process pow policy event;
  dispatch_ready float_str repr (ev_execution_id event) (tc_ready_node_ids decision) ≫= λ _,
  ack stream ORCHESTRATOR_COMPLETIONS_GROUP message_id.

Definition completion_consume_once : IO Z :=
  messages ← consume ORCHESTRATOR_COMPLETIONS_GROUP consumer_name WORKFLOW_TASK_COMPLETIONS_STREAM 100;
  iter_io (λ m, handle_completion m.1.1 m.1.2 m.2) (batch_messages messages) ≫= λ _,
  mret (Z.of_nat (length (batch_messages messages))).

(** ** One turn of [run]

    Only Redis errors are caught. *)
Definition run_once (outbox_retention_seconds : spec_float) : IO unit :=
  r ← (λ w, let '(w', r) :=
        (publish_outbox_events ≫= λ _,
         cleanup_published_outbox outbox_retention_seconds ≫= λ _,
         trigger_consume_once ≫= λ _,
         completion_consume_once ≫= λ _,
         publish_due_retries None ≫= λ _, mret tt) w in (w', Ok r));
  match r with
  | Raise e => if is_redis_error e then mret tt else raise e
  | Ok _ => mret tt
  end.

(** The loop of [run]: [turns] turns, until the process is told to stop.  An
    exception that leaves a turn ends it. *)
Definition run_loop (outbox_retention_seconds : spec_float) (turns : nat) : IO unit :=
  repeat_io turns (run_once outbox_retention_seconds).
End orchestrator.

(** ** [run]: the settings are read before the first turn *)

Section run.
Context `{WorkflowSchema} `{Env} `{Json} `{Pydantic} `{Host}.
Variables (float_str : spec_float → string) (repr : string → string).
Variable pow : spec_float → Z → py spec_float.
Variable hostname : string.

Definition float_of_text (text : string) : py spec_float :=
  match parse_float text with
  | Some f => Ok f
  | None => Raise (ValueError "could not convert string to float")
  end.

Definition orchestrator_run (turns : nat) : IO unit :=
  _ ← lift (float_of_text (default "1" (getenv "OUTBOX_POLL_INTERVAL_SECONDS")));
  outbox_retention_seconds ← lift (float_of_text (default "604800" (getenv "OUTBOX_RETENTION_SECONDS")));
  retry_policy ← lift (from_environment getenv float_of_text);
  run_loop float_str repr pow retry_policy (default hostname (getenv "ORCHESTRATOR_CONSUMER_NAME"))
    outbox_retention_seconds turns.

(** A setting is read, or refused with a [ValueError]. *)
Definition reads {A} (m : py A) (P : A → Prop) : Prop :=
  match m with Ok a => P a | Raise e => is_value_error e = true end.

Lemma reads_bind {A B} (m : py A) (f : A → py B) P Q :
  reads m P → (∀ a, P a → reads (f a) Q) → reads (m ≫= f) Q.
Proof. intros Hm Hf. destruct m; simpl in *; [by apply Hf|done]. Qed.

Lemma float_of_text_reads t : reads (float_of_text t) (λ _, True).
Proof. unfold float_of_text. by destruct (parse_float t). Qed.

Lemma from_environment_reads :
  reads (from_environment getenv float_of_text) (λ p, (1 ≤ rp_max_attempts p)%Z).
Proof.
  unfold from_environment. eapply (reads_bind _ _ (λ _, True)); [unfold int; by destruct (py_int _ _)|]. intros n _.
  eapply reads_bind; [apply float_of_text_reads|]. intros a _.
  eapply reads_bind; [apply float_of_text_reads|]. intros b _.
  eapply (reads_bind _ _ (λ _, True)).
  { destruct (getenv _); [|done]. by eapply reads_bind; [apply float_of_text_reads|]. }
  intros c _. unfold RetryPolicy_init. simpl. destruct (n <? 1)%Z eqn:Hn; [done|]. apply Z.ltb_ge in Hn.
  destruct (SFltb a _); [done|]. destruct (SFltb b _); [done|]. destruct c as [c|]; [by destruct (SFltb c _)|done].
Qed.

(** The orchestrator either refuses its settings with a [ValueError], before
    it has done anything, or takes its turns under a retry policy that allows
    at least one attempt. *)
Theorem orchestrator_starts turns w w' r :
  orchestrator_run turns w = (w', r) →
  (w' = w ∧ ∃ e, r = Raise e ∧ is_value_error e = true) ∨
  ∃ p retention, from_environment getenv float_of_text = Ok p ∧ (1 ≤ rp_max_attempts p)%Z ∧
    run_loop float_str repr pow p (default hostname (getenv "ORCHESTRATOR_CONSUMER_NAME"))
      retention turns w = (w', r).
Proof.
  pose proof from_environment_reads as Hreads. unfold orchestrator_run, lift, mbind, io_bind. cbn beta iota.
  pose proof (float_of_text_reads (default "1" (getenv "OUTBOX_POLL_INTERVAL_SECONDS"))) as Hpoll.
  destruct (float_of_text _) as [poll|e]; [|intros [= <- <-]; left; eauto].
  pose proof (float_of_text_reads (default "604800" (getenv "OUTBOX_RETENTION_SECONDS"))) as Hret.
  destruct (float_of_text _) as [retention|e]; [|intros [= <- <-]; left; eauto].
  destruct (from_environment getenv float_of_text) as [p|e] eqn:Hp; [|intros [= <- <-]; left; eauto].
  intros Hrun. right. exists p, retention. done.
Qed.
End run.
