(* ===== verification/Runtime.v ===== *)
(** * The worker's runtime

    src/app/worker/main.py: the settings the process reads and checks at
    start-up, and the loop of [WorkerRuntime.run].  The loop awaits, and while
    it does any task in flight may end; so it is a labelled transition system
    whose states are the points where it awaits.  What Redis answers is a
    label, within the documented bound of its COUNT option.  A message in
    flight is processed by [Worker._process_one]. *)

From Stdlib Require Import SpecFloat.
From S2P Require Import Prelude Numerals PyVal States Errors Domain Resolver Json Messages Store.
From S2P Require Import Repositories TaskRepositories Services Dispatch Completion Redis Barriers Worker Orchestrator.

(** ** Settings *)

Record WorkerRuntime : Type := {
  rt_consumer_name : string;
  rt_max_concurrency : Z;
  rt_shutdown_timeout_seconds : spec_float;
  rt_reclaim_idle_ms : Z;
}.

Definition runtime_init (consumer_name : string) (max_concurrency : Z)
    (shutdown_timeout_seconds : spec_float) (reclaim_idle_ms : Z) : py WorkerRuntime :=
  if (max_concurrency <? 1)%Z then Raise (ValueError "max_concurrency must be at least 1.")
  else if SFltb shutdown_timeout_seconds (float_of_Z 0)
  then Raise (ValueError "shutdown_timeout_seconds must not be negative.")
  else if (reclaim_idle_ms <? 0)%Z then Raise (ValueError "reclaim_idle_ms must not be negative.")
  else Ok {| rt_consumer_name := consumer_name; rt_max_concurrency := max_concurrency;
             rt_shutdown_timeout_seconds := shutdown_timeout_seconds;
             rt_reclaim_idle_ms := reclaim_idle_ms |}.

(** [a / b] on integers, with [b] positive: the nearest float. *)
Definition int_div (a : Z) (b : positive) : py spec_float :=
  let x := match a with
           | Z0 => S754_zero false
           | Zpos p => S754_finite false p 0
           | Zneg p => S754_finite true p 0
           end in
  match SFdiv 53 1024 x (S754_finite false b 0) with
  | S754_infinity _ => Raise (OverflowError "integer division result too large for a float")
  | f => Ok f
  end.

Section settings.
Context `{Host}.
Variable host_and_pid : string.

Definition env_float (name default_value : string) : py spec_float :=
  match parse_float (default default_value (getenv name)) with
  | Some f => Ok f
  | None => Raise (ValueError "could not convert string to float")
  end.

Definition _consumer_name : string :=
  match getenv "WORKER_CONSUMER_NAME" with
  | Some name => if String.eqb name "" then host_and_pid else name
  | None => host_and_pid
  end.

Definition _max_concurrency : py Z := int (default "10" (getenv "WORKER_MAX_CONCURRENCY")).
Definition _shutdown_timeout_seconds : py spec_float := env_float "WORKER_SHUTDOWN_TIMEOUT_SECONDS" "5.0".
Definition _reclaim_idle_ms : py Z := int (default "30000" (getenv "WORKER_RECLAIM_IDLE_MS")).
Definition _task_claim_lease_seconds : py spec_float := env_float "WORKER_TASK_CLAIM_LEASE_SECONDS" "20".

(** The part of [main] before the loop: the lease and the runtime. *)
Definition worker_main : py (spec_float * WorkerRuntime) :=
  reclaim_idle_ms ← _reclaim_idle_ms;
  task_claim_lease_seconds ← _task_claim_lease_seconds;
  idle ← int_div reclaim_idle_ms 1000;
  if SFleb idle task_claim_lease_seconds
  then Raise (ValueError "WORKER_TASK_CLAIM_LEASE_SECONDS must be shorter than WORKER_RECLAIM_IDLE_MS.")
  else
    _ ← processor_init task_claim_lease_seconds;
    max_concurrency ← _max_concurrency;
    shutdown_timeout_seconds ← _shutdown_timeout_seconds;
    runtime ← runtime_init _consumer_name max_concurrency shutdown_timeout_seconds reclaim_idle_ms;
    Ok (task_claim_lease_seconds, runtime).
End settings.

(** ** The loop *)

(** A message with its stream and identifier. *)
Definition message : Type := string * string * stream_fields.

(** Where [run] awaits: at the head of the loop and in
    [_wait_for_capacity], in [autoclaim] and in [consume] with the count asked
    for, and in [_stop_in_flight_work]. *)
Inductive phase : Type :=
| Waiting
| Reclaiming (count : Z)
| Consuming (count : Z)
| Stopping
| Stopped.

Record runtime_state : Type := RState {
  rs_phase : phase;
  rs_reclaim_start_id : string;
  rs_in_flight : list message;
}.

Definition _schedule_messages (batch : stream_batch) (in_flight : list message) : list message :=
  in_flight ++ batch_messages batch.

(** What [autoclaim] answers: the next start, the messages claimed and the
    identifiers of deleted ones, or a Redis error, which is logged.  (Any other
    exception leaves the loop: [rt_raise].) *)
Definition _reclaim_available_messages (reply : option (string * list (string * stream_fields) * list string))
    (start_id : string) : string * stream_batch :=
  match reply with
  | None => (start_id, [])
  | Some (next, [], _) => (next, [])
  | Some (next, messages, _) => (next, [(WORKFLOW_TASKS_STREAM, messages)])
  end.

Definition _consume_available_messages (reply : option stream_batch) : stream_batch := default [] reply.

Inductive label : Type :=
| Delivered (l : list message)
| Finished (m : message)
| Cancelled (l : list message)
| Silent.

(** The number of messages in a reply is at most the count asked for. *)
Definition within (count : Z) (batch : stream_batch) : Prop :=
  (Z.of_nat (length (batch_messages batch)) ≤ count)%Z.

Section runtime.
Variable c : WorkerRuntime.

Definition free (in_flight : list message) : Z := rt_max_concurrency c - Z.of_nat (length in_flight).

Inductive rt_step : runtime_state → label → runtime_state → Prop :=
| rt_finish p s l1 m l2 :
    p ≠ Stopped → rt_step (RState p s (l1 ++ m :: l2)) (Finished m) (RState p s (l1 ++ l2))
| rt_reclaim s l :
    (Z.of_nat (length l) < rt_max_concurrency c)%Z →
    rt_step (RState Waiting s l) Silent (RState (Reclaiming (free l)) s l)
| rt_reclaimed n s l reply s' batch :
    _reclaim_available_messages reply s = (s', batch) → within n batch →
    rt_step (RState (Reclaiming n) s l) (Delivered (batch_messages batch))
      (match batch with
       | [] => RState (Consuming (free l)) s' l
       | _ => RState Waiting s' (_schedule_messages batch l)
       end)
| rt_consumed n s l reply :
    within n (_consume_available_messages reply) →
    rt_step (RState (Consuming n) s l) (Delivered (batch_messages (_consume_available_messages reply)))
      (RState Waiting s (_schedule_messages (_consume_available_messages reply) l))
| rt_stop s l : rt_step (RState Waiting s l) Silent (RState Stopping s l)
| rt_raise p n s l :
    p = Reclaiming n ∨ p = Consuming n → rt_step (RState p s l) Silent (RState Stopping s l)
| rt_stopped s l : rt_step (RState Stopping s l) (Cancelled l) (RState Stopped s []).

Inductive rt_steps : runtime_state → list label → runtime_state → Prop :=
| rt_done s : rt_steps s [] s
| rt_more s a s' tr s'' : rt_step s a s' → rt_steps s' tr s'' → rt_steps s (a :: tr) s''.

Definition rt_start : runtime_state := RState Waiting "0-0" [].
End runtime.

(** ** What the loop does *)

Definition arrived (tr : list label) : list message :=
  tr ≫= λ a, match a with Delivered l => l | _ => [] end.
Definition ended (tr : list label) : list message :=
  tr ≫= λ a, match a with Finished m => [m] | Cancelled l => l | _ => [] end.

Section capacity.
Variable c : WorkerRuntime.
Hypothesis positive : (1 ≤ rt_max_concurrency c)%Z.

(** Room for what has been asked for. *)
Definition rt_inv (s : runtime_state) : Prop :=
  (0 ≤ free c (rs_in_flight s))%Z ∧
  match rs_phase s with
  | Reclaiming n | Consuming n => (1 ≤ n ≤ free c (rs_in_flight s))%Z
  | Stopped => rs_in_flight s = []
  | _ => True
  end.

Lemma free_app l l' : free c (l ++ l') = (free c l - Z.of_nat (length l'))%Z.
Proof. unfold free. rewrite length_app. lia. Qed.

Lemma rt_step_inv s a s' : rt_step c s a s' → rt_inv s → rt_inv s'.
Proof.
  unfold rt_inv. destruct 1 as [p s l1 m l2 Hp|s l Hl|n s l reply s' batch Hr Hw|n s l reply Hw|s l|p n s l Hp|s l]; simpl;
    intros [Hf Hn].
  - unfold free in *. rewrite !length_app in *. simpl in *.
    split; [lia|]. destruct p; try done; lia.
  - unfold free in *. lia.
  - destruct batch as [|b batch]; cbn [rs_in_flight rs_phase]; [lia|]. unfold _schedule_messages, within in *.
    rewrite free_app. unfold message in *. split; [lia|done].
  - unfold _schedule_messages, within in *. rewrite free_app. unfold message in *. split; [lia|done].
  - done.
  - done.
  - split; [unfold free; simpl; lia|done].
Qed.

Lemma rt_steps_inv s tr s' : rt_steps c s tr s' → rt_inv s → rt_inv s'.
Proof. induction 1; eauto using rt_step_inv. Qed.
End capacity.

Lemma rt_step_messages c s a s' :
  rt_step c s a s' →
  rs_in_flight s ++ arrived [a] ≡ₚ ended [a] ++ rs_in_flight s'.
Proof.
  destruct 1 as [p s l1 m l2 Hp|s l Hl|n s l reply s' batch Hr Hw|n s l reply Hw|s l|p n s l Hp|s l]; simpl;
    unfold arrived, ended; csimpl; rewrite ?app_nil_r; try done.
  - by rewrite <- Permutation_middle.
  - destruct batch; simpl; [by rewrite app_nil_r|done].
Qed.

Lemma rt_steps_messages c s tr s' :
  rt_steps c s tr s' → rs_in_flight s ++ arrived tr ≡ₚ ended tr ++ rs_in_flight s'.
Proof.
  induction 1 as [s|s a s' tr s'' Hs _ IH]; [by rewrite app_nil_r|].
  apply rt_step_messages in Hs. unfold arrived, ended in *. csimpl in *. rewrite app_nil_r in Hs.
  rewrite app_assoc, Hs, <- !app_assoc. f_equiv. done.
Qed.

(** What a worker that starts has checked. *)
Lemma worker_main_inv `{Host} name lease c :
  worker_main name = Ok (lease, c) →
  (1 ≤ rt_max_concurrency c)%Z ∧ SFleb lease (float_of_Z 0) = false ∧
  ∃ idle, int_div (rt_reclaim_idle_ms c) 1000 = Ok idle ∧ SFleb idle lease = false.
Proof.
  unfold worker_main. intros (idle_ms & _ & Hm)%bind_Ok_inv. apply bind_Ok_inv in Hm as (l & _ & Hm).
  apply bind_Ok_inv in Hm as (idle & Hidle & Hm). destruct (SFleb idle l) eqn:Hle; [done|].
  apply bind_Ok_inv in Hm as ([] & Hp & Hm). unfold processor_init in Hp.
  destruct (SFleb l (float_of_Z 0)) eqn:Hl; [done|].
  apply bind_Ok_inv in Hm as (mc & _ & Hm). apply bind_Ok_inv in Hm as (st & _ & Hm).
  apply bind_Ok_inv in Hm as (rt & Hrt & Hm). injection Hm as <- <-. unfold runtime_init in Hrt.
  destruct (Z.ltb_spec mc 1); [done|]. destruct (SFltb _ _); [done|]. destruct (_ <? 0)%Z; [done|].
  injection Hrt as <-. simpl. split; [done|]. split; [done|]. by exists idle.
Qed.

(** C33: the runtime of a worker that has started.  Its lease is positive and
    shorter than the idle time after which messages are reclaimed; at most
    [WORKER_MAX_CONCURRENCY] messages are in flight at any time; every request
    to Redis asks for at least one message and for no more than there is room
    for; and every message that was delivered is still in flight or has ended,
    exactly once.  (The comparisons are those of floats, where a lease that is
    not a number is neither.) *)
Theorem worker_capacity `{Host} name lease c tr s :
  worker_main name = Ok (lease, c) → rt_steps c rt_start tr s →
  (SFleb lease (float_of_Z 0) = false ∧
   ∃ idle, int_div (rt_reclaim_idle_ms c) 1000 = Ok idle ∧ SFleb idle lease = false) ∧
  (Z.of_nat (length (rs_in_flight s)) ≤ rt_max_concurrency c)%Z ∧
  match rs_phase s with
  | Reclaiming n | Consuming n => (1 ≤ n ≤ rt_max_concurrency c - Z.of_nat (length (rs_in_flight s)))%Z
  | Stopped => rs_in_flight s = []
  | _ => True
  end ∧
  arrived tr ≡ₚ ended tr ++ rs_in_flight s.
Proof.
  intros (Hpos & Hlease)%worker_main_inv Hs. split; [done|].
  assert (Hinv : rt_inv c s).
  { eapply rt_steps_inv; [done|done|]. unfold rt_inv, free. simpl. split; [lia|done]. }
  destruct Hinv as [Hf Hp]. unfold free in *. split; [lia|]. split; [done|].
  by apply rt_steps_messages in Hs.
Qed.
