(* ===== verification/Groups.v ===== *)
(** * Consumer groups

    How messages reach the processes: the groups that
    src/scripts/init-redis-streams.py creates, and the calls by which the
    orchestrators and the workers read, reclaim and acknowledge.  Redis is a
    parameter: [StreamServer] has the commands the program uses and
    [ServerLaws] what their documentation promises of a group's position and
    of its pending entries.  Entries are numbered from zero in the order they
    were added; nothing the program does removes one. *)

From S2P Require Import Prelude Numerals PyVal States Errors Domain Resolver Json Messages Store.
From S2P Require Import Repositories TaskRepositories Services Dispatch Completion Redis Barriers Outbox Worker.
From S2P Require Import Orchestrator Runtime.

(** ** The server *)

(** How many entries a group has delivered, and which of them are pending. *)
Record GroupView : Type := GView { gv_delivered : nat; gv_pending : gset nat }.

(** What [xautoclaim] answers: where to go on, what was claimed, and the
    identifiers of deleted entries. *)
Definition claim_reply : Type := string * list (string * stream_fields) * list string.

Class StreamServer (G : Type) : Type := {
  entry_id : string → nat → string;
  view : G → string → string → option GroupView;
  idle_ms : G → string → string → nat → Z;
  xgroup_create : string → string → G → G * py unit;
  xreadgroup : string → string → string → Z → list stream_fields → G → G * py (list (string * stream_fields));
  xack : string → string → string → G → G;
  xautoclaim : string → string → string → Z → string → Z → list stream_fields → G → G * py claim_reply;
}.

Section views.
Context `{StreamServer G}.

Definition same_views (g g' : G) : Prop := ∀ s grp, view g' s grp = view g s grp.

(** One group becomes [v], the others are as before. *)
Definition view_set (s grp : string) (v : GroupView) (g g' : G) : Prop :=
  view g' s grp = Some v ∧ ∀ s' grp', (s', grp') ≠ (s, grp) → view g' s' grp' = view g s' grp'.

Definition entry (s : string) (l : list stream_fields) (p : nat) (e : string * stream_fields) : Prop :=
  ∃ f, l !! p = Some f ∧ e = (entry_id s p, f).

(** The error that says that a group exists. *)
Definition contains (needle text : string) : bool :=
  match String.index 0 needle text with Some _ => true | None => false end.
Definition busy_group (e : exn) : bool :=
  match e with Other t m => String.eqb t "ResponseError" && contains "BUSYGROUP" m | _ => false end.

(** Where a scan that starts at an identifier begins. *)
Definition starts_at (s start : string) (k : nat) : Prop :=
  (start = "0-0" ∧ k = 0) ∨ start = entry_id s k.

(** An answer may be lost on its way: then the command may have had its
    effect. *)
Class ServerLaws : Prop := {
  entry_id_inj s p q : entry_id s p = entry_id s q → p = q;
  create_existing s grp g v :
    view g s grp = Some v → let '(g', r) := xgroup_create s grp g in
    same_views g g' ∧ ∃ e, r = Raise e;
  create_new s grp g :
    view g s grp = None → let '(g', r) := xgroup_create s grp g in
    match r with
    | Ok _ => view_set s grp (GView 0 ∅) g g'
    | Raise e => busy_group e = false ∧ (same_views g g' ∨ view_set s grp (GView 0 ∅) g g')
    end;
  read_law grp c s n l g v :
    view g s grp = Some v → let '(g', r) := xreadgroup grp c s n l g in
    let d := gv_delivered v in
    let advanced k := view_set s grp (GView (d + k) (gv_pending v ∪ list_to_set (seq d k))) g g' in
    match r with
    | Ok es => advanced (length es) ∧ Forall2 (entry s l) (seq d (length es)) es
    | Raise _ => same_views g g' ∨ ∃ k, d + k ≤ length l ∧ advanced k
    end;
  read_missing grp c s n l g :
    view g s grp = None → let '(g', r) := xreadgroup grp c s n l g in same_views g g' ∧ ∃ e, r = Raise e;
  ack_law s grp p g v :
    view g s grp = Some v →
    view_set s grp (GView (gv_delivered v) (gv_pending v ∖ {[p]})) g (xack s grp (entry_id s p) g);
  ack_other s grp i g :
    (∀ v p, view g s grp = Some v → p ∈ gv_pending v → i ≠ entry_id s p) → same_views g (xack s grp i g);
  claim_missing s grp c idle start n l g :
    view g s grp = None → ∃ e, (xautoclaim s grp c idle start n l g).2 = Raise e;
  claim_keeps s grp c idle start n l g : same_views g (xautoclaim s grp c idle start n l g).1;
  claim_law s grp c idle start n l g g' v next claimed deleted k :
    view g s grp = Some v → xautoclaim s grp c idle start n l g = (g', Ok (next, claimed, deleted)) →
    (1 ≤ n)%Z → starts_at s start k →
    (∀ e, e ∈ claimed → ∃ p, p ∈ gv_pending v ∧ entry s l p e) ∧
    ∃ stop : option nat,
      match stop with
      | Some m => next = entry_id s m ∧ k < m ∧ m ∈ gv_pending v
      | None => next = "0-0"
      end ∧
      ∀ p e, k ≤ p → (∀ m, stop = Some m → p < m) → p ∈ gv_pending v →
        (idle ≤ idle_ms g s grp p)%Z → entry s l p e → e ∈ claimed;
}.
End views.

Arguments ServerLaws G {_}.

#[export] Instance same_views_preorder `{StreamServer G} : PreOrder same_views.
Proof. split; unfold same_views; [done|]. intros g1 g2 g3 H12 H23 s grp. by rewrite H23, H12. Qed.

(** ** src/scripts/init-redis-streams.py *)

Section script.
Context `{StreamServer G}.

Definition TASKS_STREAM : string := "workflow.tasks".
Definition EVENTS_STREAM : string := "workflow.events".
Definition TASK_COMPLETIONS_STREAM : string := "workflow.task-completions".
Definition WORKER_GROUP : string := "workers".
Definition ORCHESTRATOR_GROUP : string := "orchestrator".
Definition SCRIPT_COMPLETIONS_GROUP : string := "orchestrator-completions".

Definition ensure_group (stream group : string) (g : G) : G * py unit :=
  match xgroup_create stream group g with
  | (g', Raise e) => (g', if busy_group e then Ok tt else Raise e)
  | reply => reply
  end.

Fixpoint ensure_groups (l : list (string * string)) (g : G) : G * py unit :=
  match l with
  | [] => (g, Ok tt)
  | (s, grp) :: l' =>
      match ensure_group s grp g with
      | (g', Ok _) => ensure_groups l' g'
      | (g', Raise e) => (g', Raise e)
      end
  end.

Definition created_groups : list (string * string) :=
  [(TASKS_STREAM, WORKER_GROUP); (EVENTS_STREAM, ORCHESTRATOR_GROUP);
   (TASK_COMPLETIONS_STREAM, SCRIPT_COMPLETIONS_GROUP)].

(** [main]; [ping] is what the server answers to it. *)
Definition script_main (redis_url : option string) (ping : py unit) (g : G) : G * py unit :=
  match redis_url with
  | None | Some EmptyString => (g, Raise (RuntimeError "REDIS_URL environment variable is required"))
  | Some _ =>
      match ping with
      | Ok _ => ensure_groups created_groups g
      | Raise e => (g, Raise e)
      end
  end.
End script.

(** The groups the processes read. *)
Definition consumer_groups : list (string * string) :=
  [(WORKFLOW_TASKS_STREAM, WORKFLOW_TASKS_GROUP); (WORKFLOW_EVENTS_STREAM, _ORCHESTRATOR_EVENTS_GROUP);
   (WORKFLOW_TASK_COMPLETIONS_STREAM, ORCHESTRATOR_COMPLETIONS_GROUP)].

Section creation.
Context `{StreamServer G} `{!ServerLaws G}.

(** Groups are only added, and start before the first entry. *)
Definition groups_added (l : list (string * string)) (g g' : G) : Prop :=
  (∀ s grp v, view g s grp = Some v → view g' s grp = Some v) ∧
  (∀ s grp v, view g' s grp = Some v → view g s grp = Some v ∨ v = GView 0 ∅ ∧ (s, grp) ∈ l).

Lemma groups_added_same l g g' : same_views g g' → groups_added l g g'.
Proof. intros Hs. split; intros s grp v; rewrite Hs; auto. Qed.

Lemma groups_added_set s grp g g' :
  view g s grp = None → view_set s grp (GView 0 ∅) g g' → groups_added [(s, grp)] g g'.
Proof.
  intros Hn [Hv Ho]. split; intros s' grp' v; destruct (decide ((s', grp') = (s, grp))) as [[= -> ->]|Hne].
  - congruence.
  - by rewrite Ho.
  - rewrite Hv. intros [= <-]. right. set_solver.
  - rewrite Ho by done. auto.
Qed.

Lemma groups_added_trans l1 l2 g1 g2 g3 :
  groups_added l1 g1 g2 → groups_added l2 g2 g3 → groups_added (l1 ++ l2) g1 g3.
Proof.
  intros [K12 N12] [K23 N23]. split; [auto|]. intros s grp v [Hv|[-> Hin]]%N23; [|set_solver].
  destruct (N12 s grp v Hv) as [?|[-> ?]]; [auto|set_solver].
Qed.

Lemma ensure_group_effect s grp g :
  let '(g', r) := ensure_group s grp g in
  groups_added [(s, grp)] g g' ∧ (r = Ok tt → is_Some (view g' s grp)).
Proof.
  unfold ensure_group. destruct (view g s grp) as [v|] eqn:Hv.
  - pose proof (create_existing s grp g v Hv) as Hc. destruct (xgroup_create s grp g) as [g' r].
    destruct Hc as [Hs [e ->]]. split; [by apply groups_added_same|]. intros _. rewrite Hs, Hv. by eexists.
  - pose proof (create_new s grp g Hv) as Hc. destruct (xgroup_create s grp g) as [g' [[]|e]].
    + split; [by apply groups_added_set|]. intros _. destruct Hc as [-> _]. by eexists.
    + destruct Hc as [-> [Hs|Hs]]; (split; [|done]); [by apply groups_added_same|by apply groups_added_set].
Qed.

Lemma ensure_groups_effect l g :
  let '(g', r) := ensure_groups l g in
  groups_added l g g' ∧ (r = Ok tt → ∀ s grp, (s, grp) ∈ l → is_Some (view g' s grp)).
Proof.
  revert g. induction l as [|[s grp] l IH]; intros g; simpl.
  { split; [by apply groups_added_same|]. by intros _ s grp ?%elem_of_nil. }
  pose proof (ensure_group_effect s grp g) as Hg. destruct (ensure_group s grp g) as [g1 [[]|e]].
  - specialize (IH g1). destruct (ensure_groups l g1) as [g2 r]. destruct Hg as [Ha1 Hs1], IH as [Ha2 Hs2].
    split; [by apply (groups_added_trans [(s, grp)] l g g1)|].
    intros Hr s' grp' [[= -> ->]|Hin]%elem_of_cons; [|by apply Hs2].
    destruct (Hs1 eq_refl) as [v Hv]. exists v. by apply Ha2.
  - destruct Hg as [[K N] _]. split; [|done]. split; [done|]. intros s' grp' v Hv.
    destruct (N s' grp' v Hv) as [?|[? ?]]; [auto|set_solver].
Qed.

Lemma script_main_effect url ping g :
  let '(g', r) := script_main url ping g in
  groups_added consumer_groups g g' ∧
  (r = Ok tt → ∀ s grp, (s, grp) ∈ consumer_groups → is_Some (view g' s grp)).
Proof.
  assert (Hq : groups_added consumer_groups g g) by (by apply groups_added_same).
  unfold script_main. destruct url as [[|c u]|]; [by split|destruct ping as [[]|e]; [|by split]|by split].
  exact (ensure_groups_effect created_groups g).
Qed.

(** The script creates the groups the processes read.  It never moves a group
    that exists, what it adds starts before the first entry, so that no
    message that was published earlier is missed, and when it succeeds every
    group that a process reads is there.  Run again, it changes nothing. *)
Theorem script_creates_groups url ping g :
  let '(g', r) := script_main url ping g in
  (∀ s grp v, view g s grp = Some v → view g' s grp = Some v) ∧
  (∀ s grp v, view g' s grp = Some v →
     view g s grp = Some v ∨ v = GView 0 ∅ ∧ (s, grp) ∈ consumer_groups) ∧
  (r = Ok tt → ∀ s grp, (s, grp) ∈ consumer_groups → is_Some (view g' s grp)) ∧
  ((∀ s grp, (s, grp) ∈ consumer_groups → is_Some (view g s grp)) → same_views g g').
Proof.
  pose proof (script_main_effect url ping g) as Hadd.
  destruct (script_main url ping g) as [g' r]. destruct Hadd as [[K N] Hr]. do 3 (split; [done|]).
  intros Hall s grp. destruct (view g s grp) as [v|] eqn:Hv; [by apply K|].
  destruct (view g' s grp) as [v|] eqn:Hv'; [|done]. destruct (N s grp v Hv') as [?|[_ Hin]]; [congruence|].
  destruct (Hall s grp Hin). congruence.
Qed.
End creation.

(** ** What the processes ask for *)

Record server (G : Type) : Type := Server { sv_groups : G; sv_log : list (string * stream_fields) }.
Arguments Server {G} _ _.
Arguments sv_groups {G} _.
Arguments sv_log {G} _.

Inductive delivery_label : Type :=
| Gave (stream group : string) (ids : list string)
| Acked (stream group id : string)
| Quiet.

(** The reads of src/app/orchestrator/ and src/app/worker/main.py. *)
Definition read_call (s grp : string) (n : Z) : Prop :=
  (s = WORKFLOW_EVENTS_STREAM ∧ grp = _ORCHESTRATOR_EVENTS_GROUP ∧ n = 100%Z) ∨
  (s = WORKFLOW_TASK_COMPLETIONS_STREAM ∧ grp = ORCHESTRATOR_COMPLETIONS_GROUP ∧ n = 100%Z) ∨
  (s = WORKFLOW_TASKS_STREAM ∧ grp = WORKFLOW_TASKS_GROUP ∧ (1 ≤ n)%Z).

Definition given_by {A} (s grp : string) (ids : A → list string) (r : py A) : delivery_label :=
  match r with Ok a => Gave s grp (ids a) | Raise _ => Quiet end.

Section delivery.
Context `{StreamServer G} `{!ServerLaws G}.

(** Messages are added, groups are created by the script, processes read and
    acknowledge, workers reclaim tasks, and time passes.  Orchestrators do not
    reclaim. *)
Inductive serve_step : server G → delivery_label → server G → Prop :=
| sv_publish g log m : serve_step (Server g log) Quiet (Server g (log ++ [m]))
| sv_script url ping g log : serve_step (Server g log) Quiet (Server (script_main url ping g).1 log)
| sv_read s grp c n g g' r log :
    read_call s grp n → xreadgroup grp c s n (entries s log) g = (g', r) →
    serve_step (Server g log) (given_by s grp (λ es, es.*1) r) (Server g' log)
| sv_reclaim c idle start n g g' r log :
    (1 ≤ n)%Z → start = "0-0" ∨ (∃ k, start = entry_id WORKFLOW_TASKS_STREAM k) →
    xautoclaim WORKFLOW_TASKS_STREAM WORKFLOW_TASKS_GROUP c idle start n (entries WORKFLOW_TASKS_STREAM log) g
      = (g', r) →
    serve_step (Server g log) (given_by WORKFLOW_TASKS_STREAM WORKFLOW_TASKS_GROUP (λ a, a.1.2.*1) r) (Server g' log)
| sv_ack s grp i g log : serve_step (Server g log) (Acked s grp i) (Server (xack s grp i g) log)
| sv_time g g' log : same_views g g' → serve_step (Server g log) Quiet (Server g' log).

Definition server_initial (sv : server G) : Prop := ∀ s grp, view (sv_groups sv) s grp = None.

Inductive serves : list delivery_label → server G → Prop :=
| serves_none sv : server_initial sv → serves [] sv
| serves_more tr sv a sv' : serves tr sv → serve_step sv a sv' → serves (tr ++ [a]) sv'.

Definition given (s grp : string) (tr : list delivery_label) : list string :=
  tr ≫= λ a, match a with Gave s' grp' l => if decide ((s', grp') = (s, grp)) then l else [] | _ => [] end.
Definition acknowledged (s grp : string) (tr : list delivery_label) : list string :=
  tr ≫= λ a, match a with Acked s' grp' i => if decide ((s', grp') = (s, grp)) then [i] else [] | _ => [] end.

(** What a group knows about the entries of its stream. *)
Record accounts (s grp : string) (tr : list delivery_label) (log : list (string * stream_fields)) (v : GroupView)
    : Prop := {
  ac_bound : gv_delivered v ≤ length (entries s log);
  ac_pending p : p ∈ gv_pending v → p < gv_delivered v;
  ac_accounted p : p < gv_delivered v → p ∈ gv_pending v ∨ entry_id s p ∈ acknowledged s grp tr;
  ac_given i : i ∈ given s grp tr → ∃ p, p < gv_delivered v ∧ i = entry_id s p;
  ac_once : (s, grp) ≠ (WORKFLOW_TASKS_STREAM, WORKFLOW_TASKS_GROUP) → NoDup (given s grp tr);
}.

Definition group_inv (s grp : string) (tr : list delivery_label) (sv : server G) : Prop :=
  match view (sv_groups sv) s grp with
  | None => given s grp tr = []
  | Some v => accounts s grp tr (sv_log sv) v
  end.

Lemma given_app s grp tr a : given s grp (tr ++ [a]) = given s grp tr ++ given s grp [a].
Proof. apply bind_app. Qed.
Lemma acknowledged_app s grp tr a :
  acknowledged s grp (tr ++ [a]) = acknowledged s grp tr ++ acknowledged s grp [a].
Proof. apply bind_app. Qed.

(** A step in which the group keeps its position and gives nothing new. *)
Lemma accounts_kept s grp tr a log log' v pending :
  accounts s grp tr log v → given s grp [a] = [] → (∃ l, log' = log ++ l) →
  pending ⊆ gv_pending v →
  (∀ p, p ∈ gv_pending v → p ∉ pending → entry_id s p ∈ acknowledged s grp [a]) →
  accounts s grp (tr ++ [a]) log' (GView (gv_delivered v) pending).
Proof.
  intros [Hb Hp Ha Hg Ho] Hga [l ->] Hsub Hack. split; cbn [gv_delivered gv_pending].
  - unfold entries in *. rewrite omap_app, length_app. lia.
  - intros p Hin. by apply Hp, Hsub.
  - intros p Hlt. rewrite acknowledged_app, elem_of_app. destruct (Ha p Hlt) as [Hin|]; [|auto].
    destruct (decide (p ∈ pending)); [auto|]. right. right. by apply Hack.
  - intros i. rewrite given_app, Hga, app_nil_r. apply Hg.
  - intros Hne. rewrite given_app, Hga, app_nil_r. by apply Ho.
Qed.

Lemma group_inv_kept s grp tr a g g' log log' :
  group_inv s grp tr (Server g log) → view g' s grp = view g s grp → given s grp [a] = [] →
  (∃ l, log' = log ++ l) → group_inv s grp (tr ++ [a]) (Server g' log').
Proof.
  unfold group_inv. cbn [sv_groups sv_log]. intros Hinv Hv Ha Hl. rewrite Hv. destruct (view g s grp) as [v|].
  - destruct v as [d pend]. by apply (accounts_kept s grp tr a log log' (GView d pend) pend).
  - by rewrite given_app, Hinv, Ha.
Qed.

(** A read at position [d]. *)
Lemma accounts_read s grp tr a log v k :
  accounts s grp tr log v → gv_delivered v + k ≤ length (entries s log) →
  given s grp [a] = [] ∨ given s grp [a] = entry_id s <$> seq (gv_delivered v) k →
  accounts s grp (tr ++ [a]) log
    (GView (gv_delivered v + k) (gv_pending v ∪ list_to_set (seq (gv_delivered v) k))).
Proof.
  intros [Hb Hp Ha Hg Ho] Hk Hga. split; cbn [gv_delivered gv_pending].
  - done.
  - intros p [Hin|Hin%elem_of_list_to_set%elem_of_seq]%elem_of_union; [apply Hp in Hin|]; lia.
  - intros p Hlt. rewrite elem_of_union, elem_of_list_to_set, elem_of_seq, acknowledged_app, elem_of_app.
    destruct (decide (p < gv_delivered v)) as [Hold|]; [destruct (Ha p Hold); auto|left; right; lia].
  - intros i. rewrite given_app. intros [(p & Hlt & ->)%Hg|Hi]%elem_of_app; [exists p; split; [lia|done]|].
    destruct Hga as [Hga|Hga]; rewrite Hga in Hi; [by apply elem_of_nil in Hi|].
    apply list_elem_of_fmap in Hi as (p & -> & Hin%elem_of_seq). exists p. split; [lia|done].
  - intros Hne. rewrite given_app. destruct Hga as [Hga|Hga]; rewrite Hga; [rewrite app_nil_r; by apply Ho|].
    apply NoDup_app. split; [by apply Ho|]. split.
    + intros i (p & Hlt & ->)%Hg (q & Hq & Hin%elem_of_seq)%list_elem_of_fmap. apply entry_id_inj in Hq. lia.
    + apply NoDup_fmap_2_strong; [|apply NoDup_seq]. intros p q _ _. apply entry_id_inj.
Qed.

Lemma given_other s grp s' grp' ids :
  (s', grp') ≠ (s, grp) → given s grp [Gave s' grp' ids] = [].
Proof. intros Hne. unfold given. simpl. by rewrite decide_False. Qed.

Lemma given_here s grp ids : given s grp [Gave s grp ids] = ids.
Proof. unfold given. simpl. rewrite decide_True by done. apply app_nil_r. Qed.

Lemma given_by_other {A} s grp s' grp' (f : A → list string) r :
  (s', grp') ≠ (s, grp) → given s grp [given_by s' grp' f r] = [].
Proof. intros Hne. destruct r; [by apply given_other|done]. Qed.

Lemma entries_ids s (l : list stream_fields) ps es :
  Forall2 (entry s l) ps es → es.*1 = entry_id s <$> ps ∧ ∀ p, p ∈ ps → p < length l.
Proof.
  induction 1 as [|p e ps es (f & Hf & ->) _ [IH1 IH2]]; [split; [done|]; by intros p ?%elem_of_nil|].
  split; [csimpl; by rewrite IH1|]. intros q [->|Hq]%elem_of_cons; [by eapply lookup_lt_Some|auto].
Qed.

Lemma read_bound d k n : d ≤ n → (∀ p, p ∈ seq d k → p < n) → d + k ≤ n.
Proof.
  intros Hd Hall. destruct k as [|k]; [lia|]. specialize (Hall (d + k)). rewrite elem_of_seq in Hall. lia.
Qed.

Lemma read_inv s grp s' grp' c n g g' r log tr :
  xreadgroup grp c s n (entries s log) g = (g', r) → group_inv s' grp' tr (Server g log) →
  group_inv s' grp' (tr ++ [given_by s grp (λ es, es.*1) r]) (Server g' log).
Proof.
  intros Hrun Hinv. assert (Hlog : ∃ l, log = log ++ l) by (exists []; by rewrite app_nil_r).
  destruct (view g s grp) as [v|] eqn:Hv.
  2:{ pose proof (read_missing grp c s n (entries s log) g Hv) as Hr. rewrite Hrun in Hr. destruct Hr as [Hs [e ->]].
      by apply (group_inv_kept _ _ _ _ g _ log). }
  pose proof (read_law grp c s n (entries s log) g v Hv) as Hr. rewrite Hrun in Hr. cbv zeta in Hr.
  assert (Hadv : ∀ k a, view_set s grp (GView (gv_delivered v + k) (gv_pending v ∪ list_to_set (seq (gv_delivered v) k))) g g' →
    (∀ p, p ∈ seq (gv_delivered v) k → p < length (entries s log)) →
    (a = Quiet ∨ a = Gave s grp (entry_id s <$> seq (gv_delivered v) k)) →
    group_inv s' grp' (tr ++ [a]) (Server g' log)).
  { intros k a [Hset Hoth] Hlt Ha. destruct (decide ((s', grp') = (s, grp))) as [[= -> ->]|Hne].
    - unfold group_inv in *. cbn [sv_groups sv_log] in *. rewrite Hset. rewrite Hv in Hinv.
      apply accounts_read; [done|apply read_bound; [apply Hinv|done]|].
      destruct Ha as [->| ->]; [by left|right; apply given_here].
    - apply (group_inv_kept _ _ _ _ g _ log); [done|by apply Hoth| |done].
      destruct Ha as [->| ->]; [done|by apply given_other]. }
  destruct r as [es|e]; simpl.
  - destruct Hr as [Hset Hall]. apply entries_ids in Hall as [Hids Hlt]. apply (Hadv (length es)); [done|done|].
    right. by rewrite Hids.
  - destruct Hr as [Hs|(k & Hk & Hset)]; [by apply (group_inv_kept _ _ _ _ g _ log)|].
    apply (Hadv k); [done| |by left]. intros p Hp%elem_of_seq. lia.
Qed.

Lemma reclaim_inv s' grp' c idle start n g g' r log tr :
  let s := WORKFLOW_TASKS_STREAM in
  let grp := WORKFLOW_TASKS_GROUP in
  (1 ≤ n)%Z → start = "0-0" ∨ (∃ k, start = entry_id s k) →
  xautoclaim s grp c idle start n (entries s log) g = (g', r) → group_inv s' grp' tr (Server g log) →
  group_inv s' grp' (tr ++ [given_by s grp (λ a, a.1.2.*1) r]) (Server g' log).
Proof.
  intros s grp Hn Hstart Hrun Hinv. assert (Hlog : ∃ l, log = log ++ l) by (exists []; by rewrite app_nil_r).
  pose proof (claim_keeps s grp c idle start n (entries s log) g) as Hs. rewrite Hrun in Hs. cbn [fst] in Hs.
  destruct (decide ((s', grp') = (s, grp))) as [[= -> ->]|Hne].
  2:{ apply (group_inv_kept _ _ _ _ g _ log); [done|apply Hs|by apply given_by_other|done]. }
  destruct r as [[[next claimed] deleted]|e]; [|by apply (group_inv_kept _ _ _ _ g _ log)].
  unfold group_inv in *. cbn [sv_groups sv_log] in *. rewrite Hs. destruct (view g s grp) as [v|] eqn:Hv.
  2:{ destruct (claim_missing s grp c idle start n (entries s log) g Hv) as [e He]. by rewrite Hrun in He. }
  assert (Hk : ∃ k, starts_at s start k) by (destruct Hstart as [->|[k ->]]; [exists 0; by left|exists k; by right]).
  destruct Hk as [k Hk]. destruct (claim_law _ _ _ _ _ _ _ _ _ _ _ _ _ k Hv Hrun Hn Hk) as [Hsound _].
  destruct Hinv as [Hb Hp Ha Hg Ho]. split; [done|done| | |done].
  - intros p Hlt. rewrite acknowledged_app, elem_of_app. destruct (Ha p Hlt); auto.
  - intros i. rewrite given_app. simpl given_by. rewrite given_here. intros [Hi|Hi]%elem_of_app; [by apply Hg|].
    apply list_elem_of_fmap in Hi as (e & -> & (p & Hin & f & _ & ->)%Hsound). exists p. split; [by apply Hp|done].
Qed.

Lemma ack_inv s grp s' grp' i g log tr :
  group_inv s' grp' tr (Server g log) →
  group_inv s' grp' (tr ++ [Acked s grp i]) (Server (xack s grp i g) log).
Proof.
  intros Hinv. assert (Hlog : ∃ l, log = log ++ l) by (exists []; by rewrite app_nil_r).
  assert (Hsame : same_views g (xack s grp i g) → group_inv s' grp' (tr ++ [Acked s grp i]) (Server (xack s grp i g) log)).
  { intros Hs. by apply (group_inv_kept _ _ _ _ g _ log). }
  destruct (view g s grp) as [v|] eqn:Hv.
  2:{ apply Hsame, ack_other. intros v p Hv'. congruence. }
  destruct (decide (set_Exists (λ p, i = entry_id s p) (gv_pending v))) as [(p & Hp & ->)|Hno].
  2:{ apply Hsame, ack_other. intros v' p Hv' Hp ->. simplify_eq. apply Hno. by exists p. }
  destruct (ack_law s grp p g v Hv) as [Hset Hoth].
  destruct (decide ((s', grp') = (s, grp))) as [[= -> ->]|Hne].
  2:{ by apply (group_inv_kept _ _ _ _ g _ log); [|apply Hoth|..]. }
  unfold group_inv in *. cbn [sv_groups sv_log] in *. rewrite Hset. rewrite Hv in Hinv.
  apply (accounts_kept _ _ _ _ log); [done|done|done|set_solver|].
  intros q Hq Hnq. destruct (decide (q = p)) as [->|Hqp].
  2:{ destruct Hnq. apply elem_of_difference. split; [done|]. by apply not_elem_of_singleton. }
  unfold acknowledged. simpl. rewrite decide_True by done. apply list_elem_of_here.
Qed.

Lemma script_inv s grp url ping g log tr :
  group_inv s grp tr (Server g log) → group_inv s grp (tr ++ [Quiet]) (Server (script_main url ping g).1 log).
Proof.
  intros Hinv. assert (Hlog : ∃ l, log = log ++ l) by (exists []; by rewrite app_nil_r).
  pose proof (script_main_effect url ping g) as Hs. destruct (script_main url ping g) as [g' r]. destruct Hs as [[K N] _].
  cbn [fst]. unfold group_inv in Hinv. cbn [sv_groups sv_log] in Hinv. destruct (view g s grp) as [v|] eqn:Hv.
  { apply (group_inv_kept _ _ _ _ g _ log); [unfold group_inv; simpl; by rewrite Hv|rewrite Hv; by apply K|done|done]. }
  unfold group_inv. cbn [sv_groups sv_log]. destruct (view g' s grp) as [v|] eqn:Hv'; [|by rewrite given_app, Hinv].
  destruct (N s grp v Hv') as [?|[-> _]]; [congruence|]. split; cbn [gv_delivered gv_pending]; try (intros; lia).
  - set_solver.
  - intros i. rewrite given_app, Hinv. by intros ?%elem_of_nil.
  - intros _. rewrite given_app, Hinv. constructor.
Qed.

Lemma serves_inv tr sv s grp : serves tr sv → group_inv s grp tr sv.
Proof.
  induction 1 as [sv Hini|tr sv a sv' _ IH Hstep]; [unfold group_inv; by rewrite Hini|].
  destruct Hstep as [g log m|url ping g log|s0 grp0 c n g g' r log _ Hrun|c idle start n g g' r log Hn Hst Hrun
    |s0 grp0 i g log|g g' log Hs].
  - apply (group_inv_kept _ _ _ _ g _ log); [done|done|done|by eexists].
  - by apply script_inv.
  - by eapply read_inv.
  - by eapply reclaim_inv.
  - by apply ack_inv.
  - apply (group_inv_kept _ _ _ _ g _ log); [done|apply Hs|done|exists []; by rewrite app_nil_r].
Qed.

(** Delivery.  Through any interleaving of publications, runs of the script,
    reads, reclaims and acknowledgements, lost answers included: a group has
    delivered the oldest entries of its stream; each of them is pending or has
    been acknowledged, so none is dropped; only such entries have reached a
    process; and outside the workers' group none has reached one twice,
    because only workers reclaim. *)
Theorem delivery_accounted tr sv s grp v :
  serves tr sv → view (sv_groups sv) s grp = Some v →
  gv_delivered v ≤ length (entries s (sv_log sv)) ∧
  (∀ p, p < gv_delivered v → p ∈ gv_pending v ∨ entry_id s p ∈ acknowledged s grp tr) ∧
  (∀ i, i ∈ given s grp tr → ∃ p, p < gv_delivered v ∧ i = entry_id s p) ∧
  ((s, grp) ≠ (WORKFLOW_TASKS_STREAM, WORKFLOW_TASKS_GROUP) → NoDup (given s grp tr)).
Proof.
  intros Hs Hv. apply (serves_inv _ _ s grp) in Hs. unfold group_inv in Hs. rewrite Hv in Hs. destruct Hs. auto.
Qed.
End delivery.

(** ** Reclaiming *)

Section reclaiming.
Context `{StreamServer G} `{!ServerLaws G}.
Variable c : WorkerRuntime.










End reclaiming.
