(* ===== verification/GroupSamples.v ===== *)
(** * A reference server

    A server that satisfies the laws of [Groups], which shows that they can
    hold, and the theorems of [Groups] applied to a run of it. *)

From Stdlib Require Import Ascii SpecFloat.
From S2P Require Import Prelude Numerals PyVal States Errors Domain Resolver Json Messages Store.
From S2P Require Import Repositories TaskRepositories Services Dispatch Completion Redis Barriers Outbox Worker.
From S2P Require Import Orchestrator Runtime Groups.

(** ** The server *)

(** Entry [n] has [n] strokes for an identifier. *)
Fixpoint tally (n : nat) : string := match n with O => "" | S n' => String "1"%char (tally n') end.

Lemma tally_length n : String.length (tally n) = n.
Proof. induction n as [|n IH]; [done|]. simpl. by rewrite IH. Qed.

Definition position (start : string) : nat := if String.eqb start "0-0" then 0 else String.length start.

Abbreviation groups_table := (gmap (string * string) GroupView).

Definition numbered (d : nat) (l : list stream_fields) : list (string * stream_fields) :=
  imap (λ i f, (tally (d + i), f)) l.

Definition busy_error : exn := Other "ResponseError" "BUSYGROUP Consumer Group name already exists".
Definition no_group : exn := Other "ResponseError" "NOGROUP No such key or consumer group".

Definition acked_view (i : string) (v : GroupView) : GroupView :=
  GView (gv_delivered v) (gv_pending v ∖ {[String.length i]}).

(** Reads deliver what is next, reclaims scan everything. *)
#[export] Instance reference_server : StreamServer groups_table := {
  entry_id _ n := tally n;
  view g s grp := g !! (s, grp);
  idle_ms _ _ _ _ := 60000%Z;
  xgroup_create s grp g :=
    match g !! (s, grp) with
    | Some _ => (g, Raise busy_error)
    | None => (<[(s, grp) := GView 0 ∅]> g, Ok tt)
    end;
  xreadgroup grp _ s n l g :=
    match g !! (s, grp) with
    | Some v =>
        let d := gv_delivered v in
        let es := numbered d (take (Z.to_nat n) (drop d l)) in
        (<[(s, grp) := GView (d + length es) (gv_pending v ∪ list_to_set (seq d (length es)))]> g, Ok es)
    | None => (g, Raise no_group)
    end;
  xack s grp i g := if String.eqb i (tally (String.length i)) then alter (acked_view i) (s, grp) g else g;
  xautoclaim s grp _ _ start _ l g :=
    match g !! (s, grp) with
    | Some v =>
        (g, Ok ("0-0", omap (λ p, (λ f, (tally p, f)) <$> l !! p)
          (filter (λ p, position start ≤ p) (elements (gv_pending v))), []))
    | None => (g, Raise no_group)
    end;
}.

Lemma insert_view_set (s grp : string) (v : GroupView) (g : groups_table) : view_set s grp v g (<[(s, grp) := v]> g).
Proof.
  split; simpl; [by rewrite lookup_insert, decide_True|]. intros s' grp' Hne. by rewrite lookup_insert_ne.
Qed.

Lemma numbered_entries s l d es k :
  take k (drop d l) = es → Forall2 (entry s l) (seq d (length (numbered d es))) (numbered d es).
Proof.
  intros Hes. apply Forall2_same_length_lookup. split; [by rewrite length_seq|].
  intros i p e Hp He. apply lookup_seq in Hp as [-> _]. unfold numbered in He. rewrite list_lookup_imap in He.
  destruct (es !! i) as [f|] eqn:Hf; [|done]. injection He as <-. exists f. split; [|done].
  rewrite <- Hes in Hf. apply lookup_take_Some in Hf as [Hf _]. by rewrite lookup_drop in Hf.
Qed.

Lemma position_start s start k : starts_at (G := groups_table) s start k → position start = k.
Proof.
  intros [[-> ->]| ->]; [done|]. unfold position. simpl. destruct (String.eqb_spec (tally k) "0-0") as [Ht|].
  - destruct k; simpl in Ht; discriminate Ht.
  - apply tally_length.
Qed.

#[export] Instance reference_server_laws : ServerLaws groups_table.
Proof.
  split.
  - intros s p q Hpq. simpl in Hpq. rewrite <- (tally_length p), <- (tally_length q). by rewrite Hpq.
  - intros s grp g v Hv. simpl in *. rewrite Hv. split; [done|by eexists].
  - intros s grp g Hv. simpl in *. rewrite Hv. apply insert_view_set.
  - intros grp c s n l g v Hv. simpl in *. rewrite Hv. split; [apply insert_view_set|]. by eapply numbered_entries.
  - intros grp c s n l g Hv. simpl in *. rewrite Hv. split; [done|by eexists].
  - intros s grp p g v Hv. simpl in *. rewrite tally_length, String.eqb_refl. split; simpl.
    + rewrite lookup_alter, decide_True, Hv by done. simpl. unfold acked_view. by rewrite tally_length.
    + intros s' grp' Hne. by rewrite lookup_alter_ne.
  - intros s grp i g Hno s' grp'. simpl. destruct (String.eqb_spec i (tally (String.length i))) as [Hi|]; [|done].
    rewrite lookup_alter. case_decide as Hd; [|done]. injection Hd as <- <-.
    destruct (g !! (s, grp)) as [[d pend]|] eqn:Hv; [|done]. simpl. f_equal. unfold acked_view. simpl. f_equal.
    assert (String.length i ∉ pend); [|set_solver]. intros Hin. by apply (Hno (GView d pend) (String.length i)).
  - intros s grp c idle start n l g Hv. simpl in *. rewrite Hv. by eexists.
  - intros s grp c idle start n l g. simpl. by destruct (g !! (s, grp)).
  - intros s grp c idle start n l g g' v next claimed deleted k Hv Hrun _ Hk%position_start.
    simpl in *. rewrite Hv in Hrun. injection Hrun as <- <- <- <-. rewrite Hk. split.
    + intros e (p & [_ Hp%elem_of_elements]%list_elem_of_filter & (f & Hf & ->)%fmap_Some)%list_elem_of_omap.
      exists p. split; [done|]. by exists f.
    + exists None. split; [done|]. intros p e Hkp _ Hp _ (f & Hf & ->). apply list_elem_of_omap. exists p.
      split; [apply list_elem_of_filter; split; [done|by apply elem_of_elements]|]. apply fmap_Some. by exists f.
Qed.

(** ** A run *)

Definition task_fields : stream_fields := [("task_id", "t")].
Definition bare : server groups_table := Server ∅ [].
Definition stored : server groups_table := Server ∅ [(WORKFLOW_TASKS_STREAM, task_fields)].
Definition ready : server groups_table :=
  Server (script_main (Some "redis://localhost") (Ok tt) (sv_groups stored)).1 (sv_log stored).
Definition read_reply : groups_table * py (list (string * stream_fields)) :=
  xreadgroup WORKFLOW_TASKS_GROUP "host-1" WORKFLOW_TASKS_STREAM 10
    (entries WORKFLOW_TASKS_STREAM (sv_log ready)) (sv_groups ready).
Definition delivered : server groups_table := Server read_reply.1 (sv_log ready).

(** The task was published, the groups were created, and a worker has read
    it. *)
Definition run_trace : list delivery_label :=
  [Quiet; Quiet; Gave WORKFLOW_TASKS_STREAM WORKFLOW_TASKS_GROUP [tally 0]].

Lemma run_serves : serves run_trace delivered.
Proof.
  apply (serves_more [Quiet; Quiet] ready). 
  - apply (serves_more [Quiet] stored).
    + apply (serves_more [] bare); [constructor; intros s grp; apply lookup_empty|].
      apply (sv_publish ∅ [] (WORKFLOW_TASKS_STREAM, task_fields)).
    + apply sv_script.
  - apply (sv_read WORKFLOW_TASKS_STREAM WORKFLOW_TASKS_GROUP "host-1" 10 (sv_groups ready) read_reply.1 read_reply.2).
    + right. right. repeat split. discriminate.
    + apply surjective_pairing.
Qed.

Definition delivered_view : GroupView :=
  default (GView 0 ∅) (view (sv_groups delivered) WORKFLOW_TASKS_STREAM WORKFLOW_TASKS_GROUP).

Lemma delivered_is : view (sv_groups delivered) WORKFLOW_TASKS_STREAM WORKFLOW_TASKS_GROUP = Some delivered_view.
Proof. vm_compute. reflexivity. Qed.

Lemma script_creates_groups_witness :
  is_Some (view (sv_groups ready) WORKFLOW_EVENTS_STREAM _ORCHESTRATOR_EVENTS_GROUP).
Proof.
  pose proof (script_creates_groups (Some "redis://localhost") (Ok tt) (sv_groups stored)) as Hs.
  unfold ready. destruct (script_main (Some "redis://localhost") (Ok tt) (sv_groups stored)) as [g' r] eqn:Hrun.
  destruct Hs as (_ & _ & Hall & _). apply Hall.
  - apply (f_equal snd) in Hrun. simpl in Hrun. rewrite <- Hrun. vm_compute. reflexivity.
  - unfold consumer_groups. set_solver.
Defined.

Lemma delivery_accounted_witness :
  gv_delivered delivered_view = 1 ∧
  (0 ∈ gv_pending delivered_view ∨ tally 0 ∈ acknowledged WORKFLOW_TASKS_STREAM WORKFLOW_TASKS_GROUP run_trace).
Proof.
  split; [vm_compute; reflexivity|].
  apply (proj1 (proj2 (delivery_accounted run_trace delivered WORKFLOW_TASKS_STREAM WORKFLOW_TASKS_GROUP
    delivered_view run_serves delivered_is))).
  apply (proj1 (Nat.ltb_lt 0 _)). vm_compute. reflexivity.
Defined.



