(* ===== verification/Preservation.v ===== *)
(** * What the services need from the repositories

    [Preserved M R] is the interface between the repositories and everything
    above them: the statements that change tables all move them along the
    preorder [R].  The services, the worker, the consumers and any sequence of
    operations then move the tables along [R] too; [M] is the bound on
    attempts the retry policy passes down. *)

From Stdlib Require Import SpecFloat.
From S2P Require Import Prelude Numerals PyVal States Errors Domain Dag Graph Readiness Failure.
From S2P Require Import Cycles Validation Templates Resolver Json Messages Store Repositories.
From S2P Require Import TaskRepositories Services Dispatch Completion Redis Barriers Outbox Worker.
From S2P Require Import Orchestrator.

(** ** Reads *)

Section reads.
Context `{WorkflowSchema} `{Env}.

Lemma get_execution_quiet x : quiet (get_execution_by_id x). Proof. done. Qed.
Lemma get_execution_for_update_quiet x : quiet (get_execution_by_id_for_update x). Proof. done. Qed.
Lemma get_workflow_quiet i : quiet (get_workflow_by_id i). Proof. done. Qed.
Lemma get_nodes_quiet x : quiet (get_node_executions_for_execution x). Proof. done. Qed.
Lemma get_due_retries_quiet t : quiet (get_due_retries t). Proof. done. Qed.

Lemma task_get_result_quiet t : quiet (task_get_result t).
Proof.
  apply quiet_bind; [done|intros d]. destruct (task_processing d !! t) as [r|]; [|done].
  by destruct (tp_completion_event_id r).
Qed.
Lemma attempt_get_result_quiet a : quiet (attempt_get_result a).
Proof.
  apply quiet_bind; [done|intros d]. destruct (task_attempts d !! a) as [r|]; [|done].
  by destruct (at_completion_event_id r).
Qed.
End reads.

#[export] Hint Resolve get_execution_quiet get_execution_for_update_quiet get_workflow_quiet
  get_nodes_quiet get_due_retries_quiet task_get_result_quiet attempt_get_result_quiet : keeps.

Lemma pending_running : workflow_moves WPending WRunning.
Proof. apply workflow_step_moves. unfold workflow_step; simpl; set_solver. Qed.
Lemma running_failed : workflow_moves WRunning WFailed.
Proof. apply workflow_step_moves. unfold workflow_step; simpl; set_solver. Qed.
Lemma running_completed : workflow_moves WRunning WCompleted.
Proof. apply workflow_step_moves. unfold workflow_step; simpl; set_solver. Qed.
Lemma node_running_completed : node_moves NRunning NCompleted.
Proof. apply node_step_moves. unfold node_step; simpl; set_solver. Qed.
Lemma node_running_failed : node_moves NRunning NFailed.
Proof. apply node_step_moves. unfold node_step; simpl; set_solver. Qed.

#[export] Hint Resolve pending_running running_failed running_completed
  node_running_completed node_running_failed : keeps.

(** The publisher's session: a property of the session's view that marking a
    selected row keeps, and that relates the view to the tables. *)
Lemma publish_rows_from `{Env} `{Json} (R : Db → Db → Prop) `{!PreOrder R} (ok : Db → Prop) d rows pending p :
  (∀ d', ok d' → R d d') →
  (∀ d' row row', row ∈ rows → (∃ t, row' = row_published t row) ∨ (∃ m, row' = row_failed m row) →
     ok d' → ok (set_outbox_row (ob_event_id row) row' d')) →
  ok pending → from d R (publish_rows rows pending p).
Proof.
  intros HR Hmark. revert pending p Hmark. induction rows as [|row rows IH]; intros pending p Hmark Hok;
    cbn [publish_rows].
  - walk. by apply HR.
  - intros w Hwd. set (m := fields ← lift (_stream_fields row); publish (target_of row) fields).
    assert (Hq : w_db (m w).1 = d).
    { rewrite <- Hwd. unfold m. apply quiet_bind; [done|intros f; apply quiet_publish]. }
    destruct (m w) as [w' [[]|e]]; simpl in Hq.
    + apply (IH (set_outbox_row (ob_event_id row) _ pending) (p + 1)%Z); [set_solver| |done].
      apply Hmark; [set_solver|by left; eexists|done].
    + destruct e; simpl; rewrite ?Hq; try reflexivity.
      apply HR, Hmark; [set_solver|by right; eexists|done].
Qed.

(** ** The interface *)

(** The part the worker uses. *)
Class WorkerPreserved `{Env} (R : Db → Db → Prop) : Prop := {
  wp_preorder :: PreOrder R;
  wp_claim_attempt a t x n wk t1 t2 : keeps R (claim_attempt a t x n wk t1 t2);
  wp_record_result a e v m t : keeps R (attempt_record_result a e v m t);
  wp_mark_completed a t : keeps R (attempt_mark_completed a t);
  wp_renew a wk t : keeps R (attempt_renew_claim a wk t);
}.

(** The part the services and the cleanup use.  Trigger events are stored by
    triggering only. *)
Class ServicesPreserved `{WorkflowSchema} `{Env} (M : Z) (R : Db → Db → Prop) : Prop := {
  pr_preorder :: PreOrder R;
  pr_submission w e : keeps R (persist_submission w e);
  pr_execution x s s' t1 t2 i :
    workflow_moves s s' → keeps R (execution_update_status_if_current x s s' t1 t2 i);
  pr_node x i s s' o m ty t1 t2 :
    node_moves s s' → keeps R (node_update_status_if_current x i s s' o m ty t1 t2);
  pr_claim_nodes x ids : keeps R (claim_pending_nodes x ids);
  pr_fail_nodes x ids r t : keeps R (fail_pending_nodes x ids r t);
  pr_trigger x i : keeps R (trigger_body x i);
  pr_message i ty ta p a :
    ty ≠ _EXECUTION_TRIGGERED_EVENT_TYPE → keeps R (add_message i ty ta p a);
  pr_register t x n h c r a s : keeps R (register_initial_task t x n h c r a s);
  pr_success t a e c : keeps R (record_success t a e c);
  pr_failure t a e m ty f r : keeps R (record_failure t a e m ty f M r);
  pr_retry_published a t : keeps R (mark_retry_published a t);
  pr_cleanup r b : keeps R (cleanup_published r b);
}.

(** All of it. *)
Class Preserved `{WorkflowSchema} `{Env} `{Json} (M : Z) (R : Db → Db → Prop) : Prop := {
  pr_worker :: WorkerPreserved R;
  pr_services :: ServicesPreserved M R;
  pr_publish : keeps R publish_pending;
}.

(** Triggering, for a relation that every message preserves. *)
Lemma trigger_body_composed `{Env} (R : Db → Db → Prop) `{!PreOrder R} x i :
  (∀ s s' t1 t2 j, workflow_moves s s' → keeps R (execution_update_status_if_current x s s' t1 t2 j)) →
  (∀ m ty s p a, keeps R (add_message m ty s p a)) → keeps R (trigger_body x i).
Proof. intros Hu Hm. unfold trigger_body. compose. Qed.

Lemma node_type_other s : "workflow.node." +:+ completion_status_value s ≠ _EXECUTION_TRIGGERED_EVENT_TYPE.
Proof. discriminate. Qed.
Lemma status_type_other s : "workflow.execution." +:+ workflow_status_value s ≠ _EXECUTION_TRIGGERED_EVENT_TYPE.
Proof. destruct s; discriminate. Qed.
#[export] Hint Resolve node_type_other status_type_other : keeps.
#[export] Hint Extern 1 (_ ≠ _EXECUTION_TRIGGERED_EVENT_TYPE) => discriminate : keeps.

(** ** The worker *)

Section handlers.
Context `{Env} `{Json} `{Pydantic} `{Host}.

Lemma participate_quiet n p t : quiet (participate_in_barrier n p t).
Proof. intros w. apply participate_frame. Qed.
Lemma execute_quiet t : quiet (execute t).
Proof.
  apply quiet_bind; [done|]. intros []; simpl; eauto with keeps.
  unfold barrier_execute. destruct (negb _); [done|].
  apply quiet_bind; [done|]. intros b. apply quiet_bind; [done|]. intros o.
  apply quiet_bind; [by destruct o|]. intros _. apply quiet_bind; [done|]. intros s.
  apply quiet_bind; [apply participate_quiet|done].
Qed.

Lemma handler_event_quiet t : quiet (handler_event t).
Proof.
  unfold handler_event, _failure_event. apply quiet_bind.
  - intros w. pose proof (execute_quiet t w) as Hx. unfold try_io. by destruct (execute t w).
  - intros []; [destruct (negb _)|]; eauto with keeps.
Qed.

Lemma wait_quiet e : quiet (_wait_for_integration_barrier e).
Proof.
  unfold _wait_for_integration_barrier. destruct (negb _); [done|]. destruct (_ || _); [done|].
  apply quiet_bind; [done|]. intros t. apply participate_quiet.
Qed.
End handlers.

#[export] Hint Resolve handler_event_quiet wait_quiet : keeps.

Section worker.
Context `{Env} `{Json} `{Pydantic} `{Host}.
Context (R : Db → Db → Prop) `{!WorkerPreserved R}.
#[local] Hint Resolve wp_claim_attempt wp_record_result wp_mark_completed wp_renew : keeps.

Lemma renew_kept wk l t : keeps R (renew_claim_once wk l t).
Proof. unfold renew_claim_once. compose. Qed.

Lemma repeat_kept k (m : IO unit) : keeps R m → keeps R (repeat_io k m).
Proof. intros Hm. induction k; simpl; compose. Qed.

#[local] Hint Resolve renew_kept repeat_kept : keeps.

Lemma execute_and_record_kept wk l k t : keeps R (_execute_and_record wk l k t).
Proof. unfold _execute_and_record, _record_result. compose. Qed.
#[local] Hint Resolve execute_and_record_kept : keeps.

Lemma process_task_kept wk l k s i t : keeps R (process_task wk l k s i t).
Proof.
  assert (Hack : ∀ e, keeps R (_publish_complete_and_ack s i e)).
  { intros e. assert (keeps R (completed_at ← now; attempt_mark_completed (ev_attempt_id e) completed_at))
      by compose. unfold _publish_complete_and_ack. compose. }
  assert (Hrep : keeps R (_replay_result t)) by (unfold _replay_result; compose).
  assert (Hcl : keeps R (_claim_task wk l t)) by (unfold _claim_task; compose).
  unfold process_task. compose.
Qed.
#[local] Hint Resolve process_task_kept : keeps.

Lemma process_one_kept wk l k s i f : keeps R (_process_one wk l k s i f).
Proof.
  assert (Hpub : ∀ e, keeps R (_publish_and_ack s i e)) by (intros e; unfold _publish_and_ack; compose).
  assert (Hm : ∀ e, keeps R (process_malformed s i f e)).
  { intros e. unfold process_malformed, _publish_dead_letter_and_ack. compose. }
  unfold _process_one. compose.
Qed.
End worker.

(** ** The services *)

Section services.
Context `{WorkflowSchema} `{Env} `{Json} `{Pydantic} `{Host}.
Variable policy : RetryPolicy.
Context (R : Db → Db → Prop) `{!ServicesPreserved (rp_max_attempts policy) R}.
Variables (float_str : spec_float → string) (repr : string → string).
Variable pow : spec_float → Z → py spec_float.
#[local] Hint Resolve pr_submission pr_execution pr_node pr_claim_nodes pr_fail_nodes pr_trigger
  pr_message pr_register pr_success pr_failure pr_retry_published pr_cleanup : keeps.

Lemma trigger_kept x i : keeps R (trigger x i).
Proof. unfold trigger. compose. Qed.

Lemma readiness_in_transaction_quiet x e : quiet (readiness_in_transaction x e).
Proof.
  unfold readiness_in_transaction. apply quiet_bind; [destruct e; done|intros [e'|]; [|done]].
  apply quiet_bind; [done|intros [w|]; [|done]]. done.
Qed.

Lemma readiness_quiet x : quiet (readiness_evaluate x).
Proof.
  apply quiet_transaction, quiet_bind; [done|intros [e|]; [|done]].
  apply readiness_in_transaction_quiet.
Qed.

Lemma finalize_kept x c s : workflow_moves WRunning s → keeps R (finalize x c s).
Proof. intros Hs. unfold finalize, _workflow_event_id. compose. Qed.
#[local] Hint Resolve trigger_kept readiness_in_transaction_quiet readiness_quiet finalize_kept : keeps.

Lemma finalization_in_transaction_kept x e c :
  keeps R (finalization_in_transaction x e c).
Proof. unfold finalization_in_transaction. compose. Qed.
#[local] Hint Resolve finalization_in_transaction_kept : keeps.

Lemma finalization_kept x : keeps R (finalization_evaluate x).
Proof. apply keeps_transaction; [typeclasses eauto|]. compose. Qed.

Lemma dispatch_kept e n : keeps R (dispatch float_str repr e n).
Proof.
  assert (keeps R (dispatch_body float_str repr e n))
    by (unfold dispatch_body, store_task; compose).
  unfold dispatch. compose.
Qed.

Lemma gather_kept {A} (l : list (IO A)) : Forall (keeps R) l → keeps R (gather l).
Proof.
  induction 1 as [|m l Hm _ IH]; simpl; [apply keeps_ret; typeclasses eauto|].
  intros w. specialize (Hm w). destruct (m w) as [w1 r]. specialize (IH w1).
  destruct (gather l w1) as [w2 rs]. simpl in *. by etrans.
Qed.

Lemma dispatch_many_kept e ns : keeps R (dispatch_many float_str repr e ns).
Proof.
  apply gather_kept, Forall_fmap, Forall_forall. intros n _. apply dispatch_kept.
Qed.

Lemma load_ready_nodes_quiet x ids : quiet (load_ready_nodes x ids).
Proof.
  apply quiet_bind; [done|intros [e|]; [|done]]. apply quiet_bind; [done|intros [w|]; done].
Qed.
#[local] Hint Resolve dispatch_kept dispatch_many_kept load_ready_nodes_quiet : keeps.

Lemma dispatch_ready_kept x ids : keeps R (dispatch_ready float_str repr x ids).
Proof. unfold dispatch_ready. compose. Qed.

Lemma publish_retries_kept t due p : keeps R (publish_retries t due p).
Proof. revert p. induction due as [|r due IH]; intros p; simpl; compose. Qed.
#[local] Hint Resolve publish_retries_kept dispatch_ready_kept : keeps.

Lemma publish_due_retries_kept t : keeps R (publish_due_retries t).
Proof. unfold publish_due_retries. compose. Qed.

Lemma propagate_failure_kept e x ns : keeps R (propagate_failure e x ns).
Proof.
  unfold propagate_failure. compose.
Qed.
#[local] Hint Resolve propagate_failure_kept : keeps.

Lemma record_attempt_kept e n : keeps R (record_attempt pow policy e n).
Proof. unfold record_attempt. compose. Qed.

Lemma apply_completion_kept e x ns n : keeps R (apply_completion e x ns n).
Proof. unfold apply_completion. destruct (bool_decide (ev_status e = TCompleted)); compose. Qed.
#[local] Hint Resolve record_attempt_kept apply_completion_kept : keeps.

Lemma process_kept e : keeps R (process pow policy e).
Proof.
  assert (keeps R (process_body pow policy e)) by (unfold process_body; compose).
  unfold process. compose.
Qed.

Lemma submit_kept rules p : keeps R (submit rules p).
Proof. unfold submit, accept, new_execution. compose. Qed.

#[local] Hint Resolve finalization_kept publish_due_retries_kept process_kept submit_kept : keeps.

Lemma handle_trigger_kept s i f : keeps R (handle_trigger float_str repr s i f).
Proof. unfold handle_trigger. compose. Qed.

Lemma handle_completion_kept s i f :
  keeps R (handle_completion float_str repr pow policy s i f).
Proof. unfold handle_completion. compose. Qed.
End services.

(** ** Arbitrary interleavings *)

(** What a process of the system can do next: an API request, a turn of the
    outbox publisher or of its cleanup, a message handled by the orchestrator
    or by a worker, or the publication of due retries. *)
Inductive operation : Type :=
| OpSubmit (definition : pydict)
| OpTrigger (execution_id : UUID) (input_data : option pydict)
| OpPublishOutbox
| OpCleanupOutbox (retention batch_size : Z)
| OpTriggerEvent (stream message_id : string) (fields : stream_fields)
| OpCompletionEvent (stream message_id : string) (fields : stream_fields)
| OpPublishRetries (at_time : option datetime)
| OpWorkerMessage (worker_id : string) (lease : spec_float) (renewals : nat)
    (stream message_id : string) (fields : stream_fields)
| OpFinalize (execution_id : UUID).

Section system.
Context `{WorkflowSchema} `{Env} `{Json} `{Pydantic} `{Host}.
Variables (float_str : spec_float → string) (repr : string → string).
Variable pow : spec_float → Z → py spec_float.
Variable policy : RetryPolicy.
Variable rules : list rule.

Definition run_operation (op : operation) : IO unit :=
  match op with
  | OpSubmit d => submit rules d ≫= λ _, mret tt
  | OpTrigger x i => trigger x i ≫= λ _, mret tt
  | OpPublishOutbox => publish_pending ≫= λ _, mret tt
  | OpCleanupOutbox r b => cleanup_published r b ≫= λ _, mret tt
  | OpTriggerEvent s i f => handle_trigger float_str repr s i f
  | OpCompletionEvent s i f => handle_completion float_str repr pow policy s i f
  | OpPublishRetries t => publish_due_retries t ≫= λ _, mret tt
  | OpWorkerMessage wk l k s i f => _process_one wk l k s i f
  | OpFinalize x => finalization_evaluate x ≫= λ _, mret tt
  end.

(** An exception ends the operation that raised it; the others go on. *)
Definition run_operations (ops : list operation) (w : World) : World :=
  foldl (λ w op, (run_operation op w).1) w ops.

Context (R : Db → Db → Prop) `{!Preserved (rp_max_attempts policy) R}.

Lemma run_operation_kept op : keeps R (run_operation op).
Proof.
  destruct op; simpl; first [apply keeps_bind; [typeclasses eauto| |intros ?; apply keeps_ret; typeclasses eauto]|idtac].
  - apply (submit_kept policy _).
  - apply (trigger_kept policy _).
  - apply pr_publish.
  - apply pr_cleanup.
  - apply (handle_trigger_kept policy _).
  - by apply handle_completion_kept; typeclasses eauto.
  - apply (publish_due_retries_kept policy _).
  - by apply process_one_kept; typeclasses eauto.
  - apply (finalization_kept policy _).
Qed.

(** Any sequence of operations moves the tables along a preserved preorder. *)
Lemma run_operations_kept ops w : R (w_db w) (w_db (run_operations ops w)).
Proof.
  revert w. induction ops as [|op ops IH]; intros w; simpl; [reflexivity|].
  etrans; [apply run_operation_kept|apply IH].
Qed.
End system.
