(* ===== verification/Streams.v ===== *)
(** * Who writes to the streams

    [speaks P m]: whatever [m] returns or raises, the streams only gain
    messages that satisfy [P].  The services write to no stream; the worker
    reports completions and dead letters; only the outbox publisher writes to
    the event stream. *)

From Stdlib Require Import SpecFloat.
From S2P Require Import Prelude Numerals PyVal States Errors Domain Dag Graph Readiness Failure.
From S2P Require Import Cycles Validation Templates Resolver Json Messages Store Repositories.
From S2P Require Import TaskRepositories Services Dispatch Completion Redis Barriers Outbox Worker.
From S2P Require Import Orchestrator.

Definition speaks {A} (P : string * stream_fields → Prop) (m : IO A) : Prop :=
  ∀ w, ∃ msgs, w_streams (m w).1 = w_streams w ++ msgs ∧ Forall P msgs.

Section rules.
Context (P : string * stream_fields → Prop).

Lemma speaks_none {A} (m : IO A) : (∀ w, w_streams (m w).1 = w_streams w) → speaks P m.
Proof. intros H w. exists []. by rewrite H, app_nil_r. Qed.

Lemma speaks_ret {A} (a : A) : speaks P (mret a). Proof. by apply speaks_none. Qed.
Lemma speaks_raise {A} e : speaks P (raise e : IO A). Proof. by apply speaks_none. Qed.
Lemma speaks_lift {A} (m : py A) : speaks P (lift m). Proof. by apply speaks_none. Qed.
Lemma speaks_get : speaks P get_db. Proof. by apply speaks_none. Qed.
Lemma speaks_put d : speaks P (put_db d). Proof. by apply speaks_none. Qed.
Lemma speaks_now `{Env} : speaks P now. Proof. by apply speaks_none. Qed.
Lemma speaks_uuid4 `{Env} : speaks P uuid4. Proof. by apply speaks_none. Qed.
Lemma speaks_guard b e : speaks P (guard_io b e). Proof. apply speaks_none. by destruct b. Qed.
Lemma speaks_varchar n s : speaks P (varchar n s). Proof. apply speaks_guard. Qed.
Lemma speaks_varchar_opt n s : speaks P (varchar_opt n s).
Proof. destruct s; [apply speaks_varchar|apply speaks_ret]. Qed.
Lemma speaks_foreign_key b : speaks P (foreign_key b). Proof. apply speaks_guard. Qed.
Lemma speaks_unique_key b : speaks P (unique_key b). Proof. apply speaks_guard. Qed.
Lemma speaks_ack `{Env} s g i : speaks P (ack s g i).
Proof. apply speaks_none. intros w. unfold ack. by destruct (redis_failure _). Qed.

Lemma speaks_publish `{Env} s f : P (s, f) → speaks P (publish s f).
Proof.
  intros Hp w. unfold publish. destruct (redis_failure _); simpl.
  - exists []. by rewrite app_nil_r.
  - exists [(s, f)]. split; [done|]. by constructor.
Qed.

Lemma speaks_bind {A B} (m : IO A) (f : A → IO B) :
  speaks P m → (∀ a, speaks P (f a)) → speaks P (m ≫= f).
Proof.
  intros Hm Hf w. unfold mbind, io_bind. destruct (Hm w) as (l & Hl & HP).
  destruct (m w) as [w1 [a|e]]; simpl in *; [|by exists l].
  destruct (Hf a w1) as (l' & Hl' & HP'). exists (l ++ l').
  rewrite Hl', Hl, app_assoc. split; [done|]. by apply Forall_app.
Qed.

Lemma speaks_transaction {A} (m : IO A) : speaks P m → speaks P (transaction m).
Proof. intros Hm w. specialize (Hm w). unfold transaction. by destruct (m w) as [w1 []]. Qed.
Lemma speaks_try {A} (m : IO A) : speaks P m → speaks P (try_io m).
Proof. intros Hm w. specialize (Hm w). unfold try_io. by destruct (m w). Qed.

Lemma speaks_iter {A} (f : A → IO unit) l : (∀ x, speaks P (f x)) → speaks P (iter_io f l).
Proof. intros Hf. induction l; simpl; [apply speaks_ret|]. by apply speaks_bind. Qed.
Lemma speaks_repeat k m : speaks P m → speaks P (repeat_io k m).
Proof. intros Hm. induction k; simpl; [apply speaks_ret|]. by apply speaks_bind. Qed.

Lemma speaks_gather {A} (l : list (IO A)) : Forall (speaks P) l → speaks P (gather l).
Proof.
  induction 1 as [|m l Hm _ IH]; simpl; [apply speaks_ret|]. intros w.
  destruct (Hm w) as (l1 & H1 & P1). destruct (m w) as [w1 r].
  destruct (IH w1) as (l2 & H2 & P2). destruct (gather l w1) as [w2 rs]. simpl in *.
  exists (l1 ++ l2). rewrite H2, H1, app_assoc. split; [done|]. by apply Forall_app.
Qed.
End rules.

Create HintDb speaks.
#[export] Hint Resolve speaks_ret speaks_raise speaks_lift speaks_get speaks_put speaks_now speaks_uuid4
  speaks_guard speaks_varchar speaks_varchar_opt speaks_foreign_key speaks_unique_key speaks_ack : speaks.

(** Walk through an operation. *)
Ltac speak_step :=
  lazymatch goal with
  | |- speaks _ (_ ≫= _) => apply speaks_bind; [|intros ?]
  | |- speaks _ (match ?x with _ => _ end) => destruct x
  | |- speaks _ (transaction _) => apply speaks_transaction
  | |- speaks _ (try_io _) => apply speaks_try
  | |- speaks _ (iter_io _ _) => apply speaks_iter; intros ?
  | |- speaks _ (repeat_io _ _) => apply speaks_repeat
  | |- speaks _ _ => solve [eauto with speaks]
  end; cbv beta.
Ltac speak := repeat speak_step.

(** ** The services *)

Section services.
Context `{WorkflowSchema} `{Env} `{Json} `{Pydantic} `{Host}.
Context (P : string * stream_fields → Prop).
Variables (float_str : spec_float → string) (repr : string → string).
Variable pow : spec_float → Z → py spec_float.
Variable policy : RetryPolicy.

Lemma add_message_speaks i ty s p a : speaks P (add_message i ty s p a).
Proof. unfold add_message. speak. Qed.
Lemma execution_update_speaks x s s' t1 t2 i :
  speaks P (execution_update_status_if_current x s s' t1 t2 i).
Proof. unfold execution_update_status_if_current. speak. Qed.
Lemma get_execution_speaks x : speaks P (get_execution_by_id x). Proof. by apply speaks_none. Qed.
Lemma get_execution_for_update_speaks x : speaks P (get_execution_by_id_for_update x).
Proof. by apply speaks_none. Qed.
Lemma get_workflow_speaks i : speaks P (get_workflow_by_id i). Proof. by apply speaks_none. Qed.
Lemma get_nodes_speaks x : speaks P (get_node_executions_for_execution x). Proof. by apply speaks_none. Qed.
Lemma fail_nodes_speaks x l r t : speaks P (fail_pending_nodes x l r t).
Proof. unfold fail_pending_nodes. speak. Qed.
#[local] Hint Resolve add_message_speaks execution_update_speaks get_execution_speaks
  get_execution_for_update_speaks get_workflow_speaks get_nodes_speaks fail_nodes_speaks : speaks.

Lemma submit_speaks rules p : speaks P (submit rules p).
Proof.
  unfold submit, accept, new_execution, persist_submission, create_workflow, create_execution,
    new_node_execution, upsert_node_execution. speak.
Qed.

Lemma trigger_speaks x i : speaks P (trigger x i).
Proof. unfold trigger, trigger_body. speak. Qed.

Lemma readiness_in_transaction_speaks x e : speaks P (readiness_in_transaction x e).
Proof. unfold readiness_in_transaction. speak. Qed.

Lemma finalization_speaks x e c : speaks P (finalization_in_transaction x e c).
Proof. unfold finalization_in_transaction, finalize, _workflow_event_id. speak. Qed.
#[local] Hint Resolve readiness_in_transaction_speaks finalization_speaks : speaks.

Lemma readiness_speaks x : speaks P (readiness_evaluate x).
Proof. unfold readiness_evaluate. speak. Qed.

Lemma dispatch_speaks e n : speaks P (dispatch float_str repr e n).
Proof.
  unfold dispatch, dispatch_body, store_task, claim_pending_nodes, register_initial_task,
    insert_logical_task, insert_attempt, set_attempt_row, set_logical_row, add_task. speak.
Qed.

Lemma load_ready_speaks x ids : speaks P (load_ready_nodes x ids).
Proof. unfold load_ready_nodes. speak. Qed.

Lemma process_speaks e : speaks P (process pow policy e).
Proof.
  unfold process, process_body, record_attempt, record_success, record_failure, insert_attempt,
    insert_dispatch, set_attempt_row, set_logical_row, apply_completion, node_update_status_if_current,
    propagate_failure. speak.
Qed.

Lemma cleanup_speaks r b : speaks P (cleanup_published r b).
Proof. unfold cleanup_published. speak. Qed.
End services.

(** A message of another stream than the events'. *)
Definition not_event (m : string * stream_fields) : Prop := m.1 ≠ WORKFLOW_EVENTS_STREAM.
