(* ===== verification/Evolution.v ===== *)
(** * How the tables evolve

    Every operation of the program, in any order, moves workflow and node
    executions along the transition tables of the state machine, never removes
    a row, never changes a definition, and keeps the tables' keys and
    references consistent. *)

From Stdlib Require Import SpecFloat.
From S2P Require Import Prelude Numerals PyVal States Errors Domain Dag Graph Readiness Failure.
From S2P Require Import Cycles Validation Templates Resolver Json Messages Store Repositories.
From S2P Require Import TaskRepositories Services Dispatch Completion Redis Barriers Outbox Worker.
From S2P Require Import Orchestrator Preservation.

(** Rows are stored under their keys and refer to rows that exist. *)
Record db_inv (d : Db) : Prop := {
  inv_exec_key x e : workflow_executions d !! x = Some e → we_execution_id e = x;
  inv_exec_workflow x e : workflow_executions d !! x = Some e → is_Some (workflows d !! we_workflow_id e);
  inv_node_key k n : node_executions d !! k = Some n → ne_workflow_execution_id n = k.1 ∧ ne_node_id n = k.2;
  inv_node_exec k n : node_executions d !! k = Some n → is_Some (workflow_executions d !! k.1);
}.

(** Rows only move along the transition tables. *)
Record db_moves (d d' : Db) : Prop := {
  mv_workflow i r : workflows d !! i = Some r → workflows d' !! i = Some r;
  mv_exec x e : workflow_executions d !! x = Some e →
    ∃ e', workflow_executions d' !! x = Some e' ∧ workflow_moves (we_status e) (we_status e') ∧
          we_workflow_id e' = we_workflow_id e;
  mv_node k n : node_executions d !! k = Some n →
    ∃ n', node_executions d' !! k = Some n' ∧ node_moves (ne_status n) (ne_status n');
}.

#[export] Instance db_moves_preorder : PreOrder db_moves.
Proof.
  split.
  - intros d. split; [done| |]; intros k v Hv; exists v; repeat split; (done || apply rtc_refl).
  - intros d1 d2 d3 [W1 E1 N1] [W2 E2 N2]. split.
    + eauto.
    + intros x e (e2 & H2 & M2 & I2)%E1. destruct (E2 x e2 H2) as (e3 & H3 & M3 & I3).
      exists e3. split; [done|]. split; [unfold workflow_moves, node_moves in *; by etrans|congruence].
    + intros k n (n2 & H2 & M2)%N1. destruct (N2 k n2 H2) as (n3 & H3 & M3).
      exists n3. split; [done|]. unfold workflow_moves, node_moves in *; by etrans.
Qed.

Definition evolves (d d' : Db) : Prop := db_inv d → db_inv d' ∧ db_moves d d'.

#[export] Instance evolves_preorder : PreOrder evolves.
Proof.
  split.
  - intros d Hd. split; [done|reflexivity].
  - intros d1 d2 d3 H12 H23 H1. destruct (H12 H1) as [H2 M12]. destruct (H23 H2) as [H3 M23].
    split; [done|by etrans].
Qed.

(** Operations that leave the three core tables alone. *)
Lemma evolves_same d d' :
  workflows d' = workflows d → workflow_executions d' = workflow_executions d →
  node_executions d' = node_executions d → evolves d d'.
Proof.
  intros Hw He Hn [I1 I2 I3 I4]. split.
  - split; rewrite ?Hw, ?He, ?Hn; eauto.
  - split; rewrite ?Hw, ?He, ?Hn; [done| |]; intros k v Hv; exists v; repeat split;
      (done || apply rtc_refl).
Qed.

Ltac same := apply keeps_from; intros ?; walk; apply evolves_same; reflexivity.

(** ** Operations on the other tables *)

Section task_operations.
Context `{Env}.

Lemma claim_attempt_evolves a t x n wk t1 t2 : keeps evolves (claim_attempt a t x n wk t1 t2).
Proof. unfold claim_attempt, set_attempt_row. same. Qed.
Lemma attempt_record_result_evolves a e v m t : keeps evolves (attempt_record_result a e v m t).
Proof. unfold attempt_record_result, set_attempt_row. same. Qed.
Lemma attempt_mark_completed_evolves a t : keeps evolves (attempt_mark_completed a t).
Proof. unfold attempt_mark_completed, set_attempt_row. same. Qed.
Lemma attempt_renew_claim_evolves a wk t : keeps evolves (attempt_renew_claim a wk t).
Proof. unfold attempt_renew_claim, set_attempt_row. same. Qed.
Lemma claim_task_evolves t x n wk t1 t2 : keeps evolves (claim_task t x n wk t1 t2).
Proof. unfold claim_task, set_processing_row. same. Qed.
Lemma task_record_result_evolves a e v m t : keeps evolves (task_record_result a e v m t).
Proof. unfold task_record_result, set_processing_row. same. Qed.
Lemma task_mark_completed_evolves a t : keeps evolves (task_mark_completed a t).
Proof. unfold task_mark_completed, set_processing_row. same. Qed.
Lemma task_renew_claim_evolves a wk t : keeps evolves (task_renew_claim a wk t).
Proof. unfold task_renew_claim, set_processing_row. same. Qed.
Lemma record_success_evolves t a e c : keeps evolves (record_success t a e c).
Proof. unfold record_success, set_attempt_row, set_logical_row. same. Qed.
Lemma record_failure_evolves t a e m ty f mx r : keeps evolves (record_failure t a e m ty f mx r).
Proof. unfold record_failure, insert_attempt, insert_dispatch, set_attempt_row, set_logical_row. same. Qed.
Lemma register_initial_task_evolves t x n h c r a s :
  keeps evolves (register_initial_task t x n h c r a s).
Proof.
  unfold register_initial_task, insert_logical_task, insert_attempt, set_attempt_row, set_logical_row.
  same.
Qed.
Lemma mark_retry_published_evolves a t : keeps evolves (mark_retry_published a t).
Proof. unfold mark_retry_published, set_attempt_row. same. Qed.
Lemma add_message_evolves i ty ta p a : keeps evolves (add_message i ty ta p a).
Proof. unfold add_message. same. Qed.
Lemma add_task_evolves i p a : keeps evolves (add_task i p a).
Proof. apply add_message_evolves. Qed.
End task_operations.

#[export] Hint Resolve claim_attempt_evolves attempt_record_result_evolves
  attempt_mark_completed_evolves attempt_renew_claim_evolves claim_task_evolves
  task_record_result_evolves task_mark_completed_evolves task_renew_claim_evolves
  record_success_evolves record_failure_evolves register_initial_task_evolves
  mark_retry_published_evolves add_message_evolves add_task_evolves : keeps.

(** ** The core tables *)

Lemma evolves_execution d x e e' :
  workflow_executions d !! x = Some e → workflow_moves (we_status e) (we_status e') →
  we_execution_id e' = we_execution_id e → we_workflow_id e' = we_workflow_id e →
  evolves d (set_executions (<[x := e']> (workflow_executions d)) d).
Proof.
  intros He Hm Hid Hwf [I1 I2 I3 I4]. split.
  - split; simpl; try done.
    + intros y f. rewrite lookup_insert. case_decide; [|eauto]. intros [= <-]. subst y.
      rewrite Hid. eauto.
    + intros y f. rewrite lookup_insert. case_decide; [|eauto]. intros [= <-]. rewrite Hwf. eauto.
    + intros k n Hn. rewrite lookup_insert. case_decide; eauto.
  - split; simpl; [done| |].
    + intros y f Hf. rewrite lookup_insert. case_decide; [|exists f; repeat split; [done|apply rtc_refl]].
      subst y. exists e'. repeat split; [congruence|congruence].
    + intros k n Hn. exists n. split; [done|apply rtc_refl].
Qed.

Lemma evolves_nodes d t :
  (∀ k, t !! k = None ↔ node_executions d !! k = None) →
  (∀ k n n', node_executions d !! k = Some n → t !! k = Some n' →
     node_moves (ne_status n) (ne_status n') ∧
     ne_workflow_execution_id n' = ne_workflow_execution_id n ∧ ne_node_id n' = ne_node_id n) →
  evolves d (set_nodes t d).
Proof.
  intros Hdom Hmv [I1 I2 I3 I4].
  assert (Hback : ∀ k n', t !! k = Some n' → ∃ n, node_executions d !! k = Some n).
  { intros k n' Hn'. destruct (node_executions d !! k) as [n|] eqn:E; [eauto|].
    apply Hdom in E. congruence. }
  split.
  - split; simpl; try done.
    + intros k n' Hn'. destruct (Hback k n' Hn') as [n Hn].
      destruct (Hmv k n n' Hn Hn') as (_ & -> & ->). eauto.
    + intros k n' Hn'. destruct (Hback k n' Hn') as [n Hn]. eauto.
  - split; simpl; [done| |].
    + intros x e He. exists e. repeat split; [done|apply rtc_refl].
    + intros k n Hn. destruct (t !! k) as [n'|] eqn:E; [|apply Hdom in E; congruence].
      exists n'. split; [done|]. by eapply Hmv.
Qed.

Section core_operations.
Context `{WorkflowSchema} `{Env}.

Lemma execution_update_evolves x s s' t1 t2 i :
  workflow_moves s s' → keeps evolves (execution_update_status_if_current x s s' t1 t2 i).
Proof.
  intros Hm. unfold execution_update_status_if_current. apply keeps_from. intros d. walk.
  eapply evolves_execution; [done| |done..]. simpl. by rewrite e.
Qed.

Lemma node_update_evolves x i s s' o m ty t1 t2 :
  node_moves s s' → keeps evolves (node_update_status_if_current x i s s' o m ty t1 t2).
Proof.
  intros Hm. unfold node_update_status_if_current. apply keeps_from. intros d. walk.
  apply evolves_nodes.
  - intros k. rewrite lookup_insert. destruct (decide ((x, i) = k)) as [<-|]; [|done].
    split; intros; congruence.
  - intros k n' n'' Hn'. rewrite lookup_insert. destruct (decide ((x, i) = k)) as [<-|].
    + intros [= <-]. simpl. assert (n' = n) as -> by congruence. by rewrite e.
    + intros. simplify_eq. repeat split. apply rtc_refl.
Qed.

(** Bulk updates of pending rows. *)
Lemma update_pending_evolves d x ids s f :
  node_moves NPending s →
  (∀ n, ne_status (f n) = s ∧ ne_workflow_execution_id (f n) = ne_workflow_execution_id n ∧
        ne_node_id (f n) = ne_node_id n) →
  evolves d (set_nodes (update_where (pending_among x ids) f (node_executions d)) d).
Proof.
  intros Hm Hf. apply evolves_nodes.
  - intros k. rewrite lookup_update_where. by destruct (node_executions d !! k).
  - intros k n n' Hn. rewrite lookup_update_where, Hn. simpl. intros [= <-].
    destruct (pending_among x ids k n) eqn:Hp; [|repeat split; apply rtc_refl].
    destruct (Hf n) as (-> & -> & ->). split; [|done].
    unfold pending_among in Hp. rewrite !andb_true_iff, !bool_decide_eq_true in Hp.
    by destruct Hp as [_ ->].
Qed.

Lemma claim_pending_nodes_evolves x ids : keeps evolves (claim_pending_nodes x ids).
Proof.
  unfold claim_pending_nodes. apply keeps_from. intros d. walk.
  apply update_pending_evolves with (s := NRunning); [|done].
  apply node_step_moves. unfold node_step; simpl; set_solver.
Qed.

Lemma fail_pending_nodes_evolves x ids r t : keeps evolves (fail_pending_nodes x ids r t).
Proof.
  unfold fail_pending_nodes. apply keeps_from. intros d. walk.
  apply update_pending_evolves with (s := NFailed); [|done].
  apply node_step_moves. unfold node_step; simpl; set_solver.
Qed.
End core_operations.


(** ** Submission *)

Lemma from_assume {A} d (m : IO A) : (db_inv d → from d evolves m) → from d evolves m.
Proof. intros H w Hw Hd. by apply (H Hd w Hw). Qed.

(** Rows of one execution are added; nothing else changes. *)
Record adds (x : UUID) (d d' : Db) : Prop := {
  ad_workflows : workflows d' = workflows d;
  ad_executions : workflow_executions d' = workflow_executions d;
  ad_others k : k.1 ≠ x → node_executions d' !! k = node_executions d !! k;
  ad_keys : (∀ k n, k.1 = x → node_executions d !! k = Some n →
               ne_workflow_execution_id n = k.1 ∧ ne_node_id n = k.2) →
            ∀ k n, k.1 = x → node_executions d' !! k = Some n →
               ne_workflow_execution_id n = k.1 ∧ ne_node_id n = k.2;
}.

#[export] Instance adds_preorder x : PreOrder (adds x).
Proof.
  split.
  - by intros d.
  - intros d1 d2 d3 [W1 E1 O1 K1] [W2 E2 O2 K2]. split; try congruence.
    + intros k Hk. by rewrite O2, O1.
    + intros H. by apply K2, K1.
Qed.

Lemma adds_insert x i row d :
  ne_workflow_execution_id row = x → ne_node_id row = i →
  adds x d (set_nodes (<[(x, i) := row]> (node_executions d)) d).
Proof.
  intros Hx Hi. split; simpl; try done.
  - intros k Hk. rewrite lookup_insert_ne; [done|]. by intros <-.
  - intros HK k n Hk. rewrite lookup_insert. case_decide; [|by apply HK].
    intros [= <-]. by subst k.
Qed.

Lemma upsert_adds n : keeps (adds (ne_workflow_execution_id n)) (upsert_node_execution n).
Proof.
  unfold upsert_node_execution. apply keeps_from. intros d. walk.
  apply adds_insert; by destruct (node_executions d !! _).
Qed.

Lemma adds_evolves x d d' :
  adds x d d' → (∀ k, k.1 = x → node_executions d !! k = None) →
  is_Some (workflow_executions d !! x) → evolves d d'.
Proof.
  intros [W E O K] Hnone Hx [I1 I2 I3 I4].
  assert (HK : ∀ k n, k.1 = x → node_executions d' !! k = Some n →
    ne_workflow_execution_id n = k.1 ∧ ne_node_id n = k.2).
  { apply K. intros k n Hk Hn. rewrite Hnone in Hn by done. done. }
  split.
  - split; rewrite ?W, ?E; try done.
    + intros k n Hn. destruct (decide (k.1 = x)); [eauto|]. rewrite O in Hn by done. eauto.
    + intros k n Hn. destruct (decide (k.1 = x)) as [->|]; [done|]. rewrite O in Hn by done. eauto.
  - split; rewrite ?W, ?E; [done| |].
    + intros y e He. exists e. repeat split; [done|apply rtc_refl].
    + intros k n Hn. exists n. split; [|apply rtc_refl]. rewrite O; [done|].
      intros Hk. rewrite Hnone in Hn; done.
Qed.

Section submission.
Context `{WorkflowSchema} `{Env}.

Lemma persist_submission_evolves w e : keeps evolves (persist_submission w e).
Proof.
  apply keeps_from. intros d. apply from_assume. intros Hinv.
  unfold persist_submission, create_workflow, create_execution. walk.
  - (* the new definition *)
    intros [I1 I2 I3 I4]. apply has_false in H1. split.
    + split; simpl; try done. intros x e' He. destruct (I2 x e' He) as [r Hr].
      rewrite lookup_insert. case_decide; eauto.
    + split; simpl; try (intros k v Hv; exists v; repeat split; (done || apply rtc_refl)).
      intros i r Hr. rewrite lookup_insert. case_decide; [congruence|done].
  - (* the new execution *)
    intros [I1 I2 I3 I4]. apply has_false in H2. apply has_true in H3. split.
    + split; simpl; try done.
      * intros x e'. rewrite lookup_insert. case_decide; [|eauto]. intros [= <-]. done.
      * intros x e'. rewrite lookup_insert. case_decide; [|eauto]. intros [= <-]. done.
      * intros k n Hn. rewrite lookup_insert. case_decide; eauto.
    + split; simpl; try done.
      * intros x e' He. rewrite lookup_insert. case_decide; [|exists e'; repeat split; [done|apply rtc_refl]].
        simpl in H2. congruence.
      * intros k n Hn. exists n. split; [done|apply rtc_refl].
  - (* its nodes *)
    intros w' Hw'. eapply adds_evolves.
    + rewrite <- Hw'. apply (keeps_iter (adds (we_execution_id e))). intros node.
      apply keeps_from. intros d'. unfold new_node_execution. walk. apply from_keeps.
      match goal with |- keeps _ (upsert_node_execution ?n) => exact (upsert_adds n) end.
    + intros [x i] Hx. simpl in *. subst. apply has_false in H2.
      destruct (node_executions d !! (we_execution_id e, i)) as [n|] eqn:Hn; [|done].
      apply (inv_node_exec _ Hinv) in Hn as [? Hn]. simpl in Hn. congruence.
    + simpl. rewrite lookup_insert, decide_True by done. done.
Qed.
End submission.

Section publisher.
Context `{Env} `{Json}.

Lemma publish_pending_evolves : keeps evolves publish_pending.
Proof.
  apply keeps_from. intros d. apply from_get_bind.
  apply (publish_rows_from _ (λ d', workflows d' = workflows d ∧
    workflow_executions d' = workflow_executions d ∧ node_executions d' = node_executions d)); [|done..].
  intros d' (? & ? & ?). by apply evolves_same.
Qed.

Lemma cleanup_published_evolves r b : keeps evolves (cleanup_published r b).
Proof. unfold cleanup_published. same. Qed.
End publisher.


#[export] Instance evolves_preserved `{WorkflowSchema} `{Env} `{Json} M : Preserved M evolves.
Proof.
  split; [split; eauto with keeps|split|apply publish_pending_evolves];
    eauto using persist_submission_evolves, execution_update_evolves, node_update_evolves,
    claim_pending_nodes_evolves, fail_pending_nodes_evolves, cleanup_published_evolves with keeps.
  intros x i. apply trigger_body_composed; eauto using execution_update_evolves with keeps.
Qed.

Section system.
Context `{WorkflowSchema} `{Env} `{Json} `{Pydantic} `{Host}.
Variables (float_str : spec_float → string) (repr : string → string).
Variable pow : spec_float → Z → py spec_float.
Variable policy : RetryPolicy.
Variable rules : list rule.

Abbreviation run_operations := (run_operations float_str repr pow policy rules).

Lemma run_operations_evolves ops w : evolves (w_db w) (w_db (run_operations ops w)).
Proof. apply run_operations_kept, evolves_preserved. Qed.

(** C7: whatever operations the processes perform, in whatever order and
    whichever of them raise, the rows of the tables stay consistent, no
    definition changes, and every workflow and node execution moves along
    the transition tables of the state machine. *)
Theorem operations_follow_state_machine ops w :
  db_inv (w_db w) →
  db_inv (w_db (run_operations ops w)) ∧ db_moves (w_db w) (w_db (run_operations ops w)).
Proof. apply run_operations_evolves. Qed.

(** Completed and failed are final: a node or a workflow execution that
    has reached one of them keeps it through any further operations. *)
Theorem terminal_states_are_final ops w :
  db_inv (w_db w) →
  (∀ k n, node_executions (w_db w) !! k = Some n → node_terminal (ne_status n) = true →
     ∃ n', node_executions (w_db (run_operations ops w)) !! k = Some n' ∧ ne_status n' = ne_status n) ∧
  (∀ x e, workflow_executions (w_db w) !! x = Some e → workflow_terminal (we_status e) = true →
     ∃ e', workflow_executions (w_db (run_operations ops w)) !! x = Some e' ∧ we_status e' = we_status e).
Proof.
  intros Hinv. destruct (run_operations_evolves ops w Hinv) as [_ [_ He Hn]]. split.
  - intros k n (n' & Hn' & Hm)%Hn Ht. exists n'. split; [done|]. by apply node_terminal_moves.
  - intros x e (e' & He' & Hm & _)%He Ht. exists e'. split; [done|]. by apply workflow_terminal_moves.
Qed.
End system.
