(* ===== verification/Retries.v ===== *)
(** * Retries are bounded

    Whatever the processes do, a logical task has at most as many attempts as
    the retry policy allows: attempt numbers are unique within a task, start at
    one, never pass the maximum, and every retry follows an attempt whose
    failure was recorded. *)

From Stdlib Require Import SpecFloat.
From S2P Require Import Prelude Numerals PyVal States Errors Domain Dag Graph Readiness Failure.
From S2P Require Import Cycles Validation Templates Resolver Json Messages Store Repositories.
From S2P Require Import TaskRepositories Services Dispatch Completion Redis Barriers Outbox Worker.
From S2P Require Import Orchestrator Preservation.

Record attempts_ok (M : Z) (d : Db) : Prop := {
  ao_key k a : task_attempts d !! k = Some a → at_attempt_id a = k;
  ao_task k a : task_attempts d !! k = Some a → is_Some (logical_tasks d !! at_task_id a);
  ao_range k a : task_attempts d !! k = Some a → (1 ≤ at_attempt_number a ≤ M)%Z;
  ao_unique k1 k2 a1 a2 :
    task_attempts d !! k1 = Some a1 → task_attempts d !! k2 = Some a2 →
    at_task_id a1 = at_task_id a2 → at_attempt_number a1 = at_attempt_number a2 → k1 = k2;
  ao_previous k a : task_attempts d !! k = Some a → at_attempt_number a ≠ 1%Z →
    ∃ k' b, task_attempts d !! k' = Some b ∧ at_task_id b = at_task_id a ∧
            at_attempt_number b = (at_attempt_number a - 1)%Z ∧ is_Some (at_failure_event_id b);
}.

(** An attempt keeps its identity, and a recorded failure stays recorded. *)
Definition same_attempt (a a' : TaskAttemptRecord) : Prop :=
  at_attempt_id a' = at_attempt_id a ∧ at_task_id a' = at_task_id a ∧
  at_attempt_number a' = at_attempt_number a ∧
  (is_Some (at_failure_event_id a) → at_failure_event_id a' = at_failure_event_id a).

#[export] Instance same_attempt_preorder : PreOrder same_attempt.
Proof. split; unfold same_attempt; [done|]. intros a b c. naive_solver congruence. Qed.

Definition attempts_move (d d' : Db) : Prop :=
  ∀ k a, task_attempts d !! k = Some a → ∃ a', task_attempts d' !! k = Some a' ∧ same_attempt a a'.

Definition retries (M : Z) (d d' : Db) : Prop :=
  attempts_ok M d → attempts_ok M d' ∧ attempts_move d d'.

#[export] Instance retries_preorder M : PreOrder (retries M).
Proof.
  split.
  - intros d Hd. split; [done|]. intros k a Ha. exists a. split; [done|reflexivity].
  - intros d1 d2 d3 H12 H23 H1. destruct (H12 H1) as [H2 M12]. destruct (H23 H2) as [H3 M23].
    split; [done|]. intros k a (b & Hb & Hab)%M12. destruct (M23 k b Hb) as (c & Hc & Hbc).
    exists c. split; [done|by etrans].
Qed.

(** Other tables, and logical tasks that keep their keys. *)
Lemma retries_same M d d' :
  task_attempts d' = task_attempts d →
  (∀ t, is_Some (logical_tasks d !! t) → is_Some (logical_tasks d' !! t)) → retries M d d'.
Proof.
  intros Ha Hl [K T G U P]. split.
  - split; rewrite ?Ha; eauto.
  - intros k a Hk. exists a. rewrite Ha. split; [done|reflexivity].
Qed.

(** One attempt is rewritten in place. *)
Lemma retries_update M d k a a' :
  task_attempts d !! k = Some a → same_attempt a a' →
  retries M d (set_attempts (<[k := a']> (task_attempts d)) d).
Proof.
  intros Hk Hs Hok. pose proof Hok as [K T G U P].
  assert (Hmv : attempts_move d (set_attempts (<[k := a']> (task_attempts d)) d)).
  { intros j b Hb. simpl. rewrite lookup_insert. destruct (decide (k = j)) as [<-|].
    - exists a'. split; [done|]. congruence.
    - exists b. split; [done|reflexivity]. }
  assert (Hback : ∀ j b', <[k := a']> (task_attempts d) !! j = Some b' →
    ∃ b, task_attempts d !! j = Some b ∧ same_attempt b b').
  { intros j b'. rewrite lookup_insert. destruct (decide (k = j)) as [<-|]; [intros [= <-]; eauto|].
    intros Hb. exists b'. split; [done|reflexivity]. }
  split; [|done]. split; simpl.
  - intros j b' (b & Hb & -> & _)%Hback. eauto.
  - intros j b' (b & Hb & _ & -> & _)%Hback. eauto.
  - intros j b' (b & Hb & _ & _ & -> & _)%Hback. eauto.
  - intros j1 j2 b1' b2' (b1 & Hb1 & _ & -> & -> & _)%Hback (b2 & Hb2 & _ & -> & -> & _)%Hback. eauto.
  - intros j b' (b & Hb & _ & Ht & Hn & _)%Hback. rewrite Ht, Hn. intros Hne.
    destruct (P j b Hb Hne) as (j0 & c & Hc & Htc & Hnc & Hfc).
    destruct (Hmv j0 c Hc) as (c' & Hc' & _ & Htc' & Hnc' & Hfc'). exists j0, c'.
    rewrite Htc', Hnc', (Hfc' Hfc). done.
Qed.

(** A new attempt follows a failed one, or is the first. *)
Lemma retries_insert M d a :
  task_attempts d !! at_attempt_id a = None → is_Some (logical_tasks d !! at_task_id a) →
  (∀ k b, task_attempts d !! k = Some b →
     ¬ (at_task_id b = at_task_id a ∧ at_attempt_number b = at_attempt_number a)) →
  (1 ≤ at_attempt_number a ≤ M)%Z →
  (at_attempt_number a = 1%Z ∨
   ∃ k b, task_attempts d !! k = Some b ∧ at_task_id b = at_task_id a ∧
          at_attempt_number b = (at_attempt_number a - 1)%Z ∧ is_Some (at_failure_event_id b)) →
  retries M d (set_attempts (<[at_attempt_id a := a]> (task_attempts d)) d).
Proof.
  intros Hnew Hl Huniq Hr Hprev [K T G U P].
  assert (Hold : ∀ j b, task_attempts d !! j = Some b →
    <[at_attempt_id a := a]> (task_attempts d) !! j = Some b).
  { intros j b Hb. rewrite lookup_insert_ne; [done|congruence]. }
  assert (Hcase : ∀ j b, <[at_attempt_id a := a]> (task_attempts d) !! j = Some b →
    (j = at_attempt_id a ∧ b = a) ∨ task_attempts d !! j = Some b).
  { intros j b. rewrite lookup_insert. destruct (decide (at_attempt_id a = j)) as [<-|]; [|by right].
    intros [= <-]. by left. }
  split.
  - split; simpl.
    + intros j b [[-> ->]|Hb]%Hcase; eauto.
    + intros j b [[-> ->]|Hb]%Hcase; eauto.
    + intros j b [[-> ->]|Hb]%Hcase; eauto.
    + intros j1 j2 b1 b2 [[-> ->]|Hb1]%Hcase [[-> ->]|Hb2]%Hcase Ht Hn; eauto.
      * by destruct (Huniq j2 b2 Hb2).
      * by destruct (Huniq j1 b1 Hb1).
    + intros j b [[-> ->]|Hb]%Hcase Hne.
      * destruct Hprev as [|(k & c & Hc & Hrest)]; [done|]. exists k, c. split; [by apply Hold|done].
      * destruct (P j b Hb Hne) as (k & c & Hc & Hrest). exists k, c. split; [by apply Hold|done].
  - intros k b Hb. exists b. split; [by apply Hold|reflexivity].
Qed.

(** ** The repositories *)

Lemma insert_kept {V} (t : gmap string V) k v : ∀ i, is_Some (t !! i) → is_Some (<[k := v]> t !! i).
Proof. intros i Hi. rewrite lookup_insert. case_decide; [by eexists|done]. Qed.

(** The tables an operation does not touch; what an attempt keeps. *)
Ltac untouched := apply keeps_from; intros ?; walk; apply retries_same; (reflexivity || done).
Ltac rewritten :=
  apply keeps_from; intros ?; walk; eapply retries_update; [eassumption|by repeat split].

Section repositories.
Context `{WorkflowSchema} `{Env} `{Json} (M : Z).

Lemma claim_attempt_retries a t x n wk t1 t2 : keeps (retries M) (claim_attempt a t x n wk t1 t2).
Proof. unfold claim_attempt, set_attempt_row. rewritten. Qed.
Lemma attempt_record_result_retries a e v m t : keeps (retries M) (attempt_record_result a e v m t).
Proof. unfold attempt_record_result, set_attempt_row. rewritten. Qed.
Lemma attempt_mark_completed_retries a t : keeps (retries M) (attempt_mark_completed a t).
Proof. unfold attempt_mark_completed, set_attempt_row. rewritten. Qed.
Lemma attempt_renew_claim_retries a wk t : keeps (retries M) (attempt_renew_claim a wk t).
Proof. unfold attempt_renew_claim, set_attempt_row. rewritten. Qed.

Lemma set_logical_row_retries k l : keeps (retries M) (set_logical_row k l).
Proof.
  unfold set_logical_row. apply keeps_from. intros d. walk. apply retries_same; [done|].
  apply insert_kept.
Qed.

Lemma record_success_retries t a e c : keeps (retries M) (record_success t a e c).
Proof.
  unfold record_success, set_attempt_row. pose proof set_logical_row_retries.
  apply keeps_from. intros d. walk.
  - eapply retries_update; [eassumption|by repeat split].
  - apply from_bind; [typeclasses eauto|by apply from_keeps|intros ?; apply keeps_from; intros ?; walk].
Qed.

Lemma mark_retry_published_retries a t : keeps (retries M) (mark_retry_published a t).
Proof.
  unfold mark_retry_published, set_attempt_row. apply keeps_from. intros d. walk.
  all: first [by apply retries_same|eapply retries_update; [eassumption|by repeat split]].
Qed.

Lemma retries_assume {A} d (m : IO A) :
  (attempts_ok M d → from d (retries M) m) → from d (retries M) m.
Proof. intros Hm w Hw Hd. by apply (Hm Hd w Hw). Qed.

(** Inserting the attempt that follows the failed attempt [b]. *)
Lemma insert_attempt_from d a :
  (1 ≤ at_attempt_number a ≤ M)%Z →
  (at_attempt_number a = 1%Z ∨
   ∃ k b, task_attempts d !! k = Some b ∧ at_task_id b = at_task_id a ∧
          at_attempt_number b = (at_attempt_number a - 1)%Z ∧ is_Some (at_failure_event_id b)) →
  from d (retries M) (insert_attempt a).
Proof.
  intros Hr Hprev. unfold insert_attempt, set_attempt_row. walk.
  apply retries_insert; [by apply has_false|by apply has_true| |done|done].
  intros k b Hb Hab.
  match goal with Hq : bool_decide (rows_where _ _ ≠ []) = false |- _ =>
    apply bool_decide_eq_false, dec_stable in Hq; apply (elem_of_nil b); rewrite <- Hq end.
  apply elem_of_rows_where. exists k. split; [done|]. by apply bool_decide_eq_true.
Qed.

Lemma register_initial_task_retries t x n h c r a s :
  (1 ≤ M)%Z → keeps (retries M) (register_initial_task t x n h c r a s).
Proof.
  intros HM. unfold register_initial_task, insert_logical_task, set_logical_row.
  apply keeps_from. intros d. walk.
  all: try (apply retries_same; [done|apply insert_kept]).
  all: apply from_bind; [typeclasses eauto|apply insert_attempt_from; simpl; [lia|by left]|].
  all: intros ?; apply keeps_from; intros ?; walk.
Qed.

Lemma record_failure_retries t a e m ty f r : keeps (retries M) (record_failure t a e m ty f M r).
Proof.
  assert (Hrest : ∀ k l (o : RetryDecision), keeps (retries M) (set_logical_row k l ≫= λ _, mret o)).
  { intros. apply keeps_bind; eauto using set_logical_row_retries with keeps. }
  assert (Hdis : ∀ q, keeps (retries M) (insert_dispatch q)).
  { intros q. unfold insert_dispatch. untouched. }
  unfold record_failure, set_attempt_row. apply keeps_from. intros d. apply retries_assume. intros Hok. walk.
  - eapply retries_update; [eassumption|]. repeat split. simpl.
    match goal with Hq : bool_decide (is_Some _) || _ = false |- _ => apply orb_false_iff in Hq as [Hq _];
      apply bool_decide_eq_false in Hq end. done.
  - by apply from_keeps.
  - apply from_bind; [typeclasses eauto|apply insert_attempt_from; simpl|].
    + match goal with Hq : (M <=? _)%Z = false |- _ => apply Z.leb_gt in Hq end.
      match goal with Hq : task_attempts d !! _ = Some _ |- _ => apply (ao_range _ _ Hok) in Hq end. lia.
    + right. eexists a, _. rewrite lookup_insert, decide_True by done. split; [done|]. simpl.
      split; [done|]. split; [lia|]. by eexists.
    + intros ?. apply keeps_bind; [typeclasses eauto|done|]. intros ?. apply Hrest.
Qed.
End repositories.

Lemma retries_preserved `{WorkflowSchema} `{Env} `{Json} M : (1 ≤ M)%Z → Preserved M (retries M).
Proof.
  intros HM.
  assert (Hu : ∀ x s s' t1 t2 i, workflow_moves s s' →
    keeps (retries M) (execution_update_status_if_current x s s' t1 t2 i))
    by (intros; unfold execution_update_status_if_current; untouched).
  assert (Hm : ∀ i ty s p a, keeps (retries M) (add_message i ty s p a))
    by (intros; unfold add_message; untouched).
  split; [split; eauto using claim_attempt_retries, attempt_record_result_retries, attempt_mark_completed_retries,
    attempt_renew_claim_retries with keeps|split|].
  all: cycle -1.
  { unfold publish_pending. apply keeps_from. intros d. apply from_get_bind.
    apply (publish_rows_from _ (λ d', task_attempts d' = task_attempts d ∧ logical_tasks d' = logical_tasks d));
      [|done..]. intros d' [Ha Hl]. apply retries_same; [done|by rewrite Hl]. }
  all: eauto using record_success_retries, mark_retry_published_retries,
    register_initial_task_retries, record_failure_retries with keeps.
  - intros w e. apply keeps_bind; [typeclasses eauto|unfold create_workflow; untouched|intros _].
    apply keeps_bind; [typeclasses eauto|unfold create_execution; untouched|intros _].
    apply keeps_iter; [typeclasses eauto|]. intros node. unfold new_node_execution, upsert_node_execution.
    untouched.
  - intros. unfold node_update_status_if_current. untouched.
  - intros. unfold claim_pending_nodes. untouched.
  - intros. unfold fail_pending_nodes. untouched.
  - intros. apply trigger_body_composed; eauto with keeps.
  - intros. unfold cleanup_published. untouched.
Qed.

(** ** Sequences of operations *)

Lemma bounded_numbers (l : list Z) (M : Z) :
  NoDup l → (∀ z, z ∈ l → (1 ≤ z ≤ M)%Z) → length l ≤ Z.to_nat M.
Proof.
  intros Hnd Hr. rewrite <- (length_seqZ 1 M). apply submseteq_length, NoDup_submseteq; [done|].
  intros z Hz. apply elem_of_seqZ. specialize (Hr z Hz). lia.
Qed.

Section system.
Context `{WorkflowSchema} `{Env} `{Json} `{Pydantic} `{Host}.
Variables (float_str : spec_float → string) (repr : string → string).
Variable pow : spec_float → Z → py spec_float.
Variable policy : RetryPolicy.
Variable rules : list rule.

(** The attempts of a task. *)
Definition attempts_of (d : Db) (task_id : string) : list TaskAttemptRecord :=
  rows_where (λ _ a, bool_decide (at_task_id a = task_id)) (task_attempts d).

Lemma attempts_of_bounded M d t : attempts_ok M d → length (attempts_of d t) ≤ Z.to_nat M.
Proof.
  intros Hok. rewrite <- (length_fmap at_attempt_number). apply bounded_numbers.
  - unfold attempts_of, rows_where.
    assert (Hl : ∀ k a, (k, a) ∈ map_to_list (task_attempts d) → task_attempts d !! k = Some a)
      by (intros; by apply elem_of_map_to_list).
    pose proof (NoDup_fst_map_to_list (task_attempts d)) as Hnd. revert Hl Hnd.
    induction (map_to_list (task_attempts d)) as [|[k a] l IH]; intros Hl Hnd; [constructor|].
    csimpl in Hnd. apply NoDup_cons in Hnd as [Hk Hnd]. rewrite filter_cons.
    assert (IH' := IH ltac:(intros; apply Hl; by constructor) Hnd).
    case_decide as Ht; [|done]. csimpl. apply NoDup_cons. split; [|done].
    intros (b & Hn & Hb)%list_elem_of_fmap. apply list_elem_of_fmap in Hb as ([k' b'] & -> & Hb).
    apply list_elem_of_filter in Hb as [Ht' Hb]. simpl in *. rewrite bool_decide_eq_true in Ht, Ht'.
    apply Hk. apply list_elem_of_fmap. exists (k', b'). split; [|done]. simpl.
    eapply (ao_unique _ _ Hok k k' a b'); [apply Hl; by constructor|apply Hl; by constructor|congruence|done].
  - intros z (a & -> & (k & Ha & _)%elem_of_rows_where)%list_elem_of_fmap. by apply (ao_range _ _ Hok k).
Qed.

(** C17: retries are bounded.  Whatever operations the processes perform,
    in whatever order, no task ever has more attempts than the policy's
    maximum; within a task attempt numbers are unique and lie between one
    and the maximum; an attempt after the first follows an attempt whose
    failure is recorded; and no attempt is removed or renumbered. *)
Theorem retries_are_bounded ops w :
  (1 ≤ rp_max_attempts policy)%Z → attempts_ok (rp_max_attempts policy) (w_db w) →
  let w' := run_operations float_str repr pow policy rules ops w in
  attempts_ok (rp_max_attempts policy) (w_db w') ∧ attempts_move (w_db w) (w_db w') ∧
  ∀ t, length (attempts_of (w_db w') t) ≤ Z.to_nat (rp_max_attempts policy).
Proof.
  intros HM Hok w'. assert (Preserved (rp_max_attempts policy) (retries (rp_max_attempts policy)))
    by (by apply retries_preserved).
  destruct (run_operations_kept float_str repr pow policy rules (retries (rp_max_attempts policy)) ops w Hok) as [Hok' Hmv].
  split; [done|]. split; [done|]. intros t. by apply attempts_of_bounded.
Qed.
End system.
