(* ===== verification/TriggerSpec.v ===== *)
(** * Triggering, branch by branch

    An execution is triggered at most once, together with its event. *)

From Stdlib Require Import SpecFloat.
From S2P Require Import Prelude Numerals PyVal States Errors Domain Dag Graph Readiness Failure.
From S2P Require Import Cycles Validation Accepted Templates Resolver Json Messages Store.
From S2P Require Import Repositories TaskRepositories Services Dispatch Completion Outbox.
From S2P Require Import Redis Barriers Worker Orchestrator Preservation Evolution.

(** Evaluate the effect monad on a known state. *)
Ltac run_io :=
  cbv beta iota zeta delta [mbind io_bind mret io_ret get_db put_db raise lift guard_io now uuid4
    unique_key foreign_key varchar varchar_opt transaction].
Tactic Notation "run_io" "in" hyp(H) :=
  cbv beta iota zeta delta [mbind io_bind mret io_ret get_db put_db raise lift guard_io now uuid4
    unique_key foreign_key varchar varchar_opt transaction] in H.

Section trigger.
Context `{Env}.

(** The outbox row a trigger stores. *)
Definition trigger_event (x message_id : UUID) (t : datetime) : OutboxEventRecord :=
  {| ob_event_id := message_id; ob_event_type := "workflow.execution.triggered";
     ob_aggregate_id := Some x; ob_target_stream := WORKFLOW_EVENTS_STREAM;
     ob_payload := obj [("execution_id", PStr (uuid_str x))]; ob_status := OPending;
     ob_publish_attempts := 0; ob_last_error := None; ob_created_at := t;
     ob_published_at := None |}.

Lemma trigger_missing x i w :
  workflow_executions (w_db w) !! x = None →
  ∃ w', trigger x i w = (w', Raise (WorkflowExecutionNotFoundError (uuid_str x))) ∧ w_db w' = w_db w.
Proof.
  intros Hx. eexists. unfold trigger, trigger_body, get_execution_by_id. run_io. rewrite Hx. done.
Qed.

Lemma trigger_refused x i w e :
  workflow_executions (w_db w) !! x = Some e → we_status e ≠ WPending →
  ∃ w', trigger x i w =
          (w', Raise (WorkflowExecutionNotTriggerableError (uuid_str x) (we_status e))) ∧
        w_db w' = w_db w.
Proof.
  intros Hx Hs. eexists. unfold trigger, trigger_body, get_execution_by_id. run_io. rewrite Hx.
  rewrite decide_False by done. done.
Qed.

Lemma trigger_accepted x i w e :
  workflow_executions (w_db w) !! x = Some e → we_status e = WPending →
  outbox_events (w_db w) !! uuid4_draw (w_draws w) = None →
  ∃ w', trigger x i w = (w', Ok {| wt_execution_id := x; wt_status := WRunning |}) ∧
        w_db w' =
          set_outbox (<[uuid4_draw (w_draws w) :=
            trigger_event x (uuid4_draw (w_draws w)) (clock (S (w_ticks w)))]> (outbox_events (w_db w)))
          (set_executions (<[x := update_execution_status WRunning (Some (clock (w_ticks w))) None i e]>
            (workflow_executions (w_db w))) (w_db w)).
Proof.
  intros Hx Hs Hf. eexists. unfold trigger, trigger_body, get_execution_by_id,
    execution_update_status_if_current, add_message. run_io. rewrite Hx.
  rewrite decide_True by done. simpl. rewrite Hx, decide_True by done. simpl.
  rewrite (proj2 (has_false _ _)) by done. simpl. split; reflexivity.
Qed.

(** The drawn message identifier is taken: the transaction is rolled back. *)
Lemma trigger_collision x i w e row :
  workflow_executions (w_db w) !! x = Some e → we_status e = WPending →
  outbox_events (w_db w) !! uuid4_draw (w_draws w) = Some row →
  ∃ w' m, trigger x i w = (w', Raise (WorkflowPersistenceError m)) ∧ w_db w' = w_db w.
Proof.
  intros Hx Hs Hf. eexists _, _. unfold trigger, trigger_body, get_execution_by_id,
    execution_update_status_if_current, add_message. run_io. rewrite Hx.
  rewrite decide_True by done. simpl. rewrite Hx, decide_True by done. simpl.
  rewrite (proj2 (has_true _ _)) by (by eexists). simpl. split; reflexivity.
Qed.

(** A trigger that returns met the conditions of [trigger_accepted]. *)
Lemma trigger_Ok_inv x i w w' dec :
  trigger x i w = (w', Ok dec) →
  ∃ e, workflow_executions (w_db w) !! x = Some e ∧ we_status e = WPending ∧
       outbox_events (w_db w) !! uuid4_draw (w_draws w) = None.
Proof.
  destruct (workflow_executions (w_db w) !! x) as [e|] eqn:Hx.
  2:{ by destruct (trigger_missing x i w Hx) as (? & -> & _). }
  destruct (decide (we_status e = WPending)) as [Hs|Hs].
  2:{ by destruct (trigger_refused x i w e Hx Hs) as (? & -> & _). }
  unfold trigger, trigger_body, get_execution_by_id,
    execution_update_status_if_current, add_message. run_io. rewrite Hx.
  rewrite decide_True by done. simpl. rewrite Hx, decide_True by done. simpl.
  destruct (has (uuid4_draw (w_draws w)) (outbox_events (w_db w))) eqn:Hf; simpl; [done|].
  apply has_false in Hf. eauto.
Qed.
End trigger.

Section trigger_theorems.
Context `{WorkflowSchema} `{Env} `{Json} `{Pydantic} `{Host}.
Variables (float_str : spec_float → string) (repr : string → string).
Variable pow : spec_float → Z → py spec_float.
Variable policy : RetryPolicy.
Variable rules : list rule.

(** C9: triggering, on every branch: an unknown execution and an execution
    that is not pending are refused and nothing is written; a pending one
    becomes running with the given input, and exactly one trigger event is
    added to the outbox in the same transaction. *)
Theorem trigger_correct x i w :
  outbox_events (w_db w) !! uuid4_draw (w_draws w) = None →
  let '(w', r) := trigger x i w in
  match workflow_executions (w_db w) !! x with
  | None => r = Raise (WorkflowExecutionNotFoundError (uuid_str x)) ∧ w_db w' = w_db w
  | Some e =>
      if decide (we_status e = WPending) then
        r = Ok {| wt_execution_id := x; wt_status := WRunning |} ∧
        w_db w' =
          set_outbox (<[uuid4_draw (w_draws w) :=
            trigger_event x (uuid4_draw (w_draws w)) (clock (S (w_ticks w)))]> (outbox_events (w_db w)))
          (set_executions (<[x := update_execution_status WRunning (Some (clock (w_ticks w))) None i e]>
            (workflow_executions (w_db w))) (w_db w))
      else
        r = Raise (WorkflowExecutionNotTriggerableError (uuid_str x) (we_status e)) ∧
        w_db w' = w_db w
  end.
Proof.
  intros Hf. destruct (workflow_executions (w_db w) !! x) as [e|] eqn:Hx.
  - destruct (decide (we_status e = WPending)) as [Hs|Hs].
    + by destruct (trigger_accepted x i w e Hx Hs Hf) as (w' & -> & Hw').
    + by destruct (trigger_refused x i w e Hx Hs) as (w' & -> & Hw').
  - by destruct (trigger_missing x i w Hx) as (w' & -> & Hw').
Qed.

Lemma running_not_pending s : workflow_moves WRunning s → s ≠ WPending.
Proof.
  intros Hm ->. inversion Hm as [|? s2 ? Hs Hm2]; subst. unfold workflow_step in Hs. simpl in Hs.
  assert (Ht : workflow_terminal s2 = true) by (destruct s2; set_solver).
  apply workflow_terminal_moves in Hm2; [|done]. subst. done.
Qed.

(** An execution is triggered at most once: after a successful trigger,
    and whatever the processes do in between, every later trigger of the
    same execution is refused and writes nothing. *)
Theorem trigger_at_most_once x i w w1 dec ops j :
  db_inv (w_db w) → trigger x i w = (w1, Ok dec) →
  let w2 := run_operations float_str repr pow policy rules ops w1 in
  ∃ w3 s, trigger x j w2 = (w3, Raise (WorkflowExecutionNotTriggerableError (uuid_str x) s)) ∧
          s ≠ WPending ∧ w_db w3 = w_db w2.
Proof.
  intros Hinv Ht w2.
  assert (Hrun : ∃ e1, workflow_executions (w_db w1) !! x = Some e1 ∧ we_status e1 = WRunning).
  { destruct (trigger_Ok_inv x i w w1 dec Ht) as (e & Hx & Hs & Hf).
    destruct (trigger_accepted x i w e Hx Hs Hf) as (w' & Ht' & Hd).
    rewrite Ht in Ht'. injection Ht' as <- _. rewrite Hd. simpl.
    eexists. split; [by rewrite lookup_insert, decide_True|done]. }
  destruct Hrun as (e1 & Hx1 & Hs1).
  assert (Hinv1 : db_inv (w_db w1)).
  { pose proof (trigger_kept policy evolves x i w Hinv) as [H' _]. by rewrite Ht in H'. }
  destruct (run_operations_evolves float_str repr pow policy rules ops w1 Hinv1) as [_ [_ He _]].
  destruct (He x e1 Hx1) as (e2 & Hx2 & Hm & _). rewrite Hs1 in Hm.
  destruct (trigger_refused x j w2 e2 Hx2) as (w3 & Hr & Hd); [by apply running_not_pending|].
  exists w3, (we_status e2). split; [done|]. split; [by apply running_not_pending|done].
Qed.
End trigger_theorems.
