(* ===== verification/Submission.v ===== *)
(** * Submitting a definition

    What the definition service promises: an accepted definition is a
    well-formed acyclic graph, the graph that is stored is the graph that was
    submitted, and a submission creates one pending execution with one pending
    row per node, or nothing. *)

From Stdlib Require Import SpecFloat.
From S2P Require Import Prelude Numerals PyVal States Errors Domain Dag Graph Readiness Failure.
From S2P Require Import Cycles Validation Accepted Json Messages Store Repositories Services.
From S2P Require Import Evolution.

(** ** What the code relies on of pydantic *)

(** A validated node keeps the values that already have the declared type. *)
Definition populated (nd : pydict) (n : WorkflowNode) : Prop :=
  (∀ i, dict_get "id" nd = Some (PStr i) → wn_id n = i) ∧
  (∀ h, dict_get "handler" nd = Some (PStr h) → wn_handler n = h) ∧
  (∀ deps, dict_get "dependencies" nd = Some (PList (PStr <$> deps)) → wn_dependencies n = deps).

(** The constraints of the node model. *)
Definition node_model_ok (n : WorkflowNode) : Prop := wn_id n ≠ "" ∧ wn_handler n ≠ "".

(** What a stored and reloaded node has in common with the original. *)
Definition same_node (n n' : WorkflowNode) : Prop :=
  wn_id n' = wn_id n ∧ wn_handler n' = wn_handler n ∧ wn_dependencies n' = wn_dependencies n.

Class WorkflowSchemaLaws `{WorkflowSchema} : Prop := {
  schema_populates i t d dag ds w :
    dict_get "dag" d = Some (PDict dag) → dict_get "nodes" dag = Some (PList (PDict <$> ds)) →
    model_validate i t d = Ok w → Forall2 populated ds (nodes_of w);
  schema_constraints i t d w :
    model_validate i t d = Ok w → wf_name w ≠ "" ∧ Forall node_model_ok (nodes_of w);
  schema_round_trip g i name t :
    name ≠ "" → Forall node_model_ok (dag_nodes g) →
    ∃ w, load_workflow i name (default (PList []) (dict_get "nodes" (dump_dag g))) t = Ok w ∧
         wf_workflow_id w = i ∧ wf_name w = name ∧ Forall2 same_node (dag_nodes g) (nodes_of w);
}.

(** ** Accepted definitions are acyclic graphs *)

Section accepted.
Context (it : bool) (d : pydict) (ds : list pydict) (w : Workflow).
Hypothesis Hvalid : valid_definition it d ds.
Hypothesis Hpop : Forall2 populated ds (nodes_of w).

Lemma accepted_nodes :
  Forall2 (λ nd n, node_id_of nd = Some (wn_id n) ∧ deps_of nd = wn_dependencies n ∧
                   ∀ x, x ∈ wn_dependencies n → x ∈ ids_of ds) ds (nodes_of w).
Proof.
  eapply Forall2_impl_elem; [exact Hpop|]. intros nd n Hnd _ (Hi & _ & Hd).
  destruct (vd_each _ _ _ Hvalid nd Hnd) as (i & h & deps & H).
  pose proof (vn_id _ _ _ _ _ _ H) as H1. pose proof (vn_deps _ _ _ _ _ _ H) as H2.
  rewrite (Hi i H1), (Hd deps H2), (deps_of_strings nd deps H2).
  split; [by apply node_id_of_Some|]. split; [done|apply H].
Qed.

Lemma accepted_graph :
  node_ids w = ids_of ds ∧
  graph_of ds = (λ n, (wn_id n, wn_dependencies n)) <$> nodes_of w ∧
  ∀ n x, n ∈ nodes_of w → x ∈ wn_dependencies n → x ∈ ids_of ds.
Proof.
  assert (Hgen : ∀ (ids : list string) l ns, Forall2 (λ nd n, node_id_of nd = Some (wn_id n) ∧
      deps_of nd = wn_dependencies n ∧ ∀ x, x ∈ wn_dependencies n → x ∈ ids) l ns →
    wn_id <$> ns = ids_of l ∧ graph_of l = (λ n, (wn_id n, wn_dependencies n)) <$> ns ∧
    ∀ n x, n ∈ ns → x ∈ wn_dependencies n → x ∈ ids).
  { unfold graph_of, ids_of. intros ids l ns H.
    induction H as [|nd n l ns (Hi & Hd & Hk) _ (IH1 & IH2 & IH3)]; [set_solver|]. csimpl.
    rewrite Hi. csimpl. rewrite Hd, IH1, IH2. split; [done|]. split; [done|].
    intros m x [->|Hm]%elem_of_cons; eauto. }
  apply Hgen, accepted_nodes.
Qed.

Lemma accepted_wf : wf_workflow w ∧ acyclic w.
Proof.
  destruct accepted_graph as (Hids & Hg & Hk).
  assert (Hnd : NoDup (node_ids w)) by (rewrite Hids; apply Hvalid). split.
  - split; [done|]. intros n x Hn Hx. rewrite Hids. eauto.
  - intros i Htc. apply (vd_acyclic _ _ _ Hvalid i). revert Htc.
    apply (tc_congruence (λ x, x)). intros x y (n & Hn & <- & Hy).
    unfold edge, edges. rewrite Hg. rewrite (aget_elem (wn_id n) _ (wn_dependencies n)); [done| |].
    + rewrite <- list_fmap_compose. exact Hnd.
    + apply list_elem_of_fmap. eauto.
Qed.
End accepted.

Section acceptance.
Context `{WorkflowSchemaLaws} `{Env}.
Variables (py_str : pyobj → string) (it : bool).

Lemma accept_wf d st st' w :
  accept (default_rules py_str it) d st = (st', Ok w) → wf_workflow w ∧ acyclic w ∧
    wf_name w ≠ "" ∧ Forall node_model_ok (nodes_of w).
Proof.
  unfold accept. intros (w1 & errors & Hv & Ha)%io_bind_Ok. injection Hv as <- Hv.
  destruct errors; [|done]. apply io_bind_Ok in Ha as (w2 & i & _ & Ha).
  apply io_bind_Ok in Ha as (w3 & t & _ & Ha). injection Ha as _ Ha.
  apply validate_accepts_lemma in Hv as [ds Hds].
  destruct (vd_nodes _ _ _ Hds) as (dag & Hdag & Hnodes).
  pose proof (schema_populates i t d dag ds w Hdag Hnodes Ha) as Hpop.
  destruct (accepted_wf it d ds w Hds Hpop). destruct (schema_constraints i t d w Ha). done.
Qed.

(** A definition the service accepts is a well-formed acyclic graph:
    unique node identifiers, dependencies that exist, and no cycle. *)
Theorem accepted_definitions_are_dags d st st' w :
  accept (default_rules py_str it) d st = (st', Ok w) → wf_workflow w ∧ acyclic w.
Proof. intros Ha%accept_wf. naive_solver. Qed.
End acceptance.

(** ** The effect of a submission *)

Section submit.
Context `{WorkflowSchema} `{Env}.

(** Everything but the three core tables. *)
Definition same_others (d d' : Db) : Prop :=
  outbox_events d' = outbox_events d ∧ logical_tasks d' = logical_tasks d ∧
  task_attempts d' = task_attempts d ∧ task_retry_dispatches d' = task_retry_dispatches d ∧
  task_processing d' = task_processing d.

(** The loop over the nodes. *)
Lemma create_nodes_effect x ns w w' :
  iter_io (λ node, n ← new_node_execution x (wn_id node); upsert_node_execution n) ns w = (w', Ok tt) →
  workflows (w_db w') = workflows (w_db w) ∧
  workflow_executions (w_db w') = workflow_executions (w_db w) ∧
  same_others (w_db w) (w_db w') ∧
  (∀ k, k.1 ≠ x ∨ k.2 ∉ wn_id <$> ns → node_executions (w_db w') !! k = node_executions (w_db w) !! k) ∧
  (∀ i, i ∈ wn_id <$> ns → ∃ n, node_executions (w_db w') !! (x, i) = Some n ∧ ne_status n = NPending).
Proof.
  revert w. induction ns as [|node ns IH]; intros w.
  { cbn [iter_io]. intros [= <-]. unfold same_others. set_solver. }
  cbn [iter_io]. intros (w1 & [] & Hone & Hrest)%io_bind_Ok.
  assert (Hstep : ∃ row, ne_status row = NPending ∧
    w_db w1 = set_nodes (<[(x, wn_id node) := row]> (node_executions (w_db w))) (w_db w)).
  { unfold new_node_execution, upsert_node_execution in Hone.
    cbv beta iota zeta delta [mbind io_bind mret io_ret get_db put_db raise lift guard_io now
      foreign_key varchar varchar_opt ne_workflow_execution_id ne_node_id ne_error_type] in Hone.
    destruct (has x _) eqn:Hx; [|done]. simpl in Hone.
    destruct (String.length (wn_id node) <=? 255); [|done]. simpl in Hone. injection Hone as <-. simpl.
    eexists. split; [|reflexivity]. by destruct (node_executions (w_db w) !! _). }
  destruct Hstep as (row & Hrow & Hd).
  destruct (IH w1 Hrest) as (IW & IE & IO & IK & IN). rewrite Hd in IW, IE, IO, IK. simpl in *.
  split; [done|]. split; [done|]. split; [done|]. split.
  - intros k Hk. rewrite IK by set_solver. apply lookup_insert_ne. intros <-. set_solver.
  - intros i Hi. destruct (decide (i ∈ wn_id <$> ns)) as [Hin|Hin]; [by apply IN|].
    assert (i = wn_id node) as -> by set_solver. exists row. split; [|done].
    rewrite IK by (right; done). by rewrite lookup_insert, decide_True.
Qed.

Lemma create_workflow_effect wf w w' :
  create_workflow wf w = (w', Ok tt) →
  workflows (w_db w) !! wf_workflow_id wf = None ∧
  w_db w' = set_workflows (<[wf_workflow_id wf :=
    {| wr_workflow_id := wf_workflow_id wf; wr_name := wf_name wf;
       wr_dag_definition := dump_dag (wf_dag wf); wr_created_at := wf_created_at wf |}]>
    (workflows (w_db w))) (w_db w).
Proof.
  unfold create_workflow. cbv beta iota delta [mbind io_bind get_db put_db unique_key varchar guard_io mret io_ret raise].
  destruct (has (wf_workflow_id wf) (workflows (w_db w))) eqn:Hh; simpl; [done|].
  destruct (String.length (wf_name wf) <=? 255); simpl; [|done].
  intros [= <-]. split; [by apply has_false|done].
Qed.

Lemma create_execution_effect e w w' :
  create_execution e w = (w', Ok tt) →
  workflow_executions (w_db w) !! we_execution_id e = None ∧
  w_db w' = set_executions (<[we_execution_id e := e]> (workflow_executions (w_db w))) (w_db w).
Proof.
  unfold create_execution. cbv beta iota delta [mbind io_bind get_db put_db unique_key foreign_key guard_io mret io_ret raise].
  destruct (has (we_execution_id e) _) eqn:Hh; simpl; [done|].
  destruct (has (we_workflow_id e) _); simpl; [|done].
  intros [= <-]. split; [by apply has_false|done].
Qed.

Lemma accept_quiet rules p : quiet (accept rules p).
Proof.
  apply quiet_bind; [done|]. intros errors. destruct errors; [|done].
  by apply quiet_bind; [done|intros i; apply quiet_bind; [done|intros t]].
Qed.

Lemma submit_effect rules p w w' s :
  submit rules p w = (w', Ok s) →
  ∃ w1 wf e, accept rules p w = (w1, Ok wf) ∧ ws_execution_id s = we_execution_id e ∧
    we_status e = WPending ∧ we_workflow_id e = wf_workflow_id wf ∧
    workflow_executions (w_db w) !! we_execution_id e = None ∧
    workflows (w_db w') = <[wf_workflow_id wf :=
      {| wr_workflow_id := wf_workflow_id wf; wr_name := wf_name wf;
         wr_dag_definition := dump_dag (wf_dag wf); wr_created_at := wf_created_at wf |}]>
      (workflows (w_db w)) ∧
    workflow_executions (w_db w') = <[we_execution_id e := e]> (workflow_executions (w_db w)) ∧
    same_others (w_db w) (w_db w') ∧
    (∀ k, k.1 ≠ we_execution_id e ∨ k.2 ∉ node_ids wf →
      node_executions (w_db w') !! k = node_executions (w_db w) !! k) ∧
    (∀ i, i ∈ node_ids wf → ∃ n,
      node_executions (w_db w') !! (we_execution_id e, i) = Some n ∧ ne_status n = NPending) ∧
    workflows (w_db w) !! wf_workflow_id wf = None ∧ ∃ k, we_execution_id e = uuid4_draw k.
Proof.
  unfold submit. intros (wa & wf & Ha & Hrest)%io_bind_Ok.
  pose proof (accept_quiet rules p w) as Hq. rewrite Ha in Hq. simpl in Hq.
  apply io_bind_Ok in Hrest as (wb & e & He & Hrest).
  unfold new_execution in He. cbv beta iota delta [mbind io_bind mret io_ret uuid4 now] in He.
  simpl in He. injection He as Hwb He.
  apply io_bind_Ok in Hrest as (wc & [] & Ht%transaction_Ok_inv & Hs). injection Hs as <- <-.
  unfold persist_submission in Ht. apply io_bind_Ok in Ht as (wd & [] & Hw & Ht).
  apply io_bind_Ok in Ht as (we & [] & Hx & Hn).
  apply create_workflow_effect in Hw as [Hwfresh Hwd]. apply create_execution_effect in Hx as [Hfresh Hwe].
  apply create_nodes_effect in Hn as (NW & NE & NO & NK & NN).
  assert (Hdb : w_db wb = w_db w) by (rewrite <- Hwb; exact Hq). rewrite Hdb in Hwd, Hwfresh.
  rewrite Hwd in Hwe, Hfresh. rewrite Hwe in NW, NE, NO, NK.
  exists wa, wf, e. rewrite <- He in *. simpl in *. repeat (split; [done|]). by eexists.
Qed.

Lemma submit_rollback rules p w w' exc : submit rules p w = (w', Raise exc) → w_db w' = w_db w.
Proof.
  unfold submit, new_execution. pose proof (accept_quiet rules p w) as Hq.
  cbv beta iota delta [mbind io_bind mret io_ret lift uuid4 now]. simpl.
  destruct (accept rules p w) as [wa [wf|]]; simpl in Hq; [|by intros [= <-]].
  match goal with |- context [transaction ?m ?w0] => destruct (transaction m w0) as [w1 [[]|e]] eqn:Ht end;
    [done|]. intros [= <- _]. apply transaction_rollback in Ht. by rewrite Ht.
Qed.

(** The row that stores a definition. *)
Definition definition_row (wf : Workflow) : WorkflowRecord :=
  {| wr_workflow_id := wf_workflow_id wf; wr_name := wf_name wf;
     wr_dag_definition := dump_dag (wf_dag wf); wr_created_at := wf_created_at wf |}.

(** C8: a submission that returns has stored the accepted definition under a
    new identifier, with its name, its dumped graph and its creation time,
    one pending execution of it under a new identifier, and one pending row
    per node; every other row of every table is as before.  A submission that
    raises has stored nothing. *)
Theorem submit_correct rules p w :
  db_inv (w_db w) →
  match submit rules p w with
  | (w', Ok s) =>
      ∃ w1 wf e, accept rules p w = (w1, Ok wf) ∧ ws_execution_id s = we_execution_id e ∧
        workflows (w_db w) !! wf_workflow_id wf = None ∧
        workflows (w_db w') = <[wf_workflow_id wf := definition_row wf]> (workflows (w_db w)) ∧
        we_status e = WPending ∧ we_workflow_id e = wf_workflow_id wf ∧
        workflow_executions (w_db w') = <[we_execution_id e := e]> (workflow_executions (w_db w)) ∧
        workflow_executions (w_db w) !! we_execution_id e = None ∧
        same_others (w_db w) (w_db w') ∧
        ∀ x i, match node_executions (w_db w') !! (x, i) with
               | Some n => if decide (x = we_execution_id e)
                           then i ∈ node_ids wf ∧ ne_status n = NPending
                           else node_executions (w_db w) !! (x, i) = Some n
               | None => node_executions (w_db w) !! (x, i) = None ∧
                         (x = we_execution_id e → i ∉ node_ids wf)
               end
  | (w', Raise _) => w_db w' = w_db w
  end.
Proof.
  intros Hinv. destruct (submit rules p w) as [w' [s|exc]] eqn:Hs.
  - apply submit_effect in Hs as (w1 & wf & e & Ha & Hid & Hst & Hwf & Hfresh & HW & HE & HO & HK & HN & Hnew & _).
    exists w1, wf, e. do 9 (split; [done|]). intros x i.
    assert (Hnone : ∀ j, node_executions (w_db w) !! (we_execution_id e, j) = None).
    { intros j. destruct (node_executions (w_db w) !! (we_execution_id e, j)) as [n|] eqn:E; [|done].
      apply (inv_node_exec _ Hinv) in E as [? E]. simpl in E. congruence. }
    destruct (decide (x = we_execution_id e)) as [->|Hx].
    + destruct (decide (i ∈ node_ids wf)) as [Hi|Hi].
      * destruct (HN i Hi) as (n & -> & Hn). done.
      * rewrite HK by (right; done). rewrite Hnone. done.
    + rewrite HK by (left; done). destruct (node_executions (w_db w) !! (x, i)); done.
  - by apply submit_rollback in Hs.
Qed.
End submit.

(** ** What is stored is what was submitted *)

Lemma same_nodes_graph g w :
  Forall2 same_node (nodes_of g) (nodes_of w) →
  node_ids w = node_ids g ∧ (∀ i j, depends w i j ↔ depends g i j).
Proof.
  unfold node_ids, depends. intros H.
  assert (Hids : wn_id <$> nodes_of w = wn_id <$> nodes_of g).
  { induction H as [|n n' l l' (Hi & _ & _) _ IH]; [done|]. csimpl. by rewrite Hi, IH. }
  split; [done|]. intros i j. clear Hids. split; intros (n & Hn & <- & Hj).
  - apply list_elem_of_lookup in Hn as [k Hk].
    destruct (Forall2_lookup_r _ _ _ _ _ H Hk) as (m & Hm & Hi & _ & Hd).
    exists m. rewrite <- Hd, <- Hi. apply list_elem_of_lookup_2 in Hm. done.
  - apply list_elem_of_lookup in Hn as [k Hk].
    destruct (Forall2_lookup_l _ _ _ _ _ H Hk) as (m & Hm & Hi & _ & Hd).
    exists m. rewrite Hd, Hi. apply list_elem_of_lookup_2 in Hm. done.
Qed.

Lemma same_nodes_wf g w :
  Forall2 same_node (nodes_of g) (nodes_of w) → wf_workflow g → acyclic g → wf_workflow w ∧ acyclic w.
Proof.
  intros H [Hu Hk] Hc. destruct (same_nodes_graph g w H) as [Hids Hdep]. split.
  - split; [by rewrite Hids|]. intros n x Hn Hx. rewrite Hids.
    assert (Hd : depends g (wn_id n) x) by (apply Hdep; by exists n).
    destruct Hd as (m & Hm & _ & Hx'). by eapply Hk.
  - intros i Htc. apply (Hc i). revert Htc. apply (tc_congruence (λ x, x)).
    intros x y Hxy. by apply Hdep.
Qed.

Section stored.
Context `{WorkflowSchemaLaws} `{Env}.
Variables (py_str : pyobj → string) (it : bool).

(** The definition that a submission stores. *)
Lemma submitted_graph p w w' wf w1 e :
  accept (default_rules py_str it) p w = (w1, Ok wf) → we_workflow_id e = wf_workflow_id wf →
  workflows (w_db w') = <[wf_workflow_id wf :=
    {| wr_workflow_id := wf_workflow_id wf; wr_name := wf_name wf;
       wr_dag_definition := dump_dag (wf_dag wf); wr_created_at := wf_created_at wf |}]>
    (workflows (w_db w)) →
  ∃ wf', read_workflow (w_db w') (we_workflow_id e) = Ok (Some wf') ∧
    node_ids wf' = node_ids wf ∧ (∀ i j, depends wf' i j ↔ depends wf i j) ∧
    wf_workflow wf' ∧ acyclic wf'.
Proof.
  intros Ha Hwid HW.
  destruct (accept_wf py_str it p w w1 wf Ha) as (Hwf & Hac & Hname & Hnodes).
  destruct (schema_round_trip (wf_dag wf) (wf_workflow_id wf) (wf_name wf) (wf_created_at wf) Hname Hnodes)
    as (wf' & Hload & _ & _ & Hsame).
  destruct (same_nodes_graph wf wf' Hsame) as [Hids Hdeps].
  destruct (same_nodes_wf wf wf' Hsame Hwf Hac) as [Hwf' Hac'].
  exists wf'. split; [|done]. unfold read_workflow. rewrite HW, Hwid, lookup_insert, decide_True by done.
  simpl. by rewrite Hload.
Qed.

(** After a submission, the orchestrator reads back a definition with
    the submitted identifiers and dependencies, and it is a well-formed
    acyclic graph. *)
Theorem submitted_graph_is_stored p w w' s :
  submit (default_rules py_str it) p w = (w', Ok s) →
  ∃ w1 wf e wf', accept (default_rules py_str it) p w = (w1, Ok wf) ∧
    workflow_executions (w_db w') !! ws_execution_id s = Some e ∧
    read_workflow (w_db w') (we_workflow_id e) = Ok (Some wf') ∧
    node_ids wf' = node_ids wf ∧ (∀ i j, depends wf' i j ↔ depends wf i j) ∧
    wf_workflow wf' ∧ acyclic wf'.
Proof.
  intros Hs. apply submit_effect in Hs as (w1 & wf & e & Ha & Hid & _ & Hwid & _ & HW & HE & _).
  destruct (submitted_graph p w w' wf w1 e Ha Hwid HW) as (wf' & Hr & Hg).
  exists w1, wf, e, wf'. split; [done|]. split; [by rewrite HE, Hid, lookup_insert, decide_True|done].
Qed.
End stored.
