(* ===== verification/DispatchSpec.v ===== *)
(** * Dispatch, branch by branch

    A node is claimed at most once, the claim, the logical task, its first
    attempt and the task message are stored together or not at all, and a
    dispatch that claims nothing stores no task. *)

From Stdlib Require Import SpecFloat.
From S2P Require Import Prelude Numerals PyVal States Errors Domain Dag Graph Readiness Failure.
From S2P Require Import Cycles Validation Templates Resolver Json Messages Store Repositories.
From S2P Require Import TaskRepositories Services Dispatch Completion Redis Barriers Outbox Worker.
From S2P Require Import Orchestrator Preservation Evolution TriggerSpec Submission.

(** ** The statuses a service reads *)

Lemma statuses_by_id_lookup l i :
  NoDup (ne_node_id <$> l) →
  (∀ n, n ∈ l → ne_node_id n = i → statuses_by_id l !! i = Some (ne_status n)) ∧
  (i ∉ ne_node_id <$> l → statuses_by_id l !! i = None).
Proof.
  unfold statuses_by_id. induction l as [|n l IH] using rev_ind; [set_solver|].
  rewrite fmap_app, NoDup_app, foldl_app. simpl. intros (Hnd & Hdis & _).
  destruct (IH Hnd) as [IH1 IH2]. split.
  - intros m Hm Hi. apply elem_of_app in Hm as [Hm|Hm].
    + rewrite lookup_insert_ne; [by apply IH1|]. intros Heq.
      apply (Hdis (ne_node_id m)); [by apply list_elem_of_fmap_2|].
      apply list_elem_of_singleton. congruence.
    + apply list_elem_of_singleton in Hm as ->. by rewrite lookup_insert, decide_True.
  - intros Hi. rewrite elem_of_app, list_elem_of_singleton in Hi.
    rewrite lookup_insert_ne by (intros <-; tauto). apply IH2. tauto.
Qed.

(** The status of a node's row. *)
Definition row_status (d : Db) (x : UUID) (i : string) : option NodeExecutionStatus :=
  ne_status <$> node_executions d !! (x, i).

Section node_rows.
Context (d : Db) (Hinv : db_inv d).

Lemma nodes_of_execution_elem x n :
  n ∈ nodes_of_execution x d ↔ node_executions d !! (x, ne_node_id n) = Some n.
Proof.
  unfold nodes_of_execution. rewrite elem_of_rows_where. split.
  - intros ([y i] & Hk & Hx%bool_decide_eq_true). simpl in Hx. subst.
    destruct (inv_node_key _ Hinv _ _ Hk) as [_ Hi]. simpl in Hi. by rewrite Hi.
  - intros Hn. exists (x, ne_node_id n). split; [done|]. by apply bool_decide_eq_true.
Qed.

Lemma nodes_of_execution_NoDup x : NoDup (ne_node_id <$> nodes_of_execution x d).
Proof.
  unfold nodes_of_execution, rows_where.
  assert (Hk : ∀ k n, (k, n) ∈ map_to_list (node_executions d) → ne_node_id n = k.2).
  { intros k n Hkn. apply elem_of_map_to_list in Hkn. by apply (inv_node_key _ Hinv) in Hkn as [_ ?]. }
  pose proof (NoDup_fst_map_to_list (node_executions d)) as Hnd. revert Hk Hnd.
  induction (map_to_list (node_executions d)) as [|[k n] l IH]; intros Hk Hnd; [constructor|].
  csimpl in Hnd. apply NoDup_cons in Hnd as [Hkl Hnd].
  assert (IH' := IH ltac:(intros; apply Hk; by constructor) Hnd). rewrite filter_cons.
  case_decide as Hx; [|done]. csimpl. apply NoDup_cons. split; [|done].
  intros Hin. apply Hkl. apply list_elem_of_fmap in Hin as (m & Heq & Hm).
  apply list_elem_of_fmap in Hm as ([k' m'] & -> & [Hx' Hm']%list_elem_of_filter). simpl in *.
  apply list_elem_of_fmap. exists (k', m'). split; [|done]. simpl.
  rewrite bool_decide_eq_true in Hx, Hx'.
  rewrite (Hk k n), (Hk k' m') in Heq by (constructor; done).
  destruct k, k'; simpl in *; congruence.
Qed.

(** The dictionary of statuses is the table's column. *)
Lemma statuses_lookup x i :
  statuses_by_id (nodes_of_execution x d) !! i = ne_status <$> node_executions d !! (x, i).
Proof.
  destruct (statuses_by_id_lookup _ i (nodes_of_execution_NoDup x)) as [H1 H2].
  destruct (node_executions d !! (x, i)) as [n|] eqn:Hn; simpl.
  - destruct (inv_node_key _ Hinv _ _ Hn) as [_ Hi]. simpl in Hi.
    apply H1; [|done]. apply nodes_of_execution_elem. by rewrite Hi.
  - apply H2. intros (n & -> & Hin)%list_elem_of_fmap. apply nodes_of_execution_elem in Hin. congruence.
Qed.

(** A row of the table is among the rows of its execution. *)
Lemma node_row_elem x i n :
  node_executions d !! (x, i) = Some n → n ∈ nodes_of_execution x d.
Proof.
  intros Hn. apply nodes_of_execution_elem. destruct (inv_node_key _ Hinv _ _ Hn) as [_ Hi].
  simpl in Hi. by rewrite Hi.
Qed.

Lemma failed_rows x :
  existsb (λ n, bool_decide (ne_status n = NFailed)) (nodes_of_execution x d) = true ↔
  ∃ i, row_status d x i = Some NFailed.
Proof.
  rewrite existsb_exists. unfold row_status. split.
  - intros (n & Hin & Hb%bool_decide_eq_true). apply list_elem_of_In, nodes_of_execution_elem in Hin.
    exists (ne_node_id n). by rewrite Hin, <- Hb.
  - intros [i Hi]. destruct (node_executions d !! (x, i)) as [n|] eqn:Hn; [|done].
    injection Hi as Hi. exists n. split; [|by apply bool_decide_eq_true].
    by apply list_elem_of_In, (node_row_elem x i).
Qed.
End node_rows.

(** ** Claiming one node *)

Lemma pending_among_one x i k n :
  pending_among x [i] k n = true ↔ k = (x, i) ∧ ne_status n = NPending.
Proof.
  unfold pending_among, memb. rewrite !andb_true_iff, !bool_decide_eq_true, list_elem_of_singleton.
  destruct k as [y j]; simpl. naive_solver.
Qed.

Lemma update_one_pending (x : UUID) (i : string) (f : NodeExecution → NodeExecution) (t : gmap (UUID * string) NodeExecution) n :
  t !! (x, i) = Some n → ne_status n = NPending →
  update_where (pending_among x [i]) f t = <[(x, i) := f n]> t.
Proof.
  intros Hn Hp. apply map_eq. intros k. rewrite lookup_update_where, lookup_insert.
  destruct (decide ((x, i) = k)) as [<-|Hk].
  - rewrite Hn. simpl. by rewrite (proj2 (pending_among_one x i (x, i) n)).
  - destruct (t !! k) as [m|] eqn:Hm; [|done]. simpl.
    destruct (pending_among x [i] k m) eqn:E; [|done]. apply pending_among_one in E as [-> _]. done.
Qed.

Lemma update_no_pending (x : UUID) (i : string) (f : NodeExecution → NodeExecution) (t : gmap (UUID * string) NodeExecution) :
  (∀ n, t !! (x, i) = Some n → ne_status n ≠ NPending) →
  update_where (pending_among x [i]) f t = t.
Proof.
  intros Hno. apply map_eq. intros k. rewrite lookup_update_where.
  destruct (t !! k) as [m|] eqn:Hm; [|done]. simpl.
  destruct (pending_among x [i] k m) eqn:E; [|done]. apply pending_among_one in E as [-> E].
  by destruct (Hno m Hm).
Qed.

Lemma claimed_one (x : UUID) (i : string) (t : gmap (UUID * string) NodeExecution) :
  snd <$> keys_where (pending_among x [i]) t ≠ [] ↔
  ∃ n, t !! (x, i) = Some n ∧ ne_status n = NPending.
Proof.
  split.
  - destruct (keys_where _ t) as [|k l] eqn:Hk; [done|]. intros _.
    assert (Hin : k ∈ keys_where (pending_among x [i]) t) by (rewrite Hk; constructor).
    apply elem_of_keys_where in Hin as (n & Hn & Hp). apply pending_among_one in Hp as [-> Hp]. eauto.
  - intros (n & Hn & Hp). assert (Hin : (x, i) ∈ keys_where (pending_among x [i]) t).
    { apply elem_of_keys_where. exists n. split; [done|]. by apply pending_among_one. }
    destruct (keys_where _ t); [set_solver|done].
Qed.

(** Some pending row, or none: what a bulk statement over one node does. *)
Lemma claim_cases (x : UUID) (i : string) (t : gmap (UUID * string) NodeExecution) :
  (∃ n, t !! (x, i) = Some n ∧ ne_status n = NPending) ∨
  (∀ n, t !! (x, i) = Some n → ne_status n ≠ NPending).
Proof.
  destruct (t !! (x, i)) as [n|]; [|by right]. destruct (decide (ne_status n = NPending)); [left|right]; naive_solver.
Qed.

Section node_claims.
Context `{Env}.

Lemma claim_pending x i w n :
  node_executions (w_db w) !! (x, i) = Some n → ne_status n = NPending →
  ∃ w' ids, claim_pending_nodes x [i] w = (w', Ok ids) ∧ ids ≠ [] ∧
    w_draws w' = w_draws w ∧ w_ticks w' = S (w_ticks w) ∧
    w_db w' = set_nodes (<[(x, i) := update_node_status NRunning None None None
      (Some (clock (w_ticks w))) None n]> (node_executions (w_db w))) (w_db w).
Proof.
  intros Hn Hp. unfold claim_pending_nodes. run_io. eexists _, _. split; [reflexivity|].
  split; [apply claimed_one; eauto|]. simpl. by rewrite (update_one_pending _ _ _ _ n).
Qed.

Lemma claim_not_pending x i w :
  (∀ n, node_executions (w_db w) !! (x, i) = Some n → ne_status n ≠ NPending) →
  ∃ w', claim_pending_nodes x [i] w = (w', Ok []) ∧ w_db w' = w_db w.
Proof.
  intros Hno.
  assert (Hnil : snd <$> keys_where (pending_among x [i]) (node_executions (w_db w)) = []).
  { destruct (decide (snd <$> keys_where (pending_among x [i]) (node_executions (w_db w)) = []))
      as [|Hc]; [done|]. apply claimed_one in Hc as (n & Hn & Hp). by destruct (Hno n Hn). }
  unfold claim_pending_nodes. run_io. eexists. split.
  - simpl. f_equal. f_equal. exact Hnil.
  - simpl. rewrite update_no_pending by done. by destruct (w_db w).
Qed.

Lemma fail_one x i r t w :
  ∃ w' ids, fail_pending_nodes x [i] r t w = (w', Ok ids) ∧
    w_db w' = set_nodes (update_where (pending_among x [i])
      (update_node_status NFailed None (Some r) (Some "FailedDependency") None (Some t))
      (node_executions (w_db w))) (w_db w).
Proof. unfold fail_pending_nodes. run_io. by eexists _, _. Qed.
End node_claims.

(** ** Registering a task *)

(** The row [register_initial_task] inserts. *)
Definition initial_task (task_id : string) (x : UUID) (i h : string) (c r : pydict) (t : datetime)
    : LogicalTaskRecord :=
  {| lt_task_id := task_id; lt_execution_id := x; lt_node_id := i; lt_handler := h;
     lt_handler_config := c; lt_resolved_input := r; lt_status := LRunning;
     lt_final_error_message := None; lt_final_error_type := None; lt_created_at := t |}.

(** First attempts of a task. *)
Definition first_attempt (task_id : string) (a : TaskAttemptRecord) : Prop :=
  at_task_id a = task_id ∧ at_attempt_number a = 1%Z.

(** A transaction that touches only the two task tables. *)
Definition only_tasks (d d' : Db) : Prop :=
  workflows d' = workflows d ∧ workflow_executions d' = workflow_executions d ∧
  node_executions d' = node_executions d ∧ outbox_events d' = outbox_events d ∧
  task_retry_dispatches d' = task_retry_dispatches d ∧ task_processing d' = task_processing d.

#[export] Instance only_tasks_preorder : PreOrder only_tasks.
Proof. split; unfold only_tasks; [done|]. intros d1 d2 d3. naive_solver congruence. Qed.

Section registration.
Context `{Env}.

Lemma insert_logical_effect l w w' :
  insert_logical_task l w = (w', Ok tt) →
  w_db w' = if has (lt_task_id l) (logical_tasks (w_db w)) then w_db w
            else set_logical_tasks (<[lt_task_id l := l]> (logical_tasks (w_db w))) (w_db w).
Proof.
  unfold insert_logical_task, set_logical_row. run_io.
  destruct (has (lt_task_id l) (logical_tasks (w_db w))); [by intros [= <-]|].
  destruct (has (lt_execution_id l) _); [|done]. simpl.
  destruct (String.length (lt_task_id l) <=? 255); [|done]. simpl.
  destruct (String.length (lt_node_id l) <=? 255); [|done]. simpl.
  destruct (String.length (lt_handler l) <=? 255); [|done]. simpl. by intros [= <-].
Qed.

Lemma insert_attempt_effect a w w' :
  insert_attempt a w = (w', Ok tt) →
  task_attempts (w_db w) !! at_attempt_id a = None ∧
  (∀ k b, task_attempts (w_db w) !! k = Some b →
     ¬ (at_task_id b = at_task_id a ∧ at_attempt_number b = at_attempt_number a)) ∧
  w_db w' = set_attempts (<[at_attempt_id a := a]> (task_attempts (w_db w))) (w_db w).
Proof.
  unfold insert_attempt, set_attempt_row. run_io.
  destruct (has (at_attempt_id a) _) eqn:Hh; simpl; [done|]. apply has_false in Hh.
  destruct (bool_decide (rows_where _ _ ≠ [])) eqn:Hr; simpl; [done|].
  apply bool_decide_eq_false in Hr. apply dec_stable in Hr.
  destruct (has (at_task_id a) _); simpl; [|done]. intros [= <-]. split; [done|]. split; [|done].
  intros k b Hb Hab. apply (elem_of_nil b). rewrite <- Hr. apply elem_of_rows_where.
  exists k. split; [done|]. by apply bool_decide_eq_true.
Qed.

Lemma register_effect tid x i h c r a s w w' a' :
  register_initial_task tid x i h c r a s w = (w', Ok a') →
  only_tasks (w_db w) (w_db w') ∧
  logical_tasks (w_db w') = (if has tid (logical_tasks (w_db w)) then logical_tasks (w_db w)
    else <[tid := initial_task tid x i h c r s]> (logical_tasks (w_db w))) ∧
  ((task_attempts (w_db w') = task_attempts (w_db w) ∧
    ∃ b, task_attempts (w_db w) !! a' = Some b ∧ first_attempt tid b) ∨
   (a' = a ∧ task_attempts (w_db w) !! a = None ∧
    task_attempts (w_db w') =
      <[a := new_attempt a tid 1 ARunning (Some s) None s]> (task_attempts (w_db w)))).
Proof.
  unfold register_initial_task. intros (w1 & [] & Hl%insert_logical_effect & Hr)%io_bind_Ok. simpl in Hl.
  assert (Hw1 : only_tasks (w_db w) (w_db w1) ∧ task_attempts (w_db w1) = task_attempts (w_db w) ∧
    logical_tasks (w_db w1) = (if has tid (logical_tasks (w_db w)) then logical_tasks (w_db w)
      else <[tid := initial_task tid x i h c r s]> (logical_tasks (w_db w)))).
  { rewrite Hl. by destruct (has tid _). }
  clear Hl. destruct Hw1 as (Ho & Ha & Hl).
  apply io_bind_Ok in Hr as (w2 & d & Hd & Hr). injection Hd as <- <-.
  destruct (keys_where _ _) as [|b bs] eqn:Hk.
  - apply io_bind_Ok in Hr as (w3 & [] & (Hnew & _ & Hins)%insert_attempt_effect & Hr).
    injection Hr as <- <-. simpl in Hnew, Hins. rewrite Hins, <- Ha. simpl.
    split; [by etrans; [exact Ho|]|]. split; [done|]. by right.
  - injection Hr as <- <-. split; [done|]. split; [done|]. left. split; [done|].
    assert (Hin : b ∈ b :: bs) by constructor. rewrite <- Hk in Hin.
    apply elem_of_keys_where in Hin as (v & Hv & Hp%bool_decide_eq_true). rewrite <- Ha. eauto.
Qed.

Lemma add_message_effect mid ty s p ag w w' :
  add_message mid ty s p ag w = (w', Ok tt) →
  outbox_events (w_db w) !! mid = None ∧
  w_db w' = set_outbox (<[mid := {| ob_event_id := mid; ob_event_type := ty; ob_aggregate_id := ag;
    ob_target_stream := s; ob_payload := p; ob_status := OPending; ob_publish_attempts := 0;
    ob_last_error := None; ob_created_at := clock (w_ticks w); ob_published_at := None |}]>
    (outbox_events (w_db w))) (w_db w).
Proof.
  unfold add_message. run_io. simpl. destruct (has mid (outbox_events (w_db w))) eqn:Hh; simpl; [done|].
  destruct (String.length ty <=? 128); simpl; [|done].
  destruct (String.length s <=? 128); simpl; [|done]. intros [= <-]. split; [by apply has_false|done].
Qed.
End registration.

(** ** Dispatch *)

Section dispatch.
Context `{WorkflowSchema} `{Env} `{Json} `{Pydantic}.
Variables (float_str : spec_float → string) (repr : string → string).

(** The message a dispatch stores. *)
Definition dispatched_message (x : UUID) (node : WorkflowNode) (tid : string) (a : UUID)
    (input : pydict) : NodeTaskMessage :=
  {| tm_message_id := None; tm_task_id := tid; tm_attempt_id := a;
     tm_attempt_number := 1; tm_execution_id := x; tm_node_id := wn_id node;
     tm_handler := wn_handler node; tm_handler_config := wn_config node;
     tm_resolved_input := input |}.

(** A task is stored: its logical task, its first attempt, and the message
    that carries it to the workers. *)
Definition task_stored (x : UUID) (node : WorkflowNode) (tid : string) (input : pydict) (d d' : Db)
    : Prop :=
  ∃ a s m mid row,
    logical_tasks d' = (if has tid (logical_tasks d) then logical_tasks d
      else <[tid := initial_task tid x (wn_id node) (wn_handler node) (wn_config node) input s]>
             (logical_tasks d)) ∧
    (∃ b, task_attempts d' !! a = Some b ∧ first_attempt tid b) ∧
    (task_attempts d' = task_attempts d ∨
     task_attempts d !! a = None ∧ task_attempts d' = <[a := new_attempt a tid 1 ARunning (Some s) None s]> (task_attempts d)) ∧
    NodeTaskMessage_init (dispatched_message x node tid a input) = Ok m ∧ py_UUID tid = Ok mid ∧
    outbox_events d !! mid = None ∧ outbox_events d' = <[mid := row]> (outbox_events d) ∧
    ob_status row = OPending ∧ ob_target_stream row = WORKFLOW_TASKS_STREAM ∧
    ob_payload row = task_payload m.

(** What a claim stores, from the tables [d] to the tables [d']. *)
Record claimed (e : WorkflowExecution) (node : WorkflowNode) (d d' : Db) : Prop := {
  cl_row : ∃ n t, node_executions d !! (we_execution_id e, wn_id node) = Some n ∧
    ne_status n = NPending ∧
    node_executions d' = <[(we_execution_id e, wn_id node) :=
      update_node_status NRunning None None None (Some t) None n]> (node_executions d);
  cl_task : ∃ input,
    resolve float_str repr (completed_dependency_outputs (we_execution_id e) node
      (nodes_of_execution (we_execution_id e) d)) node (we_input_data e) = Ok input ∧
    task_stored (we_execution_id e) node (create_task_id (we_execution_id e) (wn_id node)) input d d';
  cl_kept : workflows d' = workflows d ∧ workflow_executions d' = workflow_executions d ∧
    task_retry_dispatches d' = task_retry_dispatches d ∧ task_processing d' = task_processing d;
}.

Lemma store_task_effect x node tid input a w w' :
  store_task x node tid input a w = (w', Ok tt) →
  task_stored x node tid input (w_db w) (w_db w') ∧
  node_executions (w_db w') = node_executions (w_db w) ∧
  workflows (w_db w') = workflows (w_db w) ∧
  workflow_executions (w_db w') = workflow_executions (w_db w) ∧
  task_retry_dispatches (w_db w') = task_retry_dispatches (w_db w) ∧
  task_processing (w_db w') = task_processing (w_db w).
Proof.
  unfold store_task. intros (w5 & s & Hs & Hrun)%io_bind_Ok. injection Hs as <- <-.
  apply io_bind_Ok in Hrun as (w6 & a' & Hreg & Hrun).
  apply register_effect in Hreg as ((OW & OE & ON & OO & OD & OP) & HL & HA).
  apply io_bind_Ok in Hrun as (w7 & m & Hm & Hrun). injection Hm as <- Hm.
  apply io_bind_Ok in Hrun as (w8 & mid & Hmid & Hrun). injection Hmid as <- Hmid.
  apply add_message_effect in Hrun as [Hfresh ->]. cbn [w_db] in *. rewrite OO in Hfresh.
  split; [|by simpl; rewrite ON, OW, OE, OD, OP].
  eexists a', _, m, mid, _. split; [exact HL|]. split.
  { destruct HA as [[HA Hb]|(-> & _ & HA)]; simpl; rewrite HA; [done|].
    rewrite lookup_insert, decide_True by done. by eexists. }
  split; [destruct HA as [[HA _]|(-> & Hnew & HA)]; simpl; rewrite HA; [by left|by right]|].
  split; [exact Hm|]. split; [exact Hmid|]. split; [exact Hfresh|]. simpl. rewrite OO. split; [reflexivity|done].
Qed.

(** Only node rows change. *)
Definition no_task_stored (d d' : Db) : Prop := ∃ t, d' = set_nodes t d.

Lemma dispatch_body_failed_dependency e node w :
  is_Some (workflow_executions (w_db w) !! we_execution_id e) →
  dependency_failed node (statuses_by_id (nodes_of_execution (we_execution_id e) (w_db w))) = true →
  ∃ w' t r, dispatch_body float_str repr e node w = (w', Ok None) ∧
    w_db w' = set_nodes (update_where (pending_among (we_execution_id e) [wn_id node])
      (update_node_status NFailed None (Some r) (Some "FailedDependency") None (Some t))
      (node_executions (w_db w))) (w_db w).
Proof.
  intros [e' He] Hf. unfold dispatch_body, get_execution_by_id_for_update, get_node_executions_for_execution.
  run_io. rewrite He, Hf.
  match goal with |- context [fail_pending_nodes ?x [?i] ?r ?t ?w0] =>
    destruct (fail_one x i r t w0) as (w' & ids & -> & Hd) end.
  eexists _, _, _. split; [reflexivity|]. exact Hd.
Qed.

Lemma dispatch_body_Ok e node w w' c :
  dispatch_body float_str repr e node w = (w', Ok c) →
  is_Some (workflow_executions (w_db w) !! we_execution_id e) ∧
  match c with
  | None => dependency_failed node
      (statuses_by_id (nodes_of_execution (we_execution_id e) (w_db w))) = true
  | Some c' => dependency_failed node
      (statuses_by_id (nodes_of_execution (we_execution_id e) (w_db w))) = false ∧
      if c' then claimed e node (w_db w) (w_db w')
      else w_db w' = w_db w ∧ ∀ n, node_executions (w_db w) !! (we_execution_id e, wn_id node) = Some n →
             ne_status n ≠ NPending
  end.
Proof.
  intros Hrun.
  destruct (workflow_executions (w_db w) !! we_execution_id e) as [e'|] eqn:He.
  2:{ unfold dispatch_body, get_execution_by_id_for_update in Hrun. run_io in Hrun. by rewrite He in Hrun. }
  split; [done|].
  destruct (dependency_failed node (statuses_by_id (nodes_of_execution (we_execution_id e) (w_db w)))) eqn:Hf.
  { destruct (dispatch_body_failed_dependency e node w) as (w1 & t & r & Hr & _); [by rewrite He|done|].
    rewrite Hr in Hrun. by injection Hrun as _ <-. }
  unfold dispatch_body in Hrun.
  apply io_bind_Ok in Hrun as (w1 & l & Hl & Hrun). injection Hl as <- <-. rewrite He in Hrun.
  apply io_bind_Ok in Hrun as (w1 & ns & Hl & Hrun). injection Hl as <- <-. rewrite Hf in Hrun.
  apply io_bind_Ok in Hrun as (w1 & input & Hl & Hrun). injection Hl as <- Hres.
  apply io_bind_Ok in Hrun as (w2 & ids & Hc & Hrun).
  apply io_bind_Ok in Hrun as (w3 & a & Ha & Hrun). injection Ha as <- _.
  destruct (claim_cases (we_execution_id e) (wn_id node) (node_executions (w_db w))) as [(n & Hn & Hp)|Hno].
  2:{ destruct (claim_not_pending _ _ _ Hno) as (w2' & Hc' & Hd). rewrite Hc' in Hc.
      injection Hc as <- <-. rewrite bool_decide_eq_false_2 in Hrun by naive_solver.
      injection Hrun as <- <-. done. }
  destruct (claim_pending _ _ _ n Hn Hp) as (w2' & ids' & Hc' & Hne & _ & _ & Hd).
  rewrite Hc' in Hc. injection Hc as <- <-. rewrite bool_decide_eq_true_2 in Hrun by done.
  apply io_bind_Ok in Hrun as (w4 & [] & Hrun & Hret). injection Hret as -> <-. split; [done|].
  apply store_task_effect in Hrun as (Hst & HN & HW & HE & HD & HP). simpl in Hst, HN, HW, HE, HD, HP.
  rewrite Hd in Hst, HN, HW, HE, HD, HP. split.
  - exists n, (clock (w_ticks w)). done.
  - exists input. split; [exact Hres|exact Hst].
  - done.
Qed.

Lemma dependency_failed_spec d x node :
  db_inv d →
  dependency_failed node (statuses_by_id (nodes_of_execution x d)) = true ↔
  ∃ dep, dep ∈ wn_dependencies node ∧ row_status d x dep = Some NFailed.
Proof.
  intros Hinv. unfold dependency_failed, row_status. rewrite existsb_exists. split.
  - intros (dep & Hin & Hb%bool_decide_eq_true). rewrite statuses_lookup in Hb by done.
    exists dep. by rewrite list_elem_of_In.
  - intros (dep & Hin & Hst). exists dep. rewrite list_elem_of_In in Hin. split; [done|].
    apply bool_decide_eq_true. by rewrite statuses_lookup.
Qed.

Lemma dispatch_inv e node w w' r :
  dispatch float_str repr e node w = (w', Ok r) →
  dp_execution_id r = we_execution_id e ∧ dp_node_id r = wn_id node ∧
  ∃ c, dispatch_body float_str repr e node w = (w', Ok c) ∧
       dp_outcome r = match c with Some true => DISPATCHED | _ => ALREADY_STARTED end.
Proof.
  unfold dispatch. intros (w1 & c & Hc%transaction_Ok_inv & Hr)%io_bind_Ok. injection Hr as <- <-.
  destruct c as [[]|]; (split; [done|]); (split; [done|]); eexists; (split; [exact Hc|done]).
Qed.

Lemma dispatch_Raise e node w w' exc :
  dispatch float_str repr e node w = (w', Raise exc) → w_db w' = w_db w.
Proof.
  unfold dispatch. unfold mbind, io_bind.
  destruct (transaction (dispatch_body float_str repr e node) w) as [w1 [c|exc']] eqn:Ht; [done|].
  intros [= <- _]. by apply transaction_rollback in Ht.
Qed.

(** C10: dispatching one node, on every branch.  A node reported as
    dispatched was pending with no failed dependency; it is now running and
    its logical task, first attempt and task message are stored in the same
    transaction.  A node reported as already started has no task stored for
    it: either a dependency has failed, and then it is failed if it was
    pending, or it was not pending and nothing is written.  An exception
    leaves every table as it was. *)
Theorem dispatch_correct e node w :
  db_inv (w_db w) →
  match dispatch float_str repr e node w with
  | (w', Raise _) => w_db w' = w_db w
  | (w', Ok r) =>
      let x := we_execution_id e in
      let blocked := ∃ dep, dep ∈ wn_dependencies node ∧ row_status (w_db w) x dep = Some NFailed in
      dp_execution_id r = x ∧ dp_node_id r = wn_id node ∧
      match dp_outcome r with
      | DISPATCHED => ¬ blocked ∧ claimed e node (w_db w) (w_db w')
      | ALREADY_STARTED =>
          no_task_stored (w_db w) (w_db w') ∧
          (¬ blocked → w_db w' = w_db w ∧ row_status (w_db w) x (wn_id node) ≠ Some NPending) ∧
          (blocked → ∀ k n, node_executions (w_db w) !! k = Some n →
             row_status (w_db w') k.1 k.2 =
               Some (if decide (k = (x, wn_id node) ∧ ne_status n = NPending) then NFailed
                     else ne_status n))
      | FAILED_TO_PUBLISH => False
      end
  end.
Proof.
  intros Hinv. destruct (dispatch float_str repr e node w) as [w' [r|exc]] eqn:Hrun.
  2:{ by apply dispatch_Raise in Hrun. }
  apply dispatch_inv in Hrun as (Hx & Hi & c & Hb & Ho). cbv zeta.
  pose proof (dispatch_body_Ok e node w w' c Hb) as [He Hc].
  split; [done|]. split; [done|]. rewrite Ho. destruct c as [[]|].
  all: rewrite <- (dependency_failed_spec _ _ _ Hinv).
  - destruct Hc as [-> Hc]. done.
  - destruct Hc as (-> & -> & Hno). split; [exists (node_executions (w_db w)); by destruct (w_db w)|].
    split; [|done]. intros _. split; [done|]. unfold row_status.
    destruct (node_executions (w_db w) !! (we_execution_id e, wn_id node)) as [n|]; [|done]. simpl. naive_solver.
  - destruct (dispatch_body_failed_dependency e node w He Hc) as (w1 & t & m & Hb' & Hd).
    rewrite Hb in Hb'. injection Hb' as <-. split; [rewrite Hd; by eexists|].
    split; [by rewrite Hc|]. intros _ [y j] n Hn. unfold row_status. rewrite Hd. simpl.
    rewrite lookup_update_where, Hn. simpl.
    destruct (decide ((y, j) = (we_execution_id e, wn_id node) ∧ ne_status n = NPending)) as [Hd'|Hd'].
    + by rewrite (proj2 (pending_among_one _ _ _ _) Hd').
    + destruct (pending_among _ _ _ _) eqn:E; [|done]. by apply pending_among_one in E.
Qed.
End dispatch.

(** ** Enough for a dispatch to succeed *)

Section dispatch_runs.
Context `{WorkflowSchema} `{Env} `{Json} `{Pydantic}.
Variables (float_str : spec_float → string) (repr : string → string).

Lemma insert_logical_run l w :
  logical_tasks (w_db w) !! lt_task_id l = None →
  is_Some (workflow_executions (w_db w) !! lt_execution_id l) →
  (String.length (lt_task_id l) <=? 255) = true → (String.length (lt_node_id l) <=? 255) = true →
  (String.length (lt_handler l) <=? 255) = true →
  insert_logical_task l w =
    (set_db (set_logical_tasks (<[lt_task_id l := l]> (logical_tasks (w_db w))) (w_db w)) w, Ok tt).
Proof.
  intros Hl Hx L1 L2 L3. unfold insert_logical_task, set_logical_row. run_io.
  apply has_false in Hl. apply has_true in Hx. rewrite Hl, Hx, L1, L2, L3. done.
Qed.

Lemma insert_attempt_run a w :
  task_attempts (w_db w) !! at_attempt_id a = None →
  (∀ k b, task_attempts (w_db w) !! k = Some b → at_task_id b ≠ at_task_id a) →
  is_Some (logical_tasks (w_db w) !! at_task_id a) →
  insert_attempt a w =
    (set_db (set_attempts (<[at_attempt_id a := a]> (task_attempts (w_db w))) (w_db w)) w, Ok tt).
Proof.
  intros Ha Hno Hl. unfold insert_attempt, set_attempt_row. run_io.
  apply has_false in Ha. apply has_true in Hl. rewrite Ha, Hl. simpl.
  rewrite bool_decide_eq_false_2; [done|]. intros Hne. apply Hne.
  destruct (rows_where _ _) as [|b l] eqn:Hr; [done|].
  assert (Hin : b ∈ b :: l) by constructor. rewrite <- Hr in Hin.
  apply elem_of_rows_where in Hin as (k & Hk & [Hb _]%bool_decide_eq_true). by destruct (Hno k b Hk).
Qed.

Lemma add_message_run mid ty s p ag w :
  outbox_events (w_db w) !! mid = None → (String.length ty <=? 128) = true →
  (String.length s <=? 128) = true → ∃ w', add_message mid ty s p ag w = (w', Ok tt).
Proof.
  intros Hm L1 L2. unfold add_message. run_io. cbn [w_db]. apply has_false in Hm. rewrite Hm, L1, L2.
  by eexists.
Qed.

Lemma register_run tid x i h c r a s w :
  logical_tasks (w_db w) !! tid = None → is_Some (workflow_executions (w_db w) !! x) →
  (String.length tid <=? 255) = true → (String.length i <=? 255) = true →
  (String.length h <=? 255) = true → task_attempts (w_db w) !! a = None →
  (∀ k b, task_attempts (w_db w) !! k = Some b → at_task_id b ≠ tid) →
  ∃ w', register_initial_task tid x i h c r a s w = (w', Ok a) ∧
        outbox_events (w_db w') = outbox_events (w_db w).
Proof.
  intros Hl Hx L1 L2 L3 Ha Hno. unfold register_initial_task.
  erewrite io_bind_run by (apply insert_logical_run; done). erewrite io_bind_run by reflexivity.
  cbn [lt_task_id set_db w_db set_logical_tasks task_attempts].
  destruct (keys_where _ _) as [|k l] eqn:Hk.
  - erewrite io_bind_run.
    2:{ apply insert_attempt_run; try done.
        cbn [at_task_id new_attempt set_db w_db set_logical_tasks logical_tasks].
        rewrite lookup_insert, decide_True by done. done. }
    by eexists.
  - exfalso. assert (Hin : k ∈ k :: l) by constructor. rewrite <- Hk in Hin.
    apply elem_of_keys_where in Hin as (b & Hb & [Ht _]%bool_decide_eq_true). by apply (Hno k b).
Qed.

Lemma store_task_run x node tid input a mid w :
  logical_tasks (w_db w) !! tid = None → is_Some (workflow_executions (w_db w) !! x) →
  (String.length tid <=? 255) = true → (String.length (wn_id node) <=? 255) = true →
  (String.length (wn_handler node) <=? 255) = true → task_attempts (w_db w) !! a = None →
  (∀ k b, task_attempts (w_db w) !! k = Some b → at_task_id b ≠ tid) →
  tid ≠ "" → wn_id node ≠ "" → wn_handler node ≠ "" → py_UUID tid = Ok mid →
  outbox_events (w_db w) !! mid = None →
  ∃ w', store_task x node tid input a w = (w', Ok tt).
Proof.
  intros Hl Hx L1 L2 L3 Ha Hno Ht Hi Hh Hmid Ho. unfold store_task.
  erewrite io_bind_run by reflexivity.
  match goal with |- context [register_initial_task _ _ _ _ _ _ _ ?s ≫= _] =>
    match goal with |- context [mbind _ _ ?w0] =>
      destruct (register_run tid x (wn_id node) (wn_handler node) (wn_config node) input a s w0)
        as (w1 & Hreg & Hout); try done end end.
  erewrite io_bind_run by exact Hreg.
  unfold NodeTaskMessage_init, valid_task_message. cbn [tm_task_id tm_attempt_number tm_node_id tm_handler].
  rewrite !(proj2 (String.eqb_neq _ _)) by done. simpl negb. simpl andb. rewrite Hmid.
  do 2 erewrite io_bind_run by reflexivity. apply add_message_run; [by rewrite Hout|done|done].
Qed.

Lemma dispatch_body_run e node input w n :
  let x := we_execution_id e in
  let u := uuid5 TASK_ID_NAMESPACE (uuid_str x +:+ ":" +:+ wn_id node) in
  is_Some (workflow_executions (w_db w) !! x) →
  node_executions (w_db w) !! (x, wn_id node) = Some n → ne_status n = NPending →
  dependency_failed node (statuses_by_id (nodes_of_execution x (w_db w))) = false →
  resolve float_str repr (completed_dependency_outputs x node (nodes_of_execution x (w_db w)))
    node (we_input_data e) = Ok input →
  node_model_ok node → (String.length (wn_id node) <=? 255) = true →
  (String.length (wn_handler node) <=? 255) = true → (u < uuid_bound)%N →
  logical_tasks (w_db w) !! uuid_str u = None →
  (∀ k b, task_attempts (w_db w) !! k = Some b → at_task_id b ≠ uuid_str u) →
  task_attempts (w_db w) !! uuid4_draw (w_draws w) = None → outbox_events (w_db w) !! u = None →
  ∃ w', dispatch_body float_str repr e node w = (w', Ok (Some true)).
Proof.
  intros x u [e' He] Hn Hp Hf Hres [Hi Hh] L2 L3 Hu Hl Hno Ha Ho. unfold dispatch_body.
  fold x. change (create_task_id x (wn_id node)) with (uuid_str u). clearbody u.
  erewrite io_bind_run by reflexivity. rewrite He. erewrite io_bind_run by reflexivity. rewrite Hf.
  erewrite io_bind_run by (unfold lift; rewrite Hres; reflexivity).
  destruct (claim_pending x (wn_id node) w n Hn Hp) as (w1 & ids & Hc & Hne & Hdr & _ & Hd).
  erewrite io_bind_run by exact Hc. erewrite io_bind_run by reflexivity.
  rewrite bool_decide_eq_true_2 by done.
  match goal with |- context [(store_task x node (uuid_str u) input ?a ≫= _) ?w0] =>
    destruct (store_task_run x node (uuid_str u) input a u w0) as (w2 & Hs);
      [..|erewrite io_bind_run by exact Hs; by eexists] end.
  all: cbn [w_db w_draws]; rewrite ?Hd, ?Hdr; try done.
  unfold py_UUID. by rewrite uuid_parse_str.
Qed.

(** A ready node is dispatched.  When the execution exists, the node is
    pending, none of its dependencies has failed, its input resolves, its
    names fit their columns and its task is new, the dispatch returns
    DISPATCHED. *)
Theorem dispatch_progress e node input w n :
  let x := we_execution_id e in
  let u := uuid5 TASK_ID_NAMESPACE (uuid_str x +:+ ":" +:+ wn_id node) in
  db_inv (w_db w) → is_Some (workflow_executions (w_db w) !! x) →
  node_executions (w_db w) !! (x, wn_id node) = Some n → ne_status n = NPending →
  (∀ dep, dep ∈ wn_dependencies node → row_status (w_db w) x dep ≠ Some NFailed) →
  resolve float_str repr (completed_dependency_outputs x node (nodes_of_execution x (w_db w)))
    node (we_input_data e) = Ok input →
  node_model_ok node → String.length (wn_id node) ≤ 255 → String.length (wn_handler node) ≤ 255 →
  (u < uuid_bound)%N → logical_tasks (w_db w) !! uuid_str u = None →
  (∀ k b, task_attempts (w_db w) !! k = Some b → at_task_id b ≠ uuid_str u) →
  task_attempts (w_db w) !! uuid4_draw (w_draws w) = None → outbox_events (w_db w) !! u = None →
  ∃ w' r, dispatch float_str repr e node w = (w', Ok r) ∧ dp_outcome r = DISPATCHED ∧
          dp_task_id r = Some (uuid_str u).
Proof.
  intros x u Hinv He Hn Hp Hdeps Hres Hok L2%Nat.leb_le L3%Nat.leb_le Hu Hl Hno Ha Ho.
  destruct (dispatch_body_run e node input w n) as [w' Hb]; try done.
  - apply not_true_iff_false. rewrite (dependency_failed_spec _ _ _ Hinv). naive_solver.
  - unfold dispatch. erewrite io_bind_run by (apply transaction_Ok; exact Hb).
    eexists _, _. split; [reflexivity|]. done.
Qed.
End dispatch_runs.

Section dispatch_once.
Context `{WorkflowSchema} `{Env} `{Json} `{Pydantic} `{Host}.
Variables (float_str : spec_float → string) (repr : string → string).
Variable pow : spec_float → Z → py spec_float.
Variable policy : RetryPolicy.
Variable rules : list rule.

Lemma node_running_not_pending s : node_moves NRunning s → s ≠ NPending.
Proof.
  intros Hm ->. inversion Hm as [|? s2 ? Hs Hm2]; subst. unfold node_step in Hs. simpl in Hs.
  assert (Ht : node_terminal s2 = true) by (destruct s2; set_solver).
  apply node_terminal_moves in Hm2; [|done]. subst. done.
Qed.

(** C11: a node is dispatched at most once: after a dispatch that claimed it,
    and whatever the processes do in between, no later dispatch of the same
    node of the same execution claims it, and none stores a task, an attempt
    or a message. *)
Theorem dispatch_at_most_once e node w w1 r ops e2 node2 :
  db_inv (w_db w) → dispatch float_str repr e node w = (w1, Ok r) → dp_outcome r = DISPATCHED →
  we_execution_id e2 = we_execution_id e → wn_id node2 = wn_id node →
  let w2 := run_operations float_str repr pow policy rules ops w1 in
  let '(w3, r2) := dispatch float_str repr e2 node2 w2 in
  no_task_stored (w_db w2) (w_db w3) ∧
  match r2 with Ok r' => dp_outcome r' = ALREADY_STARTED | Raise _ => True end.
Proof.
  intros Hinv Hd Ho He2 Hn2 w2.
  assert (Hinv1 : db_inv (w_db w1)).
  { pose proof (dispatch_kept policy evolves float_str repr e node w Hinv) as [H' _]. by rewrite Hd in H'. }
  apply dispatch_inv in Hd as (_ & _ & c & Hb & Hc). rewrite Ho in Hc.
  destruct c as [[]|]; try done. apply dispatch_body_Ok in Hb as (_ & _ & [Hrow _ _]).
  destruct Hrow as (n & t & _ & _ & Hrow).
  destruct (run_operations_evolves float_str repr pow policy rules ops w1 Hinv1) as [_ [_ _ Hmv]].
  destruct (Hmv (we_execution_id e, wn_id node)
    (update_node_status NRunning None None None (Some t) None n)) as (n2 & Hn2' & Hm).
  { rewrite Hrow, lookup_insert, decide_True by done. done. }
  apply node_running_not_pending in Hm. fold w2 in Hn2'.
  destruct (dispatch float_str repr e2 node2 w2) as [w3 [r2|exc]] eqn:Hd2.
  - apply dispatch_inv in Hd2 as (_ & _ & c2 & Hb2 & Hc2). pose proof Hb2 as Hb2'.
    apply dispatch_body_Ok in Hb2 as [He Hb2]. destruct c2 as [[]|].
    + destruct Hb2 as [_ [(n3 & t3 & Hn3 & Hp3 & _) _ _]]. rewrite He2, Hn2 in Hn3. congruence.
    + destruct Hb2 as (_ & -> & _). split; [exists (node_executions (w_db w2)); by destruct (w_db w2)|done].
    + destruct (dispatch_body_failed_dependency float_str repr e2 node2 w2 He Hb2) as (w' & t' & r' & Hb' & Hdb).
      rewrite Hb2' in Hb'. injection Hb' as <-. split; [rewrite Hdb; by eexists|done].
  - apply dispatch_Raise in Hd2. rewrite Hd2. split; [|done].
    exists (node_executions (w_db w2)). by destruct (w_db w2).
Qed.
End dispatch_once.
