(* ===== verification/QuerySpec.v ===== *)
(** * Status and results

    The queries write nothing, report the stored rows, and expose results of a
    completed execution only. *)

From S2P Require Import Prelude Numerals PyVal States Errors Domain Messages Store Repositories.
From S2P Require Import Services Preservation Evolution TriggerSpec Submission DispatchSpec.

(** The results of an execution.  The query writes nothing and answers
    [None] exactly for an unknown execution.  Node results are given exactly
    when the execution is completed and none of its nodes has failed, they are
    then the stored rows of its completed nodes, and otherwise a message says
    why there are none. *)
Theorem results_correct x w :
  db_inv (w_db w) →
  ∃ r, results_get x w = (w, Ok r) ∧
  match workflow_executions (w_db w) !! x with
  | None => r = None
  | Some e => ∃ res, r = Some res ∧ er_execution res = e ∧
      let failed := ∃ i, row_status (w_db w) x i = Some NFailed in
      (is_Some (er_results res) ↔ we_status e = WCompleted ∧ ¬ failed) ∧
      (er_results res = None ↔ is_Some (er_message res)) ∧
      (∀ l, er_results res = Some l → ∀ v, v ∈ l ↔
         ∃ i n, node_executions (w_db w) !! (x, i) = Some n ∧ ne_status n = NCompleted ∧ v = node_result n)
  end.
Proof.
  intros Hinv. unfold results_get, status_get, get_execution_by_id, get_node_executions_for_execution. run_io.
  destruct (workflow_executions (w_db w) !! x) as [e|] eqn:He; [|by eexists].
  eexists. split; [reflexivity|]. eexists. split; [reflexivity|]. unfold results_of. simpl.
  pose proof (failed_rows (w_db w) Hinv x) as Hf.
  destruct (we_status e) eqn:Hs; simpl; try (split; [done|]; split; [|split; [|done]];
    [split; [by intros [? ?]|by intros [? _]]|done]).
  destruct (existsb _ _) eqn:Hex; simpl.
  - split; [done|]. split; [|split; [done|done]]. split; [by intros [? ?]|].
    intros [_ Hn]. destruct Hn. by apply Hf.
  - split; [done|]. split; [|split].
    + split; [|by eexists]. intros _. split; [done|]. by rewrite <- Hf.
    + split; [done|by intros [? ?]].
    + intros l [= <-] v. rewrite list_elem_of_fmap. split.
      * intros (n & -> & [Hc Hn]%list_elem_of_filter). apply nodes_of_execution_elem in Hn; [|done]. eauto.
      * intros (i & n & Hn & Hc & ->). exists n. split; [done|]. apply list_elem_of_filter. split; [done|].
        by apply (node_row_elem _ Hinv x i).
Qed.
