(* ===== verification/Api.v ===== *)
(** * The HTTP endpoints

    src/app/api/workflows.py, responses.py and main.py: each endpoint as an
    operation that returns a status code and a JSON body.  The request schemas
    (src/app/api/requests.py, modelled in [Requests]) are enforced by FastAPI
    and Pydantic before an endpoint runs: [submit_workflow] receives what
    [model_dump] gives, here any payload, and [trigger_workflow_execution] the
    optional [input].  How Pydantic prints a
    time is the parameter [json_datetime]. *)

From S2P Require Import Prelude Numerals PyVal States Errors Domain Dag Graph Validation Messages.
From S2P Require Import Store Repositories Services Evolution TriggerSpec Submission DispatchSpec.

Record HttpResponse : Type := Response { status_code : Z; content : pyobj }.

Definition HTTP_200_OK : Z := 200.
Definition HTTP_201_CREATED : Z := 201.
Definition HTTP_202_ACCEPTED : Z := 202.
Definition HTTP_404_NOT_FOUND : Z := 404.
Definition HTTP_422_UNPROCESSABLE_CONTENT : Z := 422.
Definition HTTP_503_SERVICE_UNAVAILABLE : Z := 503.

(** ** Responses *)

(** [value.upper()], on ASCII. *)
Definition upper_char (c : Ascii.ascii) : Ascii.ascii :=
  if is_lower c then Ascii.ascii_of_nat (code c - 32) else c.
Fixpoint upper (s : string) : string :=
  match s with EmptyString => EmptyString | String c s' => String (upper_char c) (upper s') end.

Definition _serialize_status (value : string) : string := upper value.

Definition json_opt (s : option string) : pyobj := match s with Some s => PStr s | None => PNone end.

Definition error_response (code : Z) (error_code message : string) : HttpResponse :=
  Response code (PDict (obj [("error_code", PStr error_code); ("message", PStr message)])).

(** [HTTPException(404, ...)], as FastAPI answers it. *)
Definition not_found : HttpResponse :=
  Response HTTP_404_NOT_FOUND (PDict (obj [("detail", PStr "Workflow execution not found.")])).

Definition ValidationErrorItemResponse (e : WorkflowValidationError) : pyobj :=
  PDict (obj [("code", PStr (ve_code e)); ("message", PStr (ve_message e)); ("path", PStr (ve_path e));
              ("node_id", json_opt (ve_node_id e)); ("dependency_id", json_opt (ve_dependency_id e));
              ("meta", PDict (obj (prod_map id PStr <$> ve_meta e)))]).

Definition validation_failed (errors : list WorkflowValidationError) : HttpResponse :=
  Response HTTP_422_UNPROCESSABLE_CONTENT
    (PDict (obj [("error_code", PStr "workflow_validation_failed");
                 ("message", PStr "Workflow definition failed validation.");
                 ("errors", PList (ValidationErrorItemResponse <$> errors))])).

Section endpoints.
Context `{WorkflowSchema} `{Env}.
Variable rules : list rule.
Variable json_datetime : datetime → string.

Definition json_time (t : datetime) : pyobj := PStr (json_datetime t).
Definition json_time_opt (t : option datetime) : pyobj :=
  match t with Some t => json_time t | None => PNone end.

Definition WorkflowSubmissionResponse (s : WorkflowSubmission) : pyobj :=
  PDict (obj [("execution_id", PStr (uuid_str (ws_execution_id s))); ("name", PStr (ws_name s));
              ("created_at", json_time (ws_created_at s))]).

Definition NodeExecutionStatusResponseItem (n : NodeExecution) : pyobj :=
  PDict (obj [("node_id", PStr (ne_node_id n));
              ("status", PStr (_serialize_status (node_status_value (ne_status n))));
              ("created_at", json_time (ne_created_at n));
              ("started_at", json_time_opt (ne_started_at n));
              ("completed_at", json_time_opt (ne_completed_at n))]).

Definition execution_fields (e : WorkflowExecution) : list (string * pyobj) :=
  [("execution_id", PStr (uuid_str (we_execution_id e)));
   ("workflow_id", PStr (uuid_str (we_workflow_id e)));
   ("status", PStr (_serialize_status (workflow_status_value (we_status e))));
   ("created_at", json_time (we_created_at e));
   ("started_at", json_time_opt (we_started_at e));
   ("completed_at", json_time_opt (we_completed_at e))].

Definition WorkflowExecutionStatusResponsePayload (s : WorkflowExecutionState) : pyobj :=
  PDict (obj (execution_fields (ws_execution s) ++
    [("nodes", PList (NodeExecutionStatusResponseItem <$> ws_node_executions s))])).

(** Unlike the other payloads, this one declares no status serializer: the
    status is printed as its value. *)
Definition WorkflowTriggerResponse (d : WorkflowTriggerDecision) : pyobj :=
  PDict (obj [("execution_id", PStr (uuid_str (wt_execution_id d)));
              ("status", PStr (workflow_status_value (wt_status d)))]).

Definition WorkflowResultNodeResponseItem (r : WorkflowNodeResult) : pyobj :=
  PDict (obj [("node_id", PStr (nr_node_id r));
              ("status", PStr (_serialize_status (node_status_value (nr_status r))));
              ("output_data", nr_output_data r);
              ("error_message", json_opt (nr_error_message r));
              ("error_type", json_opt (nr_error_type r));
              ("created_at", json_time (nr_created_at r));
              ("started_at", json_time_opt (nr_started_at r));
              ("completed_at", json_time_opt (nr_completed_at r))]).

Definition WorkflowExecutionResultsResponsePayload (r : WorkflowExecutionResults) : pyobj :=
  PDict (obj (execution_fields (er_execution r) ++
    [("message", json_opt (er_message r));
     ("results", match er_results r with
                 | None => PNone
                 | Some l => PList (WorkflowResultNodeResponseItem <$> l)
                 end)])).

(** ** Endpoints *)

Definition submit_workflow (definition : pydict) : IO HttpResponse :=
  submission ← try_io (submit rules definition);
  match submission with
  | Ok s => mret (Response HTTP_201_CREATED (WorkflowSubmissionResponse s))
  | Raise (InvalidWorkflowDefinitionError errors) => mret (validation_failed errors)
  | Raise (WorkflowPersistenceError _) =>
      mret (error_response HTTP_503_SERVICE_UNAVAILABLE "workflow_persistence_failed"
        "Workflow could not be persisted. Please try again later.")
  | Raise e => raise e
  end.

Definition get_workflow_execution_results (execution_id : UUID) : IO HttpResponse :=
  result ← results_get execution_id;
  mret match result with
       | None => not_found
       | Some r => Response HTTP_200_OK (WorkflowExecutionResultsResponsePayload r)
       end.

Definition get_workflow_execution (execution_id : UUID) : IO HttpResponse :=
  result ← status_get execution_id;
  mret match result with
       | None => not_found
       | Some s => Response HTTP_200_OK (WorkflowExecutionStatusResponsePayload s)
       end.

Definition trigger_workflow_execution (execution_id : UUID) (input : option pydict)
    : IO HttpResponse :=
  decision ← try_io (trigger execution_id input);
  match decision with
  | Ok d => mret (Response HTTP_202_ACCEPTED (WorkflowTriggerResponse d))
  | Raise (WorkflowExecutionNotFoundError _) =>
      mret (error_response HTTP_404_NOT_FOUND "workflow_execution_not_found"
        "Workflow execution was not found.")
  | Raise (WorkflowExecutionNotTriggerableError _ _) =>
      mret (error_response HTTP_422_UNPROCESSABLE_CONTENT "workflow_execution_not_triggerable"
        "Workflow execution cannot be triggered from its current state.")
  | Raise (WorkflowPersistenceError _) =>
      mret (error_response HTTP_503_SERVICE_UNAVAILABLE "workflow_trigger_persistence_failed"
        "Workflow trigger could not be accepted. Please try again later.")
  | Raise e => raise e
  end.
End endpoints.

(** ** Which exceptions reach the endpoints *)

(** Every exception of [m] satisfies [P]. *)
Definition raises {A} (P : exn → Prop) (m : IO A) : Prop :=
  ∀ w w' e, m w = (w', Raise e) → P e.

Lemma raises_bind {A B} P (m : IO A) (f : A → IO B) :
  raises P m → (∀ a, raises P (f a)) → raises P (m ≫= f).
Proof.
  intros Hm Hf w w' e. unfold mbind, io_bind. destruct (m w) as [w1 [a|e1]] eqn:Hrun.
  - by apply Hf.
  - intros [= _ <-]. by eapply Hm.
Qed.

Lemma raises_guard P b e : P e → raises P (guard_io b e).
Proof. intros He w w' e'. destruct b; [done|]. by intros [= _ <-]. Qed.
Lemma raises_none {A} P (m : IO A) : (∀ w, is_ok (m w).2 = true) → raises P m.
Proof. intros Hm w w' e Hrun. specialize (Hm w). by rewrite Hrun in Hm. Qed.
Lemma raises_iter {A} P (f : A → IO unit) l : (∀ x, raises P (f x)) → raises P (iter_io f l).
Proof.
  intros Hf. induction l as [|x l IH]; simpl; [by apply raises_none|]. by apply raises_bind.
Qed.

Definition sql (e : exn) : Prop := is_sqlalchemy_error e = true.

Section correctness.
Context `{WorkflowSchema} `{Env}.
Variable rules : list rule.
Variable json_datetime : datetime → string.

Lemma persist_submission_raises wf e : raises sql (persist_submission wf e).
Proof.
  assert (Hg : ∀ b m, raises sql (guard_io b (SQLAlchemyError m))) by (intros; by apply raises_guard).
  assert (Hv : ∀ n s, raises sql (varchar_opt n s)) by (intros n [s|]; [apply Hg|by apply raises_none]).
  unfold persist_submission, create_workflow, create_execution, new_node_execution, upsert_node_execution,
    unique_key, foreign_key, varchar.
  repeat first [apply raises_iter; intros ?|apply raises_bind; [|intros ?]|apply Hg|apply Hv|by apply raises_none].
Qed.

(** What [submit] raises: nothing is stored, and unless the validator or the
    schema raised it, it is a [WorkflowPersistenceError]. *)
Lemma submit_accepted_raise p w w' e :
  validate rules p = Ok [] → submit rules p w = (w', Raise e) →
  w_db w' = w_db w ∧
  ((∃ m, e = WorkflowPersistenceError m) ∨ ∃ i t, model_validate i t p = Raise e).
Proof.
  intros Hv Hrun. split; [by eapply submit_rollback|]. revert Hrun. unfold submit, accept. rewrite Hv.
  unfold new_execution. run_io. destruct (model_validate _ _ p) as [wf|e'] eqn:Hm; [|by intros [= _ <-]; eauto].
  match goal with |- context [persist_submission wf ?x ?w0] =>
    destruct (persist_submission wf x w0) as [w1 [[]|e1]] eqn:Hp end; [done|].
  intros [= _ <-]. apply persist_submission_raises in Hp. rewrite Hp. eauto.
Qed.

(** The submission endpoint, on every branch.  A definition with
    validation errors is answered 422 with exactly those errors, and nothing
    is stored.  A valid one is answered 201 with the identifier of a new
    pending execution, or 503 when it could not be persisted, and then nothing
    is stored.  When the validator raises, or the schema refuses a definition
    that the validator accepts, nothing is stored either. *)
Theorem submit_endpoint_correct p w :
  (∀ i t e, model_validate i t p = Raise e → ∃ m, e = PydanticValidationError m) →
  let '(w', r) := submit_workflow rules json_datetime p w in
  match validate rules p with
  | Raise e => w_db w' = w_db w
  | Ok (error :: errors) => r = Ok (validation_failed (error :: errors)) ∧ w_db w' = w_db w
  | Ok [] =>
      match r with
      | Ok answer =>
          (∃ s e, answer = Response HTTP_201_CREATED (WorkflowSubmissionResponse json_datetime s) ∧
             workflow_executions (w_db w) !! ws_execution_id s = None ∧
             workflow_executions (w_db w') !! ws_execution_id s = Some e ∧ we_status e = WPending) ∨
          (status_code answer = HTTP_503_SERVICE_UNAVAILABLE ∧ w_db w' = w_db w)
      | Raise e => w_db w' = w_db w ∧ ∃ i t, model_validate i t p = Raise e
      end
  end.
Proof.
  intros Hschema. unfold submit_workflow, try_io. unfold mbind at 1, io_bind at 1.
  destruct (validate rules p) as [[|error errors]|e] eqn:Hv.
  - destruct (submit rules p w) as [w' [s|e]] eqn:Hrun.
    + apply submit_effect in Hrun as (w1 & wf & ex & _ & Hid & Hs & _ & Hn & _ & HE & _).
      left. exists s, ex. rewrite Hid. split; [done|]. split; [done|].
      by rewrite HE, lookup_insert, decide_True.
    + apply submit_accepted_raise in Hrun as [Hd [[m ->]|(i & t & He)]]; [by right| |done].
      destruct (Hschema i t e He) as [m ->]. split; [done|]. by exists i, t.
  - unfold submit, accept. rewrite Hv. by run_io.
  - unfold submit, accept. rewrite Hv. run_io. by destruct e.
Qed.

(** C36: the trigger endpoint always answers.  An unknown execution is
    answered 404 and one that is not pending 422, and nothing is stored; a
    pending one is answered 202, and is then running with the given input, or
    503, and then nothing is stored.  The 202 body carries the status in
    lower case. *)
Theorem trigger_endpoint_correct x input w :
  ∃ w' answer, trigger_workflow_execution x input w = (w', Ok answer) ∧
  match workflow_executions (w_db w) !! x with
  | None => status_code answer = HTTP_404_NOT_FOUND ∧ w_db w' = w_db w
  | Some e =>
      if decide (we_status e = WPending) then
        (answer = Response HTTP_202_ACCEPTED
           (PDict (obj [("execution_id", PStr (uuid_str x)); ("status", PStr "running")])) ∧
         ∃ e', workflow_executions (w_db w') !! x = Some e' ∧ we_status e' = WRunning ∧
               we_input_data e' = default (we_input_data e) input) ∨
        (status_code answer = HTTP_503_SERVICE_UNAVAILABLE ∧ w_db w' = w_db w)
      else status_code answer = HTTP_422_UNPROCESSABLE_CONTENT ∧ w_db w' = w_db w
  end.
Proof.
  unfold trigger_workflow_execution, try_io. unfold mbind at 1, io_bind at 1.
  destruct (workflow_executions (w_db w) !! x) as [e|] eqn:Hx.
  2:{ destruct (trigger_missing x input w Hx) as (w' & -> & Hd). by eexists w', _. }
  destruct (decide (we_status e = WPending)) as [Hs|Hs].
  2:{ destruct (trigger_refused x input w e Hx Hs) as (w' & -> & Hd). by eexists w', _. }
  destruct (outbox_events (w_db w) !! uuid4_draw (w_draws w)) as [row|] eqn:Hf.
  - destruct (trigger_collision x input w e row Hx Hs Hf) as (w' & m & -> & Hd).
    eexists w', _. split; [reflexivity|]. by right.
  - destruct (trigger_accepted x input w e Hx Hs Hf) as (w' & -> & Hd).
    eexists w', _. split; [reflexivity|]. left. split; [done|]. rewrite Hd. simpl.
    eexists. rewrite lookup_insert, decide_True by done. split; [done|]. split; [done|]. by destruct input.
Qed.

(** The query endpoints always answer and write nothing.  An unknown
    execution is answered 404; otherwise the answer is 200 with the stored
    execution, its status in upper case, and one item per stored node row of
    the execution, or its results. *)
Theorem query_endpoints_correct x w :
  db_inv (w_db w) →
  ∃ status results,
    get_workflow_execution json_datetime x w = (w, Ok status) ∧
    get_workflow_execution_results json_datetime x w = (w, Ok results) ∧
    match workflow_executions (w_db w) !! x with
    | None => status = not_found ∧ results = not_found
    | Some e =>
        status_code status = HTTP_200_OK ∧ status_code results = HTTP_200_OK ∧
        (∃ rows, content status = PDict (obj (execution_fields json_datetime e ++
             [("nodes", PList (NodeExecutionStatusResponseItem json_datetime <$> rows))])) ∧
           ∀ n, n ∈ rows ↔ ∃ i, node_executions (w_db w) !! (x, i) = Some n) ∧
        content results = WorkflowExecutionResultsResponsePayload json_datetime
          (results_of {| ws_execution := e; ws_node_executions := nodes_of_execution x (w_db w) |})
    end.
Proof.
  intros Hinv. unfold get_workflow_execution, get_workflow_execution_results, results_get, status_get,
    get_execution_by_id, get_node_executions_for_execution. run_io.
  destruct (workflow_executions (w_db w) !! x) as [e|] eqn:Hx; eexists _, _; (split; [reflexivity|]);
    (split; [reflexivity|]); [|done].
  split; [done|]. split; [done|]. split; [|done]. exists (nodes_of_execution x (w_db w)). split; [done|].
  intros n. split.
  - intros Hn. exists (ne_node_id n). by apply nodes_of_execution_elem.
  - intros [i Hn]. by eapply node_row_elem.
Qed.
End correctness.
