(* ===== verification/Requests.v ===== *)
(** * Request bodies

    src/app/api/requests.py: the bodies the endpoints accept, as the typed
    models FastAPI hands to them, and the payload that [model_dump] makes of a
    submission.  A body of these types can never make the validator raise, so
    the submission endpoint always answers one. *)

From S2P Require Import Prelude Numerals PyVal States Errors Domain Cycles Validation Accepted.
From S2P Require Import Store Repositories Services Submission Api.

(** ** The models *)

Record WorkflowDagRequest : Type := { dr_nodes : list WorkflowNode }.

Record WorkflowSubmissionRequest : Type := {
  sr_name : string;
  sr_dag : WorkflowDagRequest;
  sr_created_by : option string;
}.

Record WorkflowTriggerRequest : Type := { tr_input : pydict }.

(** [model_dump] of a node.  The creation time stays a [datetime] object,
    whose instant no rule looks at. *)
Definition node_dump (n : WorkflowNode) : pydict :=
  obj [("id", PStr (wn_id n)); ("handler", PStr (wn_handler n));
       ("dependencies", PList (PStr <$> wn_dependencies n)); ("config", PDict (wn_config n));
       ("created_at", POther "datetime"); ("created_by", json_opt (wn_created_by n))].

Definition dag_dump (g : WorkflowDagRequest) : pydict :=
  obj [("nodes", PList (PDict <$> (node_dump <$> dr_nodes g)))].

Definition request_dump (r : WorkflowSubmissionRequest) : pydict :=
  obj [("name", PStr (sr_name r)); ("dag", PDict (dag_dump (sr_dag r)));
       ("created_by", json_opt (sr_created_by r))].

(** ** The endpoints on typed bodies *)

Section endpoints.
Context `{WorkflowSchema} `{Env}.

Definition submit_request (rules : list rule) (json_datetime : datetime → string)
    (r : WorkflowSubmissionRequest) : IO HttpResponse :=
  submit_workflow rules json_datetime (request_dump r).

(** [trigger.input if trigger is not None else None]. *)
Definition trigger_request (execution_id : UUID) (body : option WorkflowTriggerRequest)
    : IO HttpResponse :=
  trigger_workflow_execution execution_id (tr_input <$> body).
End endpoints.

(** ** The dependency graph of any payload

    Whatever the nodes look like, the graph the cycle rule searches has
    distinct keys and edges between its keys only, so the search terminates
    within its fuel. *)

Section graph.
Implicit Types nodes : list (nat * pydict).

Lemma identifiers_elem i nodes :
  i ∈ identifiers nodes ↔
  NODE_ID_PATTERN i = true ∧ ∃ ix, ix ∈ nodes ∧ node_id_of ix.2 = Some i.
Proof.
  unfold identifiers. rewrite list_elem_of_omap. split.
  - intros (ix & Hix & Hi). apply bind_Some in Hi as (j & Hj & Hi).
    destruct (NODE_ID_PATTERN j) eqn:Hp; simplify_eq. eauto.
  - intros (Hp & ix & Hix & Hi). exists ix. split; [done|]. rewrite Hi. simpl. by rewrite Hp.
Qed.

Lemma counted_once i nodes :
  count i (identifiers nodes) = 1 →
  NODE_ID_PATTERN i = true ∧ ∃ ix, ix ∈ nodes ∧ node_id_of ix.2 = Some i.
Proof.
  intros Hc. apply identifiers_elem. destruct (decide (i ∈ identifiers nodes)) as [|Hn]; [done|].
  apply count_zero in Hn. lia.
Qed.

Lemma graph_edges_counted counts i nd es :
  graph_edges counts i nd = Ok es → ∀ y, y ∈ es → counts y = 1.
Proof.
  unfold graph_edges. destruct (iterate _) as [deps|]; [|done]. intros [= <-] y.
  rewrite list_elem_of_omap. intros ([] & _ & Hd); try done. case_bool_decide; naive_solver.
Qed.

(** What one node contributes. *)
Lemma graph_entry_Ok counts ix entry :
  graph_entry counts ix = Ok entry →
  match entry with
  | Some (i, es) => node_id_of ix.2 = Some i ∧ counts i = 1 ∧ ∀ y, y ∈ es → counts y = 1
  | None => ∀ i, node_id_of ix.2 = Some i → counts i ≠ 1
  end.
Proof.
  unfold graph_entry. destruct (node_id_of ix.2) as [i|]; [|by intros [= <-]].
  case_bool_decide as Hc; [|intros [= <-]; naive_solver].
  intros (es & Hes & [= <-])%bind_Ok_inv. split; [done|]. split; [done|]. by eapply graph_edges_counted.
Qed.

Lemma graph_entries counts nodes entries :
  mapM (graph_entry counts) nodes = Ok entries →
  (∀ i ix, ix ∈ nodes → node_id_of ix.2 = Some i → counts i = 1 → i ∈ (omap id entries).*1) ∧
  (∀ i es, (i, es) ∈ omap id entries → counts i = 1 ∧ ∀ y, y ∈ es → counts y = 1) ∧
  (∀ i, NODE_ID_PATTERN i = true → count i (omap id entries).*1 ≤ count i (identifiers nodes)).
Proof.
  intros Hm%mapM_Ok_Forall2. induction Hm as [|ix entry nodes entries Hix _ (IHk & IHe & IHc)].
  { split; [set_solver|]. split; [set_solver|]. intros i _. reflexivity. }
  apply graph_entry_Ok in Hix. destruct entry as [[i es]|]; csimpl.
  - destruct Hix as (Hi & Hc & Hes). unfold identifiers. csimpl. fold (identifiers nodes). rewrite Hi. simpl.
    split; [|split].
    + intros j ix' [->|Hin]%elem_of_cons Hj Hone; [|set_solver]. rewrite Hi in Hj. set_solver.
    + intros j es' [[= -> ->]|Hin]%elem_of_cons; [done|]. by apply IHe.
    + intros j Hp. specialize (IHc j Hp). destruct (decide (j = i)) as [->|Hne].
      * rewrite Hp, !count_cons, !decide_True by done. lia.
      * destruct (NODE_ID_PATTERN i); rewrite !count_cons, !decide_False by done; lia.
  - unfold identifiers. csimpl. fold (identifiers nodes). split; [|split].
    + intros j ix' [->|Hin]%elem_of_cons Hj Hone; [|by eapply IHk]. by destruct (Hix j Hj).
    + done.
    + intros j Hp. specialize (IHc j Hp). destruct (node_id_of ix.2) as [i|]; [|done]. simpl.
      destruct (NODE_ID_PATTERN i); [|done]. rewrite count_cons. case_decide; lia.
Qed.

Lemma dependency_graph_closed nodes graph :
  dependency_graph nodes = Ok graph →
  NoDup graph.*1 ∧ ∀ x y, edge graph x y → y ∈ graph.*1.
Proof.
  unfold dependency_graph. intros (entries & Hm & [= <-])%bind_Ok_inv.
  apply graph_entries in Hm as (Hk & He & Hc). split.
  - apply count_NoDup. intros i. destruct (decide (i ∈ (omap id entries).*1)) as [Hi|Hn].
    + apply list_elem_of_fmap in Hi as ([j es] & -> & Hin). simpl. apply He in Hin as [Hone _].
      destruct (counted_once _ _ Hone) as [Hp _]. specialize (Hc j Hp). lia.
    + apply count_zero in Hn. lia.
  - intros x y. unfold edge, edges. destruct (aget x _) as [es|] eqn:Hx; simpl; [|set_solver].
    intros Hy. apply aget_Some_elem, He in Hx as [_ Hes]. specialize (Hes y Hy).
    destruct (counted_once _ _ Hes) as (_ & ix & Hix & Hid). by eapply Hk.
Qed.
End graph.

(** The cycle rule raises only when the graph cannot be built. *)
Lemma cycle_rule_total d graph :
  dependency_graph (nodes_from d) = Ok graph → ∃ errors, CycleDetectionRule d = Ok errors.
Proof.
  intros Hg. unfold CycleDetectionRule. rewrite Hg. simpl.
  destruct (dependency_graph_closed _ _ Hg) as [Hk Hc].
  destruct (cycle_errors_spec graph Hk Hc) as (errors & -> & _). by exists errors.
Qed.

(** ** Valid requests *)

Definition request_nodes (r : WorkflowSubmissionRequest) : list WorkflowNode := dr_nodes (sr_dag r).

Definition text_at (k : string) (config : pydict) : Prop :=
  ∃ s, dict_get k config = Some (PStr s) ∧ nonblank s = true.

Record valid_request_node (integration_test : bool) (ids : list string) (n : WorkflowNode) : Prop := {
  vq_pattern : NODE_ID_PATTERN (wn_id n) = true;
  vq_allowed : wn_handler n ∈ allowed_handlers integration_test;
  vq_url : wn_handler n = "call_external_service" → text_at "url" (wn_config n);
  vq_prompt : wn_handler n = "llm_service" → text_at "prompt" (wn_config n);
  vq_plain : wn_handler n = "input" ∨ wn_handler n = "output" → wn_config n = [];
  vq_known : ∀ d, d ∈ wn_dependencies n → d ∈ ids;
  vq_no_self : wn_id n ∉ wn_dependencies n;
  vq_deps_nodup : NoDup (wn_dependencies n);
}.

Record valid_request (integration_test : bool) (r : WorkflowSubmissionRequest) : Prop := {
  vr_name : nonblank (sr_name r) = true;
  vr_unique : NoDup (wn_id <$> request_nodes r);
  vr_each : ∀ n, n ∈ request_nodes r →
    valid_request_node integration_test (wn_id <$> request_nodes r) n;
  vr_acyclic : acyclic_graph ((λ n, (wn_id n, wn_dependencies n)) <$> request_nodes r);
}.

#[local] Instance PStr_inj : Inj (=) (=) PStr.
Proof. by intros ?? [= ->]. Qed.
#[local] Instance PDict_inj : Inj (=) (=) PDict.
Proof. by intros ?? [= ->]. Qed.

Section typed.
Context (it : bool) (py_str : pyobj → string) (r : WorkflowSubmissionRequest).
#[local] Abbreviation dumped := (node_dump <$> request_nodes r).

Lemma request_dag : dict_get "dag" (request_dump r) = Some (PDict (dag_dump (sr_dag r))).
Proof. reflexivity. Qed.
Lemma request_dag_nodes : dict_get "nodes" (dag_dump (sr_dag r)) = Some (PList (PDict <$> dumped)).
Proof. reflexivity. Qed.

Lemma request_nodes_from : nodes_from (request_dump r) = enumerate dumped.
Proof. apply (nodes_from_enumerate _ _ _ request_dag request_dag_nodes). Qed.

(** Every node of the dumped payload comes from a typed node. *)
Lemma request_node_elem k nd :
  (k, nd) ∈ nodes_from (request_dump r) → ∃ n, n ∈ request_nodes r ∧ nd = node_dump n.
Proof.
  rewrite request_nodes_from. intros Hk%enumerate_elem. apply list_elem_of_lookup_2 in Hk.
  apply list_elem_of_fmap in Hk as (n & -> & Hn). eauto.
Qed.

Lemma node_config_total k n : ∃ errors, node_config_errors k (node_dump n) = Ok errors.
Proof.
  unfold node_config_errors. change (get_or_none "handler" (node_dump n)) with (PStr (wn_handler n)).
  cbv zeta beta iota. destruct (String.eqb "call_external_service" (wn_handler n)); [by eexists|].
  destruct (String.eqb "llm_service" (wn_handler n)); by eexists.
Qed.

Lemma graph_entry_total counts k n : ∃ entry, graph_entry counts (k, node_dump n) = Ok entry.
Proof.
  unfold graph_entry, graph_edges. simpl. case_bool_decide; eauto.
Qed.

Lemma mapM_total {A B} (f : A → py B) l :
  (∀ x, x ∈ l → ∃ y, f x = Ok y) → ∃ ys, mapM f l = Ok ys.
Proof.
  induction l as [|x l IH]; intros Hf; simpl; [eauto|].
  destruct (Hf x) as [y ->]; [set_solver|]. destruct IH as [ys ->]; [set_solver|]. simpl. eauto.
Qed.

Lemma validate_total rules d :
  Forall (λ f : rule, ∃ errors, f d = Ok errors) rules → ∃ errors, validate rules d = Ok errors.
Proof.
  intros Hall. unfold validate. generalize (@nil WorkflowValidationError).
  induction Hall as [|f rules [es Hf] _ IH]; intros acc; simpl; [eauto|]. rewrite Hf. simpl. apply IH.
Qed.

Lemma request_validation_total :
  ∃ errors, validate (default_rules py_str it) (request_dump r) = Ok errors.
Proof.
  apply validate_total. repeat constructor; try by eexists.
  - unfold NodeConfigurationRule.
    destruct (mapM_total (λ ix, node_config_errors ix.1 ix.2) (nodes_from (request_dump r))) as [ys ->];
      [|by eexists]. intros [k nd] (n & _ & ->)%request_node_elem. apply node_config_total.
  - unfold dependency_graph.
    destruct (mapM_total (graph_entry (λ i, count i (identifiers (nodes_from (request_dump r)))))
      (nodes_from (request_dump r))) as [entries Hm].
    { intros [k nd] (n & _ & ->)%request_node_elem. apply graph_entry_total. }
    apply (cycle_rule_total _ (omap id entries)). unfold dependency_graph. by rewrite Hm.
Qed.

Lemma request_ids : ids_of dumped = wn_id <$> request_nodes r.
Proof. unfold ids_of. induction (request_nodes r) as [|n l IH]; [done|]. csimpl. by rewrite IH. Qed.

Lemma request_graph : graph_of dumped = (λ n, (wn_id n, wn_dependencies n)) <$> request_nodes r.
Proof.
  unfold graph_of. induction (request_nodes r) as [|n l IH]; [done|]. csimpl.
  rewrite (deps_of_strings _ (wn_dependencies n)) by done. by rewrite IH.
Qed.

Lemma has_text_at k config : has_text k (PDict config) = true ↔ text_at k config.
Proof. unfold has_text, text_at. destruct (dict_get k config) as [[]|]; naive_solver. Qed.

Lemma request_node_iff ids n :
  (∃ i h deps, valid_node it ids (node_dump n) i h deps) ↔ valid_request_node it ids n.
Proof.
  assert (Hplain : ∀ c, truthy (PDict c) = false ↔ c = []) by (by intros []).
  split.
  - intros (i & h & deps & [[= <-] [= <-] Hd Hp Ha [Hu [Hq Hc]] Hk Hs Hn]).
    assert (wn_dependencies n = deps) as <-.
    { simpl in Hd. injection Hd as Hd. by apply (inj (fmap PStr)) in Hd. }
    constructor; try done; intros Hh; [apply has_text_at, Hu, Hh|apply has_text_at, Hq, Hh|apply Hplain, Hc, Hh].
  - intros [Hp Ha Hu Hq Hc Hk Hs Hn]. exists (wn_id n), (wn_handler n), (wn_dependencies n).
    constructor; try done. split; [|split]; intros Hh;
      [apply has_text_at, Hu, Hh|apply has_text_at, Hq, Hh|apply Hplain, Hc, Hh].
Qed.

(** A submission passes validation exactly when it is a valid request. *)
Lemma request_accepted_lemma :
  validate (default_rules py_str it) (request_dump r) = Ok [] ↔ valid_request it r.
Proof.
  rewrite validate_accepts_lemma. split.
  - intros (ds & [(name & [= <-] & Hname) (dag & Hdag & Hnodes) Heach Hu Hac]).
    rewrite request_dag in Hdag. injection Hdag as <-. rewrite request_dag_nodes in Hnodes.
    injection Hnodes as Hds. apply (inj (fmap PDict)) in Hds as <-.
    rewrite request_ids in Heach, Hu. rewrite request_graph in Hac. constructor; try done.
    intros n Hn. apply request_node_iff, Heach, list_elem_of_fmap. eauto.
  - intros [Hname Hu Heach Hac]. exists dumped. constructor.
    + by exists (sr_name r).
    + exists (dag_dump (sr_dag r)). split; [apply request_dag|apply request_dag_nodes].
    + rewrite request_ids. intros nd (n & -> & Hn)%list_elem_of_fmap. by apply request_node_iff, Heach.
    + by rewrite request_ids.
    + by rewrite request_graph.
Qed.
End typed.

(** ** The endpoints always answer *)

(** What the code relies on of pydantic: the payload dumped from a request is
    accepted by [Workflow.model_validate] when it meets the length
    constraints of the models. *)
Class RequestSchemaLaws `{WorkflowSchema} : Prop := {
  schema_accepts_request i t r :
    sr_name r ≠ "" → Forall node_model_ok (request_nodes r) →
    ∃ wf, model_validate i t (request_dump r) = Ok wf
}.

Lemma valid_request_model_ok it r :
  valid_request it r → sr_name r ≠ "" ∧ Forall node_model_ok (request_nodes r).
Proof.
  intros [Hname _ Heach _]. split; [by intros Hn; rewrite Hn in Hname|].
  apply Forall_forall. intros n Hn. destruct (Heach n Hn) as [Hp Ha _ _ _ _ _ _]. split.
  - intros Hi. by rewrite Hi in Hp.
  - intros Hh. rewrite Hh in Ha. destruct it; simpl in Ha; set_solver.
Qed.

Section answers.
Context `{RequestSchemaLaws} `{Env}.
Variable it : bool.
Variable py_str : pyobj → string.
Variable json_datetime : datetime → string.
#[local] Abbreviation rules := (default_rules py_str it).

(** C35: every submission of a well-typed body is answered.  A valid request is
    answered 201 with the identifier of a new pending execution, or 503, and
    then nothing is stored; any other is answered 422 with the non-empty list
    of its validation errors, and nothing is stored. *)
Theorem submission_request_answered r w :
  ∃ w' answer, submit_request rules json_datetime r w = (w', Ok answer) ∧
  ((valid_request it r ∧
    ((∃ s e, answer = Response HTTP_201_CREATED (WorkflowSubmissionResponse json_datetime s) ∧
        workflow_executions (w_db w) !! ws_execution_id s = None ∧
        workflow_executions (w_db w') !! ws_execution_id s = Some e ∧ we_status e = WPending) ∨
     (status_code answer = HTTP_503_SERVICE_UNAVAILABLE ∧ w_db w' = w_db w))) ∨
   (¬ valid_request it r ∧ ∃ errors, errors ≠ [] ∧ validate rules (request_dump r) = Ok errors ∧
    answer = validation_failed errors ∧ w_db w' = w_db w)).
Proof.
  destruct (request_validation_total it py_str r) as [errors Hv].
  pose proof (request_accepted_lemma it py_str r) as Hiff. rewrite Hv, Ok_inj in Hiff.
  assert (Hschema : errors = [] → ∀ i t, ∃ wf, model_validate i t (request_dump r) = Ok wf).
  { intros He i t. apply Hiff, valid_request_model_ok in He as [Hn Hm]. by apply schema_accepts_request. }
  unfold submit_request. destruct errors as [|e es].
  - assert (Hok : ∀ i t e, model_validate i t (request_dump r) = Raise e → False).
    { intros i t e He. destruct (Hschema eq_refl i t) as [wf Hwf]. congruence. }
    pose proof (submit_endpoint_correct rules json_datetime (request_dump r) w) as Hb.
    destruct (submit_workflow rules json_datetime (request_dump r) w) as [w' res]. rewrite Hv in Hb.
    destruct res as [answer|e]; [|by destruct Hb as (_ & i & t & He); [naive_solver|destruct (Hok i t e)]].
    exists w', answer. split; [done|]. left. split; [by apply Hiff|]. apply Hb. naive_solver.
  - unfold submit_workflow, submit, accept. rewrite Hv. eexists _, _. split; [reflexivity|].
    right. split; [by intros Hvr%Hiff|]. by exists (e :: es).
Qed.
End answers.
