(* ===== verification/CompletionSpec.v ===== *)
(** * Completion processing, branch by branch

    What one completion event does to the tables: the node's transition, the
    propagation of a failure, the workflow's final state, and that a second
    delivery changes nothing. *)

From Stdlib Require Import SpecFloat.
From S2P Require Import Prelude Numerals PyVal States Errors Domain Dag Graph Readiness Failure.
From S2P Require Import Cycles Validation Templates Resolver Json Messages Store Repositories.
From S2P Require Import TaskRepositories Services Dispatch Completion Redis Barriers Outbox Worker.
From S2P Require Import Orchestrator Preservation Evolution TriggerSpec Submission DispatchSpec.

(** ** Frames *)

(** Only the task tables change. *)
Definition same_core (d d' : Db) : Prop :=
  workflows d' = workflows d ∧ workflow_executions d' = workflow_executions d ∧
  node_executions d' = node_executions d ∧ outbox_events d' = outbox_events d ∧
  task_processing d' = task_processing d.

(** The task tables do not change. *)
Definition same_tasks (d d' : Db) : Prop :=
  workflows d' = workflows d ∧ logical_tasks d' = logical_tasks d ∧
  task_attempts d' = task_attempts d ∧ task_retry_dispatches d' = task_retry_dispatches d ∧
  task_processing d' = task_processing d.

(** Only the outbox changes, or only executions and the outbox. *)
Definition only_outbox (d d' : Db) : Prop := ∃ o, d' = set_outbox o d.
Definition same_nodes (d d' : Db) : Prop :=
  same_tasks d d' ∧ node_executions d' = node_executions d.

(** No definition changes, and no execution but [x]. *)
Definition only_execution (x : UUID) (d d' : Db) : Prop :=
  workflows d' = workflows d ∧
  ∀ y, y ≠ x → workflow_executions d' !! y = workflow_executions d !! y.

#[export] Instance same_core_preorder : PreOrder same_core.
Proof. split; unfold same_core; [done|]. intros d1 d2 d3. naive_solver congruence. Qed.
#[export] Instance same_tasks_preorder : PreOrder same_tasks.
Proof. split; unfold same_tasks; [done|]. intros d1 d2 d3. naive_solver congruence. Qed.
#[export] Instance same_nodes_preorder : PreOrder same_nodes.
Proof.
  split; unfold same_nodes; [done|]. intros d1 d2 d3 [? ?] [? ?]. split; [by etrans|congruence].
Qed.
#[export] Instance only_outbox_preorder : PreOrder only_outbox.
Proof.
  split; unfold only_outbox.
  - intros d. exists (outbox_events d). by destruct d.
  - intros d1 d2 d3 [o ->] [o' ->]. by exists o'.
Qed.

Ltac framed := apply keeps_from; intros ?; walk; by repeat eexists.

Section frames.
Context `{WorkflowSchema} `{Env}.

Lemma add_message_frame i ty s p a : keeps only_outbox (add_message i ty s p a).
Proof. unfold add_message. framed. Qed.

Lemma record_success_core t a e c : keeps same_core (record_success t a e c).
Proof. unfold record_success, set_attempt_row, set_logical_row. framed. Qed.
Lemma record_failure_core t a e m ty f M r : keeps same_core (record_failure t a e m ty f M r).
Proof.
  unfold record_failure, insert_attempt, insert_dispatch, set_attempt_row, set_logical_row. framed.
Qed.

Lemma execution_update_nodes x s s' t1 t2 i :
  keeps same_nodes (execution_update_status_if_current x s s' t1 t2 i).
Proof. unfold execution_update_status_if_current. framed. Qed.
Lemma add_message_nodes i ty s p a : keeps same_nodes (add_message i ty s p a).
Proof. unfold add_message. framed. Qed.
Lemma fail_pending_tasks x l r t : keeps same_tasks (fail_pending_nodes x l r t).
Proof. unfold fail_pending_nodes. framed. Qed.
Lemma node_update_tasks x i s s' o m ty t1 t2 :
  keeps same_tasks (node_update_status_if_current x i s s' o m ty t1 t2).
Proof. unfold node_update_status_if_current. framed. Qed.

#[local] Hint Resolve record_success_core record_failure_core execution_update_nodes
  add_message_nodes fail_pending_tasks node_update_tasks readiness_in_transaction_quiet : keeps.

Lemma record_attempt_core pow p e n : keeps same_core (record_attempt pow p e n).
Proof. unfold record_attempt. compose. Qed.

Lemma finalize_nodes x c s : keeps same_nodes (finalize x c s).
Proof. unfold finalize, _workflow_event_id. compose. Qed.
#[local] Hint Resolve finalize_nodes : keeps.

Lemma finalization_nodes x e c : keeps same_nodes (finalization_in_transaction x e c).
Proof. unfold finalization_in_transaction. compose. Qed.

Lemma nodes_tasks {A} (m : IO A) : keeps same_nodes m → keeps same_tasks m.
Proof. intros Hm w. by destruct (Hm w). Qed.

Lemma apply_completion_tasks e ex ns n : keeps same_tasks (apply_completion e ex ns n).
Proof.
  assert (Hmsg : ∀ i ty s p a, keeps same_tasks (add_message i ty s p a)).
  { intros. apply nodes_tasks, add_message_nodes. }
  assert (Hfin : ∀ x e c, keeps same_tasks (finalization_in_transaction x e c)).
  { intros. apply nodes_tasks, finalization_nodes. }
  assert (Hp : keeps same_tasks (propagate_failure e ex ns)) by (unfold propagate_failure; compose).
  unfold apply_completion. destruct (bool_decide (ev_status e = TCompleted)); compose.
Qed.
End frames.

(** ** Running the transaction backwards *)

Lemma keeps_run {A} R (m : IO A) w w' r : keeps R m → m w = (w', r) → R (w_db w) (w_db w').
Proof. intros Hm Hr. specialize (Hm w). by rewrite Hr in Hm. Qed.

Lemma find_node d x i :
  db_inv d →
  match node_executions d !! (x, i) with
  | Some n => ∃ k, list_find (λ m, ne_node_id m = i) (nodes_of_execution x d) = Some (k, n)
  | None => list_find (λ m, ne_node_id m = i) (nodes_of_execution x d) = None
  end.
Proof.
  intros Hinv. destruct (list_find (λ m, ne_node_id m = i) (nodes_of_execution x d)) as [[k m]|] eqn:Hf.
  - apply list_find_Some in Hf as (Hk & Hi & _). apply list_elem_of_lookup_2 in Hk.
    apply nodes_of_execution_elem in Hk; [|done]. rewrite Hi in Hk. rewrite Hk. eauto.
  - destruct (node_executions d !! (x, i)) as [n|] eqn:Hn; [|done]. exfalso.
    destruct (inv_node_key _ Hinv _ _ Hn) as [_ Hi]. simpl in Hi.
    eapply (list_find_None _ _) in Hf. rewrite Forall_forall in Hf. apply (Hf n); [|done].
    apply nodes_of_execution_elem; [done|]. by rewrite Hi.
Qed.

Section completion.
Context `{WorkflowSchema} `{Env}.
Variable pow : spec_float → Z → py spec_float.
Variable policy : RetryPolicy.

Lemma process_Ok_inv e w w' d :
  db_inv (w_db w) → process pow policy e w = (w', Ok d) →
  ev_task_id e = create_task_id (ev_execution_id e) (ev_node_id e) ∧
  ∃ ex n w1 settled,
    workflow_executions (w_db w) !! ev_execution_id e = Some ex ∧
    node_executions (w_db w) !! (ev_execution_id e, ev_node_id e) = Some n ∧
    record_attempt pow policy e n w = (w1, Ok settled) ∧
    match settled with
    | Some d' => w' = w1 ∧ d = d'
    | None => apply_completion e ex (nodes_of_execution (ev_execution_id e) (w_db w)) n w1 = (w', Ok d)
    end.
Proof.
  intros Hinv. unfold process. intros (w0 & [] & Hg & Hrun)%io_bind_Ok.
  destruct (String.eqb _ _) eqn:Ht; [|done]. injection Hg as <-. apply String.eqb_eq in Ht.
  split; [done|]. apply transaction_Ok_inv in Hrun. unfold process_body in Hrun.
  apply io_bind_Ok in Hrun as (w1 & l & Hl & Hrun). injection Hl as <- <-.
  destruct (workflow_executions (w_db w) !! ev_execution_id e) as [ex|] eqn:He; [|done].
  apply io_bind_Ok in Hrun as (w1 & ns & Hl & Hrun). injection Hl as <- <-.
  pose proof (find_node (w_db w) (ev_execution_id e) (ev_node_id e) Hinv) as Hf.
  destruct (node_executions (w_db w) !! _) as [n|] eqn:Hn; [destruct Hf as [k Hf]|]; rewrite Hf in Hrun; [|done].
  apply io_bind_Ok in Hrun as (w2 & settled & Hr & Hrun).
  exists ex, n, w2, settled. repeat (split; [done|]). destruct settled; [|done].
  by injection Hrun as <- <-.
Qed.

Lemma process_Raise e w w' exc : process pow policy e w = (w', Raise exc) → w_db w' = w_db w.
Proof.
  unfold process, guard_io. destruct (String.eqb _ _); run_io; [|by intros [= <- _]].
  destruct (process_body pow policy e w) as [w1 [d|exc']]; [done|]. by intros [= <- _].
Qed.

(** The transition of the node's row. *)
Definition completed_row (e : TaskCompletionEvent) (t : datetime) (n : NodeExecution) : NodeExecution :=
  if decide (ev_status e = TCompleted)
  then update_node_status NCompleted (Some (ev_output_data e)) None None None (Some t) n
  else update_node_status NFailed (Some PNone) (ev_error_message e) (ev_error_type e) None (Some t) n.

Lemma node_update_run x i s s' o m ty t1 t2 w w' b :
  node_update_status_if_current x i s s' o m ty t1 t2 w = (w', Ok b) →
  match node_executions (w_db w) !! (x, i) with
  | Some n => if decide (ne_status n = s)
              then b = true ∧ w_db w' = set_nodes (<[(x, i) :=
                update_node_status s' o m ty t1 t2 n]> (node_executions (w_db w))) (w_db w)
              else b = false ∧ w_db w' = w_db w
  | None => b = false ∧ w_db w' = w_db w
  end.
Proof.
  unfold node_update_status_if_current. run_io.
  destruct (node_executions (w_db w) !! (x, i)) as [n|]; [|by intros [= <- <-]].
  destruct (decide (ne_status n = s)); [|by intros [= <- <-]].
  destruct ty as [ty|]; simpl; [|by intros [= <- <-]].
  destruct (String.length ty <=? 255); [|done]. by intros [= <- <-].
Qed.

(** A node that is not running is not touched. *)
Lemma apply_completion_stale e ex ns n w w' d n' :
  node_executions (w_db w) !! (ev_execution_id e, ev_node_id e) = Some n' → ne_status n' ≠ NRunning →
  apply_completion e ex ns n w = (w', Ok d) →
  w_db w' = w_db w ∧ d = duplicate_decision e ∧ node_terminal (ne_status n) = true.
Proof.
  intros Hn Hs. unfold apply_completion. intros (w1 & t & Ht & Hrun)%io_bind_Ok. injection Ht as <- <-.
  apply io_bind_Ok in Hrun as (w2 & b & Hu%node_update_run & Hrun). cbn [w_db] in Hu.
  rewrite Hn in Hu. rewrite decide_False in Hu by done. destruct Hu as [-> Hu].
  destruct (bool_decide (_ ∨ _)) eqn:Hb; [|done]. injection Hrun as <- <-.
  apply bool_decide_eq_true in Hb. split; [done|]. split; [done|]. by destruct Hb as [-> | ->].
Qed.

Lemma readiness_Ok_inv x ex w w' r :
  readiness_in_transaction x (Some ex) w = (w', Ok r) →
  w' = w ∧ ∃ wf, read_workflow (w_db w) (we_workflow_id ex) = Ok (Some wf) ∧
    rd_ready_node_ids r = evaluate_ready_node_ids wf (statuses_by_id (nodes_of_execution x (w_db w))).
Proof.
  unfold readiness_in_transaction. intros (w1 & e' & He & Hrun)%io_bind_Ok. injection He as <- <-.
  apply io_bind_Ok in Hrun as (w1 & o & Ho & Hrun). injection Ho as <- Ho.
  destruct o as [wf|]; [|done]. injection Hrun as <- <-. split; [done|]. by exists wf.
Qed.

(** What follows the transition of a running node. *)
Lemma apply_completion_running e ex ns n w w' d n' :
  node_executions (w_db w) !! (ev_execution_id e, ev_node_id e) = Some n' → ne_status n' = NRunning →
  apply_completion e ex ns n w = (w', Ok d) →
  ∃ t w1 w2 w3 ready f,
    w_db w1 = set_nodes (<[(ev_execution_id e, ev_node_id e) := completed_row e t n']>
      (node_executions (w_db w))) (w_db w) ∧
    (if decide (ev_status e = TCompleted) then w2 = w1
     else propagate_failure e ex ns w1 = (w2, Ok tt)) ∧
    add_message (ev_event_id e) ("workflow.node." +:+ completion_status_value (ev_status e))
      WORKFLOW_EVENTS_STREAM (event_payload e) (Some (ev_execution_id e)) w2 = (w3, Ok tt) ∧
    (if decide (ev_status e = TCompleted)
     then ∃ wf, read_workflow (w_db w3) (we_workflow_id ex) = Ok (Some wf) ∧
            ready = evaluate_ready_node_ids wf
              (statuses_by_id (nodes_of_execution (ev_execution_id e) (w_db w3)))
     else ready = []) ∧
    finalization_in_transaction (ev_execution_id e) (Some ex) (Some (ev_event_id e)) w3 = (w', Ok f) ∧
    d = completion_decision e TPROCESSED ready None None.
Proof.
  intros Hn Hs. unfold apply_completion. intros (w0 & t & Ht & Hrun)%io_bind_Ok. injection Ht as <- <-.
  apply io_bind_Ok in Hrun as (w1 & b & Hu%node_update_run & Hrun). cbn [w_db] in Hu.
  rewrite Hn, decide_True in Hu by done. destruct Hu as [-> Hu].
  apply io_bind_Ok in Hrun as (w2 & [] & Hp & Hrun).
  apply io_bind_Ok in Hrun as (w3 & [] & Hm & Hrun).
  apply io_bind_Ok in Hrun as (w4 & ready & Hready & Hrun).
  apply io_bind_Ok in Hrun as (w5 & f & Hf & Hrun). injection Hrun as <- <-.
  exists (clock (w_ticks w)), w1, w2, w3, ready, f.
  unfold completed_row. destruct (decide (ev_status e = TCompleted)) as [Hc|Hc].
  - rewrite bool_decide_eq_true_2 in * by done. injection Hp as <-.
    apply io_bind_Ok in Hready as (w6 & r & Hr & Hret). injection Hret as <- <-.
    apply readiness_Ok_inv in Hr as [-> Hr]. by repeat (split; [done|]).
  - rewrite bool_decide_eq_false_2 in * by done. injection Hready as <- <-.
    repeat (split; [done|]). done.
Qed.

(** ** Finalization *)

Lemma execution_update_run x s s' t1 t2 i w w' b :
  execution_update_status_if_current x s s' t1 t2 i w = (w', Ok b) →
  match workflow_executions (w_db w) !! x with
  | Some ex => if decide (we_status ex = s)
               then b = true ∧ w_db w' = set_executions (<[x :=
                 update_execution_status s' t1 t2 i ex]> (workflow_executions (w_db w))) (w_db w)
               else b = false ∧ w_db w' = w_db w
  | None => b = false ∧ w_db w' = w_db w
  end.
Proof.
  unfold execution_update_status_if_current. run_io.
  destruct (workflow_executions (w_db w) !! x) as [ex|]; [|by intros [= <- <-]].
  destruct (decide (we_status ex = s)); by intros [= <- <-].
Qed.

(** The final state of a workflow, from the rows of its nodes. *)
Definition some_failed (d : Db) (x : UUID) : Prop := ∃ i, row_status d x i = Some NFailed.
Definition all_completed (wf : Workflow) (d : Db) (x : UUID) : Prop :=
  ∀ i, i ∈ node_ids wf → row_status d x i = Some NCompleted.

(** The execution [x] ends with status [s], if it was running. *)
Definition ends_with (s : WorkflowExecutionStatus) (x : UUID) (d d' : Db) : Prop :=
  match workflow_executions d !! x with
  | Some ex =>
      if decide (we_status ex = WRunning) then
        ∃ t, workflow_executions d' = <[x := update_execution_status s None (Some t) None ex]>
               (workflow_executions d)
      else d' = d
  | None => d' = d
  end.

Lemma finalize_effect x c s w w' f :
  finalize x c s w = (w', Ok f) →
  fin_status f = s ∧ same_nodes (w_db w) (w_db w') ∧ ends_with s x (w_db w) (w_db w').
Proof.
  intros Hrun. pose proof (keeps_run _ _ _ _ _ (finalize_nodes x c s) Hrun) as Hs. revert Hrun.
  unfold finalize. intros (w1 & t & Ht & Hrun)%io_bind_Ok. injection Ht as <- <-.
  apply io_bind_Ok in Hrun as (w2 & b & Hu%execution_update_run & Hrun). cbn [w_db] in Hu.
  apply io_bind_Ok in Hrun as (w3 & [] & Hm & Hrun). injection Hrun as <- <-. split; [done|]. split; [done|].
  unfold ends_with. destruct (workflow_executions (w_db w) !! x) as [ex|].
  - destruct (decide (we_status ex = WRunning)); destruct Hu as [-> Hu].
    + apply io_bind_Ok in Hm as (w4 & i & Hi & Hm).
      assert (Hw4 : w_db w4 = w_db w2). { unfold _workflow_event_id in Hi. by destruct c; injection Hi as <- _. }
      apply add_message_effect in Hm as [_ Hm]. rewrite Hm, Hw4, Hu. simpl. by eexists.
    + injection Hm as <-. done.
  - destruct Hu as [-> Hu]. by injection Hm as <-.
Qed.

Lemma finalization_effect x ex c w w' f :
  db_inv (w_db w) →
  finalization_in_transaction x (Some ex) c w = (w', Ok f) →
  (some_failed (w_db w) x ∧ fin_status f = WFailed ∧ same_nodes (w_db w) (w_db w') ∧
   ends_with WFailed x (w_db w) (w_db w')) ∨
  (¬ some_failed (w_db w) x ∧ ∃ wf,
   read_workflow (w_db w) (we_workflow_id ex) = Ok (Some wf) ∧
   ((all_completed wf (w_db w) x ∧ fin_status f = WCompleted ∧ same_nodes (w_db w) (w_db w') ∧
     ends_with WCompleted x (w_db w) (w_db w')) ∨
    (¬ all_completed wf (w_db w) x ∧ fin_status f = we_status ex ∧ w_db w' = w_db w))).
Proof.
  intros Hinv. unfold finalization_in_transaction. intros (w1 & e' & He & Hrun)%io_bind_Ok.
  injection He as <- <-. apply io_bind_Ok in Hrun as (w1 & ns & Hns & Hrun). injection Hns as <- <-.
  pose proof (failed_rows (w_db w) Hinv x) as Hf. fold (some_failed (w_db w) x) in Hf.
  destruct (existsb _ _) eqn:Hex.
  { left. apply finalize_effect in Hrun as (? & ? & ?). split; [by apply Hf|done]. }
  right. split; [by rewrite <- Hf|]. apply io_bind_Ok in Hrun as (w1 & o & Ho & Hrun).
  injection Ho as <- Ho. destruct o as [wf|]; [|done]. exists wf. split; [done|].
  assert (Ha : forallb (λ n, bool_decide (statuses_by_id (nodes_of_execution x (w_db w)) !! wn_id n
    = Some NCompleted)) (nodes_of wf) = true ↔ all_completed wf (w_db w) x).
  { rewrite forallb_forall. unfold all_completed, node_ids, row_status. split.
    - intros Hall i (n & -> & Hn)%list_elem_of_fmap. apply list_elem_of_In in Hn.
      specialize (Hall n Hn). apply bool_decide_eq_true in Hall. by rewrite statuses_lookup in Hall.
    - intros Hall n Hn. apply bool_decide_eq_true. rewrite statuses_lookup by done. apply Hall.
      apply list_elem_of_fmap_2. by apply list_elem_of_In. }
  destruct (forallb _ _) eqn:Hall.
  - left. apply finalize_effect in Hrun as (? & ? & ?). split; [by apply Ha|done].
  - right. injection Hrun as <- <-. split; [by rewrite <- Ha|done].
Qed.

(** Finalization.  The service fails a running execution when one of its
    nodes has failed, completes it when every node of its definition has
    completed, and otherwise writes nothing; an execution that is not
    running, and every other row, stays as it is, and an exception leaves
    every table as it was. *)
Theorem finalization_correct x w :
  db_inv (w_db w) →
  match finalization_evaluate x w with
  | (w', Raise _) => w_db w' = w_db w
  | (w', Ok f) =>
      ∃ ex, workflow_executions (w_db w) !! x = Some ex ∧
      ((some_failed (w_db w) x ∧ fin_status f = WFailed ∧ same_nodes (w_db w) (w_db w') ∧
        ends_with WFailed x (w_db w) (w_db w')) ∨
       (¬ some_failed (w_db w) x ∧ ∃ wf,
        read_workflow (w_db w) (we_workflow_id ex) = Ok (Some wf) ∧
        ((all_completed wf (w_db w) x ∧ fin_status f = WCompleted ∧ same_nodes (w_db w) (w_db w') ∧
          ends_with WCompleted x (w_db w) (w_db w')) ∨
         (¬ all_completed wf (w_db w) x ∧ fin_status f = we_status ex ∧ w_db w' = w_db w))))
  end.
Proof.
  intros Hinv. destruct (finalization_evaluate x w) as [w' [f|exc]] eqn:Hrun.
  - apply transaction_Ok_inv in Hrun. apply io_bind_Ok in Hrun as (w1 & o & Ho & Hrun).
    injection Ho as <- <-. destruct (workflow_executions (w_db w) !! x) as [ex|]; [|done].
    exists ex. split; [done|]. by eapply finalization_effect.
  - by apply transaction_rollback in Hrun.
Qed.
End completion.

(** ** The outbox only gains rows *)

Definition outbox_grows (d d' : Db) : Prop :=
  ∀ k r, outbox_events d !! k = Some r → outbox_events d' !! k = Some r.

#[export] Instance outbox_grows_preorder : PreOrder outbox_grows.
Proof. split; [by intros d k r|]. intros d1 d2 d3 H12 H23 k r Hr. by apply H23, H12. Qed.

Section growth.
Context `{WorkflowSchema} `{Env}.

Lemma add_message_grows i ty s p a : keeps outbox_grows (add_message i ty s p a).
Proof.
  unfold add_message. apply keeps_from. intros d. walk. intros k r Hr. simpl.
  match goal with Hq : has _ _ = false |- _ => apply has_false in Hq end.
  rewrite lookup_insert_ne; [done|congruence].
Qed.
Lemma execution_update_grows x s s' t1 t2 i :
  keeps outbox_grows (execution_update_status_if_current x s s' t1 t2 i).
Proof. unfold execution_update_status_if_current. apply keeps_from. intros ?. walk. by intros k r Hr. Qed.
#[local] Hint Resolve add_message_grows execution_update_grows : keeps.

Lemma finalization_grows x e c : keeps outbox_grows (finalization_in_transaction x e c).
Proof.
  assert (∀ s, keeps outbox_grows (finalize x c s)) by (intros s; unfold finalize, _workflow_event_id; compose).
  unfold finalization_in_transaction. compose.
Qed.
End growth.

(** ** The state of the workflow after an event *)

(** From the status [s] before, with the node rows of [d]. *)
Definition workflow_outcome (wf : Workflow) (d : Db) (x : UUID) (s s' : WorkflowExecutionStatus) : Prop :=
  (s ≠ WRunning → s' = s) ∧
  (s = WRunning →
    (some_failed d x → s' = WFailed) ∧
    (¬ some_failed d x → all_completed wf d x → s' = WCompleted) ∧
    (¬ some_failed d x → ¬ all_completed wf d x → s' = WRunning)).

Lemma ends_with_status s x d d' ex :
  workflow_executions d !! x = Some ex → ends_with s x d d' →
  ∃ ex', workflow_executions d' !! x = Some ex' ∧
    (we_status ex ≠ WRunning → we_status ex' = we_status ex) ∧
    (we_status ex = WRunning → we_status ex' = s) ∧ we_workflow_id ex' = we_workflow_id ex ∧
    ∀ y, y ≠ x → workflow_executions d' !! y = workflow_executions d !! y.
Proof.
  unfold ends_with. intros Hx. rewrite Hx. destruct (decide (we_status ex = WRunning)) as [Hr|Hr].
  - intros [t ->]. eexists. rewrite lookup_insert, decide_True by done. split; [done|].
    split; [done|]. split; [done|]. split; [done|]. intros y Hy. by rewrite lookup_insert_ne.
  - intros ->. exists ex. naive_solver.
Qed.

Lemma row_status_nodes d d' x i :
  node_executions d' = node_executions d → row_status d' x i = row_status d x i.
Proof. unfold row_status. by intros ->. Qed.

Section outcome.
Context `{WorkflowSchema} `{Env}.

Lemma finalization_outcome x ex c w w' f wf :
  db_inv (w_db w) → workflow_executions (w_db w) !! x = Some ex →
  read_workflow (w_db w) (we_workflow_id ex) = Ok (Some wf) →
  finalization_in_transaction x (Some ex) c w = (w', Ok f) →
  node_executions (w_db w') = node_executions (w_db w) ∧
  (∀ y, y ≠ x → workflow_executions (w_db w') !! y = workflow_executions (w_db w) !! y) ∧
  ∃ ex', workflow_executions (w_db w') !! x = Some ex' ∧ we_workflow_id ex' = we_workflow_id ex ∧
         workflow_outcome wf (w_db w') x (we_status ex) (we_status ex').
Proof.
  intros Hinv Hx Hwf Hrun.
  assert (Hn : node_executions (w_db w') = node_executions (w_db w)).
  { by apply (keeps_run _ _ _ _ _ (finalization_nodes x (Some ex) c) Hrun). }
  assert (Hsf : some_failed (w_db w') x ↔ some_failed (w_db w) x).
  { unfold some_failed, row_status. by rewrite Hn. }
  assert (Hac : all_completed wf (w_db w') x ↔ all_completed wf (w_db w) x).
  { unfold all_completed, row_status. by rewrite Hn. }
  split; [done|]. unfold workflow_outcome.
  apply finalization_effect in Hrun; [|done].
  destruct Hrun as [(Hf & _ & _ & He)|(Hf & wf' & Hwf' & [(Ha & _ & _ & He)|(Ha & _ & He)])].
  - destruct (ends_with_status _ _ _ _ _ Hx He) as (ex' & Hx' & H1 & H2 & Hid & Ho). split; [done|].
    exists ex'. split; [done|]. split; [done|]. rewrite Hsf, Hac. naive_solver.
  - assert (wf' = wf) as -> by congruence.
    destruct (ends_with_status _ _ _ _ _ Hx He) as (ex' & Hx' & H1 & H2 & Hid & Ho). split; [done|].
    exists ex'. split; [done|]. split; [done|]. rewrite Hsf, Hac. naive_solver.
  - assert (wf' = wf) as -> by congruence. rewrite He. split; [done|]. exists ex. split; [done|]. split; [done|].
    unfold some_failed in *. naive_solver.
Qed.
End outcome.

Lemma completed_row_evolves e t d x i n :
  node_executions d !! (x, i) = Some n → ne_status n = NRunning →
  evolves d (set_nodes (<[(x, i) := completed_row e t n]> (node_executions d)) d).
Proof.
  intros Hn Hr. apply evolves_nodes.
  - intros k. rewrite lookup_insert. destruct (decide ((x, i) = k)) as [<-|]; [|done].
    split; intros; congruence.
  - intros k m m' Hm. rewrite lookup_insert. destruct (decide ((x, i) = k)) as [<-|].
    + intros [= <-]. assert (m = n) as -> by congruence. rewrite Hr. unfold completed_row.
      destruct (decide _); simpl; (split; [|done]); apply node_step_moves; unfold node_step; simpl; set_solver.
    + intros. simplify_eq. repeat split. apply rtc_refl.
Qed.

Lemma same_core_evolves d d' : same_core d d' → evolves d d'.
Proof. intros (Hw & He & Hn & _). by apply evolves_same. Qed.

Lemma completed_row_status e t n :
  ne_status (completed_row e t n) = if decide (ev_status e = TCompleted) then NCompleted else NFailed.
Proof. unfold completed_row. by destruct (decide _). Qed.

(** The row a completion event stores in the outbox. *)
Definition announced (e : TaskCompletionEvent) (d : Db) : Prop :=
  ∃ row, outbox_events d !! ev_event_id e = Some row ∧ ob_payload row = event_payload e ∧
         ob_event_type row = "workflow.node." +:+ completion_status_value (ev_status e) ∧
         ob_target_stream row = WORKFLOW_EVENTS_STREAM.

Lemma set_nodes_same d : set_nodes (node_executions d) d = d.
Proof. by destruct d. Qed.

Section results.
Context `{WorkflowSchema} `{Env}.
Variable pow : spec_float → Z → py spec_float.
Variable policy : RetryPolicy.

Lemma read_workflow_same d d' i : workflows d' = workflows d → read_workflow d' i = read_workflow d i.
Proof. unfold read_workflow. by intros ->. Qed.

Lemma record_attempt_decision e n w w1 d :
  record_attempt pow policy e n w = (w1, Ok (Some d)) →
  tc_outcome d ≠ TPROCESSED ∧ tc_ready_node_ids d = [].
Proof.
  unfold record_attempt. destruct (ev_status e).
  - intros (w2 & t & _ & Hrun)%io_bind_Ok. apply io_bind_Ok in Hrun as (w3 & b & _ & Hrun).
    injection Hrun as _ Hd. destruct (negb b && _); [|done]. by injection Hd as <-.
  - destruct (ev_error_message e); [|done]. destruct (ev_error_type e); [|done].
    do 6 (intros Hrun; apply io_bind_Ok in Hrun as (? & ? & _ & Hrun); revert Hrun).
    intros [= _ Hd]. destruct (dec_outcome _); by simplify_eq.
Qed.

(** The common part of a processed event, success or failure. *)
Lemma processed_inv e w w' d :
  db_inv (w_db w) → process pow policy e w = (w', Ok d) → tc_outcome d = TPROCESSED →
  ∃ ex n w0, workflow_executions (w_db w) !! ev_execution_id e = Some ex ∧
    node_executions (w_db w) !! (ev_execution_id e, ev_node_id e) = Some n ∧
    ne_status n = NRunning ∧ same_core (w_db w) (w_db w0) ∧ db_inv (w_db w0) ∧
    apply_completion e ex (nodes_of_execution (ev_execution_id e) (w_db w)) n w0 = (w', Ok d).
Proof.
  intros Hinv Hrun Ho. apply process_Ok_inv in Hrun as (_ & ex & n & w0 & settled & Hx & Hn & Hr & Hrun); [|done].
  destruct settled as [d'|].
  { destruct Hrun as [-> ->]. by apply record_attempt_decision in Hr as [Hr _]. }
  pose proof (keeps_run _ _ _ _ _ (record_attempt_core pow policy e n) Hr) as Hc.
  exists ex, n, w0. split; [done|]. split; [done|].
  destruct (decide (ne_status n = NRunning)) as [Hs|Hs].
  - split; [done|]. split; [done|]. split; [|done]. by apply (same_core_evolves _ _ Hc).
  - destruct Hc as (_ & _ & Hcn & _). eapply apply_completion_stale in Hrun as (_ & -> & _); [done| |done].
    by rewrite Hcn.
Qed.

(** What a processed success does. *)
Lemma success_effect e w w' d :
  db_inv (w_db w) → ev_status e = TCompleted →
  process pow policy e w = (w', Ok d) → tc_outcome d = TPROCESSED →
  let x := ev_execution_id e in
  ∃ ex ex' n t wf,
    node_executions (w_db w) !! (x, ev_node_id e) = Some n ∧ ne_status n = NRunning ∧
    node_executions (w_db w') = <[(x, ev_node_id e) :=
      update_node_status NCompleted (Some (ev_output_data e)) None None None (Some t) n]>
      (node_executions (w_db w)) ∧
    announced e (w_db w') ∧
    workflow_executions (w_db w) !! x = Some ex ∧
    read_workflow (w_db w) (we_workflow_id ex) = Ok (Some wf) ∧
    (wf_workflow wf → ∀ j, j ∈ tc_ready_node_ids d ↔
       j ∈ node_ids wf ∧ default NPending (row_status (w_db w') x j) = NPending ∧
       ∀ dep, depends wf j dep → default NPending (row_status (w_db w') x dep) = NCompleted) ∧
    workflow_executions (w_db w') !! x = Some ex' ∧
    workflow_outcome wf (w_db w') x (we_status ex) (we_status ex') ∧
    we_workflow_id ex' = we_workflow_id ex ∧ only_execution x (w_db w) (w_db w').
Proof.
  intros Hinv Hc Hrun Ho x.
  destruct (processed_inv e w w' d Hinv Hrun Ho) as (ex & n & w0 & Hx & Hn & Hr & Hcore & Hinv0 & Ha).
  pose proof Hcore as (CW & CE & CN & CO & _).
  rewrite <- CN in Hn. rewrite <- CE in Hx.
  destruct (apply_completion_running e ex _ n w0 w' d n Hn Hr Ha)
    as (t & w1 & w2 & w3 & ready & f & Hw1 & Hp & Hm & Hready & Hf & ->).
  rewrite decide_True in Hp, Hready by done. subst w2. destruct Hready as (wf & Hwf & ->).
  apply add_message_effect in Hm as [_ Hm].
  assert (Hinv3 : db_inv (w_db w3)).
  { rewrite Hm, Hw1. eapply (evolves_same (set_nodes _ _)); [done..|].
    by apply (completed_row_evolves e t _ _ _ _ Hn Hr). }
  assert (Hx3 : workflow_executions (w_db w3) !! x = Some ex) by (rewrite Hm, Hw1; exact Hx).
  destruct (finalization_outcome _ ex _ w3 w' f wf Hinv3 Hx3 Hwf Hf) as (HN & Ho' & ex' & Hx' & Hid & Hout).
  exists ex, ex', n, t, wf. rewrite <- CN. split; [done|]. split; [done|]. split.
  { rewrite HN, Hm. simpl. rewrite Hw1. simpl. unfold completed_row. by rewrite decide_True. }
  split.
  { eexists. split; [apply (keeps_run _ _ _ _ _ (finalization_grows _ _ _) Hf)|].
    - rewrite Hm. simpl. by rewrite lookup_insert, decide_True.
    - done. }
  split; [by rewrite <- CE|]. split.
  { rewrite <- Hwf. apply read_workflow_same. rewrite Hm, Hw1. by rewrite <- CW. }
  split; [|split; [done|]; split; [done|]; split; [done|]].
  2:{ destruct (keeps_run _ _ _ _ _ (finalization_nodes _ _ _) Hf) as [(HW & _) _].
      split; [by rewrite HW, Hm, Hw1|]. intros y Hy. rewrite Ho', Hm, Hw1 by done. by rewrite <- CE. }
  intros Hwfw j. simpl.
  destruct (ready_node_ids_spec wf (statuses_by_id (nodes_of_execution x (w_db w3))) Hwfw) as [Hiff _].
  etrans; [exact (Hiff j)|]. unfold status_of. setoid_rewrite (statuses_lookup _ Hinv3).
  unfold row_status. rewrite HN. done.
Qed.

(** C12: a success.  When an event that reports success is processed, the
    node was running and is now completed with the reported output; no other
    node changes; the event is announced in the outbox; the nodes reported
    ready are exactly the pending nodes of the definition whose dependencies
    have all completed; and a running workflow is completed when all its
    nodes are, failed when some node has failed, and otherwise keeps
    running. *)
Theorem completion_success e w w' d :
  db_inv (w_db w) → ev_status e = TCompleted →
  process pow policy e w = (w', Ok d) → tc_outcome d = TPROCESSED →
  let x := ev_execution_id e in
  ∃ ex ex' n t wf,
    node_executions (w_db w) !! (x, ev_node_id e) = Some n ∧ ne_status n = NRunning ∧
    node_executions (w_db w') = <[(x, ev_node_id e) :=
      update_node_status NCompleted (Some (ev_output_data e)) None None None (Some t) n]>
      (node_executions (w_db w)) ∧
    announced e (w_db w') ∧
    workflow_executions (w_db w) !! x = Some ex ∧
    read_workflow (w_db w) (we_workflow_id ex) = Ok (Some wf) ∧
    (wf_workflow wf → ∀ j, j ∈ tc_ready_node_ids d ↔
       j ∈ node_ids wf ∧ default NPending (row_status (w_db w') x j) = NPending ∧
       ∀ dep, depends wf j dep → default NPending (row_status (w_db w') x dep) = NCompleted) ∧
    workflow_executions (w_db w') !! x = Some ex' ∧
    workflow_outcome wf (w_db w') x (we_status ex) (we_status ex').
Proof.
  intros Hinv Hc Hrun Ho x.
  destruct (success_effect e w w' d Hinv Hc Hrun Ho)
    as (ex & ex' & n & t & wf & Hn & Hr & HN & Ha & Hx & Hwf & Hready & Hx' & Hout & _).
  exists ex, ex', n, t, wf. by repeat (split; [done|]).
Qed.

(** ** Failures *)

Lemma fail_pending_run x ids r t w w' l :
  fail_pending_nodes x ids r t w = (w', Ok l) →
  w_db w' = set_nodes (update_where (pending_among x ids)
    (update_node_status NFailed None (Some r) (Some "FailedDependency") None (Some t))
    (node_executions (w_db w))) (w_db w).
Proof.
  unfold fail_pending_nodes. destruct ids as [|i ids].
  - intros [= <- _]. rewrite <- (set_nodes_same (w_db w)) at 1. f_equal. apply map_eq. intros k.
    rewrite lookup_update_where. destruct (node_executions (w_db w) !! k) as [n|]; [|done]. simpl.
    unfold pending_among, memb. rewrite (bool_decide_eq_false_2 (k.2 ∈ [])) by set_solver.
    by rewrite andb_false_r.
  - run_io. by intros [= <- _].
Qed.

Lemma propagate_failure_effect e ex ns w w' :
  propagate_failure e ex ns w = (w', Ok tt) →
  ∃ wf blocked r t,
    read_workflow (w_db w) (we_workflow_id ex) = Ok (Some wf) ∧
    evaluate_failed_dependency_node_ids wf (<[ev_node_id e := NFailed]> (statuses_by_id ns)) =
      Some (Ok blocked) ∧
    only_outbox (set_nodes (update_where (pending_among (ev_execution_id e) blocked)
      (update_node_status NFailed None (Some r) (Some "FailedDependency") None (Some t))
      (node_executions (w_db w))) (w_db w)) (w_db w').
Proof.
  unfold propagate_failure. intros (w1 & o & Ho & Hrun)%io_bind_Ok. injection Ho as <- Ho.
  destruct o as [wf|]; [|done]. cbv zeta in Hrun.
  apply io_bind_Ok in Hrun as (w1 & blocked & Hb & Hrun). injection Hb as <- Hb.
  apply io_bind_Ok in Hrun as (w1 & t & Ht & Hrun). injection Ht as <- _.
  apply io_bind_Ok in Hrun as (w2 & failed & Hf%fail_pending_run & Hrun). cbn [w_db] in Hf.
  exists wf, blocked. eexists _, _. split; [done|]. split.
  { unfold run_fuel in Hb. destruct (evaluate_failed_dependency_node_ids _ _) as [r|]; [|done]. simpl in Hb. by rewrite Hb. }
  rewrite <- Hf. eapply keeps_run; [|exact Hrun]. apply keeps_iter; [typeclasses eauto|].
  intros i. apply add_message_frame.
Qed.

Lemma pending_among_other x ids k n : ne_status n ≠ NPending → pending_among x ids k n = false.
Proof.
  intros Hs. unfold pending_among. by rewrite (bool_decide_eq_false_2 (ne_status n = NPending)), andb_false_r.
Qed.

Lemma status_of_insert_ne (st : gmap string NodeExecutionStatus) i j s :
  j ≠ i → status_of (<[i := s]> st) j = status_of st j.
Proof. intros Hj. unfold status_of. by rewrite lookup_insert_ne. Qed.

(** The rows after the blocked nodes of [x] have been failed. *)
Lemma blocked_rows (wf : Workflow) (st : gmap string NodeExecutionStatus) (x : UUID) (i : string) (blocked : list string)
    (f : NodeExecution → NodeExecution) (d' : Db) (t : gmap (UUID * string) NodeExecution)
    (row : NodeExecution) (y : UUID) (j : string) (m : NodeExecution) :
  (∀ k, k ∈ blocked ↔ Blocked wf st k) → (∀ n, ne_status (f n) = NFailed) →
  node_executions d' = update_where (pending_among x blocked) f (<[(x, i) := row]> t) →
  (∀ j' m', t !! (x, j') = Some m' → j' ≠ i → status_of st j' = ne_status m') →
  t !! (y, j) = Some m → (y, j) ≠ (x, i) →
  (y = x ∧ Blocked wf st j → row_status d' y j = Some NFailed) ∧
  (¬ (y = x ∧ Blocked wf st j) → node_executions d' !! (y, j) = Some m).
Proof.
  intros Hb Hf HN Hst Hm Hne. unfold row_status.
  rewrite HN, lookup_update_where, lookup_insert_ne by done. rewrite Hm. simpl.
  unfold pending_among, memb. cbn [fst snd]. split.
  - intros [-> HB]. rewrite !bool_decide_eq_true_2; [simpl; by rewrite Hf| |by apply Hb|done].
    rewrite <- (Hst j m); [by apply Blocked_pending in HB|done|congruence].
  - intros Hn. destruct (bool_decide (y = x)) eqn:Hy; [|done]. apply bool_decide_eq_true in Hy as ->.
    rewrite (bool_decide_eq_false_2 (j ∈ blocked)); [done|]. rewrite Hb. naive_solver.
Qed.

(** The writes of a processed failure: the node's row, the blocked rows and
    the announcement; finalization is left. *)
Lemma failure_writes e w w' d :
  db_inv (w_db w) → ev_status e = TFailed →
  process pow policy e w = (w', Ok d) → tc_outcome d = TPROCESSED →
  let x := ev_execution_id e in
  let i := ev_node_id e in
  ∃ ex n t wf blocked r t' w3 f,
    workflow_executions (w_db w) !! x = Some ex ∧ node_executions (w_db w) !! (x, i) = Some n ∧
    ne_status n = NRunning ∧ read_workflow (w_db w) (we_workflow_id ex) = Ok (Some wf) ∧
    evaluate_failed_dependency_node_ids wf
      (<[i := NFailed]> (statuses_by_id (nodes_of_execution x (w_db w)))) = Some (Ok blocked) ∧
    db_inv (w_db w3) ∧ workflows (w_db w3) = workflows (w_db w) ∧
    workflow_executions (w_db w3) = workflow_executions (w_db w) ∧
    node_executions (w_db w3) = update_where (pending_among x blocked)
      (update_node_status NFailed None (Some r) (Some "FailedDependency") None (Some t'))
      (<[(x, i) := completed_row e t n]> (node_executions (w_db w))) ∧
    announced e (w_db w3) ∧
    finalization_in_transaction x (Some ex) (Some (ev_event_id e)) w3 = (w', Ok f) ∧
    tc_ready_node_ids d = [].
Proof.
  intros Hinv Hc Hrun Ho x i.
  destruct (processed_inv e w w' d Hinv Hrun Ho) as (ex & n & w0 & Hx & Hn & Hr & Hcore & Hinv0 & Ha).
  destruct Hcore as (CW & CE & CN & CO & _). rewrite <- CN in Hn. rewrite <- CE in Hx.
  destruct (apply_completion_running e ex _ n w0 w' d n Hn Hr Ha)
    as (t & w1 & w2 & w3 & ready & f & Hw1 & Hp & Hm & Hready & Hf & ->).
  assert (Hnc : ev_status e ≠ TCompleted) by congruence.
  rewrite decide_False in Hp, Hready by done. subst ready.
  apply propagate_failure_effect in Hp as (wf & blocked & r & t' & Hwf & Hev & [o Hw2]).
  apply add_message_effect in Hm as [_ Hm].
  exists ex, n, t, wf, blocked, r, t', w3, f. rewrite <- CE, <- CN, <- CW.
  do 3 (split; [done|]). split; [rewrite <- Hwf; apply read_workflow_same; by rewrite Hw1|].
  split; [done|]. split.
  { assert (Hinv1 : db_inv (w_db w1))
      by (rewrite Hw1; by apply (completed_row_evolves e t _ _ _ _ Hn Hr)).
    rewrite Hm, Hw2. eapply (evolves_same (set_nodes _ _)); [done..|].
    apply update_pending_evolves with (s := NFailed); [|done|done].
    apply node_step_moves; unfold node_step; simpl; set_solver. }
  rewrite Hm, Hw2, Hw1. simpl.
  do 3 (split; [done|]). split; [|done]. unfold announced. simpl. eexists.
  by rewrite lookup_insert, decide_True.
Qed.

(** What a processed failure does. *)
Lemma failure_effect e w w' d :
  db_inv (w_db w) → ev_status e = TFailed →
  process pow policy e w = (w', Ok d) → tc_outcome d = TPROCESSED →
  let x := ev_execution_id e in
  let i := ev_node_id e in
  let st := <[i := NFailed]> (statuses_by_id (nodes_of_execution x (w_db w))) in
  ∃ ex ex' n t wf,
    node_executions (w_db w) !! (x, i) = Some n ∧ ne_status n = NRunning ∧
    node_executions (w_db w') !! (x, i) = Some (update_node_status NFailed (Some PNone)
      (ev_error_message e) (ev_error_type e) None (Some t) n) ∧
    announced e (w_db w') ∧ tc_ready_node_ids d = [] ∧
    workflow_executions (w_db w) !! x = Some ex ∧
    read_workflow (w_db w) (we_workflow_id ex) = Ok (Some wf) ∧
    (wf_workflow wf → ∀ y j m, node_executions (w_db w) !! (y, j) = Some m → (y, j) ≠ (x, i) →
       (y = x ∧ Blocked wf st j → row_status (w_db w') y j = Some NFailed) ∧
       (¬ (y = x ∧ Blocked wf st j) → node_executions (w_db w') !! (y, j) = Some m)) ∧
    workflow_executions (w_db w') !! x = Some ex' ∧
    we_status ex' = (if decide (we_status ex = WRunning) then WFailed else we_status ex) ∧
    we_workflow_id ex' = we_workflow_id ex ∧ only_execution x (w_db w) (w_db w') ∧
    (∀ k, is_Some (node_executions (w_db w') !! k) ↔ is_Some (node_executions (w_db w) !! k)).
Proof.
  intros Hinv Hc Hrun Ho x i st.
  destruct (failure_writes e w w' d Hinv Hc Hrun Ho) as (ex & n & t & wf & blocked & r & t' & w3 & f &
    Hx & Hn & Hr & Hwf & Hev & Hinv3 & HW3 & HE3 & HN3 & Ha & Hf & Hready).
  assert (Hnc : ev_status e ≠ TCompleted) by congruence.
  assert (Hwf3 : read_workflow (w_db w3) (we_workflow_id ex) = Ok (Some wf)).
  { rewrite <- Hwf. by apply read_workflow_same. }
  assert (Hx3 : workflow_executions (w_db w3) !! x = Some ex) by (by rewrite HE3).
  destruct (finalization_outcome _ ex _ w3 w' f wf Hinv3 Hx3 Hwf3 Hf) as (HN & Ho' & ex' & Hx' & Hid & Hout).
  rewrite HN3 in HN.
  assert (Hi : node_executions (w_db w') !! (x, i) = Some (completed_row e t n)).
  { rewrite HN, lookup_update_where, lookup_insert, decide_True by done. simpl.
    by rewrite pending_among_other by (rewrite completed_row_status, decide_False; done). }
  exists ex, ex', n, t, wf. split; [done|]. split; [done|]. split.
  { rewrite Hi. unfold completed_row. by rewrite decide_False. }
  split.
  { destruct Ha as (row & Hrow & Hrest). exists row. split; [|done].
    by apply (keeps_run _ _ _ _ _ (finalization_grows _ _ _) Hf). }
  do 3 (split; [done|]). split; [|split; [done|]; split; [|split; [done|]; split]].
  - intros Hwfw y j m Hm' Hne.
    destruct (failed_dependency_spec wf st Hwfw) as (blocked' & Hev' & Hiff & _).
    assert (blocked' = blocked) as -> by (unfold st, i, x in Hev'; congruence).
    eapply blocked_rows; [exact Hiff| |exact HN| |exact Hm'|exact Hne]; [done|].
    intros j' m' Hm'' Hj'. unfold st. rewrite status_of_insert_ne by done.
    unfold status_of. rewrite statuses_lookup, Hm'' by done. done.
  - destruct Hout as [Hnr Hrun']. destruct (decide (we_status ex = WRunning)) as [E|E]; [|by apply Hnr].
    apply Hrun'; [done|]. exists i. unfold row_status. rewrite Hi. simpl.
    by rewrite completed_row_status, decide_False.
  - destruct (keeps_run _ _ _ _ _ (finalization_nodes _ _ _) Hf) as [(HW & _) _].
    split; [by rewrite HW|]. intros y Hy. by rewrite Ho', HE3.
  - intros k. rewrite HN, lookup_update_where, fmap_is_Some, lookup_insert_is_Some'. split; [|by auto].
    intros [<-|]; [eauto|done].
Qed.
(** C13: a failure that exhausts the policy.  When an event that reports
    failure is processed, the node was running and is now failed with the
    reported error; exactly the pending nodes of the execution that depend
    on it, directly or through other nodes, are failed with it, and no other
    node changes; the event is announced in the outbox; nothing is ready;
    and a running workflow is now failed. *)
Theorem completion_failure e w w' d :
  db_inv (w_db w) → ev_status e = TFailed →
  process pow policy e w = (w', Ok d) → tc_outcome d = TPROCESSED →
  let x := ev_execution_id e in
  let i := ev_node_id e in
  let st := <[i := NFailed]> (statuses_by_id (nodes_of_execution x (w_db w))) in
  ∃ ex ex' n t wf,
    node_executions (w_db w) !! (x, i) = Some n ∧ ne_status n = NRunning ∧
    node_executions (w_db w') !! (x, i) = Some (update_node_status NFailed (Some PNone)
      (ev_error_message e) (ev_error_type e) None (Some t) n) ∧
    announced e (w_db w') ∧ tc_ready_node_ids d = [] ∧
    workflow_executions (w_db w) !! x = Some ex ∧
    read_workflow (w_db w) (we_workflow_id ex) = Ok (Some wf) ∧
    (wf_workflow wf → ∀ y j m, node_executions (w_db w) !! (y, j) = Some m → (y, j) ≠ (x, i) →
       (y = x ∧ Blocked wf st j → row_status (w_db w') y j = Some NFailed) ∧
       (¬ (y = x ∧ Blocked wf st j) → node_executions (w_db w') !! (y, j) = Some m)) ∧
    workflow_executions (w_db w') !! x = Some ex' ∧
    we_status ex' = (if decide (we_status ex = WRunning) then WFailed else we_status ex).
Proof.
  intros Hinv Hc Hrun Ho x i st.
  destruct (failure_effect e w w' d Hinv Hc Hrun Ho)
    as (ex & ex' & n & t & wf & Hn & Hr & HN & Ha & Hready & Hx & Hwf & Hb & Hx' & Hout & _).
  exists ex, ex', n, t, wf. by repeat (split; [done|]).
Qed.
End results.
