(* ===== verification/RedeliverySpec.v ===== *)
(** * Retries and redelivery of completion events

    A failure that may be retried schedules the next attempt; delivering an
    event again changes nothing; a node completes at most once. *)

From Stdlib Require Import SpecFloat.
From S2P Require Import Prelude Numerals PyVal States Errors Domain Dag Graph Readiness Failure.
From S2P Require Import Cycles Validation Templates Resolver Json Messages Store Repositories.
From S2P Require Import TaskRepositories Services Dispatch Completion Redis Barriers Outbox Worker.
From S2P Require Import Orchestrator Preservation Evolution TriggerSpec Submission DispatchSpec.

From S2P Require Import CompletionSpec.

(** ** Retries *)

(** The failure of attempt [a] is stored and attempt [next] scheduled after it. *)
Definition retry_stored (e : TaskCompletionEvent) (max_attempts : Z) (next : UUID) (number : Z)
    (d d' : Db) : Prop :=
  ∃ l a m ty failed_at retry_at,
    logical_tasks d !! ev_task_id e = Some l ∧ task_attempts d !! ev_attempt_id e = Some a ∧
    at_task_id a = ev_task_id e ∧ ev_error_message e = Some m ∧ ev_error_type e = Some ty ∧
    number = (at_attempt_number a + 1)%Z ∧ (number ≤ max_attempts)%Z ∧
    task_attempts d !! next = None ∧
    task_attempts d' = <[next := new_attempt next (ev_task_id e) number AScheduled None
        (Some retry_at) failed_at]>
      (<[ev_attempt_id e := attempt_failed (ev_event_id e) m ty failed_at a]> (task_attempts d)) ∧
    task_retry_dispatches d' = <[next := {| rd_attempt_id := next; rd_available_at := retry_at;
      rd_status := DPending; rd_published_at := None; rd_created_at := failed_at |}]>
      (task_retry_dispatches d) ∧
    logical_tasks d' = <[ev_task_id e := set_logical_status LRetryScheduled l]> (logical_tasks d).

(** Whether an attempt settles a failure event without another write. *)
Definition failure_known (d : Db) (task_id : string) (attempt_id event_id : UUID) : Prop :=
  (∃ k b, task_attempts d !! k = Some b ∧ at_failure_event_id b = Some event_id) ∨
  (∃ a, task_attempts d !! attempt_id = Some a ∧ at_task_id a = task_id ∧
        (is_Some (at_failure_event_id a) ∨
         (at_status a = ACompleted ∧ at_completion_event_id a ≠ Some event_id))).

Lemma failure_rows d event_id :
  bool_decide (rows_where (λ _ b, bool_decide (at_failure_event_id b = Some event_id))
    (task_attempts d) ≠ []) = true ↔
  ∃ k b, task_attempts d !! k = Some b ∧ at_failure_event_id b = Some event_id.
Proof.
  rewrite bool_decide_eq_true. split.
  - intros Hne. destruct (rows_where _ _) as [|b l] eqn:Hr; [done|].
    assert (Hin : b ∈ b :: l) by constructor. rewrite <- Hr in Hin.
    apply elem_of_rows_where in Hin as (k & Hk & Hb%bool_decide_eq_true). eauto.
  - intros (k & b & Hb & Hf) Hr. apply (elem_of_nil b). rewrite <- Hr. apply elem_of_rows_where.
    exists k. split; [done|]. by apply bool_decide_eq_true.
Qed.

Section retry.
Context `{Env}.

Lemma guard_run b exc w w' : guard_io b exc w = (w', Ok tt) → w' = w ∧ b = true.
Proof. destruct b; [|done]. by intros [= <-]. Qed.

(** [record_failure], outcome by outcome. *)
Lemma record_failure_run t aid ev m ty f M r w w' dec :
  record_failure t aid ev m ty f M r w = (w', Ok dec) →
  match logical_tasks (w_db w) !! t with
  | None => dec = retry_decision EXHAUSTED ∧ w_db w' = w_db w
  | Some l =>
      (dec = retry_decision DUPLICATE ∧ w_db w' = w_db w ∧ failure_known (w_db w) t aid ev) ∨
      ∃ a, task_attempts (w_db w) !! aid = Some a ∧ at_task_id a = t ∧
      ((dec = retry_decision EXHAUSTED ∧ (M ≤ at_attempt_number a)%Z ∧
        task_attempts (w_db w') = <[aid := attempt_failed ev m ty f a]> (task_attempts (w_db w)) ∧
        task_retry_dispatches (w_db w') = task_retry_dispatches (w_db w) ∧
        logical_tasks (w_db w') = <[t := logical_failed m ty l]> (logical_tasks (w_db w))) ∨
       ∃ next, dec = {| dec_outcome := RETRY_SCHEDULED; dec_next_attempt_id := Some next;
                        dec_next_attempt_number := Some (at_attempt_number a + 1)%Z |} ∧
        (at_attempt_number a < M)%Z ∧ next ≠ aid ∧ task_attempts (w_db w) !! next = None ∧
        task_attempts (w_db w') = <[next := new_attempt next t (at_attempt_number a + 1) AScheduled
          None (Some r) f]> (<[aid := attempt_failed ev m ty f a]> (task_attempts (w_db w))) ∧
        task_retry_dispatches (w_db w') = <[next := {| rd_attempt_id := next; rd_available_at := r;
          rd_status := DPending; rd_published_at := None; rd_created_at := f |}]>
          (task_retry_dispatches (w_db w)) ∧
        logical_tasks (w_db w') = <[t := set_logical_status LRetryScheduled l]> (logical_tasks (w_db w)))
  end.
Proof.
  unfold record_failure. intros (w0 & [] & Hg & Hrun)%io_bind_Ok.
  apply guard_run in Hg as [-> _].
  apply io_bind_Ok in Hrun as (w0 & d & Hd & Hrun). injection Hd as <- <-.
  destruct (logical_tasks (w_db w) !! t) as [l|]; [|by injection Hrun as <- <-].
  destruct (bool_decide (rows_where _ _ ≠ [])) eqn:Hrows.
  { injection Hrun as <- <-. left. split; [done|]. split; [done|]. left. by apply failure_rows. }
  destruct (task_attempts (w_db w) !! aid) as [a|] eqn:Ha; [|done].
  destruct (decide (at_task_id a = t)) as [Ht|]; [|done].
  destruct (_ || _) eqn:Hdup.
  { injection Hrun as <- <-. left. split; [done|]. split; [done|]. right. exists a. split; [done|].
    split; [done|]. apply orb_true_iff in Hdup as [Hb%bool_decide_eq_true|Hb]; [by left|right].
    apply andb_true_iff in Hb as [Hb1%bool_decide_eq_true Hb2%negb_true_iff%bool_decide_eq_false]. done. }
  right. exists a. split; [done|]. split; [done|].
  apply io_bind_Ok in Hrun as (w1 & [] & Hv & Hrun).
  apply guard_run in Hv as [-> _].
  apply io_bind_Ok in Hrun as (w1 & [] & Hset & Hrun). injection Hset as <-.
  destruct (M <=? at_attempt_number a)%Z eqn:HM.
  { left. apply Z.leb_le in HM. injection Hrun as <- <-. done. }
  right. apply Z.leb_gt in HM. apply io_bind_Ok in Hrun as (w2 & next & Hn & Hrun). injection Hn as <- _.
  apply io_bind_Ok in Hrun as (w3 & [] & (Hnew & _ & Hins)%insert_attempt_effect & Hrun).
  apply io_bind_Ok in Hrun as (w4 & [] & Hdis & Hrun).
  cbn [at_attempt_id new_attempt w_db set_db set_attempts task_attempts] in Hnew, Hins.
  apply lookup_insert_None in Hnew as [Hnew Hne].
  unfold insert_dispatch in Hdis. run_io in Hdis. rewrite Hins in Hdis. simpl in Hdis.
  destruct (has next _); [done|]. simpl in Hdis. injection Hdis as <-. injection Hrun as <- <-.
  exists next. simpl. repeat (split; [done|]). done.
Qed.
End retry.

(** ** Redelivery *)

(** Whether an attempt settles a success event without another write. *)
Definition success_known (a : TaskAttemptRecord) (event_id : UUID) : Prop :=
  at_completion_event_id a = Some event_id ∨
  ((at_status a = ACompleted ∨ at_status a = AFailed) ∧ is_Some (at_completion_event_id a)).

(** The task tables hold the event [e] already. *)
Definition settled (e : TaskCompletionEvent) (d : Db) : Prop :=
  match logical_tasks d !! ev_task_id e with
  | None => True
  | Some _ =>
      match ev_status e with
      | TCompleted => ∃ a, task_attempts d !! ev_attempt_id e = Some a ∧
          at_task_id a = ev_task_id e ∧ success_known a (ev_event_id e)
      | TFailed => failure_known d (ev_task_id e) (ev_attempt_id e) (ev_event_id e)
      end
  end.

Lemma settled_same e d d' :
  logical_tasks d' = logical_tasks d → task_attempts d' = task_attempts d → settled e d → settled e d'.
Proof. unfold settled, failure_known. by intros -> ->. Qed.

Section redelivery.
Context `{WorkflowSchema} `{Env} `{Json}.
Variable pow : spec_float → Z → py spec_float.
Variable policy : RetryPolicy.

Lemma record_success_run t aid ev c w w' b :
  record_success t aid ev c w = (w', Ok b) →
  match logical_tasks (w_db w) !! t with
  | None => b = true ∧ w_db w' = w_db w
  | Some l => ∃ a, task_attempts (w_db w) !! aid = Some a ∧ at_task_id a = t ∧
      ((b = false ∧ w_db w' = w_db w ∧ success_known a ev) ∨
       (b = true ∧
        task_attempts (w_db w') = <[aid := attempt_succeeded ev c a]> (task_attempts (w_db w)) ∧
        task_retry_dispatches (w_db w') = task_retry_dispatches (w_db w) ∧
        logical_tasks (w_db w') = <[t := set_logical_status LCompleted l]> (logical_tasks (w_db w))))
  end.
Proof.
  unfold record_success, set_attempt_row, set_logical_row. run_io.
  destruct (logical_tasks (w_db w) !! t) as [l|]; [|by intros [= <- <-]].
  destruct (task_attempts (w_db w) !! aid) as [a|]; [|done].
  destruct (decide (at_task_id a = t)) as [Ht|]; [|done]. intros Hrun. exists a. split; [done|]. split; [done|].
  destruct (decide (at_completion_event_id a = Some ev)) as [Hc|Hc].
  { injection Hrun as <- <-. left. split; [done|]. split; [done|]. by left. }
  destruct (_ && _) eqn:Hb.
  - injection Hrun as <- <-. left. split; [done|]. split; [done|]. right.
    by apply andb_true_iff in Hb as [?%bool_decide_eq_true ?%bool_decide_eq_true].
  - injection Hrun as <- <-. by right.
Qed.

Lemma record_success_again t aid ev c w l a :
  logical_tasks (w_db w) !! t = Some l → task_attempts (w_db w) !! aid = Some a →
  at_task_id a = t → success_known a ev → record_success t aid ev c w = (w, Ok false).
Proof.
  intros Hl Ha Ht Hk. unfold record_success. run_io. rewrite Hl, Ha, decide_True by done.
  destruct (decide (at_completion_event_id a = Some ev)); [done|].
  destruct Hk as [|[K1 K2]]; [done|]. by rewrite !bool_decide_eq_true_2.
Qed.

Lemma record_failure_again t aid ev m ty f M r w l :
  (1 ≤ M)%Z → logical_tasks (w_db w) !! t = Some l → failure_known (w_db w) t aid ev →
  record_failure t aid ev m ty f M r w = (w, Ok (retry_decision DUPLICATE)).
Proof.
  intros HM%Z.leb_le Hl Hk. unfold record_failure. run_io. rewrite HM, Hl.
  destruct (bool_decide (rows_where _ _ ≠ [])) eqn:Hrows; [done|].
  destruct Hk as [Hk|(a & Ha & Ht & Hk)]; [by apply failure_rows in Hk; congruence|].
  rewrite Ha, decide_True by done.
  destruct Hk as [Hk|[K1 K2]]; [by rewrite bool_decide_eq_true_2|].
  rewrite (bool_decide_eq_true_2 (at_status a = ACompleted)) by done.
  rewrite (bool_decide_eq_false_2 (at_completion_event_id a = Some ev)) by done. simpl.
  by rewrite orb_true_r.
Qed.

(** The first delivery settles the event. *)
Lemma record_attempt_settles e n w w1 s :
  record_attempt pow policy e n w = (w1, Ok s) →
  settled e (w_db w1) ∧
  match s with
  | Some _ => is_Some (logical_tasks (w_db w1) !! ev_task_id e) ∧
              (ev_status e = TCompleted → ne_status n ≠ NRunning)
  | None => True
  end.
Proof.
  unfold record_attempt, settled. destruct (ev_status e) eqn:Hst.
  - intros (w2 & t & Ht & Hrun)%io_bind_Ok. injection Ht as <- _.
    apply io_bind_Ok in Hrun as (w3 & b & Hr%record_success_run & Hrun). injection Hrun as <- <-.
    cbn [w_db] in Hr. destruct (logical_tasks (w_db w) !! ev_task_id e) as [l|] eqn:Hl.
    + destruct Hr as (a & Ha & Hta & [(-> & Hd & Hk)|(-> & HA & _ & HL)]).
      * rewrite Hd, Hl. split; [eauto|]. destruct (bool_decide (ne_status n = NRunning)) eqn:Hn; [done|].
        apply bool_decide_eq_false in Hn. done.
      * rewrite HL, HA, !lookup_insert, !decide_True by done. split; [|done].
        eexists. split; [done|]. split; [done|]. by left.
    + destruct Hr as [-> Hd]. rewrite Hd, Hl. done.
  - destruct (ev_error_message e) as [m|]; [|done]. destruct (ev_error_type e) as [ty|]; [|done].
    intros (w2 & f & Hf & Hrun)%io_bind_Ok. injection Hf as <- _.
    apply io_bind_Ok in Hrun as (w2 & base & Hf & Hrun). injection Hf as <- _.
    apply io_bind_Ok in Hrun as (w2 & delay & Hf & Hrun). injection Hf as <- _.
    apply io_bind_Ok in Hrun as (w2 & delta & Hf & Hrun). injection Hf as <- _.
    apply io_bind_Ok in Hrun as (w2 & at_ & Hf & Hrun). injection Hf as <- _.
    apply io_bind_Ok in Hrun as (w2 & dec & Hr%record_failure_run & Hrun). injection Hrun as <- <-.
    cbn [w_db] in Hr. destruct (logical_tasks (w_db w) !! ev_task_id e) as [l|] eqn:Hl.
    2:{ destruct Hr as [-> ->]. by rewrite Hl. }
    destruct Hr as [(-> & -> & Hk)|(a & Ha & Hta & [(-> & _ & HA & _ & HL)|(next & -> & _ & Hne & _ & HA & _ & HL)])].
    + rewrite Hl. done.
    + rewrite HL, lookup_insert, decide_True by done. split; [|done]. left.
      exists (ev_attempt_id e). eexists. rewrite HA, lookup_insert, decide_True by done. done.
    + rewrite HL, lookup_insert, decide_True by done. split; [|done]. left.
      exists (ev_attempt_id e). eexists. rewrite HA, lookup_insert_ne, lookup_insert, decide_True by done. done.
Qed.

(** The retry time of a failure can be computed at the time [t]. *)
Definition retry_time_ok (e : TaskCompletionEvent) (t : datetime) : Prop :=
  ∀ delay delta, delay_for pow policy (ev_attempt_number e) = Ok delay →
    timedelta_seconds delay = Ok delta → is_ok (datetime_add t delta) = true.

(** What the first delivery of a failure established. *)
Lemma record_attempt_inputs e n w w1 s :
  record_attempt pow policy e n w = (w1, Ok s) → ev_status e = TFailed →
  ∃ m ty delay delta, ev_error_message e = Some m ∧ ev_error_type e = Some ty ∧
    delay_for pow policy (ev_attempt_number e) = Ok delay ∧ timedelta_seconds delay = Ok delta ∧
    (1 ≤ rp_max_attempts policy)%Z.
Proof.
  intros Hrun Hst. unfold record_attempt in Hrun. rewrite Hst in Hrun.
  destruct (ev_error_message e) as [m|]; [|done]. destruct (ev_error_type e) as [ty|]; [|done].
  apply io_bind_Ok in Hrun as (w2 & f & _ & Hrun). apply io_bind_Ok in Hrun as (w3 & base & _ & Hrun).
  apply io_bind_Ok in Hrun as (w4 & delay & Hd & Hrun). injection Hd as _ Hd.
  apply io_bind_Ok in Hrun as (w5 & delta & Hdelta & Hrun). injection Hdelta as _ Hdelta.
  apply io_bind_Ok in Hrun as (w6 & at_ & _ & Hrun).
  apply io_bind_Ok in Hrun as (w7 & dec & Hrec & _). unfold record_failure in Hrec.
  apply io_bind_Ok in Hrec as (w8 & [] & Hg & _). apply guard_run in Hg as [_ Hg%Z.leb_le].
  by exists m, ty, delay, delta.
Qed.

Lemma record_attempt_again e n w :
  settled e (w_db w) → (ev_status e = TCompleted → ne_status n ≠ NRunning) →
  (ev_status e = TFailed → retry_time_ok e (clock (S (w_ticks w))) ∧
     ∃ m ty delay delta, ev_error_message e = Some m ∧ ev_error_type e = Some ty ∧
       delay_for pow policy (ev_attempt_number e) = Ok delay ∧ timedelta_seconds delay = Ok delta ∧
       (1 ≤ rp_max_attempts policy)%Z) →
  ∃ w1, w_db w1 = w_db w ∧ record_attempt pow policy e n w =
    (w1, Ok (if has (ev_task_id e) (logical_tasks (w_db w)) then Some (duplicate_decision e) else None)).
Proof.
  unfold settled, record_attempt. intros Hs Hn Hin. destruct (ev_status e) eqn:Hst.
  - destruct (logical_tasks (w_db w) !! ev_task_id e) as [l|] eqn:Hl.
    + destruct Hs as (a & Ha & Hta & Hk). rewrite (proj2 (has_true _ _)) by (by rewrite Hl).
      erewrite io_bind_run by reflexivity. erewrite io_bind_run by (apply (record_success_again _ _ _ _ _ l a); done).
      rewrite bool_decide_eq_false_2 by auto. eexists; split; [|reflexivity]; done.
    + rewrite (proj2 (has_false _ _)) by done. unfold record_success. run_io. cbn [w_db]. rewrite Hl.
      eexists; split; [|reflexivity]; done.
  - destruct (Hin eq_refl) as (Hok & m & ty & delay & delta & -> & -> & Hd & Hdelta & HM).
    do 2 erewrite io_bind_run by reflexivity.
    erewrite io_bind_run by (unfold lift; rewrite Hd; reflexivity).
    erewrite io_bind_run by (unfold lift; rewrite Hdelta; reflexivity).
    specialize (Hok delay delta Hd Hdelta). cbn [w_ticks].
    destruct (datetime_add (clock (S (w_ticks w))) delta) as [at_|] eqn:Hat; [|done].
    erewrite io_bind_run by reflexivity.
    destruct (logical_tasks (w_db w) !! ev_task_id e) as [l|] eqn:Hl.
    + rewrite (proj2 (has_true _ _)) by (by rewrite Hl).
      erewrite io_bind_run by (apply (record_failure_again _ _ _ _ _ _ _ _ _ l); done). eexists; split; [|reflexivity]; done.
    + rewrite (proj2 (has_false _ _)) by done. apply Z.leb_le in HM.
      unfold record_failure. run_io. rewrite HM. cbn [w_db]. rewrite Hl. eexists; split; [|reflexivity]; done.
Qed.

Lemma apply_completion_row e ex ns n w w' d n' :
  node_executions (w_db w) !! (ev_execution_id e, ev_node_id e) = Some n' → ne_status n' = NRunning →
  apply_completion e ex ns n w = (w', Ok d) →
  ∃ t, node_executions (w_db w') !! (ev_execution_id e, ev_node_id e) = Some (completed_row e t n').
Proof.
  intros Hn Hs Hrun.
  destruct (apply_completion_running e ex ns n w w' d n' Hn Hs Hrun)
    as (t & w1 & w2 & w3 & ready & f & Hw1 & Hp & Hm & _ & Hf & _). exists t.
  assert (HN : node_executions (w_db w') = node_executions (w_db w2)).
  { pose proof (keeps_run _ _ _ _ _ (finalization_nodes _ _ _) Hf) as [_ ->].
    by apply add_message_effect in Hm as [_ ->]. }
  rewrite HN. destruct (decide (ev_status e = TCompleted)) as [Hc|Hc].
  - subst w2. rewrite Hw1. simpl. by rewrite lookup_insert, decide_True.
  - apply propagate_failure_effect in Hp as (wf & blocked & r & t' & _ & _ & [o ->]). simpl.
    rewrite lookup_update_where, Hw1. simpl. rewrite lookup_insert, decide_True by done. simpl.
    by rewrite pending_among_other by (rewrite completed_row_status, decide_False; done).
Qed.

Lemma apply_completion_again e ex ns n w :
  node_executions (w_db w) !! (ev_execution_id e, ev_node_id e) = Some n →
  node_terminal (ne_status n) = true →
  ∃ w', apply_completion e ex ns n w = (w', Ok (duplicate_decision e)) ∧ w_db w' = w_db w.
Proof.
  intros Hn Ht. unfold apply_completion, node_update_status_if_current. run_io. cbn [w_db].
  rewrite Hn. rewrite decide_False by (intros E; by rewrite E in Ht).
  assert (Hd : ne_status n = NCompleted ∨ ne_status n = NFailed)
    by (revert Ht; clear; destruct (ne_status n); naive_solver).
  rewrite (bool_decide_eq_true_2 _ Hd). eexists. split; [reflexivity|done].
Qed.

(** Running the transaction forwards. *)
Lemma process_run e w ex n w1 s :
  db_inv (w_db w) → ev_task_id e = create_task_id (ev_execution_id e) (ev_node_id e) →
  workflow_executions (w_db w) !! ev_execution_id e = Some ex →
  node_executions (w_db w) !! (ev_execution_id e, ev_node_id e) = Some n →
  record_attempt pow policy e n w = (w1, Ok s) →
  process pow policy e w =
    transaction (λ w, match s with
                      | Some d => (w1, Ok d)
                      | None => apply_completion e ex
                          (nodes_of_execution (ev_execution_id e) (w_db w)) n w1
                      end) w.
Proof.
  intros Hinv Ht Hx Hn Hr. unfold process. rewrite Ht, String.eqb_refl.
  erewrite io_bind_run by reflexivity. unfold transaction, process_body.
  erewrite io_bind_run by reflexivity. rewrite Hx. erewrite io_bind_run by reflexivity.
  pose proof (find_node (w_db w) (ev_execution_id e) (ev_node_id e) Hinv) as Hf. rewrite Hn in Hf.
  destruct Hf as [k ->]. erewrite io_bind_run by exact Hr. by destruct s.
Qed.

(** C15: redelivery.  Delivering the same event again, right after it was
    processed, is reported as a duplicate and changes no table, whatever the
    first outcome was. *)
Theorem completion_redelivery e w w1 d w2 :
  db_inv (w_db w) → process pow policy e w = (w1, Ok d) → w_db w2 = w_db w1 →
  (ev_status e = TFailed → retry_time_ok e (clock (S (w_ticks w2)))) →
  ∃ w3, process pow policy e w2 = (w3, Ok (duplicate_decision e)) ∧ w_db w3 = w_db w2.
Proof.
  intros Hinv Hrun Hw2 Htime.
  assert (Hinv1 : db_inv (w_db w1))
    by (by apply (keeps_run _ _ _ _ _ (process_kept policy evolves pow e) Hrun)).
  apply process_Ok_inv in Hrun as (Ht & ex & n & w0 & s & Hx & Hn & Hr & Hrun); [|done].
  pose proof (record_attempt_settles e n w w0 s Hr) as [Hset Hs].
  pose proof (keeps_run _ _ _ _ _ (record_attempt_core pow policy e n) Hr) as (_ & CE & CN & _ & _).
  assert (Hin : ev_status e = TFailed → retry_time_ok e (clock (S (w_ticks w2))) ∧
    ∃ m ty delay delta, ev_error_message e = Some m ∧ ev_error_type e = Some ty ∧
      delay_for pow policy (ev_attempt_number e) = Ok delay ∧ timedelta_seconds delay = Ok delta ∧
      (1 ≤ rp_max_attempts policy)%Z).
  { intros Hf. split; [by apply Htime|]. by eapply record_attempt_inputs. }
  assert (Hafter : settled e (w_db w2) ∧ ∃ ex2 n2,
    workflow_executions (w_db w2) !! ev_execution_id e = Some ex2 ∧
    node_executions (w_db w2) !! (ev_execution_id e, ev_node_id e) = Some n2 ∧
    ((is_Some (logical_tasks (w_db w2) !! ev_task_id e) ∧
      (ev_status e = TCompleted → ne_status n2 ≠ NRunning)) ∨ node_terminal (ne_status n2) = true)).
  { rewrite Hw2. destruct s as [d'|].
    - destruct Hrun as [-> ->]. split; [done|]. exists ex, n. rewrite CE, CN. split; [done|].
      split; [done|]. by left.
    - pose proof (keeps_run _ _ _ _ _ (apply_completion_tasks _ _ _ _) Hrun) as (_ & TL & TA & _ & _).
      split; [by eapply settled_same|].
      rewrite <- CN in Hn. assert (Hrow : ∃ n2, node_executions (w_db w1) !!
        (ev_execution_id e, ev_node_id e) = Some n2 ∧ node_terminal (ne_status n2) = true).
      { destruct (decide (ne_status n = NRunning)) as [Hrn|Hrn].
        - destruct (apply_completion_row e ex _ n w0 w1 d n Hn Hrn Hrun) as [t Hrow].
          eexists. split; [exact Hrow|]. rewrite completed_row_status. by destruct (decide _).
        - destruct (apply_completion_stale e ex _ n w0 w1 d n Hn Hrn Hrun) as (Hd & _ & Htn).
          rewrite Hd. eauto. }
      destruct Hrow as (n2 & Hn2 & Ht2). destruct (inv_node_exec _ Hinv1 _ _ Hn2) as [ex2 Hx2].
      exists ex2, n2. split; [exact Hx2|]. split; [done|]. by right. }
  destruct Hafter as (Hset2 & ex2 & n2 & Hx2 & Hn2 & Hcase). rewrite <- Hw2 in Hinv1.
  destruct (record_attempt_again e n2 w2 Hset2) as (w3 & Hd3 & Hr2); [|exact Hin|].
  { intros Hc. destruct Hcase as [[_ Hq]|Hq]; [by apply Hq|]. intros E. by rewrite E in Hq. }
  rewrite (process_run e w2 ex2 n2 _ _ Hinv1 Ht Hx2 Hn2 Hr2).
  destruct (has (ev_task_id e) (logical_tasks (w_db w2))) eqn:Hl; [by exists w3|].
  destruct Hcase as [[Hq _]|Hq]; [apply has_false in Hl; destruct Hq as [? Hq]; congruence|].
  rewrite <- Hd3 in Hn2.
  destruct (apply_completion_again e ex2 (nodes_of_execution (ev_execution_id e) (w_db w2)) n2 w3 Hn2 Hq)
    as (w4 & Ha & Hd4).
  exists w4. unfold transaction. rewrite Ha. split; [done|congruence].
Qed.
End redelivery.

Section once.
Context `{WorkflowSchema} `{Env} `{Json} `{Pydantic} `{Host}.
Variables (float_str : spec_float → string) (repr : string → string).
Variable pow : spec_float → Z → py spec_float.
Variable policy : RetryPolicy.
Variable rules : list rule.

(** C14: a retry.  When a reported failure is scheduled for another attempt,
    the failure is stored on its attempt, the next attempt has the next
    number, which the policy allows, and waits for its retry time; nodes,
    workflows and the outbox are as before. *)
Theorem completion_retry e w w' d :
  db_inv (w_db w) → process pow policy e w = (w', Ok d) → tc_outcome d = TRETRY_SCHEDULED →
  ev_status e = TFailed ∧ tc_ready_node_ids d = [] ∧ same_core (w_db w) (w_db w') ∧
  ∃ next number, tc_retry_attempt_id d = Some (uuid_str next) ∧ tc_retry_attempt_number d = Some number ∧
    retry_stored e (rp_max_attempts policy) next number (w_db w) (w_db w').
Proof.
  intros Hinv Hrun Ho.
  apply process_Ok_inv in Hrun as (_ & ex & n & w0 & s & Hx & Hn & Hr & Hrun); [|done].
  pose proof (keeps_run _ _ _ _ _ (record_attempt_core pow policy e n) Hr) as Hcore.
  destruct s as [d'|].
  2:{ exfalso. destruct Hcore as (_ & _ & CN & _). rewrite <- CN in Hn.
      destruct (decide (ne_status n = NRunning)) as [Hrn|Hrn].
      - destruct (apply_completion_running e ex _ n w0 w' d n Hn Hrn Hrun)
          as (? & ? & ? & ? & ? & ? & _ & _ & _ & _ & _ & ->). done.
      - destruct (apply_completion_stale e ex _ n w0 w' d n Hn Hrn Hrun) as (_ & -> & _). done. }
  destruct Hrun as [-> ->]. unfold record_attempt in Hr. destruct (ev_status e).
  { apply io_bind_Ok in Hr as (w2 & t & _ & Hr). apply io_bind_Ok in Hr as (w3 & b & _ & Hr).
    injection Hr as _ Hr. destruct (negb b && _); [|done]. by injection Hr as <-. }
  split; [done|].
  destruct (ev_error_message e) as [m|] eqn:Hm; [|done]. destruct (ev_error_type e) as [ty|] eqn:Hty; [|done].
  apply io_bind_Ok in Hr as (w2 & f & Hf & Hr). injection Hf as <- _.
  apply io_bind_Ok in Hr as (w2 & base & Hf & Hr). injection Hf as <- _.
  apply io_bind_Ok in Hr as (w2 & delay & Hf & Hr). injection Hf as <- _.
  apply io_bind_Ok in Hr as (w2 & delta & Hf & Hr). injection Hf as <- _.
  apply io_bind_Ok in Hr as (w2 & at_ & Hf & Hr). injection Hf as <- _.
  apply io_bind_Ok in Hr as (w2 & dec & Hrec%record_failure_run & Hr). injection Hr as <- Hd.
  cbn [w_db] in Hrec. destruct (logical_tasks (w_db w) !! ev_task_id e) as [l|] eqn:Hl.
  2:{ by destruct Hrec as [-> _]. }
  destruct Hrec as [(-> & _)|(a & Ha & Hta & [(-> & _)|(next & -> & Hlt & Hne & Hnew & HA & HD & HL)])].
  { by injection Hd as <-. } { done. }
  injection Hd as <-. split; [done|]. split; [done|]. exists next, (at_attempt_number a + 1)%Z.
  split; [done|]. split; [done|]. exists l, a, m, ty, f, at_. repeat (split; [done|]). split; [lia|]. done.
Qed.

(** C16: a node completes at most once.  After an event has been processed,
    and whatever the processes do in between, no other event for the same
    node of the same execution, nor the same one again, is processed: it
    changes no node, no workflow execution and no outbox row. *)
Theorem completion_at_most_once e w w1 d ops e2 :
  db_inv (w_db w) → process pow policy e w = (w1, Ok d) → tc_outcome d = TPROCESSED →
  ev_execution_id e2 = ev_execution_id e → ev_node_id e2 = ev_node_id e →
  let w2 := run_operations float_str repr pow policy rules ops w1 in
  let '(w3, r) := process pow policy e2 w2 in
  same_core (w_db w2) (w_db w3) ∧
  match r with Ok d2 => tc_outcome d2 ≠ TPROCESSED ∧ tc_ready_node_ids d2 = [] | Raise _ => True end.
Proof.
  intros Hinv Hrun Ho Hx2 Hi2 w2.
  assert (Hinv1 : db_inv (w_db w1))
    by (by apply (keeps_run _ _ _ _ _ (process_kept policy evolves pow e) Hrun)).
  destruct (processed_inv pow policy e w w1 d Hinv Hrun Ho) as (ex & n & w0 & _ & Hn & Hr & Hcore & _ & Ha).
  destruct Hcore as (_ & _ & CN & _). rewrite <- CN in Hn.
  destruct (apply_completion_row e ex _ n w0 w1 d n Hn Hr Ha) as [t Hrow].
  destruct (run_operations_evolves float_str repr pow policy rules ops w1 Hinv1) as [Hinv2 [_ _ Hmv]].
  destruct (Hmv _ _ Hrow) as (n2 & Hn2 & Hm). fold w2 in Hn2, Hinv2.
  assert (Ht : node_terminal (ne_status (completed_row e t n)) = true)
    by (rewrite completed_row_status; by destruct (decide _)).
  apply node_terminal_moves in Hm; [|done]. rewrite <- Hm in Ht. clear Hm.
  destruct (process pow policy e2 w2) as [w3 [d2|exc]] eqn:Hrun2.
  2:{ apply process_Raise in Hrun2. rewrite Hrun2. done. }
  apply process_Ok_inv in Hrun2 as (_ & ex2 & n2' & w4 & s & _ & Hn2' & Hr2 & Hrun2); [|done].
  rewrite Hx2, Hi2 in Hn2'. assert (n2' = n2) as -> by congruence.
  pose proof (keeps_run _ _ _ _ _ (record_attempt_core pow policy e2 n2) Hr2) as Hcore2.
  destruct s as [d2'|].
  - destruct Hrun2 as [-> ->]. split; [done|].
    by apply record_attempt_decision in Hr2.
  - pose proof Hcore2 as (_ & _ & CN2 & _). eapply apply_completion_stale in Hrun2 as (Hd & -> & _).
    + rewrite Hd. done.
    + rewrite Hx2, Hi2, CN2. exact Hn2.
    + intros E. by rewrite E in Ht.
Qed.
End once.
