(* ===== verification/RetrySpec.v ===== *)
(** * Due retries are published

    The orchestrator publishes the attempts whose delay has passed, one after
    the other: a message first, then the row that says so.  Whatever stops it,
    the attempts it has published are marked, the others are as before. *)

From Stdlib Require Import SpecFloat.
From S2P Require Import Prelude Numerals PyVal States Errors Domain Dag Graph Readiness Failure.
From S2P Require Import Cycles Validation Templates Resolver Json Messages Store Repositories.
From S2P Require Import TaskRepositories Services Dispatch Completion Redis Barriers Outbox Worker.
From S2P Require Import Orchestrator Preservation Retries TriggerSpec.

Definition due_retries (t : datetime) (d : Db) : list DueRetryTask :=
  omap (due_retry d t) (rows_where (λ _ _, true) (task_attempts d)).

Definition dispatch_published (t : datetime) (r : TaskRetryDispatchRecord) : TaskRetryDispatchRecord :=
  {| rd_attempt_id := rd_attempt_id r; rd_available_at := rd_available_at r; rd_status := DPublished;
     rd_published_at := Some t; rd_created_at := rd_created_at r |}.

(** The attempts [ids] have been published at [t], and nothing else has
    changed. *)
Definition retried (t : datetime) (ids : list UUID) (d d' : Db) : Prop :=
  (∀ k, task_retry_dispatches d' !! k =
     if decide (k ∈ ids) then dispatch_published t <$> task_retry_dispatches d !! k
     else task_retry_dispatches d !! k) ∧
  (∀ k, task_attempts d' !! k =
     if decide (k ∈ ids) then attempt_queued <$> task_attempts d !! k else task_attempts d !! k) ∧
  workflows d' = workflows d ∧ workflow_executions d' = workflow_executions d ∧
  node_executions d' = node_executions d ∧ outbox_events d' = outbox_events d ∧
  logical_tasks d' = logical_tasks d ∧ task_processing d' = task_processing d.

Lemma retried_none t d : retried t [] d d.
Proof. unfold retried. repeat split; try done; intros k; by rewrite decide_False by set_solver. Qed.

(** The attempt [k] is due. *)
Definition is_due (t : datetime) (d : Db) (k : UUID) : Prop :=
  (∃ r, task_retry_dispatches d !! k = Some r ∧ rd_status r = DPending) ∧
  ∃ a, task_attempts d !! k = Some a ∧ at_status a = AScheduled.

Section retries.
Context `{WorkflowSchema} `{Env} `{Json} `{Pydantic}.

Lemma mark_retry_run t d k ids w :
  retried t ids d (w_db w) → is_due t d k → k ∉ ids →
  ∃ w', transaction (mark_retry_published k t) w = (w', Ok true) ∧
    w_streams w' = w_streams w ∧ retried t (ids ++ [k]) d (w_db w').
Proof.
  intros (HD & HA & HW & HE & HN & HO & HL & HP) [(r & Hr & Hrs) (a & Ha & Has)] Hk.
  assert (Hr' : task_retry_dispatches (w_db w) !! k = Some r) by (rewrite HD, decide_False; done).
  assert (Ha' : task_attempts (w_db w) !! k = Some a) by (rewrite HA, decide_False; done).
  eexists. split; [|split].
  - unfold mark_retry_published, set_attempt_row. run_io. rewrite Hr', decide_True by done. simpl.
    rewrite Ha', decide_True by done. reflexivity.
  - done.
  - unfold retried. simpl. split; [|split; [|done]]; intros j; rewrite lookup_insert;
      destruct (decide (k = j)) as [<-|Hne].
    + rewrite decide_True, Hr by set_solver. done.
    + rewrite HD. repeat case_decide; set_solver.
    + rewrite decide_True, Ha by set_solver. done.
    + rewrite HA. repeat case_decide; set_solver.
Qed.

(** A retry and the message it is published as. *)
Definition retry_sent (r : DueRetryTask) (m : string * stream_fields) : Prop :=
  ∃ f, message_to_stream_fields (retry_message r) = Ok f ∧ m = (WORKFLOW_TASKS_STREAM, f).

Lemma publish_retries_effect t d due p sent w w' res :
  retried t (dr_attempt_id <$> sent) d (w_db w) →
  (∀ r, r ∈ due → is_due t d (dr_attempt_id r)) → NoDup (dr_attempt_id <$> (sent ++ due)) →
  publish_retries t due p w = (w', res) →
  ∃ done rest msgs, due = done ++ rest ∧ w_streams w' = w_streams w ++ msgs ∧
    Forall2 retry_sent done msgs ∧ retried t (dr_attempt_id <$> (sent ++ done)) d (w_db w') ∧
    match res with
    | Ok n => rest = [] ∧ n = (p + Z.of_nat (length done))%Z
    | Raise _ => rest ≠ []
    end.
Proof.
  revert p sent w. induction due as [|r due IH]; intros p sent w Hd Hdue Hnd; simpl.
  { intros [= <- <-]. exists [], [], []. rewrite !app_nil_r. split; [done|]. split; [done|].
    split; [constructor|]. split; [done|]. simpl. split; [done|lia]. }
  assert (Hstop : ∃ done rest (msgs : list (string * stream_fields)), r :: due = done ++ rest ∧
    w_streams w = w_streams w ++ msgs ∧ Forall2 retry_sent done msgs ∧
    retried t (dr_attempt_id <$> (sent ++ done)) d (w_db w) ∧ rest ≠ []).
  { exists [], (r :: due), []. rewrite !app_nil_r. split; [done|]. split; [done|].
    split; [constructor|]. by split. }
  unfold mbind at 1, io_bind at 1, lift. destruct (NodeTaskMessage_init (retry_message r)) as [m|e] eqn:Hm.
  2:{ intros [= <- <-]. exact Hstop. }
  assert (m = retry_message r) as -> by (unfold NodeTaskMessage_init in Hm; destruct (valid_task_message _); congruence).
  unfold mbind at 1, io_bind at 1. destruct (message_to_stream_fields (retry_message r)) as [f|e] eqn:Hf.
  2:{ intros [= <- <-]. exact Hstop. }
  unfold mbind at 1, io_bind at 1, publish. destruct (redis_failure (w_calls w)) as [e|] eqn:Hredis.
  { intros [= <- <-]. exact Hstop. }
  match goal with |- (_ ≫= _) ?w0 = _ → _ => set (w1 := w0) end.
  destruct (mark_retry_run t d (dr_attempt_id r) (dr_attempt_id <$> sent) w1) as (w2 & Hmark & Hs2 & Hd2).
  { done. }
  { apply Hdue. set_solver. }
  { rewrite fmap_app, NoDup_app in Hnd. destruct Hnd as (_ & Hx & _). intros Hin. apply (Hx _ Hin). set_solver. }
  rewrite (io_bind_run _ _ _ _ _ Hmark). intros Hrun.
  apply (IH (p + 1)%Z (sent ++ [r])) in Hrun as (done & rest & msgs & -> & Hs & Hall & Hd' & Hres).
  - exists (r :: done), rest, ((WORKFLOW_TASKS_STREAM, f) :: msgs). split; [done|]. split.
    { rewrite Hs, Hs2. unfold w1. simpl. by rewrite <- app_assoc. }
    split; [constructor; [by exists f|done]|]. rewrite <- app_assoc in Hd'. split; [done|].
    destruct res; [|done]. destruct Hres as [-> ->]. split; [done|]. simpl. lia.
  - by rewrite fmap_app.
  - intros r' Hr'. apply Hdue. set_solver.
  - by rewrite <- app_assoc.
Qed.

Lemma due_retries_due t d :
  (∀ k a, task_attempts d !! k = Some a → at_attempt_id a = k) →
  (∀ r, r ∈ due_retries t d → is_due t d (dr_attempt_id r)) ∧ NoDup (dr_attempt_id <$> due_retries t d).
Proof.
  intros Hk. assert (Hid : ∀ a r, due_retry d t a = Some r → dr_attempt_id r = at_attempt_id a ∧
    at_status a = AScheduled ∧ ∃ rd, task_retry_dispatches d !! at_attempt_id a = Some rd ∧ rd_status rd = DPending).
  { intros a r. unfold due_retry. destruct (task_retry_dispatches d !! at_attempt_id a) as [rd|]; [|done]. simpl.
    destruct (logical_tasks d !! at_task_id a); [|done]. simpl. case_decide as Hc; [|done].
    intros [= <-]. destruct Hc as (? & _ & ?). simpl. eauto. }
  unfold due_retries. split.
  - intros r (a & Ha & Hr)%list_elem_of_omap. apply elem_of_rows_where in Ha as (k & Ha & _).
    destruct (Hid a r Hr) as (-> & Hs & Hrd). rewrite (Hk k a Ha) in *. split; eauto.
  - pose proof (NoDup_rows_where (λ _ _, true) at_attempt_id (task_attempts d) Hk) as Hnd.
    induction (rows_where (λ _ _, true) (task_attempts d)) as [|a l IH]; csimpl; [constructor|].
    csimpl in Hnd. apply NoDup_cons in Hnd as [Hni Hnd]. destruct (due_retry d t a) as [r|] eqn:Hr; [|by auto].
    csimpl. apply NoDup_cons. split; [|by auto]. destruct (Hid a r Hr) as (-> & _).
    intros (r' & Heq & (a' & Ha' & Hr')%list_elem_of_omap)%list_elem_of_fmap. apply Hni.
    destruct (Hid a' r' Hr') as (Heq' & _). rewrite Heq, Heq'. by apply list_elem_of_fmap_2.
Qed.

Lemma publish_due_retries_effect o w w' res :
  (∀ k a, task_attempts (w_db w) !! k = Some a → at_attempt_id a = k) →
  publish_due_retries o w = (w', res) →
  ∃ t done rest msgs, default t o = t ∧ due_retries t (w_db w) = done ++ rest ∧ w_streams w' = w_streams w ++ msgs ∧
    Forall2 retry_sent done msgs ∧ retried t (dr_attempt_id <$> done) (w_db w) (w_db w') ∧
    match res with
    | Ok n => rest = [] ∧ n = Z.of_nat (length done)
    | Raise _ => rest ≠ []
    end.
Proof.
  intros Hkey Hrun.
  assert (Hcase : ∃ t w0, default t o = t ∧ w_db w0 = w_db w ∧ w_streams w0 = w_streams w ∧
    publish_retries t (due_retries t (w_db w)) 0 w0 = (w', res)).
  { destruct o as [t|]; eexists _, _; (split; [reflexivity|]); (split; [|split; [|exact Hrun]]); done. }
  destruct Hcase as (t & w0 & Ho & Hd & Hs & Hp). destruct (due_retries_due t (w_db w) Hkey) as [Hdue Hnd].
  apply (publish_retries_effect t (w_db w) (due_retries t (w_db w)) 0 [] w0 w' res) in Hp; [|rewrite Hd; apply retried_none|done|done].
  destruct Hp as (done & rest & msgs & Hp). exists t, done, rest, msgs. by rewrite <- Hs.
Qed.

(** C21: publishing due retries.  The messages of due retries are appended to
    the task stream, in order and each followed by the row that marks it
    published and its attempt queued; when the operation returns, all of them
    have been, and when it raises, the first ones have been and the rest are
    as before.  Nothing else changes. *)
Theorem due_retries_correct t w :
  (∀ k a, task_attempts (w_db w) !! k = Some a → at_attempt_id a = k) →
  let '(w', res) := publish_due_retries (Some t) w in
  ∃ done rest msgs, due_retries t (w_db w) = done ++ rest ∧ w_streams w' = w_streams w ++ msgs ∧
    Forall2 retry_sent done msgs ∧ retried t (dr_attempt_id <$> done) (w_db w) (w_db w') ∧
    match res with
    | Ok n => rest = [] ∧ n = Z.of_nat (length done)
    | Raise _ => rest ≠ []
    end.
Proof.
  intros Hkey. destruct (publish_due_retries (Some t) w) as [w' res] eqn:Hrun.
  destruct (publish_due_retries_effect _ w w' res Hkey Hrun) as (t' & done & rest & msgs & <- & Heff).
  by exists done, rest, msgs.
Qed.
End retries.
