(* ===== verification/OutboxSpec.v ===== *)
(** * The outbox is drained faithfully

    A row is marked published only after its message has been appended to its
    stream, in order of creation; a failed publication leaves the rest of the
    rows pending; the cleanup removes only old published rows. *)

From S2P Require Import Prelude Numerals PyVal States Errors Domain Json Messages Store.
From S2P Require Import Repositories Services Completion Outbox TriggerSpec.

(** ** Ordering *)

Lemma insert_by_perm {A} (key : A → Z) x l : insert_by key x l ≡ₚ x :: l.
Proof.
  induction l as [|y l IH]; simpl; [done|]. case_match; [done|]. rewrite IH. apply Permutation_swap.
Qed.

Lemma order_by_perm {A} (key : A → Z) l : order_by key l ≡ₚ l.
Proof. induction l as [|x l IH]; simpl; [done|]. by rewrite insert_by_perm, IH. Qed.

Definition by_key {A} (key : A → Z) (x y : A) : Prop := (key x ≤ key y)%Z.

Lemma insert_by_sorted {A} (key : A → Z) x l :
  StronglySorted (by_key key) l → StronglySorted (by_key key) (insert_by key x l).
Proof.
  induction 1 as [|y l Hs IH Hy]; simpl; [repeat constructor|].
  destruct (key x <=? key y)%Z eqn:E.
  - apply Z.leb_le in E. constructor; [by constructor|]. constructor; [done|].
    eapply Forall_impl; [exact Hy|]. unfold by_key. intros z. lia.
  - apply Z.leb_gt in E. constructor; [done|]. rewrite insert_by_perm. constructor; [|done].
    unfold by_key. lia.
Qed.

Lemma order_by_sorted {A} (key : A → Z) l : StronglySorted (by_key key) (order_by key l).
Proof. induction l as [|x l IH]; simpl; [constructor|]. by apply insert_by_sorted. Qed.

Lemma sorted_take {A} (R : A → A → Prop) n l : StronglySorted R l → StronglySorted R (take n l).
Proof.
  intros Hs. revert n. induction Hs as [|x l Hs IH Hx]; intros [|n]; simpl; [constructor..|].
  constructor; [done|]. by apply Forall_take.
Qed.

Lemma sorted_app_l {A} (R : A → A → Prop) l1 l2 : StronglySorted R (l1 ++ l2) → StronglySorted R l1.
Proof.
  intros Hs. rewrite <- (take_app_length l1 l2). by apply sorted_take.
Qed.

Lemma sorted_app_le {A} (key : A → Z) l1 l2 x y :
  StronglySorted (by_key key) (l1 ++ l2) → x ∈ l1 → y ∈ l2 → (key x ≤ key y)%Z.
Proof.
  induction l1 as [|z l1 IH]; [set_solver|]. intros [Hs Hf]%StronglySorted_inv Hx Hy.
  apply elem_of_cons in Hx as [->|Hx]; [|by apply IH]. rewrite Forall_forall in Hf.
  apply (Hf y). set_solver.
Qed.

(** ** Publication *)

(** Rows are stored under their event identifiers. *)
Definition outbox_keys (d : Db) : Prop :=
  ∀ k r, outbox_events d !! k = Some r → ob_event_id r = k.

Section publication.
Context `{Env} `{Json}.

(** The messages appended for some rows. *)
Definition delivered (rows : list OutboxEventRecord) (msgs : list (string * stream_fields)) : Prop :=
  Forall2 (λ r m, ∃ f, _stream_fields r = Ok f ∧ m = (target_of r, f)) rows msgs.

(** Some rows are marked published, one after the other. *)
Inductive marked : list OutboxEventRecord → Db → Db → Prop :=
| marked_nil d : marked [] d d
| marked_cons row t rows d d' :
    marked rows (set_outbox_row (ob_event_id row) (row_published t row) d) d' →
    marked (row :: rows) d d'.

Lemma marked_snoc rows row t d d' :
  marked rows d d' →
  marked (rows ++ [row]) d (set_outbox_row (ob_event_id row) (row_published t row) d').
Proof. induction 1; simpl; econstructor; [constructor|done]. Qed.

Lemma marked_lookup rows d d' :
  marked rows d d' → NoDup (ob_event_id <$> rows) →
  (∀ row, row ∈ rows → ∃ t, outbox_events d' !! ob_event_id row = Some (row_published t row)) ∧
  (∀ k, k ∉ ob_event_id <$> rows → outbox_events d' !! k = outbox_events d !! k).
Proof.
  induction 1 as [d|row t rows d d' Hm IH]; [set_solver|]. csimpl. rewrite NoDup_cons. intros [Hr Hnd].
  destruct (IH Hnd) as [IH1 IH2]. split.
  - intros row' [->|Hin]%elem_of_cons; [|by apply IH1]. exists t. rewrite IH2 by done. simpl.
    by rewrite lookup_insert, decide_True.
  - intros k Hk. rewrite IH2 by set_solver. simpl. apply lookup_insert_ne. set_solver.
Qed.

Lemma publish_row_cases row w :
  let m := fields ← lift (_stream_fields row); publish (target_of row) fields in
  match m w with
  | (w', Ok _) => ∃ f, _stream_fields row = Ok f ∧
      w_streams w' = w_streams w ++ [(target_of row, f)] ∧ w_db w' = w_db w
  | (w', Raise _) => w_streams w' = w_streams w ∧ w_db w' = w_db w
  end.
Proof.
  unfold publish. run_io. destruct (_stream_fields row) as [f|exc]; [|done].
  destruct (redis_failure (w_calls w)); [done|]. by exists f.
Qed.

Lemma publish_rows_effect rows pending p w w' r :
  publish_rows rows pending p w = (w', r) →
  ∃ done_rows msgs, delivered done_rows msgs ∧ w_streams w' = w_streams w ++ msgs ∧
  match r with
  | Ok n => done_rows = rows ∧ n = (p + Z.of_nat (length rows))%Z ∧ marked rows pending (w_db w')
  | Raise exc => ∃ row rest, rows = done_rows ++ row :: rest ∧
      match exc with
      | RedisError m => ∃ d, marked done_rows pending d ∧
          w_db w' = set_outbox_row (ob_event_id row) (row_failed m row) d
      | _ => w_db w' = w_db w
      end
  end.
Proof.
  revert pending p w. induction rows as [|row rows IH]; intros pending p w; cbn [publish_rows].
  - intros [= <- <-]. exists [], []. rewrite app_nil_r. split; [constructor|]. split; [done|].
    split; [done|]. split; [simpl; lia|constructor].
  - intros Hrun. pose proof (publish_row_cases row w) as Hc. cbv zeta in Hc.
    destruct ((fields ← lift (_stream_fields row); publish (target_of row) fields) w) as [w1 [[]|exc]].
    + destruct Hc as (f & Hf & Hs & Hd). run_io in Hrun.
      apply IH in Hrun as (done_rows & msgs & Hdel & Hs' & Hr). cbn [w_streams w_db] in Hs', Hr.
      exists (row :: done_rows), ((target_of row, f) :: msgs).
      split; [constructor; eauto|]. split; [by rewrite Hs', Hs, <- app_assoc|]. destruct r as [n|exc].
      * destruct Hr as (-> & -> & Hm). split; [done|]. split; [simpl; lia|]. by econstructor.
      * destruct Hr as (row' & rest & -> & Hr). exists row', rest. split; [done|].
        destruct exc; try congruence. destruct Hr as (d & Hm & Hdb). exists d. split; [by econstructor|done].
    + destruct Hc as [Hs Hd]. exists [], []. rewrite app_nil_r.
      destruct exc; injection Hrun as <- <-; (split; [constructor|]); (split; [done|]);
        exists row, rows; (split; [done|]); try done.
      exists pending. split; [constructor|done].
Qed.
End publication.

Lemma pending_rows_elem d r :
  r ∈ pending_rows d → ∃ k, outbox_events d !! k = Some r ∧ ob_status r = OPending.
Proof.
  unfold pending_rows. intros Hr. apply elem_of_take in Hr as (i & Hi & _).
  apply list_elem_of_lookup_2 in Hi. rewrite order_by_perm in Hi.
  apply elem_of_rows_where in Hi as (k & Hk & Hp%bool_decide_eq_true). eauto.
Qed.

Lemma pending_rows_ids d : outbox_keys d → NoDup (ob_event_id <$> pending_rows d).
Proof.
  intros Hk. unfold pending_rows. rewrite fmap_take.
  eapply sublist_NoDup; [|apply sublist_take]. rewrite order_by_perm. by apply NoDup_rows_where.
Qed.

Lemma marked_prefix_ids d done_rows rest :
  outbox_keys d → pending_rows d = done_rows ++ rest → NoDup (ob_event_id <$> (done_rows ++ rest)).
Proof. intros Hk <-. by apply pending_rows_ids. Qed.

Section drained.
Context `{Env} `{Json}.

(** What one turn of the publisher does to the tables: the rows it has sent
    are published, the row that met a Redis error, if any, carries it, and
    every other row of the outbox and all other tables are as before. *)
Definition drained (done_rows : list OutboxEventRecord) (met : option (OutboxEventRecord * string))
    (d d' : Db) : Prop :=
  d' = set_outbox (outbox_events d') d ∧
  ∀ k, match outbox_events d !! k, outbox_events d' !! k with
       | None, None => True
       | Some r, Some r' =>
           (r ∈ done_rows ∧ ∃ t, r' = row_published t r) ∨
           ((r ∉ done_rows) ∧
            r' = match met with
                 | Some (row, m) => if decide (ob_event_id row = k) then row_failed m r else r
                 | None => r
                 end)
       | _, _ => False
       end.

Lemma marked_tables rows d d' : marked rows d d' → d' = set_outbox (outbox_events d') d.
Proof. induction 1 as [d|row t rows d d' _ IH]; [by destruct d|]. rewrite IH. by destruct d. Qed.

Lemma marked_drained d done_rows rest d' k :
  outbox_keys d → pending_rows d = done_rows ++ rest → marked done_rows d d' →
  match (outbox_events d !! k), (outbox_events d' !! k) with
  | None, None => True
  | Some r, Some r' => (¬ r ∈ done_rows ∧ r' = r) ∨ (r ∈ done_rows ∧ ∃ t, r' = row_published t r)
  | _, _ => False
  end.
Proof.
  intros Hk Hrows Hm. pose proof (marked_prefix_ids d done_rows rest Hk Hrows) as Hnd.
  rewrite fmap_app, NoDup_app in Hnd. destruct Hnd as (Hnd & _ & _).
  destruct (marked_lookup done_rows d d' Hm Hnd) as [Hin Hout].
  destruct (decide (k ∈ ob_event_id <$> done_rows)) as [Hi|Hi].
  - apply list_elem_of_fmap in Hi as (r & -> & Hr).
    assert (Hd : outbox_events d !! ob_event_id r = Some r).
    { destruct (pending_rows_elem d r) as (j & Hj & _); [rewrite Hrows; set_solver|].
      by rewrite (Hk j r Hj). }
    destruct (Hin r Hr) as [t ->]. rewrite Hd. right. eauto.
  - rewrite Hout by done. destruct (outbox_events d !! k) as [r|] eqn:Hr; [|done].
    left. split; [|done]. intros Hd. apply Hi. rewrite <- (Hk k r Hr). by apply list_elem_of_fmap_2.
Qed.

Lemma publish_pending_effect w w' r :
  outbox_keys (w_db w) → publish_pending w = (w', r) →
  ∃ done_rows msgs,
    delivered done_rows msgs ∧ w_streams w' = w_streams w ++ msgs ∧
    done_rows `prefix_of` pending_rows (w_db w) ∧
    match r with
    | Ok n => done_rows = pending_rows (w_db w) ∧ n = Z.of_nat (length done_rows) ∧
              drained done_rows None (w_db w) (w_db w')
    | Raise (RedisError m) => ∃ row rest, pending_rows (w_db w) = done_rows ++ row :: rest ∧
              drained done_rows (Some (row, m)) (w_db w) (w_db w')
    | Raise _ => w_db w' = w_db w
    end.
Proof.
  intros Hk Hrun. unfold publish_pending in Hrun. run_io in Hrun.
  apply publish_rows_effect in Hrun as (done_rows & msgs & Hdel & Hs & Hr).
  exists done_rows, msgs. split; [done|]. split; [done|]. destruct r as [n|exc].
  - destruct Hr as (-> & -> & Hm). do 2 (split; [done|]). split; [lia|]. split; [by eapply marked_tables|]. intros k.
    pose proof (marked_drained _ (pending_rows (w_db w)) [] _ k Hk (eq_sym (app_nil_r _)) Hm) as Hd.
    destruct (outbox_events (w_db w) !! k), (outbox_events (w_db w') !! k); naive_solver.
  - destruct Hr as (row & rest & Hrows & Hr). split; [by exists (row :: rest)|].
    destruct exc; try done. destruct Hr as (d & Hm & Hdb). exists row, rest. split; [done|]. split.
    { rewrite Hdb. apply marked_tables in Hm. rewrite Hm. by destruct (w_db w). }
    intros k. rewrite Hdb. simpl.
    pose proof (marked_drained _ _ _ _ k Hk Hrows Hm) as Hd. rewrite lookup_insert.
    destruct (decide (ob_event_id row = k)) as [<-|Hne].
    + destruct (pending_rows_elem (w_db w) row) as (j & Hj & Hp); [rewrite Hrows; set_solver|].
      rewrite (Hk j row Hj), Hj. right. split; [|done]. intros Hin.
      pose proof (marked_prefix_ids _ _ _ Hk Hrows) as Hnd. rewrite fmap_app in Hnd.
      apply NoDup_app in Hnd as (_ & Hdis & _). apply (Hdis (ob_event_id row)); [by apply list_elem_of_fmap_2|].
      csimpl. by left.
    + destruct (outbox_events (w_db w) !! k), (outbox_events d !! k); naive_solver.
Qed.

(** C22: the publisher appends the messages of the rows it publishes, oldest
    first, and marks each of those rows published; every other row is as it
    was, but for the one that met a Redis error, which stays pending and
    carries the error, and no other table changes.  When the publisher
    returns, it has published every row it selected; an exception other than
    a Redis error leaves all tables as they were. *)
Theorem publish_pending_correct w :
  outbox_keys (w_db w) →
  let '(w', r) := publish_pending w in
  ∃ done_rows msgs,
    delivered done_rows msgs ∧ w_streams w' = w_streams w ++ msgs ∧
    done_rows `prefix_of` pending_rows (w_db w) ∧
    StronglySorted (by_key ob_created_at) done_rows ∧
    match r with
    | Ok n => done_rows = pending_rows (w_db w) ∧ n = Z.of_nat (length done_rows) ∧
              drained done_rows None (w_db w) (w_db w')
    | Raise (RedisError m) => ∃ row rest, pending_rows (w_db w) = done_rows ++ row :: rest ∧
              drained done_rows (Some (row, m)) (w_db w) (w_db w')
    | Raise _ => w_db w' = w_db w
    end.
Proof.
  intros Hk. destruct (publish_pending w) as [w' r] eqn:Hrun.
  destruct (publish_pending_effect w w' r Hk Hrun) as (done_rows & msgs & Hdel & Hs & Hpre & Hr).
  exists done_rows, msgs. do 3 (split; [done|]). split; [|done].
  assert (Hsort : StronglySorted (by_key ob_created_at) (pending_rows (w_db w)))
    by apply sorted_take, order_by_sorted.
  destruct Hpre as [rest Hrows]. rewrite Hrows in Hsort. by eapply sorted_app_l.
Qed.

Lemma delete_all_lookup (ids : list UUID) (t : gmap UUID OutboxEventRecord) k :
  foldl (λ t k, delete k t) t ids !! k = if decide (k ∈ ids) then None else t !! k.
Proof.
  revert t. induction ids as [|i ids IH]; intros t; cbn [foldl].
  { rewrite decide_False by set_solver. done. }
  rewrite IH, lookup_delete. repeat case_decide; set_solver.
Qed.

(** What a sorted list keeps after a batch is no less than the batch, and the
    batch is full. *)
Lemma batch_left (f : OutboxEventRecord → Z) n rows r' :
  StronglySorted (by_key f) rows → r' ∈ rows → r' ∉ take n rows →
  length (take n rows) = n ∧ ∀ r, r ∈ take n rows → (f r ≤ f r')%Z.
Proof.
  intros Hs Hr' Hn. split.
  - rewrite length_take. destruct (decide (length rows ≤ n)) as [Hle|]; [|lia]. by rewrite take_ge in Hn by lia.
  - intros r Hr. eapply (sorted_app_le f (take n rows) (drop n rows)); [by rewrite take_drop|done|].
    rewrite <- (take_drop n rows) in Hr'. set_solver.
Qed.

(** C23: The cleanup removes rows published at or before the cutoff and nothing
    else, the oldest first: it leaves such a row only when it has removed a
    whole batch, and only one published no earlier than those it removed.  It
    reports how many it removed; the other tables stay; and when it raises,
    for a refused argument or a cutoff out of range, nothing is removed. *)
Theorem cleanup_correct retention batch_size w :
  outbox_keys (w_db w) →
  match cleanup_published retention batch_size w with
  | (w', Raise _) => w_db w' = w_db w
  | (w', Ok n) =>
      ∃ cutoff (removed : list OutboxEventRecord),
        datetime_add (clock (w_ticks w)) (- retention) = Ok cutoff ∧
        n = Z.of_nat (length removed) ∧ (n ≤ batch_size)%Z ∧ NoDup (ob_event_id <$> removed) ∧
        (∀ r, r ∈ removed → outbox_events (w_db w) !! ob_event_id r = Some r ∧ expired cutoff r = true) ∧
        (∀ k, outbox_events (w_db w') !! k =
           if decide (k ∈ ob_event_id <$> removed) then None else outbox_events (w_db w) !! k) ∧
        (∀ k r', outbox_events (w_db w') !! k = Some r' → expired cutoff r' = true →
           n = batch_size ∧ ∀ r, r ∈ removed →
             (default 0 (ob_published_at r) ≤ default 0 (ob_published_at r'))%Z) ∧
        w_db w' = set_outbox (outbox_events (w_db w')) (w_db w)
  end.
Proof.
  intros Hk. unfold cleanup_published. destruct (retention <? 0)%Z; [done|].
  destruct (batch_size <? 1)%Z eqn:Hb; [done|]. apply Z.ltb_ge in Hb. run_io. cbn [w_db].
  destruct (datetime_add (clock (w_ticks w)) (- retention)) as [cutoff|] eqn:Hcut; [|done].
  set (rows := order_by (λ r, default 0%Z (ob_published_at r))
         (rows_where (λ _ r, expired cutoff r) (outbox_events (w_db w)))).
  set (removed := take (Z.to_nat batch_size) rows).
  assert (Hids : NoDup (ob_event_id <$> rows))
    by (unfold rows; rewrite order_by_perm; by apply NoDup_rows_where).
  assert (Hrow : ∀ r, r ∈ rows ↔ ∃ k, outbox_events (w_db w) !! k = Some r ∧ expired cutoff r = true)
    by (intros r; unfold rows; rewrite order_by_perm; apply elem_of_rows_where).
  assert (Hrem : ∀ r, r ∈ removed → outbox_events (w_db w) !! ob_event_id r = Some r ∧ expired cutoff r = true).
  { intros r Hr. apply elem_of_take in Hr as (i & Hi & _). apply list_elem_of_lookup_2, Hrow in Hi as (k & Hr & He).
    by rewrite (Hk k r Hr). }
  assert (Hnd : NoDup (ob_event_id <$> removed))
    by (unfold removed; rewrite fmap_take; eapply sublist_NoDup; [exact Hids|apply sublist_take]).
  assert (Hlen : (Z.of_nat (length removed) ≤ batch_size)%Z) by (unfold removed; rewrite length_take; lia).
  assert (Hold : ∀ r', r' ∈ rows → r' ∉ removed → Z.of_nat (length removed) = batch_size ∧
    ∀ r, r ∈ removed → (default 0 (ob_published_at r) ≤ default 0 (ob_published_at r'))%Z).
  { intros r' Hr' Hn. unfold removed in *.
    destruct (batch_left (λ r, default 0%Z (ob_published_at r)) (Z.to_nat batch_size) rows r') as [-> Hle];
      [apply order_by_sorted|done|done|]. split; [lia|done]. }
  assert (Hleft : ∀ k r', (if decide (k ∈ ob_event_id <$> removed) then None else outbox_events (w_db w) !! k) = Some r' →
    expired cutoff r' = true → r' ∈ rows ∧ r' ∉ removed).
  { intros k r' Hl Hexp. case_decide as Hin; [done|]. split; [apply Hrow; eauto|].
    intros Hr'. apply Hin. rewrite <- (Hk k r' Hl). by apply list_elem_of_fmap_2. }
  destruct (ob_event_id <$> removed) as [|i ids] eqn:He.
  - exists cutoff, removed. apply fmap_nil_inv in He as He'. rewrite He, He' in *. split; [done|]. split; [done|].
    split; [done|]. split; [done|]. split; [done|]. split; [intros k; by rewrite decide_False by set_solver|].
    split; [|by destruct (w_db w)]. intros k r' Hl Hexp. cbn [w_db] in Hl. specialize (Hleft k r').
    rewrite decide_False in Hleft by set_solver. destruct (Hleft Hl Hexp). by apply Hold.
  - assert (Hl' : length (i :: ids) = length removed) by (rewrite <- He; apply length_fmap).
    exists cutoff, removed. rewrite He, Hl'. do 5 (split; [done|]). split; [intros k; apply delete_all_lookup|].
    split; [|done]. intros k r' Hl Hexp. cbn [w_db set_db set_outbox outbox_events] in Hl.
    rewrite delete_all_lookup in Hl. destruct (Hleft k r' Hl Hexp). by apply Hold.
Qed.
End drained.
