(* ===== verification/Provenance.v ===== *)
(** * Where trigger events come from

    A trigger event in the outbox or on the event stream names an execution
    that has been triggered: triggering stores the event in the transaction
    that starts the execution, and nothing else stores or publishes one. *)

From Stdlib Require Import SpecFloat.
From S2P Require Import Prelude Numerals PyVal States Errors Domain Dag Graph Readiness Failure.
From S2P Require Import Cycles Validation Templates Resolver Json Messages Store Repositories.
From S2P Require Import TaskRepositories Services Dispatch Completion Redis Barriers Outbox Worker.
From S2P Require Import Orchestrator Preservation Streams Evolution TriggerSpec OutboxSpec.

(** ** In the outbox *)

Definition triggered (d : Db) (x : UUID) : Prop :=
  ∃ e, workflow_executions d !! x = Some e ∧ we_status e ≠ WPending.

Definition trigger_payload (x : UUID) : pydict := obj [("execution_id", PStr (uuid_str x))].

Definition rows_sound (d : Db) : Prop :=
  ∀ k r, outbox_events d !! k = Some r → ob_event_type r = _EXECUTION_TRIGGERED_EVENT_TYPE →
    ∃ x, ob_payload r = trigger_payload x ∧ triggered d x.

(** No trigger event is new. *)
Definition same_triggers (d d' : Db) : Prop :=
  ∀ k' r', outbox_events d' !! k' = Some r' → ob_event_type r' = _EXECUTION_TRIGGERED_EVENT_TYPE →
    ∃ k r, outbox_events d !! k = Some r ∧ ob_event_type r = _EXECUTION_TRIGGERED_EVENT_TYPE ∧
           ob_payload r = ob_payload r'.

Definition sound_moves (d d' : Db) : Prop :=
  db_inv d → (db_inv d' ∧ db_moves d d') ∧ (rows_sound d → rows_sound d').

#[export] Instance same_triggers_preorder : PreOrder same_triggers.
Proof.
  split; [by intros d k r; eauto|]. intros d1 d2 d3 H12 H23 k r Hr Ht.
  destruct (H23 k r Hr Ht) as (k2 & r2 & Hr2 & Ht2 & Hp2).
  destruct (H12 k2 r2 Hr2 Ht2) as (k1 & r1 & Hr1 & Ht1 & Hp1). exists k1, r1. naive_solver congruence.
Qed.

#[export] Instance sound_moves_preorder : PreOrder sound_moves.
Proof.
  split.
  - intros d Hd. split; [|done]. split; [done|reflexivity].
  - intros d1 d2 d3 H12 H23 H1. destruct (H12 H1) as [[H2 M12] S12].
    destruct (H23 H2) as [[H3 M23] S23]. split; [|by auto]. split; [done|by etrans].
Qed.

Lemma triggered_moves d d' x : db_moves d d' → triggered d x → triggered d' x.
Proof.
  intros [_ He _] (e & Hx & Hs). destruct (He x e Hx) as (e' & Hx' & Hm & _). exists e'. split; [done|].
  intros Hp. apply Hs. rewrite Hp in Hm. by apply workflow_moves_pending.
Qed.

Lemma sound_moves_same d d' : evolves d d' → same_triggers d d' → sound_moves d d'.
Proof.
  intros He Ht Hd. destruct (He Hd) as [Hd' Hm]. split; [done|]. intros Hs k r Hr Htype.
  destruct (Ht k r Hr Htype) as (k0 & r0 & Hr0 & Ht0 & Hp). destruct (Hs k0 r0 Hr0 Ht0) as (x & Hx & Hx').
  exists x. split; [congruence|]. by eapply triggered_moves.
Qed.

Lemma keeps_sound {A} (m : IO A) : keeps evolves m → keeps same_triggers m → keeps sound_moves m.
Proof. intros He Ht w. apply sound_moves_same; auto. Qed.

Lemma same_outbox_triggers d d' : outbox_events d' = outbox_events d → same_triggers d d'.
Proof. intros Ho k r. rewrite Ho. eauto. Qed.

Ltac quiet_outbox := apply keeps_from; intros ?; walk; apply same_outbox_triggers; reflexivity.

Section primitives.
Context `{WorkflowSchema} `{Env} `{Json}.

Lemma message_triggers i ty s p a :
  ty ≠ _EXECUTION_TRIGGERED_EVENT_TYPE → keeps same_triggers (add_message i ty s p a).
Proof.
  intros Hty. unfold add_message. apply keeps_from. intros d. walk. intros k r. simpl.
  rewrite lookup_insert. case_decide; [|by eauto]. intros [= <-]. simpl. done.
Qed.

Lemma submission_triggers w e : keeps same_triggers (persist_submission w e).
Proof.
  unfold persist_submission, create_workflow, create_execution. apply keeps_bind; [typeclasses eauto|quiet_outbox|].
  intros _. apply keeps_bind; [typeclasses eauto|quiet_outbox|]. intros _.
  apply keeps_iter; [typeclasses eauto|]. intros node. unfold new_node_execution, upsert_node_execution.
  quiet_outbox.
Qed.

(** Marking rows of the table. *)
Lemma mark_triggers d0 d row row' :
  (∃ k, outbox_events d0 !! k = Some row) → (∃ t, row' = row_published t row) ∨ (∃ m, row' = row_failed m row) →
  same_triggers d0 d → same_triggers d0 (set_outbox_row (ob_event_id row) row' d).
Proof.
  intros [k0 Hk0] Hrow' Hd k r. simpl. rewrite lookup_insert. case_decide; [|by apply Hd].
  intros [= <-] Ht. exists k0, row. destruct Hrow' as [[t ->]|[m ->]]; by simpl in *.
Qed.

Lemma marked_triggers d0 rows d d' :
  (∀ row, row ∈ rows → ∃ k, outbox_events d0 !! k = Some row) → same_triggers d0 d → marked rows d d' →
  same_triggers d0 d'.
Proof.
  intros Hrows Hd Hm. revert Hrows Hd. induction Hm as [d|row t rows d d' _ IH]; intros Hrows Hd; [done|].
  apply IH; [intros r Hr; apply Hrows; by right|]. apply mark_triggers; [apply Hrows; by left|by left; eexists|done].
Qed.

Lemma publish_triggers : keeps same_triggers publish_pending.
Proof.
  apply keeps_from. intros d. apply from_get_bind. apply (publish_rows_from _ (same_triggers d)); [done| |done].
  intros d' row row' Hrow Hrow' Hd'. apply mark_triggers; [|done|done].
  apply pending_rows_elem in Hrow as (k0 & Hk0 & _). by exists k0.
Qed.

Lemma delete_all_sub (l : list UUID) (t : gmap UUID OutboxEventRecord) k r :
  foldl (λ t k, delete k t) t l !! k = Some r → t !! k = Some r.
Proof.
  revert t. induction l as [|i l IH]; intros t; simpl; [done|]. intros Hr%IH.
  by apply lookup_delete_Some in Hr as [_ Hr].
Qed.

Lemma cleanup_triggers r b : keeps same_triggers (cleanup_published r b).
Proof.
  unfold cleanup_published. apply keeps_from. intros d. walk. intros k row Hrow Ht.
  exists k, row. split; [|done]. exact (delete_all_sub _ _ _ _ Hrow).
Qed.

Lemma trigger_body_sound x i : keeps sound_moves (trigger_body x i).
Proof.
  unfold trigger_body, get_execution_by_id, execution_update_status_if_current, add_message.
  apply keeps_from. intros d. walk.
  - apply sound_moves_same; [|by apply same_outbox_triggers].
    by eapply evolves_execution; [done|simpl; rewrite e0; apply pending_running|..].
  - intros Hd. split; [by apply (evolves_same _ (set_outbox _ _))|]. intros Hs k r. cbn [outbox_events set_outbox].
    rewrite lookup_insert. destruct (decide (a0 = k)).
    2:{ intros Hr Ht. destruct (Hs k r Hr Ht) as (y & Hy & Hty). by exists y. }
    intros [= <-] _. exists x. split; [done|].
    eexists. cbn [workflow_executions set_outbox set_executions].
    rewrite lookup_insert, decide_True by done. split; [done|]. done.
Qed.
End primitives.

#[export] Instance sound_moves_preserved `{WorkflowSchema} `{Env} `{Json} M : Preserved M sound_moves.
Proof.
  split; [|split; [typeclasses eauto|..]|apply keeps_sound; [apply publish_pending_evolves|apply publish_triggers]].
  - split; [typeclasses eauto|..]; intros; (apply keeps_sound; [eauto with keeps|]).
    + unfold claim_attempt, set_attempt_row. quiet_outbox.
    + unfold attempt_record_result, set_attempt_row. quiet_outbox.
    + unfold attempt_mark_completed, set_attempt_row. quiet_outbox.
    + unfold attempt_renew_claim, set_attempt_row. quiet_outbox.
  - intros. apply keeps_sound; [apply persist_submission_evolves|apply submission_triggers].
  - intros. apply keeps_sound; [by apply execution_update_evolves|].
    unfold execution_update_status_if_current. quiet_outbox.
  - intros. apply keeps_sound; [by apply node_update_evolves|].
    unfold node_update_status_if_current. quiet_outbox.
  - intros. apply keeps_sound; [apply claim_pending_nodes_evolves|]. unfold claim_pending_nodes. quiet_outbox.
  - intros. apply keeps_sound; [apply fail_pending_nodes_evolves|]. unfold fail_pending_nodes. quiet_outbox.
  - apply trigger_body_sound.
  - intros. apply keeps_sound; [eauto with keeps|by apply message_triggers].
  - intros. apply keeps_sound; [eauto with keeps|].
    unfold register_initial_task, insert_logical_task, insert_attempt, set_attempt_row, set_logical_row.
    quiet_outbox.
  - intros. apply keeps_sound; [eauto with keeps|]. unfold record_success, set_attempt_row, set_logical_row.
    quiet_outbox.
  - intros. apply keeps_sound; [eauto with keeps|].
    unfold record_failure, insert_attempt, insert_dispatch, set_attempt_row, set_logical_row. quiet_outbox.
  - intros. apply keeps_sound; [eauto with keeps|]. unfold mark_retry_published, set_attempt_row. quiet_outbox.
  - intros. apply keeps_sound; [apply cleanup_published_evolves|apply cleanup_triggers].
Qed.

(** ** On the event stream *)

(** Execution identifiers are 128-bit numbers. *)
Definition ids_bounded (d : Db) : Prop :=
  ∀ x e, workflow_executions d !! x = Some e → (x < uuid_bound)%N.

Section messages.
Context `{Env} `{JsonLaws}.

Definition messages_sound (w : World) : Prop :=
  ∀ f x, (WORKFLOW_EVENTS_STREAM, f) ∈ w_streams w → _execution_id f = Ok x → triggered (w_db w) x.

(** Reading back the execution of a published trigger event. *)
Lemma trigger_payload_read y (f : stream_fields) payload :
  (y < uuid_bound)%N → dumps (PDict (trigger_payload y)) = Ok payload → aget "payload" f = Some payload →
  json_object_field f "payload" "Workflow event" = Ok (trigger_payload y).
Proof.
  intros Hy Hd Hf. destruct (json_round_trip (PDict (trigger_payload y))) as (s & Hs & Hb & Hl); [done|].
  assert (s = payload) as -> by congruence. unfold json_object_field, json_value_field, required_field.
  rewrite Hf, Hb. simpl. rewrite Hl. done.
Qed.

Lemma trigger_payload_get y : dict_get "execution_id" (trigger_payload y) = Some (PStr (uuid_str y)).
Proof. reflexivity. Qed.

Lemma execution_id_inv f x :
  _execution_id f = Ok x →
  required_field f "event_type" "Workflow event" = Ok _EXECUTION_TRIGGERED_EVENT_TYPE ∧
  ∃ payload raw, json_object_field f "payload" "Workflow event" = Ok payload ∧
    dict_get "execution_id" payload = Some (PStr raw) ∧ uuid_parse raw = Some x.
Proof.
  unfold _execution_id. intros (ty & Hty & Hx)%bind_Ok_inv.
  destruct (String.eqb_spec ty _EXECUTION_TRIGGERED_EVENT_TYPE) as [->|]; [|done]. split; [done|].
  apply bind_Ok_inv in Hx as (payload & Hp & Hx). exists payload.
  destruct (dict_get "execution_id" payload) as [[]|]; try done.
  destruct (uuid_parse _) eqn:Hu; [|done]. injection Hx as ->. eauto.
Qed.

(** The fields of a row that goes to the event stream. *)
Lemma event_stream_fields r f :
  _stream_fields r = Ok f → target_of r = WORKFLOW_EVENTS_STREAM →
  aget "event_type" f = Some (ob_event_type r) ∧
  ∃ payload, dumps (PDict (ob_payload r)) = Ok payload ∧ aget "payload" f = Some payload.
Proof.
  unfold _stream_fields. intros Hf Ht. rewrite Ht in Hf. simpl in Hf.
  apply bind_Ok_inv in Hf as (payload & Hd & Hf). injection Hf as <-. split; [done|]. eauto.
Qed.

Lemma published_trigger r f x y :
  _stream_fields r = Ok f → target_of r = WORKFLOW_EVENTS_STREAM → _execution_id f = Ok x →
  ob_event_type r = _EXECUTION_TRIGGERED_EVENT_TYPE ∧
  (ob_payload r = trigger_payload y → (y < uuid_bound)%N → x = y).
Proof.
  intros Hf Ht (Hty & p & raw & Hp & Hg & Hu)%execution_id_inv.
  destruct (event_stream_fields r f Hf Ht) as (Htype & payload & Hd & Hpay). split.
  - unfold required_field in Hty. rewrite Htype in Hty.
    destruct (nonblank (ob_event_type r)); [by injection Hty|done].
  - intros Hrow Hy. rewrite Hrow in Hd. rewrite (trigger_payload_read y f payload Hy Hd Hpay) in Hp.
    injection Hp as <-. rewrite trigger_payload_get in Hg. injection Hg as <-.
    rewrite uuid_parse_str in Hu by done. congruence.
Qed.

(** A message the publisher sends. *)
Lemma ship_messages_sound w w' k row f :
  ids_bounded (w_db w) → rows_sound (w_db w) → messages_sound w →
  outbox_events (w_db w) !! k = Some row → _stream_fields row = Ok f →
  w_db w' = w_db w → w_streams w' = w_streams w ++ [(target_of row, f)] → messages_sound w'.
Proof.
  intros Hids Hrows Hms Hk Hf Hdb Hstr g x. rewrite Hdb, Hstr, elem_of_app, list_elem_of_singleton.
  intros [Hold|[= Htar ->]] Hx; [by eapply Hms|].
  destruct (published_trigger row f x x Hf (eq_sym Htar) Hx) as [Ht _].
  destruct (Hrows k row Hk Ht) as (y & Hp & Hy).
  destruct (published_trigger row f x y Hf (eq_sym Htar) Hx) as [_ Heq].
  destruct Hy as (e & He & Hs). rewrite (Heq Hp (Hids y e He)). by exists e.
Qed.

(** Operations that write no event. *)
Lemma quiet_messages_sound {A} (m : IO A) w :
  db_moves (w_db w) (w_db (m w).1) → speaks not_event m → messages_sound w → messages_sound (m w).1.
Proof.
  intros Hmv Hm Hms f x. destruct (Hm w) as (msgs & -> & Hall). rewrite elem_of_app. intros [Hold|Hnew] Hx.
  - by eapply triggered_moves; [done|eapply Hms].
  - rewrite Forall_forall in Hall. by destruct (Hall _ Hnew).
Qed.
End messages.
