(* ===== verification/Engine.v ===== *)
(** * The processes implement the life of an execution

    The API, the orchestrators and the workers as one transition system over
    the tables and the streams: a step is one transaction or one message sent
    to Redis, so any interleaving of any number of processes is a sequence of
    steps.  Every step of a reachable system
    moves every execution along the steps of [Lifecycle]. *)

From Stdlib Require Import SpecFloat.
From S2P Require Import Prelude Numerals PyVal States Errors Domain Dag Graph Readiness Failure.
From S2P Require Import Lifecycle Cycles Validation Templates Resolver Json Messages Store.
From S2P Require Import Repositories TaskRepositories Services Dispatch Completion Redis Barriers Outbox Worker.
From S2P Require Import Orchestrator Preservation Streams Evolution TriggerSpec Submission.
From S2P Require Import DispatchSpec CompletionSpec OutboxSpec Provenance.

(** [uuid4] draws 128-bit numbers. *)
Class EnvLaws `{Env} : Prop := { uuid4_bounded k : (uuid4_draw k < uuid_bound)%N }.

(** What a process has decided or done and not yet followed up: a node
    reported ready, an execution and a node loaded for dispatch, an outbox row
    whose message has been sent, a retry that is due, and one whose message
    has been sent. *)
Inductive work : Type :=
| Ready (execution_id : UUID) (node_id : string)
| Loaded (execution : WorkflowExecution) (node : WorkflowNode)
| Shipped (row : OutboxEventRecord)
| Due (retry : DueRetryTask)
| Resent (retry : DueRetryTask).

(** What a worker does to the lease of an attempt: it takes it at a time, up
    to another, or extends it up to a time. *)
Inductive lease_act : Type :=
| Takes (attempt_id : UUID) (claimed_at claim_expires_at : datetime)
| Extends (attempt_id : UUID) (claim_expires_at : datetime).

Record system : Type := System { sys_world : World; sys_agenda : list work }.

(** Nothing stored, nothing published, nothing decided. *)
Definition initial_system (s : system) : Prop :=
  w_db (sys_world s) = empty_db ∧ w_streams (sys_world s) = [] ∧ sys_agenda s = [].

(** The steps of the system in which only some lease acts take place; all of
    them are [step] below. *)
Section steps.
Context `{WorkflowSchema} `{Env} `{Json} `{Pydantic} `{Host}.
Variables (float_str : spec_float → string) (repr : string → string).
Variable pow : spec_float → Z → py spec_float.
Variable policy : RetryPolicy.
Variables (py_str : pyobj → string) (it : bool).

Section guarded.
Variable allowed : lease_act → Prop.

Inductive guarded_step : relation system :=
| step_submit p w a : guarded_step (System w a) (System (submit (default_rules py_str it) p w).1 a)
| step_trigger x i w a : guarded_step (System w a) (System (trigger x i w).1 a)
(** The publisher holds the rows it has selected under a lock: it sends their
    messages one by one, and its commit marks the rows it has sent, or these
    and the one that met a Redis error. *)
| step_ship k row f w w' a :
    outbox_events (w_db w) !! k = Some row → ob_status row = OPending → _stream_fields row = Ok f →
    publish (target_of row) f w = (w', Ok tt) → guarded_step (System w a) (System w' (a ++ [Shipped row]))
| step_commit rows d w a :
    (∀ row, row ∈ rows → Shipped row ∈ a ∧ ∃ k, outbox_events (w_db w) !! k = Some row) →
    marked rows (w_db w) d → guarded_step (System w a) (System (set_db d w) a)
| step_commit_error rows d k row m w a :
    (∀ row, row ∈ rows → Shipped row ∈ a ∧ ∃ k, outbox_events (w_db w) !! k = Some row) →
    marked rows (w_db w) d → outbox_events (w_db w) !! k = Some row → ob_status row = OPending →
    guarded_step (System w a) (System (set_db (set_outbox_row (ob_event_id row) (row_failed m row) d) w) a)
| step_cleanup r b w a : guarded_step (System w a) (System (cleanup_published r b w).1 a)
(** Retries are read, sent and marked one by one. *)
| step_due t w w' due a :
    transaction (get_due_retries t) w = (w', Ok due) → guarded_step (System w a) (System w' (a ++ (Due <$> due)))
| step_resend r f w w' a :
    Due r ∈ a → message_to_stream_fields (retry_message r) = Ok f →
    publish WORKFLOW_TASKS_STREAM f w = (w', Ok tt) → guarded_step (System w a) (System w' (a ++ [Resent r]))
| step_requeue r t w a :
    Resent r ∈ a →
    guarded_step (System w a) (System (transaction (mark_retry_published (dr_attempt_id r) t) w).1 a)
(** A worker claims, renews, records and completes attempts, and reports;
    only the publisher writes to the event stream. *)
| step_claim attempt task x i wk t1 t2 w a :
    allowed (Takes attempt t1 t2) →
    guarded_step (System w a) (System (transaction (claim_attempt attempt task x i wk t1 t2) w).1 a)
| step_renew attempt wk t w a :
    allowed (Extends attempt t) →
    guarded_step (System w a) (System (transaction (attempt_renew_claim attempt wk t) w).1 a)
| step_record attempt e v m ty w a :
    guarded_step (System w a) (System (transaction (attempt_record_result attempt e v m ty) w).1 a)
| step_finish attempt t w a :
    guarded_step (System w a) (System (transaction (attempt_mark_completed attempt t) w).1 a)
| step_report s f w a :
    s ≠ WORKFLOW_EVENTS_STREAM → guarded_step (System w a) (System (publish s f w).1 a)
| step_evaluate f x w w' r a :
    (WORKFLOW_EVENTS_STREAM, f) ∈ w_streams w → _execution_id f = Ok x →
    readiness_evaluate x w = (w', Ok r) →
    guarded_step (System w a) (System w' (a ++ (Ready x <$> rd_ready_node_ids r)))
| step_complete e w w' d a :
    process pow policy e w = (w', Ok d) →
    guarded_step (System w a) (System w' (a ++ (Ready (ev_execution_id e) <$> tc_ready_node_ids d)))
| step_refuse e w w' exc a :
    process pow policy e w = (w', Raise exc) → guarded_step (System w a) (System w' a)
| step_load x ids w w' e nodes a :
    (∀ i, i ∈ ids → Ready x i ∈ a) →
    transaction (load_ready_nodes x ids) w = (w', Ok (e, nodes)) →
    guarded_step (System w a) (System w' (a ++ (Loaded e <$> nodes)))
| step_dispatch e node w a :
    Loaded e node ∈ a → guarded_step (System w a) (System (dispatch float_str repr e node w).1 a)
| step_forget w a a' : a' ⊆ a → guarded_step (System w a) (System w a')
| step_idle w w' a :
    w_db w' = w_db w → w_streams w' = w_streams w → guarded_step (System w a) (System w' a).

End guarded.

(** Any step of the system. *)
Definition step : relation system := guarded_step (λ _, True).

End steps.

(** ** Executions as runs *)

Section representation.
Context `{WorkflowSchema} `{Env}.

Definition represents (d : Db) (x : UUID) (r : run) : Prop :=
  ∃ e, workflow_executions d !! x = Some e ∧
    read_workflow d (we_workflow_id e) = Ok (Some (run_graph r)) ∧ run_status r = we_status e ∧
    ∀ i, run_nodes r !! i = row_status d x i.

Lemma represents_unique d x r r' : represents d x r → represents d x r' → r = r'.
Proof.
  intros (e & Hx & Hg & Hs & Hn) (e' & Hx' & Hg' & Hs' & Hn'). destruct r, r'; simpl in *.
  assert (e' = e) as -> by congruence. f_equal; [congruence|congruence|].
  apply map_eq. intros i. by rewrite Hn, Hn'.
Qed.

(** The executions of [d] have taken steps; new ones are initial, and known
    by 128-bit numbers. *)
Definition simulates (d d' : Db) : Prop :=
  (∀ x r, represents d x r → run_inv r → ∃ r', represents d' x r' ∧ rtc run_step r r') ∧
  (∀ x, is_Some (workflow_executions d' !! x) →
     is_Some (workflow_executions d !! x) ∨
     ∃ r, represents d' x r ∧ run_initial r ∧ (x < uuid_bound)%N).

Lemma represents_same d d' x r :
  workflows d' = workflows d → workflow_executions d' !! x = workflow_executions d !! x →
  (∀ i, row_status d' x i = row_status d x i) → represents d x r → represents d' x r.
Proof.
  intros Hw Hx Hr (e & He & Hg & Hs & Hn). exists e. split; [congruence|].
  split; [by rewrite (read_workflow_same d)|]. split; [done|]. intros i. by rewrite Hr.
Qed.

Lemma simulates_same d d' :
  workflows d' = workflows d → workflow_executions d' = workflow_executions d →
  node_executions d' = node_executions d → simulates d d'.
Proof.
  intros Hw He Hn. split.
  - intros x r Hr _. exists r. split; [|apply rtc_refl]. eapply represents_same; [done| | |done].
    + by rewrite He.
    + intros i. by apply row_status_nodes.
  - intros x. rewrite He. by left.
Qed.

(** One execution has taken steps, the others are as before. *)
Lemma simulates_at d d' x r r' :
  represents d x r → represents d' x r' → (run_inv r → rtc run_step r r') →
  only_execution x d d' → (∀ y i, y ≠ x → row_status d' y i = row_status d y i) → simulates d d'.
Proof.
  intros Hr Hr' Hstep [Hw He] Hrows. split.
  - intros y r1 Hr1 Hinv. destruct (decide (y = x)) as [->|Hy].
    + rewrite (represents_unique d x r1 r Hr1 Hr) in *. eauto.
    + exists r1. split; [|apply rtc_refl]. eapply represents_same; eauto.
  - intros y Hy. left. destruct (decide (y = x)) as [->|Hne]; [destruct Hr as (e & -> & _); eauto|].
    by rewrite <- He.
Qed.

(** ** The steps, one by one *)

Definition runs_ok (d : Db) : Prop :=
  ∀ x e, workflow_executions d !! x = Some e → ∃ r, represents d x r ∧ run_inv r.

Lemma represents_inv d x r : runs_ok d → represents d x r → run_inv r.
Proof.
  intros Hruns Hr. destruct Hr as (e & Hx & Hrest) eqn:E. destruct (Hruns x e Hx) as (r' & Hr' & Hinv).
  by rewrite (represents_unique d x r r').
Qed.

Lemma trigger_simulates x i w : runs_ok (w_db w) → simulates (w_db w) (w_db (trigger x i w).1).
Proof.
  intros Hruns. destruct (trigger x i w) as [w' [dec|exc]] eqn:Hrun.
  - destruct (trigger_Ok_inv x i w w' dec Hrun) as (e & Hx & Hs & Hf).
    destruct (trigger_accepted x i w e Hx Hs Hf) as (w1 & Hrun' & Hd).
    assert (w1 = w') as -> by congruence. simpl. rewrite Hd.
    destruct (Hruns x e Hx) as ([g s m] & Hr & Hinv).
    apply (simulates_at _ _ x _ (Run g WRunning m) Hr).
    + destruct Hr as (e' & Hx' & Hg & Hs' & Hn). simpl in *. assert (e' = e) as -> by congruence.
      eexists. simpl. rewrite lookup_insert, decide_True by done. split; [done|]. by simpl.
    + destruct Hr as (e' & Hx' & _ & Hs' & _). simpl in *. assert (e' = e) as -> by congruence.
      rewrite Hs', Hs. intros _. apply rtc_once. constructor.
    + split; [done|]. intros y Hy. simpl. by rewrite lookup_insert_ne.
    + done.
  - assert (Hd : w_db w' = w_db w).
    { unfold trigger in Hrun. destruct (transaction (trigger_body x i) w) as [w1 [[]|e1]] eqn:Ht.
      - by rewrite (io_bind_run _ _ _ _ _ Ht) in Hrun.
      - rewrite (io_bind_raise _ _ _ _ _ Ht) in Hrun. injection Hrun as <- _. by apply transaction_rollback in Ht. }
    simpl. rewrite Hd. by apply simulates_same.
Qed.

(** *** Dispatch *)

(** The decision to run node [i] of [x] is justified. *)
Definition justified (d : Db) (x : UUID) (i : string) : Prop :=
  ∃ r, represents d x r ∧ run_status r ≠ WPending ∧
    ∀ j, depends (run_graph r) i j → run_nodes r !! j = Some NCompleted.

Definition work_ok (d : Db) (k : work) : Prop :=
  match k with
  | Ready x i => justified d x i
  | Loaded e node => justified d (we_execution_id e) (wn_id node) ∧
      ∃ r, represents d (we_execution_id e) r ∧ node ∈ nodes_of (run_graph r)
  | Shipped _ | Due _ | Resent _ => True
  end.

Lemma justified_simulates d d' x i :
  runs_ok d → simulates d d' → justified d x i → justified d' x i.
Proof.
  intros Hruns [Hsim _] (r & Hr & Hs & Hdeps).
  pose proof (represents_inv d x r Hruns Hr) as Hinv.
  destruct (Hsim x r Hr Hinv) as (r' & Hr' & Hsteps).
  destruct (run_steps_stable r r' Hsteps Hinv) as (Hg & Hp & Hc).
  exists r'. rewrite Hg. split; [done|]. split; [by apply Hp|]. intros j Hj. by apply Hc, Hdeps.
Qed.

Lemma work_ok_simulates d d' k : runs_ok d → simulates d d' → work_ok d k → work_ok d' k.
Proof.
  intros Hruns Hsim. destruct k as [x i|e node| | |]; simpl; [by apply justified_simulates| |done..].
  intros [Hj (r & Hr & Hn)]. split; [by eapply justified_simulates|].
  pose proof (represents_inv d _ r Hruns Hr) as Hinv.
  destruct (proj1 Hsim _ r Hr Hinv) as (r' & Hr' & Hsteps).
  destruct (run_steps_stable r r' Hsteps Hinv) as (Hg & _). exists r'. by rewrite Hg.
Qed.

Lemma runs_ok_simulates d d' : runs_ok d → simulates d d' → runs_ok d'.
Proof.
  intros Hruns [Hold Hnew] x e' Hx'. destruct (Hnew x) as [[e Hx]|(r & Hr & Hini & _)]; [eauto| |].
  - destruct (Hruns x e Hx) as (r & Hr & Hinv). destruct (Hold x r Hr Hinv) as (r' & Hr' & Hs).
    exists r'. split; [done|]. by eapply run_steps_inv.
  - exists r. split; [done|by apply run_initial_inv].
Qed.

Lemma ids_bounded_simulates d d' : ids_bounded d → simulates d d' → ids_bounded d'.
Proof.
  intros Hb [_ Hnew] x e Hx. destruct (Hnew x) as [[e0 He0]|(_ & _ & _ & Hlt)]; [eauto|by eapply Hb|done].
Qed.

End representation.

Section dispatching.
Context `{WorkflowSchema} `{Env} `{Json} `{Pydantic}.
Variables (float_str : spec_float → string) (repr : string → string).

Lemma dispatch_simulates e node w :
  db_inv (w_db w) → runs_ok (w_db w) → work_ok (w_db w) (Loaded e node) →
  simulates (w_db w) (w_db (dispatch float_str repr e node w).1).
Proof.
  intros Hinv Hruns [(r & Hr & Hst & Hdeps) (r1 & Hr1 & Hnode)].
  rewrite (represents_unique _ _ _ _ Hr1 Hr) in *. clear r1 Hr1.
  destruct (dispatch float_str repr e node w) as [w' [res|exc]] eqn:Hrun.
  2:{ apply dispatch_Raise in Hrun. simpl. rewrite Hrun. by apply simulates_same. }
  apply dispatch_inv in Hrun as (_ & _ & c & Hbody & _). simpl.
  apply dispatch_body_Ok in Hbody as [_ Hbody]. destruct c as [[|]|].
  - destruct Hbody as [_ [(n & t & Hn & Hp & HN) _ (HW & HE & _)]].
    destruct r as [g s m]. simpl in *.
    assert (Hrow : ∀ y i, row_status (w_db w') y i =
      if decide ((we_execution_id e, wn_id node) = (y, i)) then Some NRunning else row_status (w_db w) y i).
    { intros y i. unfold row_status. rewrite HN, lookup_insert. by case_decide. }
    apply (simulates_at _ _ (we_execution_id e) _ (Run g s (<[wn_id node := NRunning]> m)) Hr).
    + destruct Hr as (e' & Hx' & Hg & Hs' & Hm). exists e'. simpl in *. rewrite HE.
      split; [done|]. split; [by rewrite (read_workflow_same (w_db w))|]. split; [done|].
      intros i. rewrite Hrow, lookup_insert, Hm. repeat case_decide; naive_solver.
    + intros _. apply rtc_once. constructor; [done|]. split; [|done].
      destruct Hr as (_ & _ & _ & _ & Hm). simpl in Hm. rewrite Hm. unfold row_status. rewrite Hn. simpl. by rewrite Hp.
    + split; [done|]. intros y Hy. by rewrite HE.
    + intros y i Hy. rewrite Hrow. case_decide; [congruence|done].
  - destruct Hbody as [_ [-> _]]. by apply simulates_same.
  - exfalso. apply dependency_failed_spec in Hbody as (dep & Hdep & Hf); [|done].
    pose proof (ri_wf _ (represents_inv _ _ r Hruns Hr)) as Hwf.
    assert (Hc : run_nodes r !! dep = Some NCompleted) by (apply Hdeps; by apply depends_unique).
    destruct Hr as (_ & _ & _ & _ & Hm). rewrite Hm in Hc. congruence.
Qed.
End dispatching.

(** *** Completion events *)

Section completing.
Context `{WorkflowSchema} `{Env}.
Variable pow : spec_float → Z → py spec_float.
Variable policy : RetryPolicy.

(** An event that is not processed leaves the workflow tables alone. *)
Lemma unprocessed_core e w w' d :
  db_inv (w_db w) → process pow policy e w = (w', Ok d) → tc_outcome d ≠ TPROCESSED →
  same_core (w_db w) (w_db w') ∧ tc_ready_node_ids d = [].
Proof.
  intros Hinv Hrun Ho.
  destruct (process_Ok_inv pow policy e w w' d Hinv Hrun) as (_ & ex & n & w1 & settled & _ & Hn & Hr & Hrest).
  pose proof (keeps_run _ _ _ _ _ (record_attempt_core pow policy e n) Hr) as Hc.
  destruct settled as [d'|].
  { destruct Hrest as [-> ->]. by apply record_attempt_decision in Hr as [_ Hr]. }
  assert (Hn1 : node_executions (w_db w1) !! (ev_execution_id e, ev_node_id e) = Some n).
  { destruct Hc as (_ & _ & -> & _). done. }
  destruct (decide (ne_status n = NRunning)) as [Hs|Hs].
  - apply (apply_completion_running e ex _ n w1 w' d n Hn1 Hs) in Hrest as (? & ? & ? & ? & ? & ? & _ & _ & _ & _ & _ & ->).
    done.
  - destruct (apply_completion_stale e ex _ n w1 w' d n Hn1 Hs Hrest) as (Hd & -> & _). by rewrite Hd.
Qed.

Lemma represents_execution d x r e :
  represents d x r → workflow_executions d !! x = Some e → we_status e = run_status r ∧
  read_workflow d (we_workflow_id e) = Ok (Some (run_graph r)) ∧ ∀ i, run_nodes r !! i = row_status d x i.
Proof. intros (e' & He' & Hg & Hs & Hn) He. assert (e' = e) as -> by congruence. done. Qed.

(** The rows of an execution, as in [Lifecycle] and as in [CompletionSpec]. *)
Lemma failed_in_rows d x (m : gmap string NodeExecutionStatus) :
  (∀ i, m !! i = row_status d x i) → some_failed d x ↔ has_failed m.
Proof. intros Hm. rewrite has_failed_elem. unfold some_failed. by setoid_rewrite Hm. Qed.

Lemma finished_rows g d x (m : gmap string NodeExecutionStatus) :
  (∀ i, m !! i = row_status d x i) → (∀ i, is_Some (m !! i) ↔ i ∈ node_ids g) →
  all_completed g d x ↔ has_finished m.
Proof.
  intros Hm Hdom. rewrite has_finished_elem. unfold all_completed. split.
  - intros Hall i t Ht. assert (Hi : i ∈ node_ids g) by (apply Hdom; eauto).
    specialize (Hall i Hi). rewrite <- Hm in Hall. congruence.
  - intros Hall i Hi. apply Hdom in Hi as [t Ht]. rewrite <- Hm, Ht. f_equal. by eapply Hall.
Qed.

Lemma settle_outcome g d x s s' (m : gmap string NodeExecutionStatus) :
  (∀ i, m !! i = row_status d x i) → (∀ i, is_Some (m !! i) ↔ i ∈ node_ids g) →
  workflow_outcome g d x s s' → s' = settle s m.
Proof.
  intros Hm Hdom [Ho Hr].
  pose proof (failed_in_rows d x m Hm) as Hf. pose proof (finished_rows g d x m Hm Hdom) as Hc.
  destruct (settle_cases s m) as [[Hs ->]|[(Hs & F1 & ->)|[(Hs & F1 & F2 & ->)|(Hs & F1 & F2 & ->)]]].
  - by apply Ho.
  - apply Hr; [done|]. by apply Hf.
  - apply Hr; [done| |by apply Hc]. by rewrite Hf.
  - apply Hr; [done| |by rewrite Hc]. by rewrite Hf.
Qed.

Lemma success_simulates e w w' d :
  db_inv (w_db w) → runs_ok (w_db w) → ev_status e = TCompleted →
  process pow policy e w = (w', Ok d) → tc_outcome d = TPROCESSED →
  simulates (w_db w) (w_db w') ∧
  ∀ i, i ∈ tc_ready_node_ids d → justified (w_db w') (ev_execution_id e) i.
Proof.
  intros Hinv Hruns Hc Hrun Ho.
  destruct (success_effect pow policy e w w' d Hinv Hc Hrun Ho)
    as (ex & ex' & n & t & g & Hn & Hr & HN & _ & Hx & Hg & Hready & Hx' & Hout & Hid & Honly).
  destruct (Hruns _ ex Hx) as ([g' s m] & Hrep & Hi).
  destruct (represents_execution _ _ _ _ Hrep Hx) as (Hs & Hg' & Hm). simpl in *.
  assert (g' = g) as -> by congruence.
  assert (Hrow : ∀ y i, row_status (w_db w') y i =
    if decide ((ev_execution_id e, ev_node_id e) = (y, i)) then Some NCompleted else row_status (w_db w) y i).
  { intros y i. unfold row_status. rewrite HN, lookup_insert. by case_decide. }
  assert (Hm' : ∀ i, <[ev_node_id e := NCompleted]> m !! i = row_status (w_db w') (ev_execution_id e) i).
  { intros i. rewrite Hrow, lookup_insert, Hm. repeat case_decide; naive_solver. }
  assert (Hmi : m !! ev_node_id e = Some NRunning).
  { rewrite Hm. unfold row_status. rewrite Hn. simpl. by rewrite Hr. }
  pose proof (run_complete g s m _ Hmi) as Hstep. pose proof (run_step_inv _ _ Hstep Hi) as Hi'.
  assert (Hrep' : represents (w_db w') (ev_execution_id e)
    (Run g (settle s (<[ev_node_id e := NCompleted]> m)) (<[ev_node_id e := NCompleted]> m))).
  { exists ex'. split; [done|]. simpl. rewrite Hid. destruct Honly as [HW _].
    split; [by rewrite (read_workflow_same (w_db w))|]. split; [|done].
    rewrite <- Hs. symmetry. apply (settle_outcome g (w_db w') (ev_execution_id e)); [done|apply Hi'|done]. }
  split.
  - eapply simulates_at; [exact Hrep|exact Hrep'| |done|].
    + intros _. by apply rtc_once.
    + intros y i Hy. rewrite Hrow. case_decide; [congruence|done].
  - intros i (_ & _ & Hdeps)%Hready; [|apply Hi]. eexists. split; [exact Hrep'|]. simpl. split.
    + intros Hp. pose proof (ri_pending _ Hi' (ev_node_id e) NCompleted Hp) as Hbad.
      simpl in Hbad. rewrite lookup_insert, decide_True in Hbad by done. by specialize (Hbad eq_refl).
    + intros j Hj. rewrite Hm'. specialize (Hdeps j Hj).
      destruct (row_status (w_db w') (ev_execution_id e) j); simpl in *; congruence.
Qed.

(** The node statuses of an execution, read off the table. *)
Lemma represented_statuses d x r :
  db_inv d → represents d x r → run_nodes r = statuses_by_id (nodes_of_execution x d).
Proof.
  intros Hinv (e & _ & _ & _ & Hm). apply map_eq. intros i. rewrite Hm, statuses_lookup by done. done.
Qed.

Lemma failure_simulates e w w' d :
  db_inv (w_db w) → db_inv (w_db w') → runs_ok (w_db w) → ev_status e = TFailed →
  process pow policy e w = (w', Ok d) → tc_outcome d = TPROCESSED →
  simulates (w_db w) (w_db w') ∧ tc_ready_node_ids d = [].
Proof.
  intros Hinv Hinv' Hruns Hc Hrun Ho.
  destruct (failure_effect pow policy e w w' d Hinv Hc Hrun Ho)
    as (ex & ex' & n & t & g & Hn & Hr & Hn' & _ & Hready & Hx & Hg & Hb & Hx' & Hst & Hid & Honly & Hdom).
  split; [|done]. destruct (Hruns _ ex Hx) as ([g' s m] & Hrep & Hi).
  pose proof (represented_statuses _ _ _ Hinv Hrep) as Hms.
  destruct (represents_execution _ _ _ _ Hrep Hx) as (Hs & Hg' & Hm). simpl in *.
  assert (g' = g) as -> by congruence. rewrite <- Hms in Hb. specialize (Hb (ri_wf _ Hi)).
  set (x := ev_execution_id e) in *. set (i := ev_node_id e) in *.
  set (m' := statuses_by_id (nodes_of_execution x (w_db w'))).
  assert (Hm' : ∀ j, m' !! j = row_status (w_db w') x j) by (intros j; unfold m'; by rewrite statuses_lookup).
  assert (Hnone : ∀ y j, node_executions (w_db w) !! (y, j) = None → node_executions (w_db w') !! (y, j) = None).
  { intros y j Hj. apply eq_None_not_Some. rewrite Hdom, Hj. by intros [? ?]. }
  assert (Hfw : failed_with g i m m').
  { split.
    - rewrite Hm'. unfold row_status. by rewrite Hn'.
    - intros j HB [u Hu]. rewrite Hm'. rewrite Hm in Hu. unfold row_status in Hu.
      destruct (node_executions (w_db w) !! (x, j)) as [nj|] eqn:Hj; [|done].
      destruct (decide (j = i)) as [->|Hne]; [unfold row_status; by rewrite Hn'|].
      by apply (Hb x j nj Hj); [congruence|].
    - intros j Hne HB. rewrite Hm', Hm. unfold row_status.
      destruct (node_executions (w_db w) !! (x, j)) as [nj|] eqn:Hj; [|by rewrite Hnone].
      rewrite (proj2 (Hb x j nj Hj ltac:(congruence))); [done|naive_solver].
    - intros j. rewrite Hm', Hm. unfold row_status. rewrite !fmap_is_Some. apply Hdom. }
  assert (Hmi : m !! i = Some NRunning) by (rewrite Hm; unfold row_status; rewrite Hn; simpl; by rewrite Hr).
  eapply (simulates_at _ _ x _ (Run g (settle s m') m') Hrep).
  - exists ex'. split; [done|]. simpl. rewrite Hid. destruct Honly as [HW _].
    split; [by rewrite (read_workflow_same (w_db w))|]. split; [|done]. rewrite Hst, <- Hs.
    unfold settle. destruct (decide (we_status ex = WRunning)); [|done].
    rewrite decide_True; [done|]. apply has_failed_elem. exists i. apply Hfw.
  - intros _. by apply rtc_once, (run_fail g s m m' i).
  - done.
  - intros y j Hy. unfold row_status. destruct (node_executions (w_db w) !! (y, j)) as [nj|] eqn:Hj; [|by rewrite Hnone].
    rewrite (proj2 (Hb y j nj Hj ltac:(congruence))); [done|naive_solver].
Qed.

Lemma process_simulates e w w' d :
  db_inv (w_db w) → db_inv (w_db w') → runs_ok (w_db w) → process pow policy e w = (w', Ok d) →
  simulates (w_db w) (w_db w') ∧
  ∀ i, i ∈ tc_ready_node_ids d → justified (w_db w') (ev_execution_id e) i.
Proof.
  intros Hinv Hinv' Hruns Hrun. destruct (decide (tc_outcome d = TPROCESSED)) as [Ho|Ho].
  - destruct (ev_status e) eqn:Hc; [by eapply success_simulates|].
    destruct (failure_simulates e w w' d Hinv Hinv' Hruns Hc Hrun Ho) as [Hs ->].
    split; [done|]. intros i Hi. set_solver.
  - destruct (unprocessed_core e w w' d Hinv Hrun Ho) as [(HW & HE & HN & _) ->].
    split; [by apply simulates_same|]. intros i Hi. set_solver.
Qed.

End completing.

(** *** Reading *)

Section reading.
Context `{WorkflowSchema} `{Env}.

Lemma triggered_represented d x r : represents d x r → triggered d x → run_status r ≠ WPending.
Proof. intros (e & Hx & _ & Hs & _) (e' & Hx' & Hs'). congruence. Qed.

(** Readiness evaluated for a triggered execution. *)
Lemma readiness_justified x w w' r :
  db_inv (w_db w) → runs_ok (w_db w) → triggered (w_db w) x → readiness_evaluate x w = (w', Ok r) →
  ∀ i, i ∈ rd_ready_node_ids r → justified (w_db w') x i.
Proof.
  intros Hinv Hruns Ht Hrun. apply transaction_Ok_inv in Hrun.
  apply io_bind_Ok in Hrun as (w1 & o & Ho & Hrun). injection Ho as <- <-.
  destruct (workflow_executions (w_db w) !! x) as [e|] eqn:Hx; [|done].
  apply readiness_Ok_inv in Hrun as [-> (g & Hg & ->)].
  destruct (Hruns x e Hx) as (rn & Hr & Hi). destruct (represents_execution _ _ _ _ Hr Hx) as (_ & Hg' & Hm).
  assert (g = run_graph rn) as -> by congruence. intros i Hii.
  destruct (ready_node_ids_spec _ (statuses_by_id (nodes_of_execution x (w_db w))) (ri_wf _ Hi)) as [Hiff _].
  apply Hiff in Hii as (_ & _ & Hdeps). exists rn. split; [done|]. split; [by eapply triggered_represented|].
  intros j Hj. specialize (Hdeps j Hj). unfold status_of in Hdeps. rewrite statuses_lookup in Hdeps by done.
  rewrite Hm. unfold row_status. destruct (node_executions (w_db w) !! (x, j)); simpl in *; congruence.
Qed.

(** Loading the nodes that have been reported ready. *)
Lemma load_work_ok x ids w w' e nodes :
  db_inv (w_db w) → runs_ok (w_db w) → (∀ i, i ∈ ids → justified (w_db w) x i) →
  transaction (load_ready_nodes x ids) w = (w', Ok (e, nodes)) →
  we_execution_id e = x ∧ ∀ n, n ∈ nodes → wn_id n ∈ ids ∧ work_ok (w_db w) (Loaded e n).
Proof.
  intros Hinv Hruns Hids Hrun. apply transaction_Ok_inv in Hrun.
  apply io_bind_Ok in Hrun as (w1 & o & Ho & Hrun). injection Ho as <- <-.
  destruct (workflow_executions (w_db w) !! x) as [e'|] eqn:Hx; [|done].
  apply io_bind_Ok in Hrun as (w2 & o & Ho & Hrun). injection Ho as <- Ho.
  destruct o as [g|]; [|done]. injection Hrun as <- <- <-.
  pose proof (inv_exec_key _ Hinv _ _ Hx) as Hk. split; [done|].
  intros n [Hn Hg]%list_elem_of_filter. split; [done|]. unfold work_ok. rewrite Hk. split; [by apply Hids|].
  destruct (Hruns x e' Hx) as (r & Hr & _). exists r. split; [done|].
  destruct (represents_execution _ _ _ _ Hr Hx) as (_ & Hg' & _). by assert (g = run_graph r) as <- by congruence.
Qed.
End reading.

(** *** Submission *)

Section submission.
Context `{WorkflowSchemaLaws} `{EnvLaws}.
Variables (py_str : pyobj → string) (it : bool).

(** A submission starts a run, or changes nothing. *)
Lemma submit_simulates p w :
  db_inv (w_db w) → simulates (w_db w) (w_db (submit (default_rules py_str it) p w).1).
Proof.
  intros Hinv. destruct (submit (default_rules py_str it) p w) as [w' [s|exc]] eqn:Hrun; simpl.
  2:{ apply submit_rollback in Hrun. rewrite Hrun. by apply simulates_same. }
  apply submit_effect in Hrun
    as (w1 & wf & e & Ha & _ & Hs & Hwid & Hfresh & HW & HE & _ & HK & HN & Hwfresh & k & Hk).
  destruct (submitted_graph py_str it p w w' wf w1 e Ha Hwid HW) as (wf' & Hg & Hids & _ & Hwf & Hac).
  assert (Hnone : ∀ j, node_executions (w_db w) !! (we_execution_id e, j) = None).
  { intros j. destruct (node_executions (w_db w) !! _) as [n|] eqn:E; [|done].
    apply (inv_node_exec _ Hinv) in E as [? E]. simpl in E. congruence. }
  split.
  - intros y r (e1 & Hy & Hg1 & Hs1 & Hm1) _.
    assert (Hne : we_execution_id e ≠ y) by congruence.
    exists r. split; [|apply rtc_refl]. exists e1. rewrite HE, lookup_insert_ne by done. split; [done|].
    split; [|split; [done|]].
    + rewrite <- Hg1. unfold read_workflow. rewrite HW, lookup_insert_ne; [done|].
      destruct (inv_exec_workflow _ Hinv _ _ Hy). congruence.
    + intros i. rewrite Hm1. unfold row_status. by rewrite HK by (left; simpl; congruence).
  - intros y [e1 Hy]. rewrite HE, lookup_insert in Hy. case_decide as E; [|left; eauto]. right.
    injection Hy as <-. subst y.
    exists (Run wf' WPending (list_to_map ((λ i, (i, NPending)) <$> node_ids wf'))).
    assert (Hm : ∀ i, (list_to_map ((λ i, (i, NPending)) <$> node_ids wf') : gmap string NodeExecutionStatus) !! i
      = if decide (i ∈ node_ids wf') then Some NPending else None).
    { intros i. case_decide as Hi.
      - apply elem_of_list_to_map_1.
        + rewrite <- list_fmap_compose. unfold compose. simpl. rewrite list_fmap_id. apply Hwf.
        + by apply (list_elem_of_fmap_2 (λ i, (i, NPending))).
      - apply not_elem_of_list_to_map_1. rewrite <- list_fmap_compose. unfold compose. simpl. by rewrite list_fmap_id. }
    split; [|split; [by split|rewrite Hk; apply uuid4_bounded]].
    exists e. rewrite HE, lookup_insert, decide_True by done. split; [done|]. split; [done|]. split; [done|].
    intros i. simpl. rewrite Hm. unfold row_status. case_decide as Hi.
    + rewrite Hids in Hi. destruct (HN i Hi) as (n & -> & Hn). simpl. by rewrite Hn.
    + rewrite Hids in Hi. rewrite HK by (by right). by rewrite Hnone.
Qed.

End submission.
