(* ===== verification/Handlers.v ===== *)
(** * What the processes do is sequences of steps

    [performs fs Pre m Post]: where the messages [fs] are on the event stream
    and [Pre] holds of the agenda, running [m] is a sequence of steps of the
    system, whatever [m] returns or raises, and [Post] holds when it returns.
    The rules compose; the publisher, the retries, the worker, the handlers,
    the consumers and one turn of the orchestrator's loop follow. *)

From Stdlib Require Import SpecFloat.
From S2P Require Import Prelude Numerals PyVal States Errors Domain Dag Graph Readiness Failure.
From S2P Require Import Lifecycle Cycles Validation Templates Resolver Json Messages Store.
From S2P Require Import Repositories TaskRepositories Services Dispatch Completion Redis Barriers Outbox Worker.
From S2P Require Import Orchestrator Preservation Streams Evolution TriggerSpec OutboxSpec RetrySpec Engine.

Section handlers.
Context `{WorkflowSchema} `{Env} `{Json} `{Pydantic} `{Host}.
Variables (float_str : spec_float → string) (repr : string → string).
Variable pow : spec_float → Z → py spec_float.
Variable policy : RetryPolicy.
Variables (py_str : pyobj → string) (it : bool).
#[local] Abbreviation sys_step := (step float_str repr pow policy py_str it).

Definition seen (fs : list stream_fields) (w : World) : Prop :=
  ∀ f, f ∈ fs → (WORKFLOW_EVENTS_STREAM, f) ∈ w_streams w.

Variable fs : list stream_fields.

Definition performs {A} (Pre : list work → Prop) (m : IO A) (Post : A → list work → Prop) : Prop :=
  ∀ w a, seen fs w → Pre a →
    seen fs (m w).1 ∧
    ∃ a', rtc sys_step (System w a) (System (m w).1 a') ∧ ∀ v, (m w).2 = Ok v → Post v a'.

(** ** Rules *)

Lemma speaks_seen {A} (m : IO A) w : speaks (λ _, True) m → seen fs w → seen fs (m w).1.
Proof. intros Hm Hs f Hf. destruct (Hm w) as (l & -> & _). apply elem_of_app. left. by apply Hs. Qed.

Lemma performs_bind {A B} Pre Mid Post (m : IO A) (f : A → IO B) :
  performs Pre m Mid → (∀ v, performs (Mid v) (f v) Post) → performs Pre (m ≫= f) Post.
Proof.
  intros Hm Hf w a Hs Ha. destruct (Hm w a Hs Ha) as (Hs1 & a1 & Hr1 & Hmid).
  unfold mbind, io_bind. destruct (m w) as [w1 [v|e]]; simpl in *; [|by split; [|exists a1]].
  destruct (Hf v w1 a1 Hs1 (Hmid v eq_refl)) as (Hs2 & a2 & Hr2 & Hpost).
  split; [done|]. exists a2. split; [by etrans|done].
Qed.

Lemma performs_pure {A} (Pre : list work → Prop) (Post : A → list work → Prop) (m : py A) :
  (∀ v a, m = Ok v → Pre a → Post v a) → performs Pre (lift m) Post.
Proof. intros Hp w a Hs Ha. split; [done|]. exists a. split; [apply rtc_refl|]. simpl. eauto. Qed.

(** An operation that is a step. *)
Lemma performs_step {A} (Pre : list work → Prop) (m : IO A) :
  speaks (λ _, True) m → (∀ w a, seen fs w → Pre a → sys_step (System w a) (System (m w).1 a)) →
  performs Pre m (λ _, Pre).
Proof.
  intros Hsp Hm w a Hs Ha. split; [by apply speaks_seen|]. exists a. split; [by apply rtc_once, Hm|done].
Qed.

Lemma performs_ack Pre s g i : performs Pre (ack s g i) (λ _, Pre).
Proof.
  apply performs_step; [apply speaks_ack|]. intros w a _ _. unfold ack.
  destruct (redis_failure _); by apply step_idle.
Qed.

Lemma performs_iter {A} Pre (f : A → IO unit) l :
  (∀ x, x ∈ l → performs Pre (f x) (λ _, Pre)) → performs Pre (iter_io f l) (λ _, Pre).
Proof.
  induction l as [|x l IH]; intros Hf; simpl.
  - intros w a Hs Ha. split; [done|]. exists a. by split; [apply rtc_refl|].
  - eapply performs_bind; [apply Hf; set_solver|]. intros []. apply IH. set_solver.
Qed.

Lemma performs_gather {A} (Pre : list work → Prop) (l : list (IO A)) :
  Forall (speaks (λ _, True)) l →
  (∀ m w a, m ∈ l → Pre a → sys_step (System w a) (System (m w).1 a)) →
  performs Pre (gather l) (λ _, Pre).
Proof.
  intros Hsp Hst w a Hs Ha. split; [apply speaks_seen; [by apply speaks_gather|done]|].
  exists a. split; [|done]. clear Hs Hsp. revert w. induction l as [|m l IH]; intros w; simpl; [apply rtc_refl|].
  pose proof (Hst m w a ltac:(set_solver) Ha) as Hm. destruct (m w) as [w1 r].
  pose proof (IH ltac:(set_solver) w1) as Hl. destruct (gather l w1) as [w2 rs]. by eapply rtc_l.
Qed.

(** Without conditions on the agenda. *)
Abbreviation runs m := (performs (λ _, True) m (λ _ _, True)).

Lemma runs_bind {A B} (m : IO A) (f : A → IO B) : runs m → (∀ v, runs (f v)) → runs (m ≫= f).
Proof. intros Hm Hf. by eapply performs_bind. Qed.

Lemma runs_still {A} (m : IO A) :
  (∀ w, w_db (m w).1 = w_db w ∧ w_streams (m w).1 = w_streams w) → runs m.
Proof.
  intros Hm. apply performs_step; [apply speaks_none; intros w; apply Hm|]. intros w a _ _.
  apply step_idle; apply Hm.
Qed.

Lemma runs_try {A} (m : IO A) : runs m → runs (try_io m).
Proof.
  intros Hm w a Hs Ha. destruct (Hm w a Hs Ha) as (Hs' & a' & Hr & _).
  unfold try_io. destruct (m w) as [w' r]. simpl in *. eauto.
Qed.

Lemma runs_repeat k m : runs m → runs (repeat_io k m).
Proof. intros Hm. induction k as [|k IH]; simpl; [by apply runs_still|]. by apply runs_bind. Qed.

(** A transaction that looks at the clock first. *)
Lemma runs_transaction_now {A} (m : datetime → IO A) :
  (∀ t, runs (transaction (m t))) → runs (transaction (t ← now; m t)).
Proof.
  intros Hm w a Hs Ha.
  set (w1 := {| w_db := w_db w; w_streams := w_streams w; w_acks := w_acks w; w_ticks := S (w_ticks w);
                w_draws := w_draws w; w_calls := w_calls w |}).
  assert (Heq : transaction (t ← now; m t) w = transaction (m (clock (w_ticks w))) w1) by reflexivity.
  rewrite Heq. destruct (Hm (clock (w_ticks w)) w1 a Hs Ha) as (Hs' & a' & Hr & _). split; [done|].
  exists a'. split; [|done]. eapply rtc_l; [|exact Hr]. by apply step_idle.
Qed.

(** ** The publisher *)

Lemma runs_publish_rows rows sent pending p w a :
  seen fs w → marked sent (w_db w) pending →
  (∀ row, row ∈ sent → Shipped row ∈ a ∧ ∃ k, outbox_events (w_db w) !! k = Some row) →
  (∀ row, row ∈ rows → ∃ k, outbox_events (w_db w) !! k = Some row ∧ ob_status row = OPending) →
  seen fs (publish_rows rows pending p w).1 ∧
  ∃ a', rtc sys_step (System w a) (System (publish_rows rows pending p w).1 a').
Proof.
  revert sent pending p w a. induction rows as [|row rows IH]; intros sent pending p w a Hs Hm Hsent Hrows;
    cbn [publish_rows].
  { split; [done|]. exists a. apply rtc_once. by apply (step_commit _ _ _ _ _ _ _ sent). }
  pose proof (publish_row_cases row w) as Hc. cbv zeta in Hc.
  destruct (Hrows row) as (k & Hk & Hp); [by left|].
  set (m := fields ← lift (_stream_fields row); publish (target_of row) fields) in *.
  destruct (m w) as [w1 [[]|e]] eqn:Hrun.
  - destruct Hc as (f & Hf & Hstr & Hdb). set (w2 := (now w1).1).
    assert (Hship : sys_step (System w a) (System w1 (a ++ [Shipped row]))).
    { eapply step_ship; [exact Hk|exact Hp|exact Hf|]. unfold m in Hrun. rewrite Hf in Hrun. exact Hrun. }
    match goal with |- context [mbind ?g now w1] => change ((now ≫= g) w1) with (g (clock (w_ticks w1)) w2) end.
    destruct (IH (sent ++ [row]) (set_outbox_row (ob_event_id row) (row_published (clock (w_ticks w1)) row) pending)
      (p + 1)%Z w2 (a ++ [Shipped row])) as (Hs' & a' & Hr).
    + intros f' Hf'. unfold w2. simpl. rewrite Hstr. apply elem_of_app. left. by apply Hs.
    + unfold w2. simpl. rewrite Hdb. by apply marked_snoc.
    + unfold w2. simpl. rewrite Hdb. intros r [Hr|Hr%list_elem_of_singleton]%elem_of_app.
      * destruct (Hsent r Hr) as [Hin Hex]. split; [|done]. apply elem_of_app. by left.
      * subst r. split; [|by eauto]. apply elem_of_app. right. by left.
    + unfold w2. simpl. rewrite Hdb. intros r Hr. apply Hrows. by right.
    + split; [done|]. exists a'. eapply rtc_l; [exact Hship|]. eapply rtc_l; [|exact Hr]. by apply step_idle.
  - destruct Hc as [Hstr Hdb].
    assert (Hseen : seen fs w1) by (intros f Hf; rewrite Hstr; by apply Hs).
    assert (Hidle : sys_step (System w a) (System w1 a)) by (by apply step_idle).
    destruct e; (split; [exact Hseen|]); exists a; try (by apply rtc_once).
    eapply rtc_l; [exact Hidle|]. apply rtc_once. rewrite <- Hdb in Hsent, Hm, Hk.
    eapply (step_commit_error _ _ _ _ _ _ _ sent); [done|done|exact Hk|done].
Qed.

Lemma runs_publish_pending : runs publish_pending.
Proof.
  intros w a Hs _. unfold publish_pending.
  change ((get_db ≫= λ d, publish_rows (pending_rows d) d 0) w) with (publish_rows (pending_rows (w_db w)) (w_db w) 0 w).
  destruct (runs_publish_rows (pending_rows (w_db w)) [] (w_db w) 0 w a) as (Hs' & a' & Hr).
  - done.
  - constructor.
  - by intros row Hrow%elem_of_nil.
  - intros row Hrow. by apply pending_rows_elem.
  - split; [done|]. exists a'. by split.
Qed.

(** ** Retries *)

Lemma performs_pre {A} (Pre Pre' : list work → Prop) (m : IO A) Post :
  (∀ a, Pre' a → Pre a) → performs Pre m Post → performs Pre' m Post.
Proof. intros Himp Hm w a Hs Ha. by apply Hm, Himp. Qed.

Lemma performs_resend r f (due : list DueRetryTask) :
  message_to_stream_fields (retry_message r) = Ok f →
  performs (λ a, ∀ q, q ∈ r :: due → Due q ∈ a) (publish WORKFLOW_TASKS_STREAM f)
    (λ _ a, Resent r ∈ a ∧ ∀ q, q ∈ due → Due q ∈ a).
Proof.
  intros Hf w a Hs Ha. split; [by apply speaks_seen; [apply speaks_publish|]|].
  destruct (publish WORKFLOW_TASKS_STREAM f w) as [w' [[]|e]] eqn:Hrun; cbn [fst snd].
  - exists (a ++ [Resent r]). split; [apply rtc_once; eapply step_resend; [apply Ha; by left|done|done]|].
    intros _ _. split; [apply elem_of_app; right; by left|]. intros q Hq. apply elem_of_app. left. apply Ha. by right.
  - exists a. split; [|done]. apply rtc_once. unfold publish in Hrun.
    destruct (redis_failure _); [|done]. injection Hrun as <- _. by apply step_idle.
Qed.

Lemma performs_publish_retries t due p :
  performs (λ a, ∀ q, q ∈ due → Due q ∈ a) (publish_retries t due p) (λ _ _, True).
Proof.
  revert p. induction due as [|r due IH]; intros p; simpl; [by apply (performs_pure _ _ (Ok _))|].
  eapply (performs_bind _ (λ m a, m = retry_message r ∧ ∀ q, q ∈ r :: due → Due q ∈ a)).
  { apply performs_pure. intros m a Hm Ha. split; [|done]. unfold NodeTaskMessage_init in Hm.
    destruct (valid_task_message _); congruence. }
  intros m. eapply (performs_bind _ (λ f a, message_to_stream_fields (retry_message r) = Ok f ∧ ∀ q, q ∈ r :: due → Due q ∈ a)).
  { apply performs_pure. intros f a Hf [Hm Ha]. by rewrite <- Hm. }
  intros f w a Hs [Hf Ha]. revert w a Hs Ha.
  change (performs (λ a, ∀ q, q ∈ r :: due → Due q ∈ a)
    (publish WORKFLOW_TASKS_STREAM f ≫= λ _, marked ← transaction (mark_retry_published (dr_attempt_id r) t);
       publish_retries t due (if marked : bool then p + 1 else p)%Z) (λ _ _, True)).
  eapply performs_bind; [by apply performs_resend|]. intros u.
  eapply performs_bind; [apply performs_step|].
  - apply speaks_transaction. unfold mark_retry_published, set_attempt_row. speak.
  - intros w a _ [Ha _]. by apply step_requeue.
  - intros b. eapply performs_pre; [|apply IH]. by intros a [_ Ha].
Qed.

Lemma runs_publish_due_retries o : runs (publish_due_retries o).
Proof.
  unfold publish_due_retries. apply runs_bind; [destruct o; by apply runs_still|]. intros t.
  eapply performs_bind; [|intros due; apply performs_publish_retries].
  intros w a Hs _. split; [done|]. exists (a ++ (Due <$> due_retries t (w_db w))).
  split; [apply rtc_once; by eapply step_due|]. intros due [= <-] q Hq. apply elem_of_app. right.
  by apply list_elem_of_fmap_2.
Qed.

(** ** The worker *)

Lemma runs_report s f : s ≠ WORKFLOW_EVENTS_STREAM → runs (publish s f).
Proof. intros Hs. apply performs_step; [by apply speaks_publish|]. intros w a _ _. by apply step_report. Qed.

Lemma runs_ack s g i : runs (ack s g i).
Proof. apply performs_ack. Qed.
Lemma runs_lift {A} (m : py A) : runs (lift m).
Proof. by apply runs_still. Qed.

(** Waiting at a barrier: the arrival is sent, the rest is reading. *)
Lemma runs_participate n p t : runs (participate_in_barrier n p t).
Proof.
  unfold participate_in_barrier. destruct (SFleb _ _); [by apply runs_still|].
  apply runs_bind; [by apply runs_report|]. intros _. apply runs_bind; [by apply runs_still|]. intros start.
  apply runs_still. intros w. destruct (await_release n p t _ _ _ w) as [w' r] eqn:Hrun.
  apply await_release_effect in Hrun as (? & ? & _). done.
Qed.

Lemma runs_execute task : runs (execute task).
Proof.
  apply runs_bind; [apply runs_lift|]. intros []; try by apply runs_still. simpl.
  unfold barrier_execute. destruct (negb _); [by apply runs_still|].
  apply runs_bind; [apply runs_lift|]. intros b. apply runs_bind; [apply runs_lift|]. intros o.
  apply runs_bind; [destruct o; by apply runs_still|]. intros _. apply runs_bind; [apply runs_lift|]. intros t.
  apply runs_bind; [apply runs_participate|]. intros _. by apply runs_still.
Qed.

Lemma runs_handler_event task : runs (handler_event task).
Proof.
  unfold handler_event, _failure_event. apply runs_bind; [apply runs_try, runs_execute|].
  intros []; [destruct (negb _)|]; by apply runs_still.
Qed.

Lemma runs_wait e : runs (_wait_for_integration_barrier e).
Proof.
  unfold _wait_for_integration_barrier. destruct (negb _); [by apply runs_still|].
  destruct (_ || _); [by apply runs_still|]. apply runs_bind; [apply runs_lift|]. intros t. apply runs_participate.
Qed.

Lemma runs_claim wk l task : runs (_claim_task wk l task).
Proof.
  unfold _claim_task. apply runs_bind; [by apply runs_still|]. intros t. apply runs_bind; [apply runs_lift|]. intros t2.
  apply performs_step; [|intros w a _ _; by apply step_claim].
  apply speaks_transaction. unfold claim_attempt, set_attempt_row. speak.
Qed.

Lemma runs_renew wk l task : runs (renew_claim_once wk l task).
Proof.
  unfold renew_claim_once. apply runs_bind; [by apply runs_still|]. intros t. apply runs_bind; [apply runs_lift|]. intros t2.
  apply runs_bind.
  - apply performs_step; [|intros w a _ _; by apply step_renew].
    apply speaks_transaction. unfold attempt_renew_claim, set_attempt_row. speak.
  - intros b. apply runs_still. intros w. by destruct b.
Qed.

Lemma runs_record e : runs (_record_result e).
Proof.
  unfold _record_result. apply performs_step; [|intros w a _ _; apply step_record].
  apply speaks_transaction. unfold attempt_record_result, set_attempt_row. speak.
Qed.

Lemma runs_replay task : runs (_replay_result task).
Proof.
  unfold _replay_result. apply runs_bind; [|intros r; apply runs_lift].
  apply runs_still. intros w. split; [apply (quiet_transaction _ (attempt_get_result_quiet _) w)|].
  unfold attempt_get_result, transaction. run_io. destruct (task_attempts _ !! _) as [b|]; [|done].
  by destruct (at_completion_event_id b).
Qed.

Lemma runs_publish_complete s i e : runs (_publish_complete_and_ack s i e).
Proof.
  unfold _publish_complete_and_ack. apply runs_bind; [apply runs_lift|]. intros f.
  apply runs_bind; [by apply runs_report|]. intros _.
  apply runs_bind; [|intros _; apply runs_ack]. apply runs_transaction_now. intros t.
  apply performs_step; [|intros w a _ _; apply step_finish].
  apply speaks_transaction. unfold attempt_mark_completed, set_attempt_row. speak.
Qed.

Lemma runs_publish_and_ack s i e : runs (_publish_and_ack s i e).
Proof.
  unfold _publish_and_ack. apply runs_bind; [apply runs_lift|]. intros f.
  apply runs_bind; [by apply runs_report|]. intros _. apply runs_ack.
Qed.

Lemma runs_process_task wk l k s i task : runs (process_task wk l k s i task).
Proof.
  unfold process_task. apply runs_bind; [apply runs_claim|]. intros [].
  - apply runs_bind; [|intros e; apply runs_publish_complete]. unfold _execute_and_record.
    apply runs_bind; [apply runs_try, runs_repeat, runs_renew|]. intros r.
    apply runs_bind; [apply runs_handler_event|]. intros e. apply runs_bind; [apply runs_lift|]. intros _.
    apply runs_bind; [apply runs_record|]. intros _. by apply runs_still.
  - apply runs_ack.
  - apply runs_ack.
  - apply runs_bind; [apply runs_replay|]. intros e. apply runs_publish_complete.
Qed.

Lemma runs_process_malformed s i f e : runs (process_malformed s i f e).
Proof.
  unfold process_malformed. destruct (recover_identity f) as [[[[[tid aid] n] x] node]|exc].
  - apply runs_bind; [by apply runs_still|]. intros u. apply runs_publish_and_ack.
  - destruct (is_value_error exc); [|by apply runs_still]. unfold _publish_dead_letter_and_ack.
    apply runs_bind; [apply runs_lift|]. intros raw. apply runs_bind; [by apply runs_report|]. intros _.
    apply runs_ack.
Qed.

Lemma runs_process_one wk l k s i f : runs (_process_one wk l k s i f).
Proof.
  unfold _process_one. destruct (message_from_stream_fields f) as [task|e].
  - apply runs_bind; [apply runs_try, runs_process_task|]. intros ?. by apply runs_still.
  - destruct (is_value_error e); [|by apply runs_still].
    apply runs_bind; [apply runs_try, runs_process_malformed|]. intros ?. by apply runs_still.
Qed.

(** ** The services *)

Lemma performs_trigger_event f x :
  f ∈ fs → _execution_id f = Ok x →
  performs (λ _, True) (readiness_evaluate x) (λ r a, ∀ i, i ∈ rd_ready_node_ids r → Ready x i ∈ a).
Proof.
  intros Hf Hx w a Hs _. pose proof (readiness_speaks (λ _, False) x w) as (l & Hl & Hnone).
  pose proof (readiness_quiet x w) as Hq. split; [by apply speaks_seen; [apply readiness_speaks|]|].
  destruct l; [|by inversion Hnone]. rewrite app_nil_r in Hl.
  destruct (readiness_evaluate x w) as [w' [r|e]] eqn:Hrun; simpl in *.
  - eexists. split; [apply rtc_once; eapply step_evaluate; [by apply Hs|done|done]|].
    intros v [= <-] i Hi. apply elem_of_app. right. by apply list_elem_of_fmap_2.
  - exists a. split; [by apply rtc_once, step_idle|done].
Qed.

Lemma performs_completion e :
  performs (λ _, True) (process pow policy e)
    (λ d a, ∀ i, i ∈ tc_ready_node_ids d → Ready (ev_execution_id e) i ∈ a).
Proof.
  intros w a Hs _. split; [by apply speaks_seen; [apply process_speaks|]|].
  destruct (process pow policy e w) as [w' [d|exc]] eqn:Hrun; simpl.
  - eexists. split; [by apply rtc_once, step_complete|].
    intros v [= <-] i Hi. apply elem_of_app. right. by apply list_elem_of_fmap_2.
  - exists a. split; [by apply rtc_once; eapply step_refuse|done].
Qed.

Lemma performs_load x ids :
  performs (λ a, ∀ i, i ∈ ids → Ready x i ∈ a) (transaction (load_ready_nodes x ids))
    (λ en a, ∀ n, n ∈ en.2 → Loaded en.1 n ∈ a).
Proof.
  intros w a Hs Ha.
  pose proof (speaks_transaction (λ _, False) _ (load_ready_speaks _ x ids) w) as (l & Hl & Hnone).
  pose proof (quiet_transaction _ (load_ready_nodes_quiet x ids) w) as Hq.
  split; [by apply speaks_seen; [apply speaks_transaction, load_ready_speaks|]|].
  destruct l; [|by inversion Hnone]. rewrite app_nil_r in Hl.
  destruct (transaction (load_ready_nodes x ids) w) as [w' [[e ns]|exc]] eqn:Hrun; simpl in *.
  - eexists. split; [by apply rtc_once; eapply step_load|].
    intros v [= <-] n Hn. apply elem_of_app. right. by apply list_elem_of_fmap_2.
  - exists a. split; [by apply rtc_once, step_idle|done].
Qed.

Lemma performs_dispatch_ready x ids :
  performs (λ a, ∀ i, i ∈ ids → Ready x i ∈ a) (dispatch_ready float_str repr x ids) (λ _ _, True).
Proof.
  destruct ids as [|i ids]; [by intros w a Hs _; split; [|exists a; split; [apply rtc_refl|]]|].
  simpl. eapply performs_bind; [apply performs_load|]. intros [e ns]. simpl.
  eapply performs_bind; [|intros rs; apply (performs_pure _ _ (Ok _)); done].
  apply performs_gather.
  - apply Forall_fmap, Forall_forall. intros n _. apply dispatch_speaks.
  - intros m w a (n & -> & Hn)%list_elem_of_fmap Ha. by apply step_dispatch, Ha.
Qed.

(** ** The handlers *)

Lemma performs_given {A} (Q : Prop) (Post : A → list work → Prop) (m : IO A) :
  (Q → performs (λ _, True) m Post) → performs (λ _, Q) m Post.
Proof. intros Hm w a Hs Hq. by apply Hm. Qed.

Lemma performs_handle_trigger s i f :
  f ∈ fs → performs (λ _, True) (handle_trigger float_str repr s i f) (λ _ _, True).
Proof.
  intros Hf. unfold handle_trigger. eapply (performs_bind _ (λ _ _, True)); [by apply performs_pure|].
  intros ty. destruct (negb _); [apply performs_ack|].
  eapply (performs_bind _ (λ x _, _execution_id f = Ok x)); [by apply performs_pure|]. intros x.
  apply performs_given. intros Hx. eapply performs_bind; [by eapply performs_trigger_event|].
  intros r. eapply performs_bind; [apply performs_dispatch_ready|]. intros ?. apply performs_ack.
Qed.

Lemma performs_handle_completion s i f :
  performs (λ _, True) (handle_completion float_str repr pow policy s i f) (λ _ _, True).
Proof.
  unfold handle_completion. eapply (performs_bind _ (λ _ _, True)); [by apply performs_pure|]. intros e.
  eapply (performs_bind _ (λ _ _, True)); [apply runs_wait|]. intros [].
  eapply performs_bind; [apply performs_completion|]. intros d.
  eapply performs_bind; [apply performs_dispatch_ready|]. intros ?. apply performs_ack.
Qed.

End handlers.

(** ** The orchestrator's loop *)

Section loop.
Context `{WorkflowSchema} `{Env} `{Json} `{Pydantic} `{HostLaws}.
Variables (float_str : spec_float → string) (repr : string → string).
Variable pow : spec_float → Z → py spec_float.
Variable policy : RetryPolicy.
Variables (py_str : pyobj → string) (it : bool) (consumer_name : string).
#[local] Abbreviation performs := (performs float_str repr pow policy py_str it).
#[local] Abbreviation runs m := (performs [] (λ _, True) m (λ _ _, True)).

(** What is consumed from the event stream is there. *)
Lemma runs_consume_events {A} g c n (f : stream_batch → IO A) :
  (∀ b, performs ((λ m, m.2) <$> batch_messages b) (λ _, True) (f b) (λ _ _, True)) →
  runs (consume g c WORKFLOW_EVENTS_STREAM n ≫= f).
Proof.
  intros Hf w a _ _. split; [by intros q ?%elem_of_nil|]. unfold mbind, io_bind.
  pose proof (consume_effect g c WORKFLOW_EVENTS_STREAM n w) as Hc.
  destruct (consume g c WORKFLOW_EVENTS_STREAM n w) as [w1 [b|e]] eqn:Hrun; destruct Hc as (Hd & Hs & _).
  - destruct (Hf b w1 a) as (_ & a' & Hr & _); [|done|].
    { intros q (m & -> & Hm)%list_elem_of_fmap. by apply (consume_published _ _ _ _ _ _ _ m Hrun). }
    exists a'. split; [|done]. eapply rtc_l; [by apply step_idle|done].
  - exists a. split; [by apply rtc_once, step_idle|done].
Qed.

Lemma runs_trigger_consume : runs (trigger_consume_once float_str repr consumer_name).
Proof.
  apply runs_consume_events. intros b. eapply performs_bind; [|intros []; by apply (performs_pure _ _ _ _ _ _ _ _ _ (Ok _))].
  apply performs_iter. intros m Hm. apply performs_handle_trigger.
  by apply (list_elem_of_fmap_2 (λ m : string * string * stream_fields, m.2)).
Qed.

Lemma runs_completion_consume : runs (completion_consume_once float_str repr pow policy consumer_name).
Proof.
  apply runs_bind.
  { apply runs_still. intros w. pose proof (consume_effect ORCHESTRATOR_COMPLETIONS_GROUP consumer_name
      WORKFLOW_TASK_COMPLETIONS_STREAM 100 w) as Hc. by destruct (consume _ _ _ _ w); destruct Hc as (? & ? & _). }
  intros b. eapply performs_bind; [|intros []; by apply (performs_pure _ _ _ _ _ _ _ _ _ (Ok _))].
  apply performs_iter. intros m Hm. apply performs_handle_completion.
Qed.

(** One turn: publish, clean up, consume both streams, publish due retries. *)
Lemma runs_run_once retention : runs (run_once float_str repr pow policy consumer_name retention).
Proof.
  unfold run_once. set (turn := publish_outbox_events ≫= _).
  assert (Hturn : runs turn).
  { unfold turn. apply runs_bind; [apply runs_publish_pending|]. intros ?. apply runs_bind.
    { unfold cleanup_published_outbox. apply runs_bind; [apply runs_lift|].
      intros r. apply performs_step; [apply cleanup_speaks|]. intros w a _ _. apply step_cleanup. }
    intros ?. apply runs_bind; [apply runs_trigger_consume|].
    intros ?. apply runs_bind; [apply runs_completion_consume|].
    intros ?. apply runs_bind; [apply runs_publish_due_retries|]. intros ?. by apply runs_still. }
  apply (runs_bind _ _ _ _ _ _ _ (try_io turn)); [by apply runs_try|].
  intros [[]|e]; [by apply runs_still|]. destruct (is_redis_error e); by apply runs_still.
Qed.

Lemma runs_run_loop retention turns : runs (run_loop float_str repr pow policy consumer_name retention turns).
Proof. apply runs_repeat, runs_run_once. Qed.
End loop.
