(* ===== verification/Reachable.v ===== *)
(** * Every reachable system

    The invariant of the system of [Engine], and what it gives: every step of
    every interleaving moves each execution along [Lifecycle], so what holds of
    the life of one execution holds of the rows of the tables, and the
    orchestrator's handlers are sequences of such steps. *)

From Stdlib Require Import SpecFloat.
From S2P Require Import Prelude Numerals PyVal States Errors Domain Dag Graph Readiness Failure.
From S2P Require Import Lifecycle Cycles Validation Templates Resolver Json Messages Store.
From S2P Require Import Repositories TaskRepositories Services Dispatch Completion Redis Barriers Outbox Worker.
From S2P Require Import Orchestrator Preservation Streams Evolution TriggerSpec Submission.
From S2P Require Import DispatchSpec CompletionSpec OutboxSpec Provenance Engine Handlers.

(** ** Operations that leave the workflow tables alone *)

Definition same_flow (d d' : Db) : Prop :=
  workflows d' = workflows d ∧ workflow_executions d' = workflow_executions d ∧
  node_executions d' = node_executions d.

#[export] Instance same_flow_preorder : PreOrder same_flow.
Proof. split; unfold same_flow; [done|]. intros d1 d2 d3. naive_solver congruence. Qed.

#[export] Instance same_flow_worker `{Env} : WorkerPreserved same_flow.
Proof.
  split; [typeclasses eauto|..]; intros.
  - unfold claim_attempt, set_attempt_row. framed.
  - unfold attempt_record_result, set_attempt_row. framed.
  - unfold attempt_mark_completed, set_attempt_row. framed.
  - unfold attempt_renew_claim, set_attempt_row. framed.
Qed.

Section quiet_operations.
Context `{WorkflowSchema} `{Env} `{Json} `{Pydantic} `{Host}.

Lemma cleanup_flow r b : keeps same_flow (cleanup_published r b).
Proof. unfold cleanup_published. framed. Qed.

Lemma requeue_flow a t : keeps same_flow (mark_retry_published a t).
Proof. unfold mark_retry_published, set_attempt_row. framed. Qed.

(** The transactions of a worker write no message. *)
Lemma requeue_speaks P a t : speaks P (mark_retry_published a t).
Proof. unfold mark_retry_published, set_attempt_row. speak. Qed.
Lemma claim_speaks P a k x i wk t1 t2 : speaks P (claim_attempt a k x i wk t1 t2).
Proof. unfold claim_attempt, set_attempt_row. speak. Qed.
Lemma renew_speaks P a wk t : speaks P (attempt_renew_claim a wk t).
Proof. unfold attempt_renew_claim, set_attempt_row. speak. Qed.
Lemma record_speaks P a e v m ty : speaks P (attempt_record_result a e v m ty).
Proof. unfold attempt_record_result, set_attempt_row. speak. Qed.
Lemma finish_speaks P a t : speaks P (attempt_mark_completed a t).
Proof. unfold attempt_mark_completed, set_attempt_row. speak. Qed.

Lemma marked_flow rows d d' : marked rows d d' → same_flow d d'.
Proof. induction 1 as [d|row t rows d d' _ IH]; [done|]. etrans; [|exact IH]. done. Qed.
End quiet_operations.

(** ** The invariant *)

Section reachable.
Context `{WorkflowSchemaLaws} `{EnvLaws} `{JsonLaws} `{Pydantic} `{Host}.
Variables (float_str : spec_float → string) (repr : string → string).
Variable pow : spec_float → Z → py spec_float.
Variable policy : RetryPolicy.
Variables (py_str : pyobj → string) (it : bool).
#[local] Abbreviation sys_step := (step float_str repr pow policy py_str it).

Record system_inv (s : system) : Prop := {
  si_db : db_inv (w_db (sys_world s));
  si_ids : ids_bounded (w_db (sys_world s));
  si_rows : rows_sound (w_db (sys_world s));
  si_messages : messages_sound (sys_world s);
  si_runs : runs_ok (w_db (sys_world s));
  si_agenda k : k ∈ sys_agenda s → work_ok (w_db (sys_world s)) k;
}.

(** A step is good when the rows move soundly, along [Lifecycle], and what is
    new on the streams and on the agenda is justified. *)
Lemma good_step w w' a a' :
  system_inv (System w a) → sound_moves (w_db w) (w_db w') → messages_sound w' →
  simulates (w_db w) (w_db w') → (∀ k, k ∈ a' → k ∈ a ∨ work_ok (w_db w') k) →
  simulates (w_db w) (w_db w') ∧ system_inv (System w' a').
Proof.
  intros [Hdb Hids Hrows _ Hruns Hag] Hmv Hmsg Hsim Hnew. simpl in *. split; [done|].
  destruct (Hmv Hdb) as [[Hdb' _] Hrows']. split; simpl; auto.
  - by eapply ids_bounded_simulates.
  - by eapply runs_ok_simulates.
  - intros k Hk. destruct (Hnew k Hk); [|done]. eapply work_ok_simulates; eauto.
Qed.

(** An operation that writes no event and leaves the agenda as it is. *)
Lemma good_operation {A} (m : IO A) w a :
  system_inv (System w a) → keeps sound_moves m → speaks not_event m →
  simulates (w_db w) (w_db (m w).1) →
  simulates (w_db w) (w_db (m w).1) ∧ system_inv (System (m w).1 a).
Proof.
  intros Hinv Hm Hsp Hsim. apply (good_step w _ a); [done|apply Hm| |done|by left].
  apply quiet_messages_sound; [|done|apply Hinv]. apply (Hm w), Hinv.
Qed.

(** A transaction that has only read. *)
Lemma good_read {A} (m : IO A) w w' r a new :
  system_inv (System w a) → quiet m → speaks not_event m → m w = (w', r) →
  (∀ k, k ∈ new → work_ok (w_db w') k) →
  simulates (w_db w) (w_db w') ∧ system_inv (System w' (a ++ new)).
Proof.
  intros Hinv Hq Hsp Hrun Hnew. specialize (Hq w). rewrite Hrun in Hq. simpl in Hq.
  apply (good_step w w' a); [done|by rewrite Hq|..].
  - replace w' with (m w).1 by (by rewrite Hrun). apply quiet_messages_sound; [|done|apply Hinv].
    rewrite Hrun. simpl. rewrite Hq. reflexivity.
  - rewrite Hq. by apply simulates_same.
  - intros k [?|?]%elem_of_app; auto.
Qed.

Lemma simulates_flow d d' : same_flow d d' → simulates d d'.
Proof. intros (HW & HE & HN). by apply simulates_same. Qed.

#[local] Hint Resolve submit_speaks trigger_speaks cleanup_speaks dispatch_speaks process_speaks
  readiness_speaks : core.

(** An operation that changes only the outbox and the task tables. *)
Lemma good_task_operation {A} (m : IO A) w a :
  system_inv (System w a) → keeps sound_moves m → keeps same_flow m → speaks not_event m →
  simulates (w_db w) (w_db (m w).1) ∧ system_inv (System (m w).1 a).
Proof. intros Hinv Hs Hf Hsp. apply good_operation; [done..|]. apply simulates_flow, Hf. Qed.

Lemma good_transaction {A} (m : IO A) w a :
  system_inv (System w a) → keeps sound_moves m → keeps same_flow m → speaks not_event m →
  simulates (w_db w) (w_db (transaction m w).1) ∧ system_inv (System (transaction m w).1 a).
Proof.
  intros Hinv Hs Hf Hsp. apply good_task_operation; [done| | |by apply speaks_transaction];
    apply keeps_transaction; (done || typeclasses eauto).
Qed.

(** A commit of the publisher. *)
Lemma good_commit w a d :
  system_inv (System w a) → same_flow (w_db w) d → same_triggers (w_db w) d →
  simulates (w_db w) d ∧ system_inv (System (set_db d w) a).
Proof.
  intros Hinv Hf Ht. pose proof Hf as (HW & HE & HN).
  assert (Hmv : sound_moves (w_db w) d) by (by apply sound_moves_same; [apply evolves_same|]).
  apply (good_step w (set_db d w) a); [done|done| |by apply simulates_flow|by left].
  intros f x Hin Hx. destruct (Hmv (si_db _ Hinv)) as [[_ Hm] _].
  eapply triggered_moves; [exact Hm|]. by eapply (si_messages _ Hinv).
Qed.

(** A message that is not an event. *)
Lemma good_send s f w w' r a new :
  system_inv (System w a) → s ≠ WORKFLOW_EVENTS_STREAM → publish s f w = (w', r) →
  (∀ k, k ∈ new → work_ok (w_db w') k) →
  simulates (w_db w) (w_db w') ∧ system_inv (System w' (a ++ new)).
Proof.
  intros Hinv Hs Hrun. eapply (good_read (publish s f)); [done|apply quiet_publish|by apply speaks_publish|done].
Qed.

Lemma complete_good e w w' d a :
  system_inv (System w a) → process pow policy e w = (w', Ok d) →
  simulates (w_db w) (w_db w') ∧
  system_inv (System w' (a ++ (Ready (ev_execution_id e) <$> tc_ready_node_ids d))).
Proof.
  intros Hinv Hrun. pose proof (process_kept policy sound_moves pow e w) as Hmv. rewrite Hrun in Hmv. simpl in Hmv.
  destruct (Hmv (si_db _ Hinv)) as [[Hdb' Hm] _].
  destruct (process_simulates pow policy e w w' d) as [Hsim Hready]; [apply Hinv|done|apply Hinv|done|].
  apply (good_step w w' a); [done|done| |done|].
  - replace w' with (process pow policy e w).1 by (by rewrite Hrun).
    apply quiet_messages_sound; [by rewrite Hrun|by auto|apply Hinv].
  - intros k [?|(i & -> & Hi)%list_elem_of_fmap]%elem_of_app; [by left|right; by apply Hready].
Qed.

Lemma load_good x ids w w' e nodes a :
  system_inv (System w a) → (∀ i, i ∈ ids → Ready x i ∈ a) →
  transaction (load_ready_nodes x ids) w = (w', Ok (e, nodes)) →
  simulates (w_db w) (w_db w') ∧ system_inv (System w' (a ++ (Loaded e <$> nodes))).
Proof.
  intros Hinv Hids Hrun. pose proof Hrun as Hq.
  eapply (good_read (transaction (load_ready_nodes x ids))); [done| | |done|].
  - apply quiet_transaction, load_ready_nodes_quiet.
  - apply speaks_transaction, load_ready_speaks.
  - intros k (n & -> & Hn)%list_elem_of_fmap.
    apply load_work_ok in Hrun as [_ Hok]; [|apply Hinv..|intros i Hi; by apply (si_agenda _ Hinv (Ready x i)), Hids].
    apply Hok in Hn as [_ Hn]. assert (Hdb : w_db w' = w_db w); [|by rewrite Hdb].
    pose proof (quiet_transaction _ (load_ready_nodes_quiet x ids) w) as Hdb. by rewrite Hq in Hdb.
Qed.

Lemma step_good s s' :
  sys_step s s' → system_inv s →
  simulates (w_db (sys_world s)) (w_db (sys_world s')) ∧ system_inv s'.
Proof.
  pose proof (pr_worker (M := rp_max_attempts policy) (R := sound_moves)) as Hwork.
  destruct 1 as [p w a|x i w a|k row f w w' a Hk Hp Hf Hrun|rows d w a Hrows Hm|rows d k row m w a Hrows Hm Hk Hp
    |r b w a|t w w' due a Hrun|r f w w' a Hr Hf Hrun|r t w a Hr|at_ tk x i wk t1 t2 w a _|at_ wk t w a _
    |at_ e v m ty w a|at_ t w a|s f w a Hs|f x w w' r a Hf Hx Hrun|e w w' d a Hrun|e w w' exc a Hrun
    |x ids w w' e nodes a Hids Hrun|e node w a Hk|w a a' Ha|w w' a Hd Hs]; intros Hinv; simpl.
  - apply good_operation; [done|apply (submit_kept policy _)|by auto|]. apply submit_simulates, Hinv.
  - apply good_operation; [done|apply (trigger_kept policy _)|by auto|]. apply trigger_simulates, Hinv.
  - unfold publish in Hrun. destruct (redis_failure _); [done|].
    apply (f_equal fst) in Hrun; simpl in Hrun; subst w'.
    apply (good_step w _ a); [done|done| |by apply simulates_same|].
    + by eapply ship_messages_sound; [apply Hinv..|exact Hk|exact Hf| |].
    + intros j [?|Hj%list_elem_of_singleton]%elem_of_app; [by left|right; by subst].
  - apply good_commit; [done|by eapply marked_flow|]. eapply marked_triggers; [|reflexivity|exact Hm].
    intros row Hrow. by apply Hrows.
  - apply good_commit; [done|etrans; [by eapply marked_flow|done]|].
    apply mark_triggers; [by exists k|right; by eexists|]. eapply marked_triggers; [|reflexivity|exact Hm].
    intros row' Hrow'. by apply Hrows.
  - apply good_task_operation; [done|apply (pr_cleanup (M := rp_max_attempts policy))|apply cleanup_flow|by auto].
  - eapply (good_read (transaction (get_due_retries t))); [done|apply quiet_transaction, get_due_retries_quiet| |done|].
    + apply speaks_transaction. by apply speaks_none.
    + by intros j (q & -> & _)%list_elem_of_fmap.
  - apply (good_send WORKFLOW_TASKS_STREAM f w w' (Ok tt)); [done..|]. by intros j ->%list_elem_of_singleton.
  - apply good_transaction; [done|apply (pr_retry_published (M := rp_max_attempts policy))|apply requeue_flow|apply requeue_speaks].
  - apply good_transaction; [done|apply wp_claim_attempt..|apply claim_speaks].
  - apply good_transaction; [done|apply wp_renew..|apply renew_speaks].
  - apply good_transaction; [done|apply wp_record_result..|apply record_speaks].
  - apply good_transaction; [done|apply wp_mark_completed..|apply finish_speaks].
  - destruct (publish s f w) as [w' r] eqn:Hrun. rewrite <- (app_nil_r a).
    apply (good_send s f w w' r); [done|done|done|by intros j ?%elem_of_nil].
  - eapply (good_read (readiness_evaluate x)); [done|apply readiness_quiet|by auto|done|].
    intros k (i & -> & Hi)%list_elem_of_fmap. eapply readiness_justified; [apply Hinv..| |done|done].
    by apply (si_messages _ Hinv f).
  - by apply complete_good.
  - apply process_Raise in Hrun as Hd. apply (good_step w w' a); [done|by rewrite Hd| | |by left].
    + replace w' with (process pow policy e w).1 by (by rewrite Hrun).
      apply quiet_messages_sound; [rewrite Hrun; simpl; by rewrite Hd|by auto|apply Hinv].
    + rewrite Hd. by apply simulates_same.
  - by eapply load_good.
  - apply good_operation; [done|apply (dispatch_kept policy _)|by auto|].
    apply dispatch_simulates; [apply Hinv..|]. by apply (si_agenda _ Hinv).
  - apply (good_step w w a); [done|done|apply Hinv|by apply simulates_same|]. set_solver.
  - apply (good_step w w' a); [done|by rewrite Hd| |rewrite Hd; by apply simulates_same|by left].
    intros f x Hf. rewrite Hd. rewrite Hs in Hf. by apply Hinv.
Qed.

Lemma initial_inv s : initial_system s → system_inv s.
Proof.
  destruct s as [w a]. intros (Hd & Hs & Ha). simpl in *. split; simpl; rewrite ?Hd, ?Ha.
  - by split; simpl; intros ? ?; rewrite lookup_empty.
  - intros x e. simpl. by rewrite lookup_empty.
  - intros k r. simpl. by rewrite lookup_empty.
  - intros f x. rewrite Hs. set_solver.
  - intros x e. simpl. by rewrite lookup_empty.
  - set_solver.
Qed.

Definition reachable (s : system) : Prop := ∃ s0, initial_system s0 ∧ rtc sys_step s0 s.

Lemma steps_inv s s' : rtc sys_step s s' → system_inv s → system_inv s'.
Proof. induction 1; [done|]. intros Hi. by apply IHrtc, (step_good x y). Qed.

Lemma reachable_inv s : reachable s → system_inv s.
Proof. intros (s0 & Hini & Hr). by eapply steps_inv, initial_inv. Qed.

(** ** Theorems *)

(** C1: the processes implement the life of an execution.  From any state the
    system can reach, with any number of API, orchestrator and worker
    processes interleaving their transactions, each step moves every stored
    execution along the steps of [Lifecycle], and an execution that is new is
    an initial run. *)
Theorem system_refines_lifecycle s s' :
  reachable s → sys_step s s' →
  let d := w_db (sys_world s) in
  let d' := w_db (sys_world s') in
  (∀ x, is_Some (workflow_executions d !! x) →
     ∃ r r', represents d x r ∧ represents d' x r' ∧ rtc run_step r r') ∧
  (∀ x, is_Some (workflow_executions d' !! x) → workflow_executions d !! x = None →
     ∃ r, represents d' x r ∧ run_initial r).
Proof.
  intros Hr Hstep. apply reachable_inv in Hr. destruct (step_good s s' Hstep Hr) as [[Hold Hnew] _]. split.
  - intros x [e Hx]. destruct (si_runs _ Hr x e Hx) as (r & Hrep & Hi).
    destruct (Hold x r Hrep Hi) as (r' & Hrep' & Hs). eauto.
  - intros x Hx' Hx. destruct (Hnew x Hx') as [[e He]|(r & Hrep & Hini & _)]; [congruence|eauto].
Qed.

(** C2: the invariant of the tables.  In every reachable state, every
    execution has a stored definition that is a well-formed acyclic graph and
    exactly one row per node of it; a node runs or has completed only after
    all its dependencies have completed; no pending node depends on a failed
    one; and the status of the execution agrees with its rows: before the
    trigger all are pending, while it runs none has failed and not all have
    completed, completed means that all have, failed that one has failed. *)
Theorem reachable_invariant s x e :
  reachable s → workflow_executions (w_db (sys_world s)) !! x = Some e →
  let d := w_db (sys_world s) in
  ∃ g, read_workflow d (we_workflow_id e) = Ok (Some g) ∧ wf_workflow g ∧ acyclic g ∧
    (∀ i, is_Some (row_status d x i) ↔ i ∈ node_ids g) ∧
    (∀ i j, depends g i j → row_status d x i = Some NRunning ∨ row_status d x i = Some NCompleted →
       row_status d x j = Some NCompleted) ∧
    (∀ i j, depends g i j → row_status d x i = Some NPending → row_status d x j ≠ Some NFailed) ∧
    match we_status e with
    | WPending => ∀ i, i ∈ node_ids g → row_status d x i = Some NPending
    | WRunning => ¬ some_failed d x ∧ (node_ids g ≠ [] → ¬ all_completed g d x)
    | WCompleted => all_completed g d x
    | WFailed => some_failed d x
    end.
Proof.
  intros Hr Hx d. apply reachable_inv in Hr. destruct (si_runs _ Hr x e Hx) as (r & Hrep & Hi).
  destruct (represents_execution _ _ _ _ Hrep Hx) as (Hs & Hg & Hm). fold d in Hg, Hm.
  exists (run_graph r). split; [done|]. split; [apply Hi|]. split; [apply Hi|].
  assert (Hdom : ∀ i, is_Some (row_status d x i) ↔ i ∈ node_ids (run_graph r)).
  { intros i. rewrite <- Hm. apply Hi. }
  assert (Hfin : all_completed (run_graph r) d x ↔ has_finished (run_nodes r)) 
    by (exact (finished_rows _ d x _ Hm (ri_dom _ Hi))).
  assert (Hfail : some_failed d x ↔ has_failed (run_nodes r)) 
    by (exact (failed_in_rows d x _ Hm)).
  split; [done|]. split; [|split].
  - intros i j Hd. rewrite <- !Hm. intros [Hn|Hn]; eapply (ri_order _ Hi); eauto.
  - intros i j Hd. rewrite <- !Hm. intros Hn. by eapply (ri_unblocked _ Hi).
  - rewrite Hs. destruct (run_status r) eqn:Hst; rewrite ?Hfail, ?Hfin.
    + intros i Hin. apply Hdom in Hin as [t Ht]. rewrite Ht. f_equal. rewrite <- Hm in Ht. by eapply (ri_pending _ Hi).
    + split; [|by apply (ri_running _ Hi)]. rewrite <- (ri_failed _ Hi). congruence.
    + by apply (ri_completed _ Hi).
    + by apply (ri_failed _ Hi).
Qed.

(** C4: no execution is stuck.  In every reachable state, evaluating the
    readiness of a running execution of a non-empty definition succeeds, and
    it finds a node to dispatch unless one of the nodes is running. *)
Theorem reachable_progress s x e g :
  let w := sys_world s in
  reachable s → workflow_executions (w_db w) !! x = Some e → we_status e = WRunning →
  read_workflow (w_db w) (we_workflow_id e) = Ok (Some g) → node_ids g ≠ [] →
  ∃ r, readiness_evaluate x w = (w, Ok r) ∧
    (rd_ready_node_ids r ≠ [] ∨ ∃ i, row_status (w_db w) x i = Some NRunning).
Proof.
  cbv zeta. intros Hr Hx Hst Hg Hne. apply reachable_inv in Hr. destruct (si_runs _ Hr x e Hx) as (rn & Hrep & Hi).
  destruct (represents_execution _ _ _ _ Hrep Hx) as (Hs & Hg' & Hm).
  assert (g = run_graph rn) as -> by congruence.
  eexists. split.
  { unfold readiness_evaluate, readiness_in_transaction, get_execution_by_id, get_workflow_by_id,
      get_node_executions_for_execution, transaction. run_io. rewrite Hx. simpl. rewrite Hg. done. }
  simpl. destruct (run_progress rn Hi) as [i [Hrun|[Hp Hd]]]; [congruence|done| |].
  - right. exists i. by rewrite <- Hm.
  - left. destruct (ready_node_ids_spec (run_graph rn) (statuses_by_id (nodes_of_execution x (w_db (sys_world s)))) (ri_wf _ Hi))
      as [Hiff _].
    assert (Hst' : ∀ j t, run_nodes rn !! j = Some t → status_of (statuses_by_id (nodes_of_execution x (w_db (sys_world s)))) j = t).
    { intros j t Ht. rewrite (represented_statuses (w_db (sys_world s)) x rn (si_db _ Hr) Hrep) in Ht. unfold status_of. by rewrite Ht. }
    assert (Hin : i ∈ evaluate_ready_node_ids (run_graph rn) (statuses_by_id (nodes_of_execution x (w_db (sys_world s))))).
    { apply Hiff. split; [apply (ri_dom _ Hi); eauto|]. split; [by apply Hst'|]. intros j Hj. by apply Hst', Hd. }
    intros Hnil. rewrite Hnil in Hin. set_solver.
Qed.

(** A process that relies on nothing it has read from the event stream. *)
Lemma runs_steps {A} (m : IO A) w a :
  performs float_str repr pow policy py_str it [] (λ _, True) m (λ _ _, True) →
  ∃ a', rtc sys_step (System w a) (System (m w).1 a').
Proof. intros Hm. destruct (Hm w a) as (_ & a' & Hr & _); [by intros f ?%elem_of_nil|done|]. by exists a'. Qed.

Lemma publish_steps w : rtc sys_step (System w []) (System (publish_pending w).1 []).
Proof.
  destruct (runs_steps publish_pending w []) as [a Ha]; [apply runs_publish_pending|].
  etrans; [exact Ha|]. apply rtc_once, step_forget. set_solver.
Qed.

Lemma run_once_steps `{!HostLaws} name retention w a :
  ∃ a', rtc sys_step (System w a) (System (run_once float_str repr pow policy name retention w).1 a').
Proof. apply runs_steps, runs_run_once. Qed.

(** C6: the processes take the steps of the system.  Any number of turns of
    the orchestrator's loop, whether they return or raise, are a sequence of
    them, whatever Redis delivers; and so is everything a worker does with any
    message whatever. *)
Theorem processes_take_steps `{!HostLaws} w a :
  (∀ name retention turns, ∃ a', rtc sys_step (System w a)
     (System (run_loop float_str repr pow policy name retention turns w).1 a')) ∧
  (∀ wk l k s i f, ∃ a', rtc sys_step (System w a) (System (_process_one wk l k s i f w).1 a')).
Proof. split; intros; apply runs_steps; [apply runs_run_loop; done|apply runs_process_one]. Qed.

(** ** How often an execution changes *)

Definition same_execution (x : UUID) (d d' : Db) : Prop :=
  we_status <$> workflow_executions d' !! x = we_status <$> workflow_executions d !! x ∧
  ∀ i, row_status d' x i = row_status d x i.

(** [k] of the steps from the first system to the second change the status of
    [x] or of one of its nodes. *)
Inductive changes (x : UUID) : nat → relation system :=
| changes_none s : changes x 0 s s
| changes_other k s s' s'' :
    sys_step s s' → same_execution x (w_db (sys_world s)) (w_db (sys_world s')) →
    changes x k s' s'' → changes x k s s''
| changes_more k s s' s'' :
    sys_step s s' → ¬ same_execution x (w_db (sys_world s)) (w_db (sys_world s')) →
    changes x k s' s'' → changes x (S k) s s''.

Lemma changes_work x k s s' r :
  changes x k s s' → system_inv s → represents (w_db (sys_world s)) x r → k ≤ run_work r.
Proof.
  intros Hc. revert r. induction Hc as [s|k s s' s'' Hs _ _ IH|k s s' s'' Hs Hne _ IH]; intros r Hinv Hr; [lia|..];
    destruct (step_good s s' Hs Hinv) as [[Hold _] Hinv'];
    pose proof (represents_inv _ _ r (si_runs _ Hinv) Hr) as Hi;
    destruct (Hold x r Hr Hi) as (r' & Hr' & Hsteps); specialize (IH r' Hinv' Hr');
    destruct (rtc_nsteps_1 _ _ Hsteps) as [n Hn]; pose proof (run_steps_work n r r' Hn Hi); [lia|].
  destruct n as [|n]; [|lia]. inversion Hn; subst. destruct Hne.
  destruct Hr as (e & Hx & _ & Hse & Hm), Hr' as (e' & Hx' & _ & Hse' & Hm'). split.
  - rewrite Hx, Hx'. simpl. congruence.
  - intros i. by rewrite <- Hm, <- Hm'.
Qed.

(** C5: every execution settles.  In any sequence of steps from a reachable
    state, however long and however interleaved, at most two steps per node,
    and one for the trigger, change the status of an execution or of one of
    its nodes. *)
Theorem execution_settles s s' x e g k :
  reachable s → workflow_executions (w_db (sys_world s)) !! x = Some e →
  read_workflow (w_db (sys_world s)) (we_workflow_id e) = Ok (Some g) →
  changes x k s s' → k ≤ 1 + 2 * length (node_ids g).
Proof.
  intros Hr Hx Hg Hc. apply reachable_inv in Hr. destruct (si_runs _ Hr x e Hx) as (r & Hrep & Hi).
  destruct (represents_execution _ _ _ _ Hrep Hx) as (_ & Hg' & _). assert (g = run_graph r) as -> by congruence.
  pose proof (changes_work x k s s' r Hc Hr Hrep). unfold run_work in *.
  pose proof (nodes_work_bound (node_ids (run_graph r)) (run_nodes r)).
  assert (status_work (run_status r) ≤ 1) by (unfold status_work; case_decide; lia). lia.
Qed.
End reachable.
