(* ===== verification/Durability.v ===== *)
(** * No task is lost

    The transactional outbox, seen from the tables and the streams together:
    in every reachable state a node that is running has its logical task, its
    first attempt and its message, and every attempt ever created has a
    message in the outbox or on the task stream, or is scheduled for retry.
    No order of crashes, Redis errors, publications and clean-ups loses one. *)

From Stdlib Require Import SpecFloat.
From S2P Require Import Prelude Numerals PyVal States Errors Domain Dag Graph Readiness Failure.
From S2P Require Import Lifecycle Cycles Validation Templates Resolver Json Messages Store.
From S2P Require Import Repositories TaskRepositories Services Dispatch Completion Redis Barriers Outbox Worker.
From S2P Require Import Orchestrator Preservation Streams Evolution Retries TriggerSpec Submission.
From S2P Require Import DispatchSpec CompletionSpec RedeliverySpec RetrySpec OutboxSpec Provenance.
From S2P Require Import Engine Handlers Reachable.

(** ** Messages on their way *)

(** A message of the task stream that carries the task message [m]. *)
Definition task_fields (m : NodeTaskMessage) (f : stream_fields) : Prop :=
  aget "task_id" f = Some (tm_task_id m) ∧ aget "attempt_id" f = Some (uuid_str (tm_attempt_id m)) ∧
  aget "execution_id" f = Some (uuid_str (tm_execution_id m)) ∧ aget "node_id" f = Some (tm_node_id m) ∧
  aget "handler" f = Some (tm_handler m).

(** [m] waits in the outbox, or is on the task stream. *)
Definition task_sent (w : World) (m : NodeTaskMessage) : Prop :=
  (∃ k r, outbox_events (w_db w) !! k = Some r ∧ ob_status r = OPending ∧
     ob_target_stream r = WORKFLOW_TASKS_STREAM ∧ ob_payload r = task_payload m) ∨
  (∃ f, (WORKFLOW_TASKS_STREAM, f) ∈ w_streams w ∧ task_fields m f).

(** The retry of attempt [a] waits for its time. *)
Definition scheduled (d : Db) (a : UUID) : Prop :=
  ∃ r, task_retry_dispatches d !! a = Some r ∧ rd_status r = DPending.

Definition attempt_carried (w : World) (a : UUID) (b : TaskAttemptRecord) : Prop :=
  scheduled (w_db w) a ∨
  ∃ m, tm_attempt_id m = a ∧ tm_task_id m = at_task_id b ∧ task_sent w m.

Section durable.
Context `{Env}.

(** The task of node [i] of [x]: its row, its first attempt, its message. *)
Definition node_task (w : World) (x : UUID) (i : string) : Prop :=
  let tid := create_task_id x i in
  is_Some (logical_tasks (w_db w) !! tid) ∧
  ∃ a b m, task_attempts (w_db w) !! a = Some b ∧ first_attempt tid b ∧ tm_execution_id m = x ∧
    tm_node_id m = i ∧ tm_task_id m = tid ∧ tm_attempt_id m = a ∧ task_sent w m.

(** Rows are stored under their keys. *)
Definition tasks_keyed (d : Db) : Prop :=
  (∀ k b, task_attempts d !! k = Some b → at_attempt_id b = k) ∧
  (∀ t l, logical_tasks d !! t = Some l → lt_task_id l = t).
Definition keyed (d : Db) : Prop := tasks_keyed d ∧ outbox_keys d.

Record durable (w : World) : Prop := {
  du_keyed : keyed (w_db w);
  du_running x i : row_status (w_db w) x i = Some NRunning → node_task w x i;
  du_attempt a b : task_attempts (w_db w) !! a = Some b → attempt_carried w a b;
}.

(** ** What a step owes *)

Definition same_task (b b' : TaskAttemptRecord) : Prop :=
  at_task_id b' = at_task_id b ∧ at_attempt_number b' = at_attempt_number b.

Record durable_step (w w' : World) : Prop := {
  ds_streams : ∃ msgs, w_streams w' = w_streams w ++ msgs;
  ds_keyed : keyed (w_db w');
  ds_sent m : task_sent w m → task_sent w' m;
  ds_logical t : is_Some (logical_tasks (w_db w) !! t) → is_Some (logical_tasks (w_db w') !! t);
  ds_attempt a b : task_attempts (w_db w) !! a = Some b →
    ∃ b', task_attempts (w_db w') !! a = Some b' ∧ same_task b b';
  ds_running x i : row_status (w_db w') x i = Some NRunning →
    row_status (w_db w) x i = Some NRunning ∨ node_task w' x i;
  ds_new a b : task_attempts (w_db w') !! a = Some b →
    is_Some (task_attempts (w_db w) !! a) ∨ attempt_carried w' a b;
  ds_scheduled a b : task_attempts (w_db w') !! a = Some b → scheduled (w_db w) a → attempt_carried w' a b;
}.

Lemma durable_after w w' : durable w → durable_step w w' → durable w'.
Proof.
  intros [_ Hrun Hatt] [_ Hk Hsent Hlog Hkeep Hnew_run Hnew Hsch]. split; [done|..].
  - intros x i Hr. destruct (Hnew_run x i Hr) as [Hold|]; [|done].
    destruct (Hrun x i Hold) as [Hl (a & b & m & Ha & [Ht Hn] & Hm)]. split; [by apply Hlog|].
    destruct (Hkeep a b Ha) as (b' & Ha' & Ht' & Hn'). exists a, b', m. split; [done|].
    split; [split; congruence|]. destruct Hm as (? & ? & ? & ? & Hm). auto 10.
  - intros a b' Ha'. destruct (Hnew a b' Ha') as [[b Ha]|]; [|done].
    destruct (Hatt a b Ha) as [Hs|(m & Hma & Hmt & Hm)]; [by eapply Hsch|].
    destruct (Hkeep a b Ha) as (b1 & Hb1 & Ht & _). right. exists m. split; [done|]. split; [|by apply Hsent].
    congruence.
Qed.

(** ** The outbox keeps what is pending *)

Definition outbox_kept (d d' : Db) : Prop :=
  outbox_keys d → outbox_keys d' ∧
  ∀ k r, outbox_events d !! k = Some r → ob_status r = OPending → outbox_events d' !! k = Some r.

#[export] Instance outbox_kept_preorder : PreOrder outbox_kept.
Proof.
  split; [by intros d Hd|]. intros d1 d2 d3 H12 H23 H1. destruct (H12 H1) as [H2 K12].
  destruct (H23 H2) as [H3 K23]. split; [done|]. auto.
Qed.

Lemma outbox_same_kept d d' : outbox_events d' = outbox_events d → outbox_kept d d'.
Proof. unfold outbox_kept, outbox_keys. by intros ->. Qed.

Lemma outbox_add_kept d mid row :
  outbox_events d !! mid = None → ob_event_id row = mid →
  outbox_kept d (set_outbox (<[mid := row]> (outbox_events d)) d).
Proof.
  intros Hnew Hid Hk. split.
  - intros k r. simpl. rewrite lookup_insert. case_decide; [congruence|apply Hk].
  - intros k r Hr _. simpl. rewrite lookup_insert_ne; [done|congruence].
Qed.

Ltac other_table := apply keeps_from; intros ?; walk; apply outbox_same_kept; reflexivity.

Lemma add_message_kept i ty s p a : keeps outbox_kept (add_message i ty s p a).
Proof.
  unfold add_message. apply keeps_from. intros d. walk. apply outbox_add_kept; [|done].
  match goal with Hq : has _ _ = false |- _ => by apply has_false in Hq end.
Qed.

Lemma cleanup_kept r b : keeps outbox_kept (cleanup_published r b).
Proof.
  unfold cleanup_published. apply keeps_from. intros d. walk. intros Hk.
  match goal with |- context [foldl _ _ ?l] => set (ids := l) end.
  assert (Hids : ∀ k r0, outbox_events d !! k = Some r0 → ob_status r0 = OPending → k ∉ ids).
  { intros k r0 Hr Hp Hin. unfold ids in Hin. match goal with Hq : _ = _ :: _ |- _ => rewrite <- Hq in Hin end.
    apply list_elem_of_fmap in Hin as (r1 & -> & (j & Hj & _)%elem_of_take).
    apply list_elem_of_lookup_2 in Hj. rewrite order_by_perm in Hj.
    apply elem_of_rows_where in Hj as (k1 & Hk1 & [He%bool_decide_eq_true _]%andb_true_iff).
    rewrite (Hk _ _ Hk1) in Hr. congruence. }
  clearbody ids. split; intros k r0; simpl; rewrite delete_all_lookup; case_decide; try (done || by apply Hk).
  intros Hr Hp. by destruct (Hids k r0 Hr Hp).
Qed.

#[export] Instance outbox_kept_worker : WorkerPreserved outbox_kept.
Proof.
  split; [typeclasses eauto|..]; intros; unfold claim_attempt, attempt_record_result, attempt_mark_completed,
    attempt_renew_claim, set_attempt_row; other_table.
Qed.

#[export] Instance outbox_kept_services `{WorkflowSchema} M : ServicesPreserved M outbox_kept.
Proof.
  assert (Hu : ∀ x s s' t1 t2 i, keeps outbox_kept (execution_update_status_if_current x s s' t1 t2 i))
    by (intros; unfold execution_update_status_if_current; other_table).
  split; eauto using add_message_kept, cleanup_kept with typeclass_instances.
  - intros w e. unfold persist_submission, create_workflow, create_execution, new_node_execution, upsert_node_execution.
    apply keeps_bind; [typeclasses eauto|other_table|intros _].
    apply keeps_bind; [typeclasses eauto|other_table|intros _].
    apply keeps_iter; [typeclasses eauto|]. intros node. other_table.
  - intros. unfold node_update_status_if_current. other_table.
  - intros. unfold claim_pending_nodes. other_table.
  - intros. unfold fail_pending_nodes. other_table.
  - intros. apply trigger_body_composed; eauto using add_message_kept with keeps.
  - intros. unfold register_initial_task, insert_logical_task, insert_attempt, set_attempt_row, set_logical_row.
    other_table.
  - intros. unfold record_success, set_attempt_row, set_logical_row. other_table.
  - intros. unfold record_failure, insert_attempt, insert_dispatch, set_attempt_row, set_logical_row. other_table.
  - intros. unfold mark_retry_published, set_attempt_row. other_table.
Qed.

Lemma sent_grows w w' m :
  outbox_keys (w_db w) → outbox_kept (w_db w) (w_db w') → (∃ msgs, w_streams w' = w_streams w ++ msgs) →
  task_sent w m → task_sent w' m.
Proof.
  intros Hk Hout [msgs Hs] [(k & r & Hr & Hp & Hrest)|(f & Hf & Hm)]; destruct (Hout Hk) as [_ Hkept].
  - left. exists k, r. split; [by apply Hkept|done].
  - right. exists f. rewrite Hs, elem_of_app. auto.
Qed.

(** ** Steps that create no task *)

Record tasks_kept (d d' : Db) : Prop := {
  tk_keyed : tasks_keyed d → tasks_keyed d';
  tk_logical t : is_Some (logical_tasks d !! t) → is_Some (logical_tasks d' !! t);
  tk_attempt a b : task_attempts d !! a = Some b → ∃ b', task_attempts d' !! a = Some b' ∧ same_task b b';
  tk_new a : is_Some (task_attempts d' !! a) → is_Some (task_attempts d !! a) ∨ scheduled d' a;
  tk_scheduled a : scheduled d a → scheduled d' a;
}.

#[export] Instance tasks_kept_preorder : PreOrder tasks_kept.
Proof.
  split.
  - intros d. split; auto. intros a b Hb. by exists b.
  - intros d1 d2 d3 [K12 L12 A12 N12 S12] [K23 L23 A23 N23 S23]. split; auto.
    + intros a b (b2 & H2 & T2 & U2)%A12. destruct (A23 a b2 H2) as (b3 & H3 & T3 & U3).
      exists b3. split; [done|]. split; congruence.
    + intros a [Ha%N12|?]%N23; [|by right]. destruct Ha; auto.
Qed.

Lemma tasks_same_kept d d' :
  logical_tasks d' = logical_tasks d → task_attempts d' = task_attempts d →
  task_retry_dispatches d' = task_retry_dispatches d → tasks_kept d d'.
Proof.
  intros HL HA HD. split; unfold tasks_keyed, scheduled; rewrite ?HL, ?HA, ?HD; auto.
  intros a b Hb. by exists b.
Qed.

(** One attempt and its logical task change, and keep their keys. *)
Lemma tasks_update_kept d d' k b b' :
  task_attempts d !! k = Some b → same_task b b' → at_attempt_id b' = at_attempt_id b →
  task_attempts d' = <[k := b']> (task_attempts d) →
  task_retry_dispatches d' = task_retry_dispatches d →
  (logical_tasks d' = logical_tasks d ∨ ∃ t l l', logical_tasks d !! t = Some l ∧
     lt_task_id l' = lt_task_id l ∧ logical_tasks d' = <[t := l']> (logical_tasks d)) → tasks_kept d d'.
Proof.
  intros Hb Hs Hid HA HD HL. split.
  - intros [Ka Kl]. split.
    + intros j c. rewrite HA, lookup_insert. case_decide; [intros [= <-]; subst; rewrite Hid; by apply Ka|apply Ka].
    + destruct HL as [->|(t & l & l' & Hl & Hlid & ->)]; [done|]. intros j c. rewrite lookup_insert.
      case_decide; [intros [= <-]; subst; rewrite Hlid; by apply Kl|apply Kl].
  - destruct HL as [->|(t & l & l' & Hl & Hlid & ->)]; [done|]. intros j. apply insert_kept.
  - intros a c Hc. rewrite HA, lookup_insert. case_decide; [|by exists c]. exists b'. subst. split; [done|]. congruence.
  - intros a. rewrite HA, lookup_insert. case_decide; [subst; rewrite Hb|]; by left; eauto.
  - unfold scheduled. by rewrite HD.
Qed.

#[export] Instance tasks_kept_worker : WorkerPreserved tasks_kept.
Proof.
  split; [typeclasses eauto|..]; intros; unfold claim_attempt, attempt_record_result, attempt_mark_completed,
    attempt_renew_claim, set_attempt_row; apply keeps_from; intros d; walk;
    (eapply (tasks_update_kept d); [eassumption| | |reflexivity|reflexivity|by left]); done.
Qed.

(** A step that creates no task. *)
Lemma quiet_step w w' :
  keyed (w_db w) → tasks_kept (w_db w) (w_db w') → outbox_kept (w_db w) (w_db w') →
  (∃ msgs, w_streams w' = w_streams w ++ msgs) →
  (∀ x i, row_status (w_db w') x i = Some NRunning → row_status (w_db w) x i = Some NRunning) → durable_step w w'.
Proof.
  intros [Hkt Hko] [Hk Hl Ha Hn Hs] Hout Hstr Hrun. split; auto.
  - split; [by apply Hk|]. by apply Hout.
  - intros m. by apply sent_grows.
  - intros a b Hb. destruct (Hn a) as [?|?]; [by eexists|by left|right; by left].
  - intros a b _ Hsa. left. by apply Hs.
Qed.
End durable.

(** ** Completion events *)

Section completions.
Context `{WorkflowSchema} `{Env} `{Json}.
Variable pow : spec_float → Z → py spec_float.
Variable policy : RetryPolicy.

(** The attempt that follows a failure is stored with its retry. *)
Lemma scheduled_attempt_kept d d' t l l' aid a a' next b rd :
  logical_tasks d !! t = Some l → lt_task_id l' = lt_task_id l →
  logical_tasks d' = <[t := l']> (logical_tasks d) →
  task_attempts d !! aid = Some a → same_task a a' → at_attempt_id a' = at_attempt_id a →
  task_attempts d !! next = None → at_attempt_id b = next →
  task_attempts d' = <[next := b]> (<[aid := a']> (task_attempts d)) →
  rd_status rd = DPending → task_retry_dispatches d' = <[next := rd]> (task_retry_dispatches d) → tasks_kept d d'.
Proof.
  intros Hl Hlid HL Ha Hs Haid Hnew Hb HA Hrd HD.
  assert (Hnext : next ≠ aid) by congruence. split.
  - intros [Ka Kl]. split.
    + intros j c. rewrite HA, !lookup_insert. repeat case_decide; [naive_solver| |apply Ka].
      intros [= <-]. subst. rewrite Haid. by apply Ka.
    + intros j c. rewrite HL, lookup_insert. case_decide; [|apply Kl]. intros [= <-]. subst. rewrite Hlid. by apply Kl.
  - rewrite HL. apply insert_kept.
  - intros j c Hc. rewrite HA, !lookup_insert. repeat case_decide; subst; [congruence| |by exists c].
    exists a'. split; [done|]. congruence.
  - intros j. rewrite HA, lookup_insert. case_decide as Hj.
    { intros _. right. exists rd. by rewrite HD, lookup_insert, decide_True. }
    rewrite lookup_insert. case_decide; [subst; rewrite Ha|]; by left; eauto.
  - intros j (r & Hr & Hp). unfold scheduled. rewrite HD, lookup_insert. case_decide; [by exists rd|by exists r].
Qed.

Lemma record_attempt_kept_tasks e n w w1 s :
  record_attempt pow policy e n w = (w1, Ok s) → tasks_kept (w_db w) (w_db w1).
Proof.
  unfold record_attempt. destruct (ev_status e).
  - intros (w2 & t & Ht & Hrun)%io_bind_Ok. injection Ht as <- _.
    apply io_bind_Ok in Hrun as (w3 & b & Hr%record_success_run & Hrun). injection Hrun as <- <-.
    cbn [w_db] in Hr. destruct (logical_tasks (w_db w) !! ev_task_id e) as [l|] eqn:Hl; [|by destruct Hr as [_ ->]].
    destruct Hr as (a & Ha & Hta & [(_ & -> & _)|(_ & HA & HD & HL)]); [done|].
    eapply tasks_update_kept; [exact Ha| | |exact HA|exact HD|]; [done..|]. right.
      eexists _, _, _. split; [exact Hl|]. split; [|exact HL]. done.
  - destruct (ev_error_message e) as [m|]; [|done]. destruct (ev_error_type e) as [ty|]; [|done].
    intros (w2 & f & Hf & Hrun)%io_bind_Ok. injection Hf as <- _.
    do 4 (apply io_bind_Ok in Hrun as (w2 & ? & Hf & Hrun); injection Hf as <- _).
    apply io_bind_Ok in Hrun as (w2 & dec & Hr%record_failure_run & Hrun). injection Hrun as <- <-.
    cbn [w_db] in Hr. destruct (logical_tasks (w_db w) !! ev_task_id e) as [l|] eqn:Hl; [|by destruct Hr as [_ ->]].
    destruct Hr as [(_ & -> & _)|(a & Ha & Hta & [(_ & _ & HA & HD & HL)|(next & _ & _ & _ & Hnew & HA & HD & HL)])].
    + done.
    + eapply tasks_update_kept; [exact Ha| | |exact HA|exact HD|]; [done..|]. right.
      eexists _, _, _. split; [exact Hl|]. split; [|exact HL]. done.
    + eapply scheduled_attempt_kept; [exact Hl| |exact HL|exact Ha| | |exact Hnew| |exact HA| |exact HD]; done.
Qed.

Lemma process_kept_tasks e w w' d :
  db_inv (w_db w) → process pow policy e w = (w', Ok d) → tasks_kept (w_db w) (w_db w').
Proof.
  intros Hinv Hrun.
  destruct (process_Ok_inv pow policy e w w' d Hinv Hrun) as (_ & ex & n & w1 & s & _ & _ & Hr & Hrest).
  apply record_attempt_kept_tasks in Hr. destruct s; [by destruct Hrest as [-> _]|]. etrans; [exact Hr|].
  destruct (keeps_run _ _ _ _ _ (apply_completion_tasks _ _ _ _) Hrest) as (_ & HL & HA & HD & _).
  by apply tasks_same_kept.
Qed.

(** No node starts to run. *)
Lemma process_no_new_running e w w' d x i :
  db_inv (w_db w) → process pow policy e w = (w', Ok d) →
  row_status (w_db w') x i = Some NRunning → row_status (w_db w) x i = Some NRunning.
Proof.
  intros Hinv Hrun. destruct (decide (tc_outcome d = TPROCESSED)) as [Ho|Ho].
  2:{ destruct (unprocessed_core pow policy e w w' d Hinv Hrun Ho) as [(_ & _ & HN & _) _].
      unfold row_status. by rewrite HN. }
  unfold row_status. destruct (ev_status e) eqn:Hst.
  - destruct (success_effect pow policy e w w' d Hinv Hst Hrun Ho) as (_ & _ & n & t & _ & _ & _ & HN & _).
    rewrite HN, lookup_insert. by case_decide.
  - destruct (failure_writes pow policy e w w' d Hinv Hst Hrun Ho) as (ex & n & t & _ & blocked & r & t' & w3 & f &
      _ & _ & _ & _ & _ & _ & _ & _ & HN & _ & Hf & _).
    destruct (keeps_run _ _ _ _ _ (finalization_nodes _ _ _) Hf) as [_ HN']. rewrite HN', HN, lookup_update_where.
    rewrite lookup_insert. case_decide; simpl.
    + destruct (pending_among _ _ _ _); [done|]. rewrite completed_row_status, Hst. done.
    + destruct (node_executions (w_db w) !! (x, i)) as [m|]; [|done]. simpl. by destruct (pending_among _ _ _ _).
Qed.
End completions.

(** ** Publication *)

Section publications.
Context `{Env} `{Json}.

Lemma task_target r : ob_target_stream r = WORKFLOW_TASKS_STREAM → target_of r = WORKFLOW_TASKS_STREAM.
Proof. unfold target_of. by intros ->. Qed.

(** A task row reaches the stream with its fields. *)
Lemma task_row_fields r m f :
  ob_target_stream r = WORKFLOW_TASKS_STREAM → ob_payload r = task_payload m → _stream_fields r = Ok f →
  task_fields m f.
Proof.
  intros Ht Hp. unfold _stream_fields. rewrite (task_target r Ht), Hp.
  change (String.eqb WORKFLOW_TASKS_STREAM WORKFLOW_EVENTS_STREAM) with false. cbv iota.
  intros (items & Hi & Hf)%bind_Ok_inv. injection Hf as <-. unfold task_payload, obj in Hi. simpl in Hi.
  destruct (dumps (PInt (tm_attempt_number m))) as [n|]; [|done]. simpl in Hi.
  destruct (dumps (PDict (tm_handler_config m))) as [c|]; [|done]. simpl in Hi.
  destruct (dumps (PDict (tm_resolved_input m))) as [i|]; [|done]. simpl in Hi. injection Hi as <-.
  repeat split.
Qed.

(** What is on its way when a process has sent a message, or knows that a
    retry is due. *)
Definition due_attempt (d : Db) (r : DueRetryTask) : Prop :=
  ∃ b, task_attempts d !! dr_attempt_id r = Some b ∧ at_task_id b = dr_task_id r.

Definition carried_work (w : World) (k : work) : Prop :=
  match k with
  | Shipped row => ∃ f, _stream_fields row = Ok f ∧ (target_of row, f) ∈ w_streams w
  | Due r => due_attempt (w_db w) r
  | Resent r => due_attempt (w_db w) r ∧
      ∃ f, message_to_stream_fields (retry_message r) = Ok f ∧ (WORKFLOW_TASKS_STREAM, f) ∈ w_streams w
  | Ready _ _ | Loaded _ _ => True
  end.

Lemma carried_work_kept w w' k : durable_step w w' → carried_work w k → carried_work w' k.
Proof.
  intros Hs. destruct (ds_streams _ _ Hs) as [msgs Hstr].
  assert (Hd : ∀ r, due_attempt (w_db w) r → due_attempt (w_db w') r).
  { intros r (b & Hb & Ht). destruct (ds_attempt _ _ Hs _ _ Hb) as (b' & Hb' & Ht' & _). exists b'. split; [done|].
    congruence. }
  destruct k; simpl; rewrite ?Hstr; auto.
  - intros (f & Hf & Hin). exists f. rewrite elem_of_app. auto.
  - intros [Hr (f & Hf & Hin)]. split; [auto|]. exists f. rewrite elem_of_app. auto.
Qed.

(** The rows a commit has changed were sent, or are still pending. *)
Definition outbox_sent (w : World) (d' : Db) : Prop :=
  ∀ k r, outbox_events (w_db w) !! k = Some r → ob_status r = OPending →
    ∃ r', outbox_events d' !! k = Some r' ∧
      (ob_status r' = OPending ∧ ob_target_stream r' = ob_target_stream r ∧ ob_payload r' = ob_payload r ∨
       carried_work w (Shipped r)).

Lemma marked_sent rows d d' k r :
  marked rows d d' → outbox_events d' !! k = Some r →
  outbox_events d !! k = Some r ∨ ∃ row t, row ∈ rows ∧ ob_event_id row = k ∧ r = row_published t row.
Proof.
  induction 1 as [d|row t rows d d' _ IH]; [by left|]. intros [Hr|(row' & t' & Hin & Hrest)]%IH.
  - simpl in Hr. rewrite lookup_insert in Hr. case_decide; [|by left]. injection Hr as <-. right. exists row, t.
    split; [set_solver|done].
  - right. exists row', t'. split; [set_solver|done].
Qed.

Lemma marked_kept rows d d' k : marked rows d d' → is_Some (outbox_events d !! k) → is_Some (outbox_events d' !! k).
Proof. induction 1 as [d|row t rows d d' _ IH]; [done|]. intros Hk. apply IH. simpl. rewrite lookup_insert. by case_decide. Qed.

(** A commit of the publisher. *)
Lemma commit_sent rows d w :
  outbox_keys (w_db w) → marked rows (w_db w) d →
  (∀ row, row ∈ rows → carried_work w (Shipped row) ∧ ∃ k, outbox_events (w_db w) !! k = Some row) →
  outbox_keys d ∧ outbox_sent w d.
Proof.
  intros Hk Hm Hrows. split.
  - intros k r [Hr|(row & t & _ & Hid & ->)]%(marked_sent _ _ _ _ _ Hm); [by apply Hk|done].
  - intros k r Hr Hp. destruct (marked_kept _ _ _ k Hm) as [r' Hr']; [by eexists|]. exists r'. split; [done|].
    destruct (marked_sent _ _ _ _ _ Hm Hr') as [Hold|(row & t & Hin & Hid & ->)]; [left; naive_solver|right].
    destruct (Hrows row Hin) as [Hc [j Hj]]. rewrite (Hk _ _ Hj) in Hid. subst j. by simplify_eq.
Qed.

Lemma failed_sent d k row m w :
  outbox_keys (w_db w) → outbox_keys d ∧ outbox_sent w d → outbox_events (w_db w) !! k = Some row →
  ob_status row = OPending →
  let d' := set_outbox_row (ob_event_id row) (row_failed m row) d in outbox_keys d' ∧ outbox_sent w d'.
Proof.
  intros Hk [Hkd Hs] Hrow Hp d'. split.
  - intros j r. simpl. rewrite lookup_insert. case_decide; [by intros [= <-]|apply Hkd].
  - intros j r Hr Hpr. simpl. rewrite lookup_insert. case_decide as Hj; [|by apply Hs].
    rewrite (Hk _ _ Hrow) in Hj. subst j. simplify_eq. eexists. split; [done|]. by left.
Qed.

Lemma commit_durable w d :
  keyed (w_db w) → same_nodes (w_db w) d → outbox_keys d ∧ outbox_sent w d → durable_step w (set_db d w).
Proof.
  intros [Hkt Hko] [(_ & HL & HA & HD & _) HN] [Hkd Hs].
  destruct (tasks_same_kept (w_db w) d HL HA HD) as [Tk Tl Ta Tn Ts]. split; auto.
  - exists []. by rewrite app_nil_r.
  - split; [by apply Tk|done].
  - intros m [(k & r & Hr & Hp & Ht & Hpay)|Hf]; [|by right].
    destruct (Hs k r Hr Hp) as (r' & Hr' & [(Hp' & Ht' & Hpay')|(f & Hf & Hin)]).
    + left. exists k, r'. simpl. repeat split; congruence.
    + right. exists f. rewrite (task_target r Ht) in Hin. split; [done|]. by eapply task_row_fields.
  - intros x i. unfold row_status. simpl. rewrite HN. auto.
  - intros a b Hb. destruct (Tn a); [by eexists|by left|right; by left].
  - intros a b _ Hsa. left. by apply Ts.
Qed.
End publications.

(** ** Retries *)

Section retries_sent.
Context `{WorkflowSchema} `{Env} `{Json} `{Pydantic} `{Host}.

Lemma message_task_fields m f :
  tm_message_id m = None → message_to_stream_fields m = Ok f → task_fields m f.
Proof.
  intros Hid. unfold message_to_stream_fields. rewrite Hid.
  intros (c & _ & (i & _ & Hf)%bind_Ok_inv)%bind_Ok_inv. injection Hf as <-. repeat split.
Qed.

Lemma due_retry_task t d r :
  tasks_keyed d → r ∈ due_retries t d →
  due_attempt d r.
Proof.
  intros [Ka Kl] (b & (k & Hb & _)%elem_of_rows_where & Hr)%list_elem_of_omap.
  unfold due_retry in Hr. destruct (task_retry_dispatches d !! at_attempt_id b); [|done]. simpl in Hr.
  destruct (logical_tasks d !! at_task_id b) as [l|] eqn:Hl; [|done]. simpl in Hr. case_decide; [|done].
  injection Hr as <-. exists b. simpl. rewrite (Ka k b Hb). split; [done|]. symmetry. by apply Kl.
Qed.

(** Attempt [k] is queued, and its retry is no longer pending. *)
Definition requeued (k : UUID) (d d' : Db) : Prop :=
  outbox_events d' = outbox_events d ∧ logical_tasks d' = logical_tasks d ∧
  node_executions d' = node_executions d ∧
  (∀ j, j ≠ k → task_retry_dispatches d' !! j = task_retry_dispatches d !! j) ∧
  (task_attempts d' = task_attempts d ∨
   ∃ b, task_attempts d !! k = Some b ∧ task_attempts d' = <[k := attempt_queued b]> (task_attempts d)).

Lemma requeue_effect k t w :
  let w' := (transaction (mark_retry_published k t) w).1 in
  w_streams w' = w_streams w ∧ requeued k (w_db w) (w_db w').
Proof.
  cbv zeta. set (d := w_db w). assert (Hd : requeued k d d) by (repeat split; by left).
  unfold transaction, mark_retry_published, set_attempt_row, get_db, put_db. run_io. fold d.
  destruct (task_retry_dispatches d !! k) as [r|]; [|done]. case_decide; [|done]. simpl.
  destruct (task_attempts d !! k) as [b|] eqn:Hb; [case_decide|]; repeat split; simpl; try (by left);
    try (intros j Hj; by rewrite lookup_insert_ne). right. by exists b.
Qed.

Lemma requeued_attempt k d d' j b :
  requeued k d d' → task_attempts d !! j = Some b → ∃ b', task_attempts d' !! j = Some b' ∧ same_task b b' ∧
    at_attempt_id b' = at_attempt_id b.
Proof.
  intros (_ & _ & _ & _ & [->|(b0 & Hb0 & ->)]) Hb; [by exists b|]. rewrite lookup_insert.
  case_decide; [|by exists b]. subst. simplify_eq. by eexists.
Qed.

Lemma requeued_attempt_inv k d d' j b' :
  requeued k d d' → task_attempts d' !! j = Some b' → is_Some (task_attempts d !! j).
Proof.
  intros (_ & _ & _ & _ & [->|(b0 & Hb0 & ->)]) Hb; [by eexists|]. rewrite lookup_insert in Hb.
  case_decide; [subst|]; by eexists.
Qed.

(** The retry is marked after its message was sent. *)
Lemma requeue_durable r t w :
  keyed (w_db w) → carried_work w (Resent r) →
  durable_step w (transaction (mark_retry_published (dr_attempt_id r) t) w).1.
Proof.
  intros [[Ka Kl] Hko] [(b & Hb & Htask) (f & Hf & Hin)]. pose proof (requeue_effect (dr_attempt_id r) t w) as Hq.
  revert Hq. generalize (transaction (mark_retry_published (dr_attempt_id r) t) w).1. intros w' [Hs Hq].
  pose proof Hq as (HO & HL & HN & HD & _). split.
  - exists []. by rewrite app_nil_r.
  - split; [|unfold outbox_keys; by rewrite HO]. split; [|by rewrite HL].
    intros k b' Hb'. destruct (requeued_attempt_inv _ _ _ _ _ Hq Hb') as [c Hc].
    destruct (requeued_attempt _ _ _ _ _ Hq Hc) as (c' & Hc' & _ & Hid). simplify_eq. rewrite Hid. by apply Ka.
  - intros m. apply sent_grows; [done|by apply outbox_same_kept|exists []; by rewrite app_nil_r].
  - by rewrite HL.
  - intros a c Hc. destruct (requeued_attempt _ _ _ _ _ Hq Hc) as (c' & ? & ? & _). eauto.
  - intros x i. unfold row_status. rewrite HN. auto.
  - intros a c Hc. left. by eapply requeued_attempt_inv.
  - intros a c Hc (rd & Hrd & Hp). destruct (decide (a = dr_attempt_id r)) as [->|Hne].
    2:{ left. exists rd. by rewrite HD. }
    right. exists (retry_message r). destruct (requeued_attempt _ _ _ _ _ Hq Hb) as (c' & Hc' & [Ht _] & _).
    simplify_eq. split; [done|]. split; [simpl; congruence|]. right. exists f. rewrite Hs.
    split; [done|by apply message_task_fields].
Qed.
End retries_sent.

(** ** Dispatch *)

Section dispatching.
Context `{WorkflowSchema} `{Env} `{Json} `{Pydantic} `{Host}.
Variables (float_str : spec_float → string) (repr : string → string).

(** The first message of a dispatched node. *)
Lemma claimed_task e node w w' :
  claimed float_str repr e node (w_db w) (w_db w') →
  node_task w' (we_execution_id e) (wn_id node) ∧
  (tasks_keyed (w_db w) → tasks_keyed (w_db w')) ∧
  (∀ t, is_Some (logical_tasks (w_db w) !! t) → is_Some (logical_tasks (w_db w') !! t)) ∧
  (∀ a b, task_attempts (w_db w) !! a = Some b → task_attempts (w_db w') !! a = Some b) ∧
  (∀ a b, task_attempts (w_db w') !! a = Some b → is_Some (task_attempts (w_db w) !! a) ∨ attempt_carried w' a b).
Proof.
  intros [_ (input & _ & a & s & m & mid & row & HL & (b & Hb & Hfirst) & HA & Hm & _ & _ & HO & Hp & Ht & Hpay) _].
  assert (m = dispatched_message (we_execution_id e) node (create_task_id (we_execution_id e) (wn_id node)) a input) as ->
    by (unfold NodeTaskMessage_init in Hm; destruct (valid_task_message _); congruence).
  match type of Hpay with _ = task_payload ?m0 => assert (Hsent : task_sent w' m0) end.
  { left. exists mid, row. by rewrite HO, lookup_insert, decide_True. }
  set (tid := create_task_id (we_execution_id e) (wn_id node)) in *.
  assert (HLk : ∀ t, is_Some (logical_tasks (w_db w) !! t) → is_Some (logical_tasks (w_db w') !! t)).
  { rewrite HL. destruct (has tid _); [done|]. apply insert_kept. }
  split; [|split; [|split; [done|split]]].
  - split; [|eexists a, b, (dispatched_message _ node tid a input); by auto 10].
    rewrite HL. fold tid. destruct (has tid (logical_tasks (w_db w))) eqn:Hh; [by apply has_true|].
    by rewrite lookup_insert, decide_True.
  - intros [Ka Kl]. split.
    + destruct HA as [->|[_ ->]]; [done|]. intros k c. rewrite lookup_insert. case_decide; [|apply Ka]. by intros [= <-].
    + rewrite HL. destruct (has tid _); [done|]. intros k c. rewrite lookup_insert. case_decide; [|apply Kl].
      by intros [= <-].
  - intros k c Hc. destruct HA as [->|[Hnew ->]]; [done|]. rewrite lookup_insert_ne; [done|congruence].
  - intros k c Hc. destruct HA as [HA|[Hnew HA]]; rewrite HA in Hc; [left; by eexists|].
    rewrite lookup_insert in Hc. case_decide as Hk; [|left; by eexists]. injection Hc as <-. subst k.
    right. right. eexists (dispatched_message _ node tid a input). by auto.
Qed.

Lemma dispatch_durable e node w : keyed (w_db w) → durable_step w (dispatch float_str repr e node w).1.
Proof.
  intros Hd. pose proof Hd as [Hkt Hko].
  assert (Hout : outbox_kept (w_db w) (w_db (dispatch float_str repr e node w).1)).
  { pose proof (dispatch_kept default_policy outbox_kept float_str repr e node w) as Hk. exact Hk. }
  destruct (dispatch_speaks (λ _, True) float_str repr e node w) as (msgs & Hs & _).
  destruct (dispatch float_str repr e node w) as [w' [res|exc]] eqn:Hrun; cbn [fst] in *.
  2:{ apply dispatch_Raise in Hrun. apply (quiet_step w); [done| |done|eauto|by rewrite Hrun]. by rewrite Hrun. }
  apply dispatch_inv in Hrun as (_ & _ & c & Hbody & _). pose proof Hbody as Hb.
  apply dispatch_body_Ok in Hb as [Hex Hb]. destruct c as [[|]|].
  - destruct Hb as [_ Hcl]. destruct (claimed_task e node w w' Hcl) as (Hnt & Hk & Hl & Ha & Hn).
    destruct Hcl as [(n & t & _ & _ & HN) _ (_ & _ & HD & _)].
    split; eauto.
    + split; [by apply Hk|by apply Hout].
    + intros m. apply sent_grows; [done|done|by exists msgs].
    + intros a b Hab. exists b. split; [by apply Ha|done].
    + intros x i. unfold row_status. rewrite HN, lookup_insert. case_decide as Hxi; [|by left].
      injection Hxi as <- <-. by right.
    + intros a b _ Hsa. left. unfold scheduled. by rewrite HD.
  - destruct Hb as (_ & Hdb & _). apply (quiet_step w); [done| |done|eauto|by rewrite Hdb]. by rewrite Hdb.
  - destruct (dispatch_body_failed_dependency float_str repr e node w Hex Hb) as (w1 & t & r & Hrun & Hdb).
    assert (w1 = w') as -> by congruence. apply (quiet_step w); [done|rewrite Hdb; by apply tasks_same_kept|done|eauto|].
    intros x i. unfold row_status. rewrite Hdb. simpl. rewrite lookup_update_where.
    destruct (node_executions (w_db w) !! (x, i)) as [n|]; [|done]. simpl. by destruct (pending_among _ _ _ _).
Qed.
End dispatching.

(** ** Every step *)

Section reachable.
Context `{WorkflowSchemaLaws} `{EnvLaws} `{JsonLaws} `{Pydantic} `{Host}.
Variables (float_str : spec_float → string) (repr : string → string).
Variable pow : spec_float → Z → py spec_float.
Variable policy : RetryPolicy.
Variables (py_str : pyobj → string) (it : bool).
#[local] Abbreviation sys_step := (step float_str repr pow policy py_str it).

(** An operation of the services that leaves the task tables alone. *)
Lemma durable_operation {A} (m : IO A) P w :
  keyed (w_db w) → keeps outbox_kept m → speaks P m → tasks_kept (w_db w) (w_db (m w).1) →
  (∀ x i, row_status (w_db (m w).1) x i = Some NRunning → row_status (w_db w) x i = Some NRunning) →
  durable_step w (m w).1.
Proof.
  intros Hd Hout Hsp Ht Hr. apply (quiet_step w); [done|done|apply Hout| |done].
  destruct (Hsp w) as (msgs & Hs & _). by exists msgs.
Qed.

Lemma durable_same w w' :
  w_db w' = w_db w → (∃ msgs, w_streams w' = w_streams w ++ msgs) → keyed (w_db w) → durable_step w w'.
Proof. intros Hdb Hs Hd. apply (quiet_step w); [done|..]; rewrite ?Hdb; done. Qed.

Lemma durable_idle w w' : w_db w' = w_db w → w_streams w' = w_streams w → keyed (w_db w) → durable_step w w'.
Proof. intros Hd Hs. apply durable_same; [done|]. exists []. by rewrite Hs, app_nil_r. Qed.

Lemma durable_quiet {A} (m : IO A) P w w' r :
  quiet m → speaks P m → m w = (w', r) → keyed (w_db w) → durable_step w w'.
Proof.
  intros Hq Hsp Hrun. specialize (Hq w). destruct (Hsp w) as (msgs & Hs & _). rewrite Hrun in Hq, Hs.
  apply durable_same; [done|by exists msgs].
Qed.

Lemma submit_durable p w : keyed (w_db w) → durable_step w (submit (default_rules py_str it) p w).1.
Proof.
  intros Hd. apply (durable_operation _ not_event);
    [done|apply (submit_kept policy _)|apply submit_speaks|..];
    destruct (submit _ p w) as [w' [s|exc]] eqn:Hrun; cbn [fst]; try (apply submit_rollback in Hrun; by rewrite Hrun);
    apply submit_effect in Hrun as (_ & wf & e & _ & _ & _ & _ & Hnew & _ & _ & (HO & HL & HA & HD & _) & Hold & Hnodes & _).
  - by apply tasks_same_kept.
  - intros x i. unfold row_status. destruct (decide (x = we_execution_id e ∧ i ∈ node_ids wf)) as [[-> Hi]|Hne].
    + destruct (Hnodes i Hi) as (n & -> & Hn). simpl. by rewrite Hn.
    + rewrite Hold; [done|]. simpl. destruct (decide (x = we_execution_id e)); [right|left]; naive_solver.
Qed.

Lemma trigger_durable x i w : keyed (w_db w) → durable_step w (trigger x i w).1.
Proof.
  intros Hd. assert (Hf : same_nodes (w_db w) (w_db (trigger x i w).1)).
  { assert (keeps same_nodes (trigger_body x i)).
    { apply trigger_body_composed; [typeclasses eauto|..]; intros; [apply execution_update_nodes|apply add_message_nodes]. }
    unfold trigger. apply keeps_bind; eauto using keeps_transaction with keeps typeclass_instances. }
  destruct Hf as [(_ & HL & HA & HD & _) HN]. apply (durable_operation _ not_event);
    [done|apply (trigger_kept policy _)|apply trigger_speaks|by apply tasks_same_kept|].
  intros y j. unfold row_status. by rewrite HN.
Qed.

Lemma cleanup_durable r b w : keyed (w_db w) → durable_step w (cleanup_published r b w).1.
Proof.
  intros Hd. assert (Hf : keeps same_nodes (cleanup_published r b)) by (unfold cleanup_published; framed).
  destruct (Hf w) as [(_ & HL & HA & HD & _) HN]. apply (durable_operation _ not_event);
    [done|apply cleanup_kept|apply cleanup_speaks|by apply tasks_same_kept|].
  intros y j. unfold row_status. by rewrite HN.
Qed.

(** A transaction of a worker. *)
Lemma worker_durable {A} (m : IO A) w :
  keyed (w_db w) → keeps outbox_kept m → keeps tasks_kept m → keeps same_flow m → speaks not_event m →
  durable_step w (transaction m w).1.
Proof.
  intros Hd Ho Ht Hf Hsp.
  apply (durable_operation _ not_event); [done|by apply keeps_transaction, Ho; typeclasses eauto|by apply speaks_transaction|..].
  - apply keeps_transaction; [typeclasses eauto|done].
  - destruct (keeps_transaction same_flow m Hf w) as (_ & _ & HN). intros y j. unfold row_status. by rewrite HN.
Qed.

Lemma complete_durable e w w' r :
  db_inv (w_db w) → process pow policy e w = (w', r) → keyed (w_db w) → durable_step w w'.
Proof.
  intros Hinv Hrun Hd. destruct (process_speaks not_event pow policy e w) as (msgs & Hs & _).
  rewrite Hrun in Hs. cbn [fst] in Hs. destruct r as [d|exc].
  2:{ apply (durable_same w); [by eapply process_Raise|by exists msgs|done]. }
  apply (quiet_step w); [done|by eapply process_kept_tasks| |by exists msgs|].
  - pose proof (process_kept policy outbox_kept pow e w) as Hk. by rewrite Hrun in Hk.
  - intros x i. by eapply process_no_new_running.
Qed.

Record system_durable (s : system) : Prop := {
  sd_world : durable (sys_world s);
  sd_agenda k : k ∈ sys_agenda s → carried_work (sys_world s) k;
}.

Lemma durable_steps w w' a a' :
  system_durable (System w a) → durable_step w w' → (∀ k, k ∈ a' → k ∈ a ∨ carried_work w' k) →
  system_durable (System w' a').
Proof.
  intros [Hd Ha] Hs Hnew. split; simpl in *; [by eapply durable_after|].
  intros k Hk. destruct (Hnew k Hk); [|done]. eapply carried_work_kept; eauto.
Qed.

Lemma durable_keeps w w' a : system_durable (System w a) → durable_step w w' → system_durable (System w' a).
Proof. intros Hsd Hs. by apply (durable_steps w w' a); [..|left]. Qed.

(** Decisions on nodes carry nothing. *)
Lemma durable_decides w w' a new :
  system_durable (System w a) → durable_step w w' → (∀ k, k ∈ new → carried_work w' k) →
  system_durable (System w' (a ++ new)).
Proof. intros Hsd Hs Hnew. apply (durable_steps w w' a); [done..|]. intros k [?|?]%elem_of_app; auto. Qed.

(** A message that was sent. *)
Lemma durable_sends s f w w' a k :
  system_durable (System w a) → publish s f w = (w', Ok tt) →
  (w_db w' = w_db w → (s, f) ∈ w_streams w' → carried_work w' k) → system_durable (System w' (a ++ [k])).
Proof.
  intros Hsd. unfold publish. destruct (redis_failure _); [done|]. intros Hrun Hk. apply (f_equal fst) in Hrun.
  simpl in Hrun. subst w'. apply (durable_decides w); [done|apply durable_same; [done|by eexists|apply Hsd]|].
  intros j ->%list_elem_of_singleton. apply Hk; [done|]. simpl. set_solver.
Qed.

Lemma shipped_sent (rows : list OutboxEventRecord) w a :
  system_durable (System w a) →
  (∀ row, row ∈ rows → Shipped row ∈ a ∧ ∃ k, outbox_events (w_db w) !! k = Some row) →
  ∀ row, row ∈ rows → carried_work w (Shipped row) ∧ ∃ k, outbox_events (w_db w) !! k = Some row.
Proof. intros Hsd Hrows row Hrow. destruct (Hrows row Hrow) as [Hs ?]. split; [|done]. by apply (sd_agenda _ Hsd). Qed.

Lemma marked_nodes rows d d' : marked rows d d' → same_nodes d d'.
Proof. induction 1 as [d|row t rows d d' _ IH]; [done|]. etrans; [|exact IH]. done. Qed.

Lemma step_durable s s' : sys_step s s' → system_inv s → system_durable s → system_durable s'.
Proof.
  pose proof outbox_kept_worker as Hwork.
  destruct 1 as [p w a|x i w a|k row f w w' a Hk Hp Hf Hrun|rows d w a Hrows Hm|rows d k row m w a Hrows Hm Hk Hp
    |r b w a|t w w' due a Hrun|r f w w' a Hr Hf Hrun|r t w a Hr|at_ tk x i wk t1 t2 w a _|at_ wk t w a _
    |at_ e v m ty w a|at_ t w a|s f w a Hs|f x w w' r a Hf Hx Hrun|e w w' d a Hrun|e w w' exc a Hrun
    |x ids w w' e nodes a Hids Hrun|e node w a Hk|w a a' Ha|w w' a Hd Hs]; intros Hinv Hsd;
    pose proof (du_keyed _ (sd_world _ Hsd)) as Hkey; simpl in Hkey.
  - by apply (durable_keeps w), submit_durable.
  - by apply (durable_keeps w), trigger_durable.
  - apply (durable_sends (target_of row) f w); [done..|]. intros _ Hin. by exists f.
  - apply (durable_keeps w); [done|]. apply commit_durable; [done|by eapply marked_nodes|]. eapply commit_sent; [apply Hkey|exact Hm|by eapply shipped_sent].
  - apply (durable_keeps w); [done|]. apply commit_durable; [done|etrans; [by eapply marked_nodes|done]|].
    eapply failed_sent; [apply Hkey| |exact Hk|done]. eapply commit_sent; [apply Hkey|exact Hm|by eapply shipped_sent].
  - by apply (durable_keeps w), cleanup_durable.
  - apply transaction_Ok_inv in Hrun. injection Hrun as <- <-. apply (durable_decides w); [done|by apply durable_idle|].
    intros j (q & -> & Hq)%list_elem_of_fmap. eapply due_retry_task; [apply Hkey|exact Hq].
  - apply (durable_sends WORKFLOW_TASKS_STREAM f w); [done..|]. intros Hdb Hin.
    split; [rewrite Hdb; by apply (sd_agenda _ Hsd (Due r))|by exists f].
  - apply (durable_keeps w); [done|]. apply requeue_durable; [done|by apply (sd_agenda _ Hsd)].
  - apply (durable_keeps w); [done|]. apply worker_durable; [done|apply wp_claim_attempt..|apply claim_speaks].
  - apply (durable_keeps w); [done|]. apply worker_durable; [done|apply wp_renew..|apply renew_speaks].
  - apply (durable_keeps w); [done|]. apply worker_durable; [done|apply wp_record_result..|apply record_speaks].
  - apply (durable_keeps w); [done|]. apply worker_durable; [done|apply wp_mark_completed..|apply finish_speaks].
  - apply (durable_keeps w); [done|]. destruct (publish s f w) as [w' r] eqn:Hrun.
    by eapply (durable_quiet (publish s f) (λ _, True)); [apply quiet_publish|by apply speaks_publish|..].
  - apply (durable_decides w); [done| |by intros j (? & -> & _)%list_elem_of_fmap].
    eapply (durable_quiet (readiness_evaluate x) not_event); [apply readiness_quiet|apply readiness_speaks|done..].
  - apply (durable_decides w); [done| |by intros j (? & -> & _)%list_elem_of_fmap].
    eapply complete_durable; [apply (si_db _ Hinv)|done|done].
  - apply (durable_keeps w); [done|]. eapply complete_durable; [apply (si_db _ Hinv)|done|done].
  - apply (durable_decides w); [done| |by intros j (? & -> & _)%list_elem_of_fmap].
    eapply (durable_quiet (transaction (load_ready_nodes x ids)) not_event); [| |done|done].
    + apply quiet_transaction, load_ready_nodes_quiet.
    + apply speaks_transaction, load_ready_speaks.
  - by apply (durable_keeps w), dispatch_durable.
  - apply (durable_steps w w a); [done|by apply durable_idle|]. intros k Hk. left. by apply Ha.
  - apply (durable_keeps w); [done|]. by apply durable_idle.
Qed.

Lemma initial_durable s : initial_system s → system_durable s.
Proof.
  destruct s as [w a]. intros (Hd & Hs & Ha). simpl in *. split; [split|]; simpl; rewrite ?Hd, ?Ha.
  - split; [split|]; intros k b; simpl; by rewrite lookup_empty.
  - intros x i. unfold row_status. simpl. by rewrite lookup_empty.
  - intros k b. simpl. by rewrite lookup_empty.
  - by intros k ?%elem_of_nil.
Qed.

Lemma steps_durable s s' : rtc sys_step s s' → system_inv s → system_durable s → system_durable s'.
Proof.
  induction 1 as [s|s s1 s' Hs _ IH]; intros Hi Hd; [done|]. apply IH; [by eapply step_good|].
  by apply (step_durable s s1).
Qed.

(** C3: no task is lost.  In every reachable state, whatever order the
    transactions, the publications, the clean-ups, the Redis errors and the
    exceptions came in: a node that is running has its logical task, its first
    attempt, and a task message for it that waits in the outbox or is on the
    task stream; and every attempt of every task has such a message, or is
    scheduled for a retry that has not been published. *)
Theorem no_task_is_lost s :
  reachable float_str repr pow policy py_str it s →
  let w := sys_world s in
  (∀ x i, row_status (w_db w) x i = Some NRunning → node_task w x i) ∧
  (∀ a b, task_attempts (w_db w) !! a = Some b → attempt_carried w a b).
Proof.
  intros (s0 & Hini & Hr) w. assert (Hd : system_durable s) by (eapply steps_durable; eauto using initial_inv, initial_durable).
  split; apply Hd.
Qed.
End reachable.
