(* ===== verification/WorkerSpec.v ===== *)
(** * The worker, branch by branch

    What a claim answers, what the worker stores, and that a message is
    acknowledged last.  What other processes do to the attempt between two
    deliveries is the subject of [Leases]. *)

From Stdlib Require Import SpecFloat.
From S2P Require Import Prelude Numerals PyVal States Errors Domain Json Messages Store.
From S2P Require Import Repositories TaskRepositories Services Completion Redis Barriers Worker TriggerSpec.
From S2P Require Import CompletionSpec.

(** ** Claims *)

(** The attempt belongs to the task, execution and node of a message. *)
Definition belongs (d : Db) (attempt_id : UUID) (task_id : string) (x : UUID) (i : string)
    (a : TaskAttemptRecord) : Prop :=
  task_attempts d !! attempt_id = Some a ∧ at_task_id a = task_id ∧
  ∃ l, logical_tasks d !! task_id = Some l ∧ lt_execution_id l = x ∧ lt_node_id l = i.

(** What [claim_attempt] answers for an attempt. *)
Definition claim_answer (a : TaskAttemptRecord) (t : datetime) : TaskClaimOutcome :=
  match at_status a with
  | ACompleted => ALREADY_COMPLETED
  | AResultRecorded => RESULT_RECORDED
  | _ => if bool_decide (is_Some (at_claimed_by a)) && negb (lease_expired (at_claim_expires_at a) t)
         then CURRENTLY_CLAIMED else CLAIMED
  end.

Lemma claim_attempt_run aid tid x i wk t t' a w :
  belongs (w_db w) aid tid x i a → (String.length wk <=? 255) = true →
  claim_attempt aid tid x i wk t t' w =
    (match claim_answer a t with
     | CLAIMED => set_db (set_attempts (<[aid := attempt_claimed wk t t' a]> (task_attempts (w_db w)))
                    (w_db w)) w
     | _ => w
     end, Ok (claim_answer a t)).
Proof.
  intros (Ha & Ht & l & Hl & Hx & Hi) Hwk. unfold claim_attempt, set_attempt_row. run_io.
  rewrite Ha, Hl, bool_decide_eq_true_2 by done. rewrite Hwk. unfold claim_answer.
  destruct (at_status a); try done; by destruct (bool_decide _ && _).
Qed.

Lemma claim_attempt_Ok aid tid x i wk t t' w w' o :
  claim_attempt aid tid x i wk t t' w = (w', Ok o) →
  ∃ a, belongs (w_db w) aid tid x i a ∧ o = claim_answer a t ∧
    w' = match o with
         | CLAIMED => set_db (set_attempts (<[aid := attempt_claimed wk t t' a]> (task_attempts (w_db w)))
                        (w_db w)) w
         | _ => w
         end.
Proof.
  unfold claim_attempt, set_attempt_row. run_io.
  destruct (task_attempts (w_db w) !! aid) as [a|] eqn:Ha; [|done].
  destruct (logical_tasks (w_db w) !! tid) as [l|] eqn:Hl; [|done].
  destruct (bool_decide _) eqn:Hb; [|done]. apply bool_decide_eq_true in Hb as (Ht & Hx & Hi).
  intros Hrun. exists a. split; [split; [done|]; eauto|]. unfold claim_answer.
  destruct (at_status a); try (by injection Hrun as <- <-);
    destruct (bool_decide _ && _); try (by injection Hrun as <- <-);
    destruct (String.length wk <=? 255); try done; by injection Hrun as <- <-.
Qed.

Create HintDb silent.

(** ** Results survive a crash *)

Section results.
Context `{Env} `{Json} `{Pydantic} `{Host}.
Variable lease : spec_float.

(** An event carries the identity of its task and is a success or a failure. *)
Definition event_of (task : NodeTaskMessage) (e : TaskCompletionEvent) : Prop :=
  ∃ i, (∃ output, e = completed_event i task output) ∨ (∃ m ty, e = failed_event i task m ty).

Lemma handler_event_of task w w' e : handler_event task w = (w', Ok e) → event_of task e.
Proof.
  unfold handler_event, _failure_event, event_of. intros (w1 & [output|exc] & _ & Hrun)%io_bind_Ok; revert Hrun.
  - destruct (negb _); run_io; intros [= _ <-]; eexists; [right|left]; eauto.
  - run_io. intros [= _ <-]. eexists. right. eauto.
Qed.

Lemma record_result_effect aid ev v m ty w w' :
  attempt_record_result aid ev v m ty w = (w', Ok tt) →
  ∃ a, task_attempts (w_db w) !! aid = Some a ∧ at_status a = AClaimed ∧
    w_db w' = set_attempts (<[aid := attempt_recorded ev v m ty a]> (task_attempts (w_db w))) (w_db w).
Proof.
  unfold attempt_record_result, set_attempt_row. run_io.
  destruct (task_attempts (w_db w) !! aid) as [a|]; [|done].
  destruct (decide (at_status a = AClaimed)); [|done]. intros Hrun. exists a. split; [done|]. split; [done|].
  destruct ty as [ty|]; simpl in Hrun; [destruct (String.length ty <=? 255); [|done]|]; by injection Hrun as <-.
Qed.

(** The stored result of an attempt is the event. *)
Definition stores (e : TaskCompletionEvent) (a : TaskAttemptRecord) : Prop :=
  at_completion_event_id a = Some (ev_event_id e) ∧ at_result_data a = ev_output_data e ∧
  at_error_message a = ev_error_message e ∧ at_error_type a = ev_error_type e.

Lemma execute_and_record_effect wk k task w w' e :
  _execute_and_record wk lease k task w = (w', Ok e) →
  event_of task e ∧ ∃ a, task_attempts (w_db w') !! tm_attempt_id task = Some a ∧
    at_status a = AResultRecorded ∧ stores e a.
Proof.
  unfold _execute_and_record. intros (w1 & r & _ & Hrun)%io_bind_Ok.
  apply io_bind_Ok in Hrun as (w2 & e' & He%handler_event_of & Hrun).
  apply io_bind_Ok in Hrun as (w3 & [] & _ & Hrun).
  apply io_bind_Ok in Hrun as (w4 & [] & Hrec & Hrun). injection Hrun as <- <-. split; [done|].
  unfold _record_result in Hrec. apply transaction_Ok_inv, record_result_effect in Hrec as (a & Ha & _ & Hd).
  assert (Hid : ev_attempt_id e' = tm_attempt_id task)
    by (by destruct He as [i [[o ->]|(m & ty & ->)]]).
  rewrite Hid in Hd. rewrite Hd. simpl. eexists. rewrite lookup_insert, decide_True by done.
  split; [done|]. done.
Qed.

Lemma replay_recorded task e a w :
  event_of task e → task_attempts (w_db w) !! tm_attempt_id task = Some a → stores e a →
  _replay_result task w = (w, Ok e).
Proof.
  intros [i He] Ha (H1' & H2' & H3' & H4'). unfold _replay_result, attempt_get_result, _event_from_result. run_io.
  rewrite Ha, H1'. simpl. rewrite H2', H3', H4'. destruct He as [[o ->]|(m & ty & ->)]; done.
Qed.

(** A claim that is answered without a write. *)
Lemma claim_task_run wk task a w end_ :
  belongs (w_db w) (tm_attempt_id task) (tm_task_id task) (tm_execution_id task) (tm_node_id task) a →
  (String.length wk <=? 255) = true → lease_end lease (clock (w_ticks w)) = Ok end_ →
  claim_answer a (clock (w_ticks w)) ≠ CLAIMED →
  ∃ w', w_db w' = w_db w ∧ w_streams w' = w_streams w ∧ w_acks w' = w_acks w ∧
    _claim_task wk lease task w = (w', Ok (claim_answer a (clock (w_ticks w)))).
Proof.
  intros Hb Hlen Hend Hans. unfold _claim_task. exists (now w).1. split; [|split; [|split]].
  4:{ erewrite io_bind_run by reflexivity.
      erewrite io_bind_run by (unfold lift; rewrite Hend; reflexivity). apply transaction_Ok.
      erewrite claim_attempt_run; [|exact Hb|done].
      destruct (claim_answer a (clock (w_ticks w))); [done|reflexivity..]. }
  all: done.
Qed.

(** A delivery of a task whose result is recorded publishes that result. *)
Lemma recorded_delivery wk k stream message_id task e a w end_ :
  belongs (w_db w) (tm_attempt_id task) (tm_task_id task) (tm_execution_id task) (tm_node_id task) a →
  event_of task e → stores e a → at_status a = AResultRecorded →
  String.length wk ≤ 255 → lease_end lease (clock (w_ticks w)) = Ok end_ →
  ∃ w', w_db w' = w_db w ∧ w_streams w' = w_streams w ∧ w_acks w' = w_acks w ∧
    process_task wk lease k stream message_id task w = _publish_complete_and_ack stream message_id e w'.
Proof.
  intros Hb He Hst Hs Hlen%Nat.leb_le Hend.
  destruct (claim_task_run wk task a w end_ Hb Hlen Hend) as (w' & Hd & Hstr & Hacks & Hclaim).
  { unfold claim_answer. by rewrite Hs. }
  unfold claim_answer in Hclaim. rewrite Hs in Hclaim. exists w'. do 3 (split; [done|]).
  unfold process_task. erewrite io_bind_run by exact Hclaim. cbv beta iota.
  rewrite (io_bind_run _ _ w' w' e); [done|]. apply (replay_recorded task e a); [done| |done].
  rewrite Hd. apply Hb.
Qed.

(** ** Acknowledgement *)

(** The message is acknowledged in the workers' group. *)
Definition acked (stream message_id : string) (w w' : World) : Prop :=
  w_acks w' = w_acks w ++ [(stream, WORKFLOW_TASKS_GROUP, message_id)].

Lemma ack_cases stream message_id w :
  match ack stream WORKFLOW_TASKS_GROUP message_id w with
  | (w', Ok _) => acked stream message_id w w' ∧ w_streams w' = w_streams w ∧ w_db w' = w_db w
  | (w', Raise _) => w_acks w' = w_acks w ∧ w_streams w' = w_streams w
  end.
Proof. unfold ack. by destruct (redis_failure _). Qed.

(** Computations that leave acknowledgements alone and append messages of a
    kind; a silent one appends none. *)
Definition hushed {A} (P : string * stream_fields → Prop) (m : IO A) : Prop :=
  ∀ w, w_acks (m w).1 = w_acks w ∧ ∃ msgs, w_streams (m w).1 = w_streams w ++ msgs ∧ Forall P msgs.
#[local] Abbreviation silent := (hushed (λ _, False)).

Section hushed.
Variable P : string * stream_fields → Prop.

Lemma hushed_still {A} (m : IO A) :
  (∀ w, w_acks (m w).1 = w_acks w ∧ w_streams (m w).1 = w_streams w) → hushed P m.
Proof. intros Hm w. destruct (Hm w) as [Ha Hs]. split; [done|]. exists []. by rewrite app_nil_r. Qed.
Lemma hushed_ret {A} (a : A) : hushed P (mret a). Proof. by apply hushed_still. Qed.
Lemma hushed_raise {A} e : hushed P (raise e : IO A). Proof. by apply hushed_still. Qed.
Lemma hushed_lift {A} (m : py A) : hushed P (lift m). Proof. by apply hushed_still. Qed.
Lemma hushed_get : hushed P get_db. Proof. by apply hushed_still. Qed.
Lemma hushed_put d : hushed P (put_db d). Proof. by apply hushed_still. Qed.
Lemma hushed_now : hushed P now. Proof. by apply hushed_still. Qed.
Lemma hushed_uuid4 : hushed P uuid4. Proof. by apply hushed_still. Qed.
Lemma hushed_call : hushed P redis_call. Proof. by apply hushed_still. Qed.
Lemma hushed_guard b e : hushed P (guard_io b e). Proof. apply hushed_still. by destruct b. Qed.
Lemma hushed_varchar n s : hushed P (varchar n s). Proof. apply hushed_guard. Qed.
Lemma hushed_varchar_opt n s : hushed P (varchar_opt n s).
Proof. destruct s; [apply hushed_varchar|apply hushed_ret]. Qed.
Lemma hushed_bind {A B} (m : IO A) (f : A → IO B) :
  hushed P m → (∀ a, hushed P (f a)) → hushed P (m ≫= f).
Proof.
  intros Hm Hf w. unfold mbind, io_bind. specialize (Hm w).
  destruct (m w) as [w1 [a|e]]; simpl in *; [|done]. destruct Hm as [Ha (l & Hl & Fl)].
  destruct (Hf a w1) as [Ha' (l' & Hl' & Fl')]. split; [congruence|]. exists (l ++ l').
  rewrite Hl', Hl, app_assoc. split; [done|]. by apply Forall_app.
Qed.
Lemma hushed_transaction {A} (m : IO A) : hushed P m → hushed P (transaction m).
Proof. intros Hm w. specialize (Hm w). unfold transaction. by destruct (m w) as [w1 []]. Qed.
Lemma hushed_try {A} (m : IO A) : hushed P m → hushed P (try_io m).
Proof. intros Hm w. specialize (Hm w). unfold try_io. by destruct (m w). Qed.
Lemma hushed_repeat k (m : IO unit) : hushed P m → hushed P (repeat_io k m).
Proof. intros Hm. induction k; simpl; [apply hushed_ret|]. by apply hushed_bind. Qed.
End hushed.

#[local] Hint Resolve hushed_ret hushed_raise hushed_lift hushed_get hushed_put hushed_now
  hushed_uuid4 hushed_call hushed_guard hushed_varchar hushed_varchar_opt hushed_bind hushed_transaction
  hushed_try hushed_repeat : silent.
#[local] Hint Extern 1 (hushed _ (match ?x with _ => _ end)) => destruct x : silent.
#[local] Hint Extern 0 => progress cbv zeta : silent.

Lemma claim_silent wk task : silent (_claim_task wk lease task).
Proof. unfold _claim_task, claim_attempt, set_attempt_row. eauto 20 with silent. Qed.
Lemma replay_silent task : silent (_replay_result task).
Proof. unfold _replay_result, attempt_get_result. eauto 20 with silent. Qed.
Lemma silent_run {A} (m : IO A) w w' r :
  silent m → m w = (w', r) → w_acks w' = w_acks w ∧ w_streams w' = w_streams w.
Proof.
  intros Hm Hr. specialize (Hm w). rewrite Hr in Hm. destruct Hm as [Ha ([|m0 l] & Hs & Hf)].
  - by rewrite app_nil_r in Hs.
  - by apply Forall_cons in Hf as [].
Qed.

(** A handler writes nothing but its arrival at a barrier. *)
Definition is_arrival (m : string * stream_fields) : Prop := ∃ name, m.1 = arrival_stream name.

Lemma participate_hushed n p t : hushed is_arrival (participate_in_barrier n p t).
Proof.
  intros w. destruct (participate_frame n p t w) as (_ & Ha & [Hs|Hs]); (split; [done|]); rewrite Hs.
  - exists []. by rewrite app_nil_r.
  - eexists. split; [done|]. constructor; [by exists n|done].
Qed.

Lemma execute_hushed task : hushed is_arrival (execute task).
Proof.
  pose proof participate_hushed. apply hushed_bind; [eauto with silent|].
  intros []; simpl; unfold barrier_execute; eauto 20 with silent.
Qed.

Lemma execute_and_record_hushed wk k task : hushed is_arrival (_execute_and_record wk lease k task).
Proof.
  assert (Hev : hushed is_arrival (handler_event task)).
  { unfold handler_event, _failure_event. pose proof (execute_hushed task). eauto 20 with silent. }
  unfold _execute_and_record, renew_claim_once, attempt_renew_claim, _record_result, attempt_record_result,
    set_attempt_row. eauto 30 with silent.
Qed.

Lemma publish_complete_cases stream message_id e w :
  match _publish_complete_and_ack stream message_id e w with
  | (w', Ok _) => acked stream message_id w w' ∧ ∃ f, event_to_stream_fields e = Ok f ∧
      w_streams w' = w_streams w ++ [(WORKFLOW_TASK_COMPLETIONS_STREAM, f)] ∧
      ∃ a t, task_attempts (w_db w) !! ev_attempt_id e = Some a ∧ at_status a = AResultRecorded ∧
        w_db w' = set_attempts (<[ev_attempt_id e := attempt_completed t a]>
          (task_attempts (w_db w))) (w_db w)
  | (w', Raise _) => w_acks w' = w_acks w
  end.
Proof.
  destruct (_publish_complete_and_ack stream message_id e w) as [w' r] eqn:Hrun.
  unfold _publish_complete_and_ack in Hrun. run_io in Hrun.
  destruct (event_to_stream_fields e) as [f|exc]; [|by injection Hrun as <- <-].
  unfold publish in Hrun. destruct (redis_failure (w_calls w)); [by injection Hrun as <- <-|].
  unfold attempt_mark_completed, set_attempt_row in Hrun. run_io in Hrun. cbn [w_db] in Hrun.
  destruct (task_attempts (w_db w) !! ev_attempt_id e) as [a|] eqn:Ha; [|by injection Hrun as <- <-].
  destruct (decide (at_status a = AResultRecorded)) as [Hs|]; [|by injection Hrun as <- <-].
  unfold ack in Hrun. destruct (redis_failure _); injection Hrun as <- <-; [done|].
  split; [done|]. exists f. split; [done|]. split; [done|]. eexists a, _. repeat (split; [done|]). done.
Qed.

Lemma replay_Ok_inv task w w' e :
  _replay_result task w = (w', Ok e) →
  w' = w ∧ event_of task e ∧ ∃ a, task_attempts (w_db w) !! tm_attempt_id task = Some a ∧
    at_completion_event_id a = Some (ev_event_id e).
Proof.
  unfold _replay_result, attempt_get_result, _event_from_result. run_io.
  destruct (task_attempts (w_db w) !! tm_attempt_id task) as [a|]; [|done].
  destruct (at_completion_event_id a) as [i|] eqn:Hi; [|done]. simpl. unfold event_of.
  destruct (at_error_message a), (at_error_type a); try done; intros [= <- <-];
    (split; [done|]); (split; [|by exists a]); exists i; [right|left]; eauto.
Qed.

(** The event that leaves the worker. *)
Lemma publish_event_cases stream message_id task e a w w2 :
  event_of task e → task_attempts (w_db w2) !! tm_attempt_id task = Some a →
  at_completion_event_id a = Some (ev_event_id e) → w_acks w2 = w_acks w →
  match _publish_complete_and_ack stream message_id e w2 with
  | (w', Ok _) => acked stream message_id w w' ∧ ∃ f a', event_to_stream_fields e = Ok f ∧
      w_streams w' = w_streams w2 ++ [(WORKFLOW_TASK_COMPLETIONS_STREAM, f)] ∧
      task_attempts (w_db w') !! tm_attempt_id task = Some a' ∧ at_status a' = ACompleted ∧
      at_completion_event_id a' = Some (ev_event_id e)
  | (w', Raise _) => w_acks w' = w_acks w
  end.
Proof.
  intros He Ha Hc Hacks. pose proof (publish_complete_cases stream message_id e w2) as Hp.
  assert (Hid : ev_attempt_id e = tm_attempt_id task) by (by destruct He as [i [[o ->]|(m & ty & ->)]]).
  destruct (_publish_complete_and_ack stream message_id e w2) as [w' [[]|exc]]; [|congruence].
  unfold acked in *. rewrite Hacks, Hid in Hp.
  destruct Hp as (Hack & f & Hf & Hs & a' & t & Ha' & _ & Hd). split; [done|].
  assert (a' = a) as -> by congruence. exists f, (attempt_completed t a). rewrite Hd. simpl.
  rewrite lookup_insert, decide_True by done. done.
Qed.

(** Somebody holds the attempt, and the lease, if it has an end, ends after
    [t]. *)
Definition under_lease (a : TaskAttemptRecord) (t : datetime) : Prop :=
  is_Some (at_claimed_by a) ∧ ∀ v, at_claim_expires_at a = Some v → (t < v)%Z.

Lemma skipped_answer a t :
  claim_answer a t = ALREADY_COMPLETED ∨ claim_answer a t = CURRENTLY_CLAIMED →
  at_status a = ACompleted ∨ (at_status a ≠ AResultRecorded ∧ under_lease a t).
Proof.
  unfold claim_answer, under_lease. intros Hans.
  destruct (decide (at_status a = ACompleted)) as [|Hs]; [by left|right].
  split; [destruct (at_status a); naive_solver|].
  destruct (bool_decide (is_Some (at_claimed_by a)) && _) eqn:Hl.
  - apply andb_true_iff in Hl as [Hc%bool_decide_eq_true Hv%negb_true_iff]. split; [done|].
    intros v Hav. rewrite Hav in Hv. simpl in Hv. lia.
  - destruct (at_status a); naive_solver.
Qed.

(** The answers to a claim after which the message is only acknowledged. *)
Lemma skip_acknowledges wk stream message_id task t end_ o w w1 w' r :
  claim_attempt (tm_attempt_id task) (tm_task_id task) (tm_execution_id task) (tm_node_id task) wk t end_
    (now w).1 = (w1, Ok o) →
  w_acks w1 = w_acks w → w_streams w1 = w_streams w → o = ALREADY_COMPLETED ∨ o = CURRENTLY_CLAIMED →
  ack stream WORKFLOW_TASKS_GROUP message_id w1 = (w', r) →
  match r with
  | Raise _ => w_acks w' = w_acks w
  | Ok _ => acked stream message_id w w' ∧ w_streams w' = w_streams w ∧ w_db w' = w_db w ∧ ∃ a,
      belongs (w_db w) (tm_attempt_id task) (tm_task_id task) (tm_execution_id task)
        (tm_node_id task) a ∧ (at_status a = ACompleted ∨ (at_status a ≠ AResultRecorded ∧ under_lease a t))
  end.
Proof.
  intros (a & Hb & -> & Hw1)%claim_attempt_Ok Ha1 Hs1 Ho Hack. pose proof (ack_cases stream message_id w1) as Hk.
  rewrite Hack in Hk. unfold acked in *. rewrite Ha1, Hs1 in Hk. destruct r as [u|]; [|apply Hk].
  destruct Hk as (K1 & K2 & K3). split; [done|]. split; [done|]. split.
  - rewrite K3, Hw1. destruct Ho as [-> | ->]; done.
  - exists a. split; [done|]. by apply skipped_answer.
Qed.

(** C26: a message is acknowledged last.  When processing a task raises,
    nothing is acknowledged.  When it returns, the message is acknowledged,
    and one of two things has happened.  Either the completion event has been
    appended to the completions stream (after the handler's arrival at a
    barrier, if any) and the attempt is stored as completed with that event; or
    nothing was published or stored, because at the time of the delivery the
    attempt was completed already, or had no recorded result and was claimed
    under a lease that had not run out. *)
Theorem worker_acknowledges_last wk k stream message_id task w :
  match process_task wk lease k stream message_id task w with
  | (w', Raise _) => w_acks w' = w_acks w
  | (w', Ok _) =>
      acked stream message_id w w' ∧
      ((∃ e f a arrivals, event_of task e ∧ event_to_stream_fields e = Ok f ∧ Forall is_arrival arrivals ∧
          w_streams w' = w_streams w ++ arrivals ++ [(WORKFLOW_TASK_COMPLETIONS_STREAM, f)] ∧
          task_attempts (w_db w') !! tm_attempt_id task = Some a ∧ at_status a = ACompleted ∧
          at_completion_event_id a = Some (ev_event_id e)) ∨
       (w_streams w' = w_streams w ∧ w_db w' = w_db w ∧ ∃ a,
          belongs (w_db w) (tm_attempt_id task) (tm_task_id task) (tm_execution_id task)
            (tm_node_id task) a ∧
          (at_status a = ACompleted ∨
           (at_status a ≠ AResultRecorded ∧ under_lease a (clock (w_ticks w))))))
  end.
Proof.
  destruct (process_task wk lease k stream message_id task w) as [w' r] eqn:Hrun.
  unfold process_task in Hrun. unfold mbind at 1, io_bind at 1 in Hrun.
  destruct (_claim_task wk lease task w) as [w1 [o|exc]] eqn:Hc.
  2:{ apply (silent_run _ _ _ _ (claim_silent wk task)) in Hc as [Hc _]. by injection Hrun as <- <-. }
  pose proof (silent_run _ _ _ _ (claim_silent wk task) Hc) as [Ha1 Hs1].
  unfold _claim_task in Hc. apply io_bind_Ok in Hc as (w0 & t & Ht & Hc). injection Ht as <- <-.
  apply io_bind_Ok in Hc as (w0 & end_ & Ht & Hc). injection Ht as <- _. apply transaction_Ok_inv in Hc.
  pose proof (skip_acknowledges wk stream message_id task (clock (w_ticks w)) end_ o w w1 w' r Hc Ha1 Hs1) as Hskip. destruct o.
  - unfold mbind at 1, io_bind at 1 in Hrun.
    destruct (_execute_and_record wk lease k task w1) as [w2 [e|exc]] eqn:He.
    + destruct (execute_and_record_hushed wk k task w1) as [Ha2 (arrivals & Hs2 & Harr)]. rewrite He in Ha2, Hs2.
      apply execute_and_record_effect in He as (Hev & a & Ha & _ & Hid & _).
      pose proof (publish_event_cases stream message_id task e a w w2 Hev Ha Hid ltac:(simpl in *; congruence)) as Hp.
      rewrite Hrun in Hp. destruct r; [|done]. destruct Hp as (Hack & f & a' & Hf & Hs & Hrest). split; [done|]. left.
      exists e, f, a', arrivals. simpl in Hs2. rewrite Hs, Hs2, Hs1, app_assoc. done.
    + destruct (execute_and_record_hushed wk k task w1) as [Ha2 _]. rewrite He in Ha2.
      injection Hrun as <- <-. simpl in *. congruence.
  - specialize (Hskip (or_introl eq_refl) Hrun). destruct r; [|done]. naive_solver.
  - specialize (Hskip (or_intror eq_refl) Hrun). destruct r; [|done]. naive_solver.
  - unfold mbind at 1, io_bind at 1 in Hrun.
    destruct (_replay_result task w1) as [w2 [e|exc]] eqn:He.
    + apply replay_Ok_inv in He as (-> & Hev & a & Ha & Hid).
      pose proof (publish_event_cases stream message_id task e a w w1 Hev Ha Hid Ha1) as Hp. rewrite Hs1 in Hp.
      rewrite Hrun in Hp. destruct r; [|done]. destruct Hp as (Hack & f & a' & Hf & Hs & Hrest). split; [done|]. left.
      exists e, f, a', []. done.
    + pose proof (silent_run _ _ _ _ (replay_silent task) He) as [Ha2 _].
      injection Hrun as <- <-. congruence.
Qed.
End results.
