(* ===== verification/Leases.v ===== *)
(** * What happens to an attempt between two deliveries

    Any number of processes take steps between the moment a worker claims an
    attempt, records its result or completes it, and the moment the attempt is
    next looked at.  [Stable allowed P] is what the seven updates of an attempt
    row owe to a property [P] of the row; every trace of the system in which
    the lease acts are [allowed] then keeps [P].  The exclusiveness of a claim,
    the replay of a recorded result and the fate of a completed attempt are
    three such properties. *)

From Stdlib Require Import SpecFloat.
From S2P Require Import Prelude Numerals PyVal States Errors Domain Dag Graph Readiness Failure.
From S2P Require Import Cycles Validation Templates Resolver Json Messages Store Repositories.
From S2P Require Import TaskRepositories Services Dispatch Completion Redis Barriers Outbox Worker.
From S2P Require Import Orchestrator Preservation Evolution TriggerSpec Submission DispatchSpec.
From S2P Require Import CompletionSpec RedeliverySpec OutboxSpec WorkerSpec Engine.

(** ** Rows that keep a property *)

(** Every attempt stays, in its task, and keeps [P]; every logical task stays
    the task of its node. *)
Definition stays (P : TaskAttemptRecord → Prop) (d d' : Db) : Prop :=
  (∀ k a, task_attempts d !! k = Some a →
     ∃ a', task_attempts d' !! k = Some a' ∧ at_task_id a' = at_task_id a ∧ (P a → P a')) ∧
  (∀ t l, logical_tasks d !! t = Some l →
     ∃ l', logical_tasks d' !! t = Some l' ∧ lt_execution_id l' = lt_execution_id l ∧
       lt_node_id l' = lt_node_id l).

#[export] Instance stays_preorder P : PreOrder (stays P).
Proof.
  split; [split; eauto|]. intros d1 d2 d3 [A12 L12] [A23 L23]. split.
  - intros k a (b & Hb & Hab & Pab)%A12. destruct (A23 k b Hb) as (c & Hc & Hbc & Pbc).
    exists c. split; [done|]. split; [congruence|auto].
  - intros t l (l1 & Hl1 & Hx1 & Hi1)%L12. destruct (L23 t l1 Hl1) as (l2 & Hl2 & Hx2 & Hi2).
    exists l2. split; [done|]. split; congruence.
Qed.

Lemma stays_same P d d' :
  task_attempts d' = task_attempts d → logical_tasks d' = logical_tasks d → stays P d d'.
Proof. intros Ha Hl. split; rewrite ?Ha, ?Hl; eauto. Qed.

Lemma stays_update P d k a a' :
  task_attempts d !! k = Some a → at_task_id a' = at_task_id a → (P a → P a') →
  stays P d (set_attempts (<[k := a']> (task_attempts d)) d).
Proof.
  intros Hk Ht HP. split; [|simpl; eauto]. intros j b Hb. simpl. rewrite lookup_insert.
  case_decide; [subst|by exists b]. exists a'. assert (b = a) as -> by congruence. done.
Qed.

Lemma stays_insert P d k a :
  task_attempts d !! k = None → stays P d (set_attempts (<[k := a]> (task_attempts d)) d).
Proof.
  intros Hk. split; [|simpl; eauto]. intros j b Hb. exists b. simpl.
  rewrite lookup_insert_ne; [done|congruence].
Qed.

Lemma stays_logical P d t l' :
  (∀ l, logical_tasks d !! t = Some l → lt_execution_id l' = lt_execution_id l ∧ lt_node_id l' = lt_node_id l) →
  stays P d (set_logical_tasks (<[t := l']> (logical_tasks d)) d).
Proof.
  intros Hl. split; [simpl; eauto|]. intros j l Hj. simpl. rewrite lookup_insert.
  case_decide; [subst; eauto|by exists l].
Qed.

(** What the updates of a row owe to [P]: the guards are those of the
    operations that make them. *)
Class Stable (allowed : lease_act → Prop) (P : TaskAttemptRecord → Prop) : Prop := {
  st_claimed k wk t t' a :
    allowed (Takes k t t') → claim_answer a t = CLAIMED → P a → P (attempt_claimed wk t t' a);
  st_renewed k t a : allowed (Extends k t) → at_status a = AClaimed → P a → P (attempt_renewed t a);
  st_recorded e v m ty a : at_status a = AClaimed → P a → P (attempt_recorded e v m ty a);
  st_completed t a : at_status a = AResultRecorded → P a → P (attempt_completed t a);
  st_succeeded e t a :
    at_completion_event_id a ≠ Some e →
    ¬ ((at_status a = ACompleted ∨ at_status a = AFailed) ∧ is_Some (at_completion_event_id a)) →
    P a → P (attempt_succeeded e t a);
  st_failed e m ty t a :
    at_failure_event_id a = None → (at_status a = ACompleted → at_completion_event_id a = Some e) →
    P a → P (attempt_failed e m ty t a);
  st_queued a : at_status a = AScheduled → P a → P (attempt_queued a);
}.

Ltac other_tables := apply keeps_from; intros ?; walk; apply stays_same; reflexivity.

Section stable.
Context `{WorkflowSchema} `{Env}.
Context (allowed : lease_act → Prop) (P : TaskAttemptRecord → Prop) `{!Stable allowed P}.

Lemma claim_stays k t x i wk t1 t2 :
  allowed (Takes k t1 t2) → keeps (stays P) (claim_attempt k t x i wk t1 t2).
Proof.
  intros Hal. unfold claim_attempt, set_attempt_row. apply keeps_from. intros d. walk.
  all: eapply stays_update; [eassumption|done|]; eapply st_claimed; [done|]; unfold claim_answer.
  all: match goal with Hq : _ && _ = false |- _ => rewrite Hq end; by destruct (at_status _).
Qed.

Lemma renew_stays k wk t : allowed (Extends k t) → keeps (stays P) (attempt_renew_claim k wk t).
Proof.
  intros Hal. unfold attempt_renew_claim, set_attempt_row. apply keeps_from. intros d. walk.
  eapply stays_update; [eassumption|done|]. eapply st_renewed; [done|naive_solver].
Qed.

Lemma record_stays k e v m ty : keeps (stays P) (attempt_record_result k e v m ty).
Proof.
  unfold attempt_record_result, set_attempt_row. apply keeps_from. intros d. walk.
  eapply stays_update; [eassumption|done|]. by apply st_recorded.
Qed.

Lemma finish_stays k t : keeps (stays P) (attempt_mark_completed k t).
Proof.
  unfold attempt_mark_completed, set_attempt_row. apply keeps_from. intros d. walk.
  eapply stays_update; [eassumption|done|]. by apply st_completed.
Qed.

Lemma success_stays t k e c : keeps (stays P) (record_success t k e c).
Proof.
  unfold record_success, set_attempt_row, set_logical_row. apply keeps_from. intros d. walk.
  - eapply stays_update; [eassumption|done|]. apply st_succeeded; [done|].
    match goal with Hq : _ && _ = false |- _ => apply andb_false_iff in Hq; revert Hq end.
    rewrite !bool_decide_eq_false. tauto.
  - apply stays_logical. simpl. intros ? Hl. simplify_eq. done.
Qed.

Lemma failure_stays t k e m ty f M r : keeps (stays P) (record_failure t k e m ty f M r).
Proof.
  unfold record_failure, insert_attempt, insert_dispatch, set_attempt_row, set_logical_row.
  apply keeps_from. intros d. walk.
  - eapply stays_update; [eassumption|done|].
    match goal with Hq : _ || _ = false |- _ => apply orb_false_iff in Hq as [Hf%bool_decide_eq_false Hc] end.
    apply st_failed; [by apply eq_None_not_Some|]. intros Hs.
    rewrite bool_decide_eq_true_2 in Hc by done. simpl in Hc.
    by apply negb_false_iff, bool_decide_eq_true in Hc.
  - apply stays_logical. simpl. intros ? Hl. simplify_eq. done.
  - apply stays_insert. match goal with Hq : has _ _ = false |- _ => by apply has_false in Hq end.
  - by apply stays_same.
  - apply stays_logical. simpl. intros ? Hl. simplify_eq. done.
Qed.

Lemma register_stays t x n h c r k s : keeps (stays P) (register_initial_task t x n h c r k s).
Proof.
  unfold register_initial_task, insert_logical_task, insert_attempt, set_attempt_row, set_logical_row.
  apply keeps_from. intros d. walk.
  all: try (apply stays_insert; match goal with Hq : has _ _ = false |- _ => by apply has_false in Hq end).
  all: apply stays_logical; simpl.
  all: match goal with Hq : has _ (logical_tasks _) = false |- _ => apply has_false in Hq; simpl in Hq end.
  all: intros ? Hl; congruence.
Qed.

Lemma requeue_stays k t : keeps (stays P) (mark_retry_published k t).
Proof.
  unfold mark_retry_published, set_attempt_row. apply keeps_from. intros d. walk.
  - by apply stays_same.
  - eapply (stays_update P (set_dispatches _ d)); [eassumption|done|]. by apply st_queued.
Qed.

#[export] Instance stays_services M : ServicesPreserved M (stays P).
Proof.
  assert (Hu : ∀ x s s' t1 t2 i, keeps (stays P) (execution_update_status_if_current x s s' t1 t2 i))
    by (intros; unfold execution_update_status_if_current; other_tables).
  assert (Hm : ∀ i ty s p a, keeps (stays P) (add_message i ty s p a))
    by (intros; unfold add_message; other_tables).
  split; eauto using success_stays, failure_stays, register_stays, requeue_stays with typeclass_instances.
  - intros w e. unfold persist_submission, create_workflow, create_execution, new_node_execution, upsert_node_execution.
    apply keeps_bind; [typeclasses eauto|other_tables|intros _].
    apply keeps_bind; [typeclasses eauto|other_tables|intros _].
    apply keeps_iter; [typeclasses eauto|]. intros node. other_tables.
  - intros. unfold node_update_status_if_current. other_tables.
  - intros. unfold claim_pending_nodes. other_tables.
  - intros. unfold fail_pending_nodes. other_tables.
  - intros. apply trigger_body_composed; eauto with keeps.
  - intros. unfold cleanup_published. other_tables.
Qed.
End stable.

#[export] Instance stays_worker `{Env} P `{!Stable (λ _, True) P} : WorkerPreserved (stays P).
Proof.
  split; [typeclasses eauto|..]; intros; [by eapply claim_stays|by eapply record_stays|by eapply finish_stays
    |by eapply renew_stays].
Qed.

(** A worker that executes an attempt leaves it in its task, with the result,
    and claimed if it was claimed before. *)
Definition is_claimed (a : TaskAttemptRecord) : Prop := is_Some (at_claimed_by a).

#[export] Instance is_claimed_stable : Stable (λ _, True) is_claimed.
Proof. unfold is_claimed. split; simpl; eauto. Qed.

Lemma executed_row `{Env} `{Json} `{Pydantic} `{Host} lease wk k task w w1 e a0 :
  belongs (w_db w) (tm_attempt_id task) (tm_task_id task) (tm_execution_id task) (tm_node_id task) a0 →
  _execute_and_record wk lease k task w = (w1, Ok e) →
  event_of task e ∧ ∃ a,
    belongs (w_db w1) (tm_attempt_id task) (tm_task_id task) (tm_execution_id task) (tm_node_id task) a ∧
    at_status a = AResultRecorded ∧ stores e a ∧ (is_claimed a0 → is_claimed a).
Proof.
  intros (Ha0 & Ht & l & Hl & Hx & Hi) Hrun.
  destruct (keeps_run _ _ _ _ _ (execute_and_record_kept (stays is_claimed) wk lease k task) Hrun) as [HA HL].
  apply execute_and_record_effect in Hrun as (He & a & Ha & Hs & Hst). split; [done|]. exists a.
  destruct (HA _ a0 Ha0) as (a' & Ha' & Ht' & Hc). assert (a' = a) as -> by congruence.
  destruct (HL _ l Hl) as (l' & Hl' & Hx' & Hi'). split; [|done].
  split; [done|]. split; [congruence|]. exists l'. split; [done|]. split; congruence.
Qed.

(** ** Every step, every trace *)

Section traces.
Context `{WorkflowSchema} `{Env} `{Json} `{Pydantic} `{Host}.
Variables (float_str : spec_float → string) (repr : string → string).
Variable pow : spec_float → Z → py spec_float.
Variable policy : RetryPolicy.
Variables (py_str : pyobj → string) (it : bool).
#[local] Abbreviation sys_step := (step float_str repr pow policy py_str it).
#[local] Abbreviation steps_under allowed := (guarded_step float_str repr pow policy py_str it allowed).
#[local] Abbreviation db_of s := (w_db (sys_world s)).

(** A relation that the services keep, and that the lease acts which are
    allowed keep, holds across every step. *)
Section moves.
Context (allowed : lease_act → Prop) (R : Db → Db → Prop).
Context `{!ServicesPreserved (rp_max_attempts policy) R}.
Hypothesis claims_kept : ∀ k t x i wk t1 t2,
  allowed (Takes k t1 t2) → keeps R (claim_attempt k t x i wk t1 t2).
Hypothesis renewals_kept : ∀ k wk t, allowed (Extends k t) → keeps R (attempt_renew_claim k wk t).
Hypothesis results_kept : ∀ k e v m ty, keeps R (attempt_record_result k e v m ty).
Hypothesis endings_kept : ∀ k t, keeps R (attempt_mark_completed k t).
Hypothesis marks_kept : ∀ d k row, R d (set_outbox_row k row d).

Lemma quiet_moves {A} (m : IO A) w w' r : quiet m → m w = (w', r) → R (w_db w) (w_db w').
Proof. intros Hm Hrun. specialize (Hm w). rewrite Hrun in Hm. simpl in Hm. by rewrite Hm. Qed.

Lemma marked_moves rows d d' : marked rows d d' → R d d'.
Proof. induction 1 as [d|row t rows d d' _ IH]; [done|]. etrans; [|exact IH]. apply marks_kept. Qed.

Lemma step_moves s s' : steps_under allowed s s' → R (db_of s) (db_of s').
Proof.
  destruct 1 as [p w a|x i w a|k row f w w' a Hk Hp Hf Hrun|rows d w a Hrows Hm|rows d k row m w a Hrows Hm Hk Hp
    |r b w a|t w w' due a Hrun|r f w w' a Hr Hf Hrun|r t w a Hr|at_ tk x i wk t1 t2 w a Hal|at_ wk t w a Hal
    |at_ e v m ty w a|at_ t w a|s f w a Hs|f x w w' r a Hf Hx Hrun|e w w' d a Hrun|e w w' exc a Hrun
    |x ids w w' e nodes a Hids Hrun|e node w a Hk|w a a' Ha|w w' a Hd Hs]; simpl.
  - apply (submit_kept policy _).
  - apply (trigger_kept policy _).
  - by eapply quiet_moves; [apply quiet_publish|].
  - by eapply marked_moves.
  - etrans; [by eapply marked_moves|apply marks_kept].
  - apply (pr_cleanup (M := rp_max_attempts policy)).
  - by eapply quiet_moves; [apply quiet_transaction, get_due_retries_quiet|].
  - by eapply quiet_moves; [apply quiet_publish|].
  - apply keeps_transaction; [typeclasses eauto|]. apply (pr_retry_published (M := rp_max_attempts policy)).
  - apply keeps_transaction; [typeclasses eauto|by apply claims_kept].
  - apply keeps_transaction; [typeclasses eauto|by apply renewals_kept].
  - apply keeps_transaction; [typeclasses eauto|by apply results_kept].
  - apply keeps_transaction; [typeclasses eauto|by apply endings_kept].
  - destruct (publish s f w) eqn:Hrun. by eapply quiet_moves; [apply quiet_publish|].
  - by eapply quiet_moves; [apply readiness_quiet|].
  - pose proof (process_kept policy R pow e w) as Hk. by rewrite Hrun in Hk.
  - pose proof (process_kept policy R pow e w) as Hk. by rewrite Hrun in Hk.
  - by eapply quiet_moves; [apply quiet_transaction, load_ready_nodes_quiet|].
  - apply (dispatch_kept policy _).
  - reflexivity.
  - by rewrite Hd.
Qed.

Lemma trace_moves s s' : rtc (steps_under allowed) s s' → R (db_of s) (db_of s').
Proof. induction 1 as [s|s s1 s' Hs _ IH]; [reflexivity|]. etrans; [by apply step_moves|done]. Qed.
End moves.

(** The tables keep their invariant. *)
Lemma trace_inv s s' : rtc sys_step s s' → db_inv (db_of s) → db_inv (db_of s').
Proof.
  intros Hs Hinv. eapply (trace_moves (λ _, True) evolves); [| | | | |exact Hs|exact Hinv].
  all: intros; first [by apply evolves_same|eauto with keeps].
Qed.

Lemma stable_trace allowed P `{!Stable allowed P} s s' :
  rtc (steps_under allowed) s s' → stays P (db_of s) (db_of s').
Proof.
  pose proof (stays_services allowed P (rp_max_attempts policy)) as Hserv.
  apply (trace_moves allowed (stays P)); intros; [by eapply claim_stays|by eapply renew_stays|by eapply record_stays
    |by eapply finish_stays|by apply stays_same].
Qed.

(** A stored row that satisfies [P] is there later and satisfies it. *)
Lemma stable_row allowed P `{!Stable allowed P} s s' k t x i a :
  rtc (steps_under allowed) s s' → belongs (db_of s) k t x i a → P a →
  ∃ a', belongs (db_of s') k t x i a' ∧ P a'.
Proof.
  intros Hs (Ha & Ht & l & Hl & Hx & Hi) HP. destruct (stable_trace allowed P s s' Hs) as [HA HL].
  destruct (HA k a Ha) as (a' & Ha' & Ht' & HP'). destruct (HL t l Hl) as (l' & Hl' & Hx' & Hi').
  exists a'. split; [|auto]. split; [done|]. split; [congruence|]. exists l'. split; [done|]. split; congruence.
Qed.

(** ** Leases *)

(** The lease acts of workers whose clocks agree, from a claim at [t] on and up
    to [u]: claims are made up to [u], and a renewal extends a lease from a
    time that is not before [t]. *)
Definition timely (lease : spec_float) (t u : datetime) (act : lease_act) : Prop :=
  match act with
  | Takes _ claimed_at _ => (claimed_at ≤ u)%Z
  | Extends _ claim_expires_at => ∃ c, (t ≤ c)%Z ∧ lease_end lease c = Ok claim_expires_at
  end.

(** An attempt somebody holds, and whose lease does not end before [t']. *)
Definition held_until (t' : datetime) (a : TaskAttemptRecord) : Prop :=
  is_Some (at_claimed_by a) ∧ ∀ v, at_claim_expires_at a = Some v → (t' ≤ v)%Z.

Lemma lease_end_monotone lease t t' c v :
  lease_end lease t = Ok t' → lease_end lease c = Ok v → (t ≤ c)%Z → (t' ≤ v)%Z.
Proof.
  unfold lease_end. destruct (timedelta_seconds lease) as [delta|]; [|done]. cbn. unfold datetime_add.
  do 2 (destruct (_ && _); [|done]). intros [= <-] [= <-]. lia.
Qed.

Lemma held_answer t' a u : held_until t' a → (u < t')%Z → claim_answer a u ≠ CLAIMED.
Proof.
  intros [Hc Hv] Hu. unfold claim_answer. rewrite bool_decide_eq_true_2 by done.
  assert (lease_expired (at_claim_expires_at a) u = false) as ->; [|by destruct (at_status a)].
  destruct (at_claim_expires_at a) as [v|]; [|done]. specialize (Hv v eq_refl). simpl. lia.
Qed.

Lemma held_stable lease t t' u :
  lease_end lease t = Ok t' → (u < t')%Z → Stable (timely lease t u) (held_until t').
Proof.
  intros Hend Hu. split; try done.
  - intros k wk c v a Hc Hans Hh. simpl in Hc. by destruct (held_answer t' a c Hh); [lia|].
  - intros k v a (c & Hc & Hv) _ [Hcl _]. split; [done|]. intros v' [= <-]. by eapply lease_end_monotone.
  - intros v a _ [Hcl _]. by split.
Qed.

Lemma claimed_unheld a t :
  claim_answer a t = CLAIMED →
  at_status a ≠ ACompleted ∧ at_status a ≠ AResultRecorded ∧
  (at_claimed_by a = None ∨ lease_expired (at_claim_expires_at a) t = true).
Proof.
  unfold claim_answer. destruct (bool_decide (is_Some (at_claimed_by a))) eqn:Hc.
  - destruct (lease_expired (at_claim_expires_at a) t); destruct (at_status a); naive_solver.
  - apply bool_decide_eq_false, eq_None_not_Some in Hc. destruct (at_status a); naive_solver.
Qed.
(** C24: a claim is exclusive.  A worker that claims an attempt at [t] found it
    neither completed nor with a recorded result, and unclaimed or with a lease
    that had run out.  Its lease ends at [t'].  Whatever the processes do after
    it up to a time [u] before [t'] (claims, renewals and completions of this
    and other workers included, provided that the workers' clocks agree), no
    claim of that attempt up to [u] succeeds, and it writes nothing. *)
Theorem claim_exclusive lease aid tid x i wk t t' w w1 agenda s u :
  transaction (claim_attempt aid tid x i wk t t') w = (w1, Ok CLAIMED) → lease_end lease t = Ok t' →
  rtc (steps_under (timely lease t u)) (System w1 agenda) s → (u < t')%Z →
  (∃ a, belongs (w_db w) aid tid x i a ∧ at_status a ≠ ACompleted ∧ at_status a ≠ AResultRecorded ∧
        (at_claimed_by a = None ∨ lease_expired (at_claim_expires_at a) t = true)) ∧
  ∀ wk2 t2 t2', (t2 ≤ u)%Z → String.length wk2 ≤ 255 →
    ∃ o, claim_attempt aid tid x i wk2 t2 t2' (sys_world s) = (sys_world s, Ok o) ∧ o ≠ CLAIMED.
Proof.
  intros Hrun Hend Hs Hu. apply transaction_Ok_inv, claim_attempt_Ok in Hrun as (a & Hb & Ho & ->). split.
  - exists a. split; [done|]. by apply claimed_unheld.
  - intros wk2 t2 t2' Ht2 Hlen%Nat.leb_le. pose proof (held_stable lease t t' u Hend Hu) as Hst.
    destruct (stable_row _ (held_until t') _ s aid tid x i (attempt_claimed wk t t' a) Hs)
      as (a' & Hb' & Hh).
    + destruct Hb as (_ & Ht & Hl). split; [|done]. simpl. by rewrite lookup_insert, decide_True.
    + split; [done|]. by intros v [= <-].
    + pose proof (held_answer t' a' t2 Hh ltac:(lia)) as Hans. exists (claim_answer a' t2).
      rewrite (claim_attempt_run _ _ _ _ _ _ _ a' _ Hb' Hlen). by destruct (claim_answer a' t2).
Qed.

(** ** Recorded results *)

(** The result is stored, or the attempt has been settled. *)
Definition result_known (e : TaskCompletionEvent) (a : TaskAttemptRecord) : Prop :=
  (at_status a = AResultRecorded ∧ stores e a) ∨ at_status a = ACompleted ∨ is_Some (at_failure_event_id a).

Lemma result_known_stable e : Stable (λ _, True) (result_known e).
Proof.
  unfold result_known, stores. split; simpl.
  - intros k wk t t' a _ (Hc & Hr & _)%claimed_unheld. naive_solver.
  - intros k t a _ Hs. rewrite Hs. naive_solver.
  - intros ev v m ty a Hs. rewrite Hs. naive_solver.
  - naive_solver.
  - naive_solver.
  - eauto.
  - intros a Hs. rewrite Hs. naive_solver.
Qed.

(** C25: a recorded result survives a crash.  Let a worker record the result of
    a task, the event [e], and let the processes take any steps afterwards,
    with the worker gone or not.  The attempt is then still there, and it is
    completed, or a failure of it has been stored, or a delivery of the message
    to any worker publishes exactly [e], identifier included, without running
    the handler again. *)
Theorem recorded_result_is_replayed lease wk k task w w1 e a0 agenda s :
  belongs (w_db w) (tm_attempt_id task) (tm_task_id task) (tm_execution_id task) (tm_node_id task) a0 →
  _execute_and_record wk lease k task w = (w1, Ok e) → rtc sys_step (System w1 agenda) s →
  let w2 := sys_world s in
  ∃ a, belongs (w_db w2) (tm_attempt_id task) (tm_task_id task) (tm_execution_id task) (tm_node_id task) a ∧
    (at_status a = ACompleted ∨ is_Some (at_failure_event_id a) ∨
     ∀ wk2 k2 stream message_id end_,
       String.length wk2 ≤ 255 → lease_end lease (clock (w_ticks w2)) = Ok end_ →
       ∃ w3, w_db w3 = w_db w2 ∧ w_streams w3 = w_streams w2 ∧ w_acks w3 = w_acks w2 ∧
         process_task wk2 lease k2 stream message_id task w2 =
           _publish_complete_and_ack stream message_id e w3).
Proof.
  intros Hb Hrun Hs w2. pose proof (result_known_stable e) as Hst.
  destruct (executed_row lease wk k task w w1 e a0 Hb Hrun) as (He & a & Hba & Hrec & Hsto & _).
  destruct (stable_row (λ _, True) (result_known e) _ s _ _ _ _ a Hs Hba) as (a' & Hb' & Hk); [by left|].
  exists a'. split; [done|]. destruct Hk as [[Hrec' Hsto']|[?|?]]; [|by auto..]. right. right.
  intros wk2 k2 stream message_id end_ Hlen Hend. by eapply recorded_delivery.
Qed.

(** ** Completed attempts *)

(** The attempt carries the event, is settled, and nobody can claim it. *)
Definition closed (event_id : UUID) (a : TaskAttemptRecord) : Prop :=
  at_completion_event_id a = Some event_id ∧ (at_status a = ACompleted ∨ at_status a = AFailed) ∧
  is_Some (at_claimed_by a) ∧ at_claim_expires_at a = None.

Lemma closed_stable event_id : Stable (λ _, True) (closed event_id).
Proof.
  unfold closed. split; simpl.
  - intros k wk t t' a _ (_ & _ & Hun)%claimed_unheld (_ & _ & [wk' Hc] & Hv).
    rewrite Hc, Hv in Hun. by destruct Hun.
  - intros k t a _ Hq (_ & Hs & _). destruct Hs; congruence.
  - intros e v m ty a Hq (_ & Hs & _). destruct Hs; congruence.
  - intros t a Hq (_ & Hs & _). destruct Hs; congruence.
  - intros e t a _ Hno (Hc & Hs & _). rewrite Hc in Hno. by destruct Hno.
  - intros e m ty t a _ _ (Hc & _ & Hcl & Hv). auto.
  - intros a Hq (_ & Hs & _). destruct Hs; congruence.
Qed.
End traces.
