(* ===== verification/Findings.v ===== *)
(** * Where the code departs from its intent

    Behaviours that the documentation or the surrounding code does not
    expect, each with the theorem that exhibits it. *)

From Stdlib Require Import SpecFloat.
From S2P Require Import Prelude Numerals PyVal States Errors Domain Dag Graph Readiness Failure.
From S2P Require Import Cycles Validation Templates Resolver Json Messages Store Repositories.
From S2P Require Import TaskRepositories Services Dispatch Completion Redis Barriers Outbox Worker.
From S2P Require Import Orchestrator Preservation Evolution TriggerSpec Submission DispatchSpec.
From S2P Require Import CompletionSpec RedeliverySpec WorkerSpec Lifecycle Provenance Engine.
From S2P Require Import Reachable Leases.

(** ** Validation *)

(** A definition of one node with the given handler and dependencies. *)
Definition one_node (handler dependencies : pyobj) : pydict :=
  obj [("name", PStr "wf");
       ("dag", PDict (obj [("nodes", PList [PDict (obj [("id", PStr "a"); ("handler", handler);
                                                         ("dependencies", dependencies)])])]))].

(** The validator raises [TypeError] instead of reporting an error when a
    node's dependencies are a number, and when its handler is an object. *)
Theorem validator_raises_on_wrong_types py_str it z :
  (∃ m, validate (default_rules py_str it) (one_node (PStr "input") (PInt z)) = Raise (TypeError m)) ∧
  (∃ m, validate (default_rules py_str it) (one_node (PDict []) (PList [])) = Raise (TypeError m)).
Proof. split; eexists; destruct it; vm_compute; reflexivity. Qed.

(** ** Tasks *)

Section tasks.
Context `{WorkflowSchema} `{Env} `{Json} `{Pydantic} `{Host}.
Variable pow : spec_float → Z → py spec_float.
Variable policy : RetryPolicy.
Variable lease : spec_float.

(** A success of an attempt that carries a completion event, and is settled
    or carries this one, leaves the logical tasks alone. *)
Lemma known_success_leaves_tasks e a w w' d :
  db_inv (w_db w) → ev_status e = TCompleted → process pow policy e w = (w', Ok d) →
  task_attempts (w_db w) !! ev_attempt_id e = Some a → success_known a (ev_event_id e) →
  logical_tasks (w_db w') = logical_tasks (w_db w).
Proof.
  intros Hinv Hst Hrun Ha Hk.
  apply process_Ok_inv in Hrun as (_ & ex & n & w4 & s & _ & _ & Hr & Hrun); [|done].
  assert (Hl : logical_tasks (w_db w4) = logical_tasks (w_db w)).
  { unfold record_attempt in Hr. rewrite Hst in Hr. apply io_bind_Ok in Hr as (w5 & t & Ht & Hr).
    injection Ht as <- _. apply io_bind_Ok in Hr as (w6 & b & Hrec & Hr). injection Hr as <- _.
    pose proof Hrec as Hrec'. apply record_success_run in Hrec'. cbn [w_db] in Hrec'.
    destruct (logical_tasks (w_db w) !! ev_task_id e) as [l|] eqn:Hl; [|by destruct Hrec' as [_ ->]].
    destruct Hrec' as (a' & Ha' & Hta & _). assert (a' = a) as -> by congruence.
    by erewrite (record_success_again _ _ _ _ _ l a) in Hrec; [injection Hrec as <- _|..]. }
  rewrite <- Hl. destruct s as [d'|]; [by destruct Hrun as [-> _]|].
  by apply (keeps_run _ _ _ _ _ (apply_completion_tasks _ _ _ _) Hrun).
Qed.

(** The attempt a worker has claimed, executed and reported is closed. *)
Lemma processed_closed wk k stream message_id task w w1 a :
  belongs (w_db w) (tm_attempt_id task) (tm_task_id task) (tm_execution_id task) (tm_node_id task) a →
  claim_answer a (clock (w_ticks w)) = CLAIMED →
  process_task wk lease k stream message_id task w = (w1, Ok tt) →
  ∃ id a1, belongs (w_db w1) (tm_attempt_id task) (tm_task_id task) (tm_execution_id task)
    (tm_node_id task) a1 ∧ closed id a1.
Proof.
  intros Hb Hans Hrun. unfold process_task in Hrun. apply io_bind_Ok in Hrun as (w2 & o & Hc & Hrun).
  unfold _claim_task in Hc. apply io_bind_Ok in Hc as (w3 & t & Ht & Hc). injection Ht as <- <-.
  apply io_bind_Ok in Hc as (w3 & end_ & Ht & Hc). injection Ht as <- _. apply transaction_Ok_inv in Hc.
  apply claim_attempt_Ok in Hc as (a' & (Ha' & Ht' & Hl') & -> & ->). cbn [w_db] in Ha', Hl'.
  assert (a' = a) as -> by (destruct Hb; congruence). rewrite Hans in Hrun.
  apply io_bind_Ok in Hrun as (w4 & e & He & Hrun).
  eapply (executed_row lease wk k task _ w4 e (attempt_claimed wk (clock (w_ticks w)) end_ a)) in He
    as (Hev & a2 & (Ha2 & Ht2 & Hl2) & Hs2 & Hsto & Hcl).
  2:{ split; [|done]. simpl. by rewrite lookup_insert, decide_True. }
  pose proof (publish_complete_cases stream message_id e w4) as Hp. rewrite Hrun in Hp.
  destruct Hp as (_ & f & _ & _ & a3 & t3 & Ha3 & _ & Hd).
  assert (Hid : ev_attempt_id e = tm_attempt_id task) by (by destruct Hev as [i [[? ->]|(? & ? & ->)]]).
  rewrite Hid in Ha3, Hd. assert (a3 = a2) as -> by congruence.
  exists (ev_event_id e), (attempt_completed t3 a2). rewrite Hd. split; [split; [|done]|].
  - simpl. by rewrite lookup_insert, decide_True.
  - destruct Hsto as (Hc2 & _). split; [done|]. split; [by left|]. split; [apply Hcl; by eexists|done].
Qed.

(** C37: a logical task is never marked completed in the normal flow.  Once a
    worker has claimed an attempt, executed it, published its event and
    marked it completed, whatever steps the processes take, processing a
    success of that attempt (its published event among them) leaves the
    logical tasks as they are: the attempt carries its event already, and the
    repository returns before it updates the task. *)
Theorem success_leaves_logical_task py_str it float_str repr wk k stream message_id task w w1 a agenda s e w2 d :
  db_inv (w_db w) →
  belongs (w_db w) (tm_attempt_id task) (tm_task_id task) (tm_execution_id task) (tm_node_id task) a →
  claim_answer a (clock (w_ticks w)) = CLAIMED →
  process_task wk lease k stream message_id task w = (w1, Ok tt) →
  rtc (step float_str repr pow policy py_str it) (System w1 agenda) s →
  ev_attempt_id e = tm_attempt_id task → ev_status e = TCompleted →
  process pow policy e (sys_world s) = (w2, Ok d) →
  logical_tasks (w_db w2) = logical_tasks (w_db (sys_world s)).
Proof.
  intros Hinv Hb Hans Hrun Hs Hid Hst Hp.
  assert (Hinv1 : db_inv (w_db w1)).
  { pose proof (pr_worker (M := rp_max_attempts policy) (R := evolves)) as Hw.
    pose proof (process_task_kept evolves wk lease k stream message_id task w) as Hk. rewrite Hrun in Hk. by apply Hk. }
  destruct (processed_closed _ _ _ _ _ _ _ _ Hb Hans Hrun) as (id & a1 & Hb1 & Hc1).
  pose proof (closed_stable id) as Hstab.
  destruct (stable_row _ _ _ _ _ _ (λ _, True) (closed id) _ s _ _ _ _ a1 Hs Hb1 Hc1)
    as (a2 & (Ha2 & _) & Hc2 & Hs2 & _).
  eapply (known_success_leaves_tasks e a2); [by eapply trace_inv|done|exact Hp|by rewrite Hid|].
  right. by rewrite Hc2.
Qed.

(** A delivery that finds the attempt completed, or claimed under a
    running lease, is acknowledged without publishing anything: no result is
    replayed, and the message is gone even though the claiming worker may
    still fail. *)
Theorem duplicate_delivery_is_only_acknowledged wk k stream message_id task w a end_ :
  belongs (w_db w) (tm_attempt_id task) (tm_task_id task) (tm_execution_id task) (tm_node_id task) a →
  (claim_answer a (clock (w_ticks w)) = ALREADY_COMPLETED ∨
   claim_answer a (clock (w_ticks w)) = CURRENTLY_CLAIMED) →
  String.length wk ≤ 255 → lease_end lease (clock (w_ticks w)) = Ok end_ →
  redis_failure (w_calls w) = None →
  ∃ w', process_task wk lease k stream message_id task w = (w', Ok tt) ∧
    acked stream message_id w w' ∧ w_streams w' = w_streams w ∧ w_db w' = w_db w.
Proof.
  intros Hb Hans Hlen%Nat.leb_le Hend Hredis.
  unfold process_task, _claim_task. unfold mbind at 1, io_bind at 1.
  erewrite io_bind_run by reflexivity. erewrite io_bind_run by (unfold lift; rewrite Hend; reflexivity).
  erewrite (proj2 (transaction_Ok _ _ _ _)) by (erewrite claim_attempt_run; [reflexivity|exact Hb|done]).
  cbv beta iota.
  destruct Hans as [-> | ->]; unfold ack; cbn [w_calls]; rewrite Hredis; by eexists.
Qed.

(** C38: a failure that the orchestrator stores before the worker has marked
    its attempt completed makes the worker's own update raise, so that the
    message stays unacknowledged, and once the lease has run out the settled
    attempt can be claimed and executed again. *)
Theorem early_failure_reopens_attempt tid aid ev m ty f M r w w' dec a t l x i wk t' end_ :
  record_failure tid aid ev m ty f M r w = (w', Ok dec) → dec ≠ retry_decision DUPLICATE →
  logical_tasks (w_db w) !! tid = Some l → lt_execution_id l = x → lt_node_id l = i →
  task_attempts (w_db w) !! aid = Some a → lease_expired (at_claim_expires_at a) t' = true →
  String.length wk ≤ 255 →
  (∃ exc, attempt_mark_completed aid t w' = (w', Raise exc)) ∧
  ∃ w2, claim_attempt aid tid x i wk t' end_ w' = (w2, Ok CLAIMED).
Proof.
  intros Hrun Hnd Hl Hx Hi Ha Hlease Hlen%Nat.leb_le. apply record_failure_run in Hrun. rewrite Hl in Hrun.
  assert (Hrow : at_task_id a = tid ∧ task_attempts (w_db w') !! aid = Some (attempt_failed ev m ty f a) ∧
    ∃ l', logical_tasks (w_db w') !! tid = Some l' ∧ lt_execution_id l' = x ∧ lt_node_id l' = i).
  { destruct Hrun as [(-> & _)|(a' & Ha' & Hta & Hc)]; [done|].
    assert (a' = a) as -> by congruence. split; [done|].
    destruct Hc as [(_ & _ & -> & _ & ->)|(next & _ & _ & Hne & _ & -> & _ & ->)].
    - rewrite !lookup_insert, !decide_True by done. split; [done|]. by eexists.
    - rewrite lookup_insert_ne, !lookup_insert, !decide_True by done. split; [done|]. by eexists. }
  destruct Hrow as (Hta & Hrow & l' & Hl' & Hx' & Hi'). split.
  - unfold attempt_mark_completed. run_io. rewrite Hrow, decide_False by done. by eexists.
  - erewrite (claim_attempt_run _ _ _ _ _ _ _ (attempt_failed ev m ty f a)); [|by repeat split; eauto|done].
    unfold claim_answer. simpl. rewrite Hlease, andb_false_r. by eexists.
Qed.
End tasks.

(** ** Templates that cannot be resolved *)

Section unresolvable.
Context `{WorkflowSchema} `{Env} `{Json} `{Pydantic} `{Host}.
Variables (float_str : spec_float → string) (repr : string → string).
Variable pow : spec_float → Z → py spec_float.
Variable policy : RetryPolicy.

Lemma dispatch_unresolvable e node w msg :
  let x := we_execution_id e in
  is_Some (workflow_executions (w_db w) !! x) →
  dependency_failed node (statuses_by_id (nodes_of_execution x (w_db w))) = false →
  resolve float_str repr (completed_dependency_outputs x node (nodes_of_execution x (w_db w)))
    node (we_input_data e) = Raise (TemplateResolutionError msg) →
  dispatch float_str repr e node w = (w, Raise (TemplateResolutionError msg)).
Proof.
  intros x [e' He] Hf Hr. unfold dispatch, dispatch_body, get_execution_by_id_for_update,
    get_node_executions_for_execution. run_io. fold x. rewrite He, Hf, Hr. by destruct w.
Qed.

(** C40: a template that cannot be resolved stops the orchestrator.  When the
    one node that is ready has such a template, handling the trigger event
    raises [TemplateResolutionError]; the node stays pending and the message
    unacknowledged, and the orchestrator's loop ends with it, whatever its
    later turns would bring, because it catches Redis errors only. *)
Theorem unresolvable_template_stops_orchestrator stream mid f x w r e node msg :
  _execution_id f = Ok x →
  readiness_evaluate x w = (w, Ok r) → rd_ready_node_ids r ≠ [] →
  transaction (load_ready_nodes x (rd_ready_node_ids r)) w = (w, Ok (e, [node])) →
  is_Some (workflow_executions (w_db w) !! we_execution_id e) →
  dependency_failed node (statuses_by_id (nodes_of_execution (we_execution_id e) (w_db w))) = false →
  resolve float_str repr
    (completed_dependency_outputs (we_execution_id e) node (nodes_of_execution (we_execution_id e) (w_db w)))
    node (we_input_data e) = Raise (TemplateResolutionError msg) →
  handle_trigger float_str repr stream mid f w = (w, Raise (TemplateResolutionError msg)) ∧
  ∀ name retention w0 w1 w2 published cleaned messages more later,
    publish_outbox_events w0 = (w1, Ok published) →
    cleanup_published_outbox retention w1 = (w2, Ok cleaned) →
    consume _ORCHESTRATOR_EVENTS_GROUP name WORKFLOW_EVENTS_STREAM 100 w2 =
      (w, Ok ((stream, (mid, f) :: messages) :: more)) →
    run_loop float_str repr pow policy name retention (S later) w0 = (w, Raise (TemplateResolutionError msg)).
Proof.
  intros Hx Hready Hne Hload He Hdep Hres.
  assert (Hh : handle_trigger float_str repr stream mid f w = (w, Raise (TemplateResolutionError msg))).
  { destruct (execution_id_inv f x Hx) as [Hty _]. unfold handle_trigger.
    erewrite io_bind_run by (unfold lift; rewrite Hty; reflexivity). simpl.
    erewrite io_bind_run by (unfold lift; rewrite Hx; reflexivity).
    erewrite io_bind_run by exact Hready. apply io_bind_raise. unfold dispatch_ready.
    destruct (rd_ready_node_ids r); [done|]. erewrite io_bind_run by exact Hload.
    apply io_bind_raise. unfold dispatch_many. simpl.
    by rewrite (dispatch_unresolvable e node w msg He Hdep Hres). }
  split; [done|]. intros name retention w0 w1 w2 published cleaned messages more later Hp Hc Hr.
  assert (Ht : trigger_consume_once float_str repr name w2 = (w, Raise (TemplateResolutionError msg))).
  { unfold trigger_consume_once. erewrite io_bind_run by exact Hr. apply io_bind_raise. simpl. by apply io_bind_raise. }
  unfold run_loop. simpl. apply io_bind_raise. unfold run_once. unfold mbind at 1, io_bind at 1.
  erewrite io_bind_run by exact Hp. erewrite io_bind_run by exact Hc.
  by rewrite (io_bind_raise _ _ _ _ _ Ht).
Qed.
End unresolvable.

(** ** Definitions without nodes *)

(** The rules accept a definition with an empty list of nodes. *)
Example empty_definition_is_valid py_str it :
  validate (default_rules py_str it)
    (obj [("name", PStr "wf"); ("dag", PDict (obj [("nodes", PList [])]))]) = Ok [].
Proof. destruct it; vm_compute; reflexivity. Qed.

Lemma empty_run_stuck r r' :
  run_inv r → run_status r = WRunning → node_ids (run_graph r) = [] → rtc run_step r r' → r' = r.
Proof.
  intros Hinv Hs Hne Hst. destruct Hst as [|r r1 r' Hstep _]; [done|]. exfalso.
  assert (Hno : ∀ i s, run_nodes r !! i = Some s → False).
  { intros i s Hi. assert (Hin : i ∈ node_ids (run_graph r)) by (apply (ri_dom _ Hinv); eauto).
    rewrite Hne in Hin. set_solver. }
  destruct Hstep as [g m|g s m i _ [Hi _]|g s m i Hi|g s m m' i Hi _]; simpl in *; [done|by eapply Hno..].
Qed.

Section empty.
Context `{WorkflowSchemaLaws} `{EnvLaws} `{JsonLaws} `{Pydantic} `{Host}.
Variables (float_str : spec_float → string) (repr : string → string).
Variable pow : spec_float → Z → py spec_float.
Variable policy : RetryPolicy.
Variables (py_str : pyobj → string) (it : bool).

(** C39: an execution of a definition without nodes never ends.  Once it has
    been triggered, it is running in every later state of the system. *)
Theorem empty_execution_never_ends s s' x e g :
  reachable float_str repr pow policy py_str it s →
  rtc (step float_str repr pow policy py_str it) s s' →
  workflow_executions (w_db (sys_world s)) !! x = Some e → we_status e = WRunning →
  read_workflow (w_db (sys_world s)) (we_workflow_id e) = Ok (Some g) → node_ids g = [] →
  ∃ e', workflow_executions (w_db (sys_world s')) !! x = Some e' ∧ we_status e' = WRunning.
Proof.
  intros Hr%reachable_inv Hst Hx Hs Hg Hne. destruct (si_runs _ Hr x e Hx) as (r & Hrep & _).
  destruct (represents_execution _ _ _ _ Hrep Hx) as (Hs' & Hg' & _).
  assert (g = run_graph r) as -> by congruence. rewrite Hs in Hs'. clear Hx Hg Hg' Hs e.
  induction Hst as [s|s s1 s' Hstep _ IH]; [by destruct Hrep as (e & Hx & _ & Hs & _); exists e; split; congruence|].
  destruct (step_good _ _ _ _ _ _ s s1 Hstep Hr) as [[Hold _] Hr1].
  pose proof (represents_inv _ _ r (si_runs _ Hr) Hrep) as Hi.
  destruct (Hold x r Hrep Hi) as (r1 & Hrep1 & Hsteps).
  rewrite (empty_run_stuck r r1 Hi (eq_sym Hs') Hne Hsteps) in Hrep1. by apply IH.
Qed.
End empty.
