(* ===== verification/Samples.v ===== *)
(** * A concrete run

    Reference instances of everything the development is parametric in, a
    two-node workflow that is submitted, triggered, dispatched and completed by
    evaluating the definitions, and the theorems applied to it. *)

From Stdlib Require Import SpecFloat.
From S2P Require Import Prelude Numerals PyVal States Errors Domain Dag Graph Readiness Failure.
From S2P Require Import Cycles Validation Accepted Templates Resolver Json Messages Store.
From S2P Require Import Repositories TaskRepositories Services Dispatch Completion Outbox.
From S2P Require Import Redis Barriers Worker Orchestrator Preservation Evolution Retries TriggerSpec.
From S2P Require Import Submission DispatchSpec QuerySpec CompletionSpec RedeliverySpec RetrySpec OutboxSpec WorkerSpec.
From S2P Require Import Lifecycle Provenance Engine Handlers Reachable Durability Api Requests Runtime Leases Findings.

(** ** A reference schema *)

Definition parse_deps (v : option pyobj) : option (list string) :=
  match v with
  | None => Some []
  | Some (PList l) => mapM as_str l
  | Some _ => None
  end.

Definition parse_node (v : pyobj) : option WorkflowNode :=
  nd ← as_dict v;
  i ← dict_get "id" nd ≫= as_str;
  h ← dict_get "handler" nd ≫= as_str;
  deps ← parse_deps (dict_get "dependencies" nd);
  if String.eqb i "" || String.eqb h "" then None
  else Some {| wn_id := i; wn_handler := h; wn_dependencies := deps;
               wn_config := default [] (dict_get "config" nd ≫= as_dict);
               wn_created_at := 0%Z; wn_created_by := None |}.

Definition parse_workflow (i : UUID) (name : string) (nodes : pyobj) (t : datetime) : py Workflow :=
  match (if String.eqb name "" then None else l ← as_list nodes; mapM parse_node l) with
  | Some ns => Ok {| wf_workflow_id := i; wf_name := name; wf_dag := {| dag_nodes := ns |};
                     wf_created_at := t; wf_created_by := None |}
  | None => Raise (PydanticValidationError "validation error")
  end.

Definition node_obj (n : WorkflowNode) : pyobj :=
  PDict (obj [("id", PStr (wn_id n)); ("handler", PStr (wn_handler n));
              ("dependencies", PList (PStr <$> wn_dependencies n)); ("config", PDict (wn_config n))]).

Definition reference_schema : WorkflowSchema := {|
  model_validate := λ i t d,
    match dict_get "name" d, dict_get "dag" d with
    | Some (PStr name), Some (PDict dag) =>
        parse_workflow i name (default (PList []) (dict_get "nodes" dag)) t
    | _, _ => Raise (PydanticValidationError "validation error")
    end;
  dump_dag := λ g, obj [("nodes", PList (node_obj <$> dag_nodes g))];
  load_workflow := parse_workflow;
|}.

Lemma as_str_strings l : mapM as_str (PStr <$> l) = Some l.
Proof. by apply mapM_Some, Forall2_fmap_l, Forall_Forall2_diag, Forall_true. Qed.

Lemma parse_node_ok v n : parse_node v = Some n → node_model_ok n.
Proof.
  unfold parse_node. intros H. repeat (apply bind_Some in H as (? & _ & H)).
  destruct (String.eqb x0 "") eqn:Ei, (String.eqb x1 "") eqn:Eh; try done.
  injection H as <-. split; by apply String.eqb_neq.
Qed.

Lemma parse_node_populated nd n : parse_node (PDict nd) = Some n → populated nd n.
Proof.
  unfold parse_node. simpl. intros H.
  destruct (dict_get "id" nd) as [i|] eqn:Hi; [|done]. simpl in H.
  destruct (as_str i) as [i'|] eqn:Ei; [|done]. simpl in H.
  destruct (dict_get "handler" nd) as [h|] eqn:Hh; [|done]. simpl in H.
  destruct (as_str h) as [h'|] eqn:Eh; [|done]. simpl in H.
  destruct (parse_deps (dict_get "dependencies" nd)) as [deps|] eqn:Ed; [|done]. simpl in H.
  destruct (_ || _); [done|]. injection H as <-. split; [|split].
  - intros j Hj. rewrite Hi in Hj. injection Hj as ->. simpl in *. congruence.
  - intros j Hj. rewrite Hh in Hj. injection Hj as ->. simpl in *. congruence.
  - intros l Hl. rewrite Hl in Ed. simpl in Ed. rewrite as_str_strings in Ed. simpl. congruence.
Qed.

Lemma parse_node_obj n : node_model_ok n → ∃ n', parse_node (node_obj n) = Some n' ∧ same_node n n'.
Proof.
  intros [Hi Hh]. unfold parse_node, node_obj. simpl. rewrite as_str_strings. simpl.
  rewrite (proj2 (String.eqb_neq _ _) Hi), (proj2 (String.eqb_neq _ _) Hh). by eexists.
Qed.

Lemma parse_workflow_inv i name v t w :
  parse_workflow i name v t = Ok w →
  name ≠ "" ∧ wf_name w = name ∧ ∃ l, v = PList l ∧ mapM parse_node l = Some (nodes_of w).
Proof.
  unfold parse_workflow. destruct (String.eqb name "") eqn:E; [done|]. apply String.eqb_neq in E.
  destruct v; try done. simpl. destruct (mapM parse_node l) as [ns|] eqn:Hm; [|done].
  intros [= <-]. split; [done|]. split; [done|]. by exists l.
Qed.

Lemma reference_schema_laws : @WorkflowSchemaLaws reference_schema.
Proof.
  split; simpl.
  - intros i t d dag ds w Hdag Hnodes. rewrite Hdag, Hnodes. simpl.
    destruct (dict_get "name" d) as [[]|]; try done.
    intros (_ & _ & l & Hl & Hm)%parse_workflow_inv. injection Hl as <-.
    apply mapM_Some in Hm. apply Forall2_fmap_l in Hm.
    eapply Forall2_impl; [exact Hm|]. intros nd n. apply parse_node_populated.
  - intros i t d w. destruct (dict_get "name" d) as [[]|]; try done.
    destruct (dict_get "dag" d) as [[]|]; try done.
    intros (Hn & -> & l & _ & Hm)%parse_workflow_inv. split; [done|].
    apply mapM_Some in Hm. apply Forall_forall. intros n Hin. apply list_elem_of_lookup in Hin as [k Hk].
    destruct (Forall2_lookup_r _ _ _ _ _ Hm Hk) as (v & _ & Hv). by apply parse_node_ok in Hv.
  - intros g i name t Hname Hok. unfold parse_workflow. rewrite (proj2 (String.eqb_neq _ _) Hname).
    assert (Hex : ∃ ns, mapM parse_node (node_obj <$> dag_nodes g) = Some ns ∧ Forall2 same_node (dag_nodes g) ns).
    { assert (Hall : Forall (λ n, ∃ n', parse_node (node_obj n) = Some n' ∧ same_node n n') (dag_nodes g))
        by (eapply Forall_impl; [exact Hok|apply parse_node_obj]).
      apply Forall_exists_Forall2_l in Hall as (ns & Hall). exists ns. split.
      - apply mapM_Some, Forall2_fmap_l. eapply Forall2_impl; [exact Hall|]. naive_solver.
      - eapply Forall2_impl; [exact Hall|]. naive_solver. }
    destruct Hex as (ns & Hm & Hs). cbn [as_list mbind option_bind]. rewrite Hm. by eexists.
Qed.

Lemma reference_request_laws : @RequestSchemaLaws reference_schema.
Proof.
  split. intros i t r Hname Hok. change (∃ wf, parse_workflow i (sr_name r)
    (PList (PDict <$> (node_dump <$> request_nodes r))) t = Ok wf).
  unfold parse_workflow. rewrite (proj2 (String.eqb_neq _ _) Hname). cbn [as_list mbind option_bind].
  assert (Hall : Forall (λ n, ∃ n', parse_node (PDict (node_dump n)) = Some n') (request_nodes r)).
  { eapply Forall_impl; [exact Hok|]. intros n [Hi Hh]. unfold parse_node, node_dump. simpl.
    rewrite as_str_strings. simpl.
    rewrite (proj2 (String.eqb_neq _ _) Hi), (proj2 (String.eqb_neq _ _) Hh). by eexists. }
  apply Forall_exists_Forall2_l in Hall as (ns & Hall).
  assert (Hm : mapM parse_node (PDict <$> (node_dump <$> request_nodes r)) = Some ns)
    by (apply mapM_Some; by rewrite !Forall2_fmap_l).
  rewrite Hm. by eexists.
Qed.

(** ** A reference environment *)

(** A second passes between two looks at the clock, identifiers count up, and
    Redis answers. *)
Fixpoint hash (u : UUID) (s : string) : UUID :=
  match s with
  | EmptyString => (u mod uuid_bound)%N
  | String c s' => hash ((u * 257 + N.of_nat (code c)) mod uuid_bound)%N s'
  end.

Definition reference_env : Env := {|
  clock := λ n, (1700000000000000 + 1000000 * Z.of_nat n)%Z;
  uuid4_draw := λ n, ((1000 + N.of_nat n) mod uuid_bound)%N;
  redis_failure := λ _, None;
  uuid5 := hash;
|}.

Lemma reference_env_laws : @EnvLaws reference_env.
Proof. split. intros k. apply N.mod_lt. discriminate. Qed.

Definition reference_host : Host := {|
  getenv := λ _, None;
  parse_float := λ _, Some (float_of_Z 1);
  random_draw := λ _, float_of_Z 1;
  random_choice := λ _, 0;
  sha256_int := λ s, Z.of_nat (String.length s);
  monotonic_at := λ n, float_of_Z (Z.of_nat n);
  xread_answer := λ s after _ n, if 3 <=? n then [(s, [("1-0", [("participant", "a")])])] else [];
  xreadgroup_answer := λ _ _ s n _ l, [(s, imap (λ i f, (str_of_nat (S i) +:+ "-0", f)) (take (Z.to_nat n) l))];
  one_decimal := λ _, "5.0";
  quoted := λ s, "'" +:+ s +:+ "'";
  patience := λ _, 60;
|}.

Lemma reference_host_laws : @HostLaws reference_host.
Proof.
  split. intros g c s n k l m. simpl. unfold batch_messages. simpl. rewrite app_nil_r.
  intros ([i f] & -> & Hm)%list_elem_of_fmap. split; [done|]. simpl.
  apply elem_of_lookup_imap in Hm as (j & f' & Heq & Hj). injection Heq as _ ->.
  apply list_elem_of_lookup_2, elem_of_take in Hj as (j' & Hj' & _). by eapply list_elem_of_lookup_2.
Qed.

Section run.
#[local] Existing Instance reference_schema.
#[local] Existing Instance reference_env.
#[local] Existing Instance reference_host.
#[local] Existing Instance reference_host_laws.
#[local] Existing Instance reference_json.
#[local] Existing Instance reference_pydantic.

(** Participant "a" is released by the third answer; "b" waits until its five
    seconds are over, a second passing with each look at the clock. *)
Definition fresh_world : World :=
  {| w_db := empty_db; w_streams := []; w_acks := []; w_ticks := 0; w_draws := 0; w_calls := 0 |}.

Example barrier_released :
  let '(w', r) := participate_in_barrier "turn" "a" (float_of_Z 5) fresh_world in
  w_streams w' = [("integration.barrier:turn:arrivals", [("participant", "a")])] ∧ w_ticks w' = 4 ∧ r = Ok tt.
Proof. vm_compute. repeat split. Qed.

Example barrier_times_out :
  (participate_in_barrier "turn" "b" (float_of_Z 5) fresh_world).2 =
  Raise (RedisBarrierTimeout "Timed out after 5.0s waiting for release of 'b' on barrier 'turn'.").
Proof. vm_compute. reflexivity. Qed.

(** The clock passes the deadline, so the wait of "b" ends. *)
Lemma barrier_correct_witness :
  (participate_in_barrier "turn" "b" (float_of_Z 5) fresh_world).2 ≠ Raise fuel_exhausted.
Proof.
  pose proof (barrier_correct "turn" "b" (float_of_Z 5) fresh_world) as Hb.
  destruct (participate_in_barrier "turn" "b" (float_of_Z 5) fresh_world) as [w' r].
  destruct Hb as (_ & _ & _ & _ & Hend). apply Hend. exists 10.
  split; [apply (proj1 (Nat.leb_le 10 60)); reflexivity|vm_compute; reflexivity].
Defined.

Definition float_str (_ : spec_float) : string := "0.0".
Definition repr (s : string) : string := "'" +:+ s +:+ "'".
Definition py_str (_ : pyobj) : string := "value".
Definition pow (x : spec_float) (n : Z) : py spec_float :=
  Ok (Z.iter n (fmul x) (float_of_Z 1)).

(** A node that reads the workflow's input, and one that depends on it. *)
Definition definition : pydict :=
  obj [("name", PStr "two nodes");
       ("dag", PDict (obj [("nodes", PList
         [PDict (obj [("id", PStr "a"); ("handler", PStr "input"); ("dependencies", PList [])]);
          PDict (obj [("id", PStr "b"); ("handler", PStr "output");
                      ("dependencies", PList [PStr "a"])])])]))].

Definition rules : list rule := default_rules py_str false.
Definition lease : spec_float := float_of_Z 60.

Definition world0 : World :=
  {| w_db := empty_db; w_streams := []; w_acks := []; w_ticks := 0; w_draws := 0; w_calls := 0 |}.

Definition ok_or {A} (a : A) (r : py A) : A := match r with Ok b => b | Raise _ => a end.

(** Submitted, triggered, and its first node dispatched. *)
Definition submitted : World := (submit rules definition world0).1.
Definition x : UUID := 1001%N.
Definition triggered : World := (trigger x None submitted).1.

Definition node (i : string) (deps : list string) (h : string) : WorkflowNode :=
  {| wn_id := i; wn_handler := h; wn_dependencies := deps; wn_config := []; wn_created_at := 0%Z;
     wn_created_by := None |}.
Definition node_a : WorkflowNode := node "a" [] "input".
Definition node_b : WorkflowNode := node "b" ["a"] "output".
Definition execution : WorkflowExecution :=
  default {| we_execution_id := x; we_workflow_id := 0%N; we_status := WPending; we_input_data := [];
             we_created_at := 0%Z; we_started_at := None; we_completed_at := None |}
    (workflow_executions (w_db triggered) !! x).
Definition dispatched : World := (dispatch float_str repr execution node_a triggered).1.

Example run_example :
  (submit rules definition world0).2 = Ok {| ws_execution_id := x; ws_name := "two nodes";
     ws_created_at := clock 0 |} ∧
  (trigger x None submitted).2 = Ok {| wt_execution_id := x; wt_status := WRunning |} ∧
  match (dispatch float_str repr execution node_a triggered).2 with
  | Ok r => dp_outcome r = DISPATCHED
  | Raise _ => False
  end.
Proof. vm_compute. done. Qed.

(** ** Evaluation *)

Lemma run_at {A} (m : IO A) w w' a : w' = (m w).1 → (m w).2 = Ok a → m w = (w', Ok a).
Proof. intros ->. destruct (m w) as [w1 r]. simpl. by intros ->. Qed.

Lemma keeps_inv {A} (m : IO A) w : keeps evolves m → db_inv (w_db w) → db_inv (w_db (m w).1).
Proof. intros Hm Hw. by apply (Hm w Hw). Qed.

Ltac evaluate := vm_compute; reflexivity.
(** [run m w]: the result of running [m] on [w] is what the goal says. *)
Ltac run m w := apply (run_at m w); [reflexivity|evaluate].

Lemma world0_inv : db_inv (w_db world0).
Proof. by split. Qed.
Lemma submitted_inv : db_inv (w_db submitted).
Proof. apply keeps_inv, world0_inv. apply (submit_kept default_policy). typeclasses eauto. Qed.
Lemma triggered_inv : db_inv (w_db triggered).
Proof. apply keeps_inv, submitted_inv. apply (trigger_kept default_policy). typeclasses eauto. Qed.
Lemma dispatched_inv : db_inv (w_db dispatched).
Proof. apply keeps_inv, triggered_inv. apply (dispatch_kept default_policy). typeclasses eauto. Qed.

(** The processes between two steps of the run: the publisher drains the
    outbox, and a client asks again. *)
Definition ops : list operation := [OpPublishOutbox; OpTrigger x None; OpFinalize x].
Abbreviation run_ops := (run_operations float_str repr pow default_policy rules).

(** ** Witnesses: the state machine, submission, triggering *)

Lemma operations_follow_state_machine_witness :
  db_inv (w_db (run_ops ops dispatched)) ∧ db_moves (w_db dispatched) (w_db (run_ops ops dispatched)).
Proof. apply operations_follow_state_machine. exact dispatched_inv. Defined.

Lemma submit_correct_witness :
  match submit rules definition world0 with
  | (w', Ok s) => workflow_executions (w_db w') ≠ ∅
  | (w', Raise _) => False
  end.
Proof.
  pose proof (submit_correct rules definition world0 world0_inv) as Hs.
  assert (Hok : (submit rules definition world0).2 = Ok {| ws_execution_id := x; ws_name := "two nodes";
    ws_created_at := clock 0 |}) by evaluate.
  destruct (submit rules definition world0) as [w' [s|]]; [|done].
  destruct Hs as (w1 & wf & e & _ & _ & _ & _ & _ & _ & -> & _). apply insert_non_empty.
Defined.

Definition accepted : Workflow :=
  {| wf_workflow_id := 1000%N; wf_name := "two nodes"; wf_dag := {| dag_nodes := [node_a; node_b] |};
     wf_created_at := clock 0; wf_created_by := None |}.

Lemma accepted_definitions_are_dags_witness : wf_workflow accepted ∧ acyclic accepted.
Proof.
  apply (@accepted_definitions_are_dags reference_schema reference_schema_laws reference_env py_str false
    definition world0 (accept rules definition world0).1).
  run (accept rules definition) world0.
Defined.

Lemma submitted_graph_is_stored_witness :
  ∃ e wf, workflow_executions (w_db submitted) !! x = Some e ∧
    read_workflow (w_db submitted) (we_workflow_id e) = Ok (Some wf) ∧ wf_workflow wf ∧ acyclic wf.
Proof.
  destruct (@submitted_graph_is_stored reference_schema reference_schema_laws reference_env py_str false
    definition world0 submitted {| ws_execution_id := x; ws_name := "two nodes"; ws_created_at := clock 0 |})
    as (w1 & wf & e & wf' & _ & Hx & Hr & _ & _ & Hwf & Hac).
  - run (submit rules definition) world0.
  - exists e, wf'. exact (conj Hx (conj Hr (conj Hwf Hac))).
Defined.

Lemma trigger_correct_witness :
  let '(w', r) := trigger x None submitted in
  r = Ok {| wt_execution_id := x; wt_status := WRunning |}.
Proof.
  pose proof (trigger_correct x None submitted ltac:(evaluate)) as Ht.
  assert (Hok : (trigger x None submitted).2 = Ok {| wt_execution_id := x; wt_status := WRunning |}) by evaluate.
  by destruct (trigger x None submitted) as [w' r].
Defined.

Lemma trigger_at_most_once_witness :
  ∃ w3 s, trigger x None (run_ops ops triggered) =
    (w3, Raise (WorkflowExecutionNotTriggerableError (uuid_str x) s)) ∧ s ≠ WPending ∧
    w_db w3 = w_db (run_ops ops triggered).
Proof.
  apply (trigger_at_most_once float_str repr pow default_policy rules x None submitted triggered
    {| wt_execution_id := x; wt_status := WRunning |} ops None).
  - exact submitted_inv.
  - run (trigger x None) submitted.
Defined.

(** ** Witnesses: dispatch *)

Definition dispatch_result : DispatchResult :=
  {| dp_execution_id := x; dp_node_id := "a"; dp_task_id := Some (create_task_id x "a");
     dp_outcome := DISPATCHED; dp_reason := None |}.

Lemma dispatch_run :
  dispatch float_str repr execution node_a triggered = (dispatched, Ok dispatch_result).
Proof. run (dispatch float_str repr execution node_a) triggered. Qed.

Lemma dispatch_correct_witness : claimed float_str repr execution node_a (w_db triggered) (w_db dispatched).
Proof.
  pose proof (dispatch_correct float_str repr execution node_a triggered triggered_inv) as Hd.
  rewrite dispatch_run in Hd. exact (proj2 (proj2 (proj2 Hd))).
Defined.

Lemma triggered_attempts k b : task_attempts (w_db triggered) !! k = Some b → False.
Proof.
  assert (He : task_attempts (w_db triggered) = ∅) by evaluate. rewrite He, lookup_empty. congruence.
Qed.

Definition row_a : NodeExecution :=
  default {| ne_workflow_execution_id := x; ne_node_id := "a"; ne_status := NFailed;
             ne_output_data := PNone; ne_error_message := None; ne_error_type := None;
             ne_created_at := 0%Z; ne_started_at := None; ne_completed_at := None |}
    (node_executions (w_db triggered) !! (x, "a")).

Lemma dispatch_progress_witness :
  ∃ w' r, dispatch float_str repr execution node_a triggered = (w', Ok r) ∧ dp_outcome r = DISPATCHED ∧
    dp_task_id r = Some (create_task_id x "a").
Proof.
  apply (dispatch_progress float_str repr execution node_a [] triggered row_a).
  - exact triggered_inv.
  - exists execution. evaluate.
  - evaluate.
  - evaluate.
  - intros dep Hdep. inversion Hdep.
  - evaluate.
  - split; intros E; discriminate E.
  - vm_compute. lia.
  - vm_compute. lia.
  - evaluate.
  - evaluate.
  - intros k b Hb. destruct (triggered_attempts k b Hb).
  - evaluate.
  - evaluate.
Defined.

Lemma dispatch_at_most_once_witness :
  let '(w3, r2) := dispatch float_str repr execution node_a (run_ops ops dispatched) in
  no_task_stored (w_db (run_ops ops dispatched)) (w_db w3) ∧
  match r2 with Ok r' => dp_outcome r' = ALREADY_STARTED | Raise _ => True end.
Proof.
  pose proof (dispatch_at_most_once float_str repr pow default_policy rules execution node_a triggered
    dispatched dispatch_result ops execution node_a triggered_inv dispatch_run eq_refl eq_refl eq_refl) as Hd.
  exact Hd.
Defined.

(** ** The first node's task *)

Definition attempt_a : UUID := 1003%N.
Definition task_a : NodeTaskMessage :=
  {| tm_message_id := None; tm_task_id := create_task_id x "a"; tm_attempt_id := attempt_a;
     tm_attempt_number := 1; tm_execution_id := x; tm_node_id := "a"; tm_handler := "input";
     tm_handler_config := []; tm_resolved_input := [] |}.

(** A worker claims the task, runs its handler and records the result. *)
Definition claimed_a : World := (_claim_task "worker-1" lease task_a dispatched).1.
Definition recorded_a : World := (_execute_and_record "worker-1" lease 1 task_a claimed_a).1.
Definition event_a : TaskCompletionEvent := completed_event 1004%N task_a (PDict []).

Example claim_example : (_claim_task "worker-1" lease task_a dispatched).2 = Ok CLAIMED.
Proof. evaluate. Qed.

Lemma record_run :
  _execute_and_record "worker-1" lease 1 task_a claimed_a = (recorded_a, Ok event_a).
Proof. run (_execute_and_record "worker-1" lease 1 task_a) claimed_a. Qed.

(** The orchestrator processes it. *)
Definition completed_a : World := (process pow default_policy event_a recorded_a).1.
Definition decision_a : TaskCompletionDecision := completion_decision event_a TPROCESSED ["b"] None None.

Lemma process_run_a : process pow default_policy event_a recorded_a = (completed_a, Ok decision_a).
Proof. run (process pow default_policy event_a) recorded_a. Qed.

Lemma claimed_a_inv : db_inv (w_db claimed_a).
Proof. apply keeps_inv, dispatched_inv. unfold _claim_task. compose. Qed.

Lemma recorded_a_inv : db_inv (w_db recorded_a).
Proof.
  apply keeps_inv, claimed_a_inv. unfold _execute_and_record, _record_result.
  assert (keeps evolves (repeat_io 1 (renew_claim_once "worker-1" lease task_a)))
    by (unfold renew_claim_once; simpl; compose).
  assert (quiet (handler_event task_a)) by apply handler_event_quiet. compose.
Qed.

(** ** Witnesses: completion *)

Lemma completed_a_inv : db_inv (w_db completed_a).
Proof. apply keeps_inv; [apply process_kept; typeclasses eauto|exact recorded_a_inv]. Qed.

Lemma terminal_states_are_final_witness :
  ∃ n n', node_executions (w_db completed_a) !! (x, "a") = Some n ∧ ne_status n = NCompleted ∧
    node_executions (w_db (run_ops ops completed_a)) !! (x, "a") = Some n' ∧ ne_status n' = ne_status n.
Proof.
  assert (Hr : row_status (w_db completed_a) x "a" = Some NCompleted) by evaluate.
  apply fmap_Some in Hr as (n & Hn & Hs). exists n.
  destruct (proj1 (terminal_states_are_final float_str repr pow default_policy rules ops completed_a
    completed_a_inv) (x, "a") n Hn) as (n' & Hn' & Hs').
  - rewrite <- Hs. reflexivity.
  - exists n'. exact (conj Hn (conj (eq_sym Hs) (conj Hn' Hs'))).
Defined.

Lemma completion_success_witness :
  ∃ ex ex', workflow_executions (w_db recorded_a) !! x = Some ex ∧
    workflow_executions (w_db completed_a) !! x = Some ex' ∧ announced event_a (w_db completed_a).
Proof.
  destruct (completion_success pow default_policy event_a recorded_a completed_a decision_a recorded_a_inv
    eq_refl process_run_a eq_refl) as (ex & ex' & n & t & wf & _ & _ & _ & Ha & Hx & _ & _ & Hx' & _).
  exists ex, ex'. exact (conj Hx (conj Hx' Ha)).
Defined.

(** The same task fails, under a policy with a single attempt and under the
    default one. *)
Definition event_f : TaskCompletionEvent := failed_event 2000%N task_a "boom" "ValueError".
Definition one_attempt : RetryPolicy :=
  {| rp_max_attempts := 1; rp_initial_delay_seconds := float_of_Z 1;
     rp_backoff_multiplier := float_of_Z 2; rp_max_delay_seconds := None |}.
Definition failed_a : World := (process pow one_attempt event_f claimed_a).1.
Definition retried_a : World := (process pow default_policy event_f claimed_a).1.
Definition decision_f : TaskCompletionDecision := completion_decision event_f TPROCESSED [] None None.
Definition decision_r : TaskCompletionDecision :=
  completion_decision event_f TRETRY_SCHEDULED [] (Some (uuid_str 1004%N)) (Some 2%Z).

Lemma process_run_f : process pow one_attempt event_f claimed_a = (failed_a, Ok decision_f).
Proof. run (process pow one_attempt event_f) claimed_a. Qed.
Lemma process_run_r : process pow default_policy event_f claimed_a = (retried_a, Ok decision_r).
Proof. run (process pow default_policy event_f) claimed_a. Qed.

(** The node that depends on it is failed too, and so is the workflow. *)
Example failure_example :
  row_status (w_db failed_a) x "b" = Some NFailed ∧
  we_status <$> workflow_executions (w_db failed_a) !! x = Some WFailed.
Proof. vm_compute. done. Qed.

Lemma completion_failure_witness :
  ∃ ex ex', workflow_executions (w_db claimed_a) !! x = Some ex ∧
    workflow_executions (w_db failed_a) !! x = Some ex' ∧
    we_status ex' = (if decide (we_status ex = WRunning) then WFailed else we_status ex).
Proof.
  destruct (completion_failure pow one_attempt event_f claimed_a failed_a decision_f claimed_a_inv
    eq_refl process_run_f eq_refl) as (ex & ex' & n & t & wf & _ & _ & _ & _ & _ & Hx & _ & _ & Hx' & Hs).
  exists ex, ex'. exact (conj Hx (conj Hx' Hs)).
Defined.

Lemma completion_retry_witness : same_core (w_db claimed_a) (w_db retried_a).
Proof.
  exact (proj1 (proj2 (proj2 (completion_retry pow default_policy event_f claimed_a retried_a decision_r
    claimed_a_inv process_run_r eq_refl)))).
Defined.

(** A minute later the second attempt is due. *)
Definition due_time : datetime := (clock (w_ticks retried_a) + 60000000)%Z.
Definition retries_published : World := (publish_due_retries (Some due_time) retried_a).1.

Lemma due_retries_correct_witness :
  ∃ msgs, w_streams retries_published = w_streams retried_a ++ msgs ∧ length msgs = 1.
Proof.
  assert (Hkey : ∀ k a, task_attempts (w_db retried_a) !! k = Some a → at_attempt_id a = k)
    by exact (bool_decide_unpack (map_Forall (λ k a, at_attempt_id a = k) (task_attempts (w_db retried_a)))
         ltac:(vm_compute; exact I)).
  assert (Hrun : publish_due_retries (Some due_time) retried_a = (retries_published, Ok 1%Z))
    by run (publish_due_retries (Some due_time)) retried_a.
  pose proof (due_retries_correct due_time retried_a Hkey) as Hdue. rewrite Hrun in Hdue.
  destruct Hdue as (done & rest & msgs & _ & Hs & Hall & _ & _ & Hn). exists msgs. split; [exact Hs|].
  rewrite <- (Forall2_length _ _ _ Hall). lia.
Defined.

Lemma completion_redelivery_witness :
  ∃ w3, process pow default_policy event_a completed_a = (w3, Ok (duplicate_decision event_a)) ∧
        w_db w3 = w_db completed_a.
Proof.
  apply (completion_redelivery pow default_policy event_a recorded_a completed_a decision_a completed_a
    recorded_a_inv process_run_a eq_refl).
  intros E. discriminate E.
Defined.

Lemma completion_at_most_once_witness :
  let '(w3, r) := process pow default_policy event_f (run_ops ops completed_a) in
  same_core (w_db (run_ops ops completed_a)) (w_db w3) ∧
  match r with Ok d2 => tc_outcome d2 ≠ TPROCESSED ∧ tc_ready_node_ids d2 = [] | Raise _ => True end.
Proof.
  pose proof (completion_at_most_once float_str repr pow default_policy rules event_a recorded_a completed_a
    decision_a ops event_f recorded_a_inv process_run_a eq_refl eq_refl eq_refl) as Hc.
  exact Hc.
Defined.

Definition first_ops : list operation := [OpSubmit definition; OpTrigger x None; OpPublishOutbox].

Lemma retries_are_bounded_witness :
  attempts_ok 3 (w_db (run_ops first_ops world0)) ∧
  attempts_move (w_db world0) (w_db (run_ops first_ops world0)) ∧
  ∀ t, length (attempts_of (w_db (run_ops first_ops world0)) t) ≤ 3.
Proof.
  apply (retries_are_bounded float_str repr pow default_policy rules first_ops world0).
  - cbn. lia.
  - assert (He : task_attempts (w_db world0) = ∅) by reflexivity.
    split; intros *; rewrite He, lookup_empty; congruence.
Defined.

Lemma finalization_correct_witness :
  match finalization_evaluate x failed_a with
  | (w', Raise _) => w_db w' = w_db failed_a
  | (w', Ok f) => ∃ ex, workflow_executions (w_db failed_a) !! x = Some ex
  end.
Proof.
  assert (Hi : db_inv (w_db failed_a))
    by (apply keeps_inv; [apply process_kept; typeclasses eauto|exact claimed_a_inv]).
  pose proof (finalization_correct x failed_a Hi) as Hf.
  destruct (finalization_evaluate x failed_a) as [w' [f|]]; [|exact Hf].
  destruct Hf as (ex & Hx & _). exists ex. exact Hx.
Defined.

Lemma results_correct_witness :
  ∃ r, results_get x completed_a = (completed_a, Ok r).
Proof.
  assert (Hi : db_inv (w_db completed_a))
    by (apply keeps_inv; [apply process_kept; typeclasses eauto|exact recorded_a_inv]).
  destruct (results_correct x completed_a Hi) as (r & Hr & _). exists r. exact Hr.
Defined.

(** ** Witnesses: graphs *)

Lemma accepted_ok : wf_workflow accepted ∧ acyclic accepted.
Proof.
  destruct (@accept_wf reference_schema reference_schema_laws reference_env py_str false
    definition world0 (accept rules definition world0).1 accepted) as (Hw & Ha & _).
  - run (accept rules definition) world0.
  - exact (conj Hw Ha).
Qed.

Lemma from_workflow_refines_witness : from_workflow accepted = Ok (dag_of accepted).
Proof. exact (from_workflow_refines accepted (proj1 accepted_ok)). Defined.

Lemma evaluate_ready_node_ids_correct_witness :
  NoDup (evaluate_ready_node_ids accepted ∅) ∧ evaluate_ready_node_ids accepted ∅ = ["a"].
Proof.
  split; [exact (proj2 (proj2 (evaluate_ready_node_ids_correct accepted ∅ (proj1 accepted_ok))))|evaluate].
Defined.

Lemma ready_progress_witness :
  (∀ i, i ∈ node_ids accepted → status_of {["a" := NCompleted]} i = NCompleted) ∨
  evaluate_ready_node_ids accepted {["a" := NCompleted]} ≠ [].
Proof.
  apply (ready_progress accepted {["a" := NCompleted]} (proj1 accepted_ok) (proj2 accepted_ok)).
  intros i Hi. change (node_ids accepted) with ["a"; "b"] in Hi.
  apply elem_of_cons in Hi as [->|Hi]; [right; evaluate|].
  apply list_elem_of_singleton in Hi as ->. left. evaluate.
Defined.

Lemma evaluate_failed_dependency_correct_witness :
  ∃ blocked, evaluate_failed_dependency_node_ids accepted {["a" := NFailed]} = Some (Ok blocked) ∧
    (∀ i, i ∈ blocked ↔ Blocked accepted {["a" := NFailed]} i) ∧ blocked `sublist_of` node_ids accepted.
Proof. exact (evaluate_failed_dependency_correct accepted {["a" := NFailed]} (proj1 accepted_ok)). Defined.

(** Two nodes that depend on each other. *)
Definition two_cycle : adjacency := [("a", ["b"]); ("b", ["a"])].

Lemma cycle_errors_correct_witness :
  ∃ errors, cycle_errors two_cycle = Some (Ok errors) ∧
    Forall (genuine two_cycle) errors ∧ (errors = [] ↔ acyclic_graph two_cycle).
Proof.
  apply (cycle_errors_correct two_cycle).
  - apply (bool_decide_unpack (NoDup two_cycle.*1)). evaluate.
  - intros i j Hij. unfold edge, edges, two_cycle in *. cbn [aget] in Hij.
    destruct (String.eqb i "a"); [|destruct (String.eqb i "b")]; simpl in *; set_solver.
Defined.

(** ** Witnesses: outbox and worker *)

Lemma outbox_keys_check d :
  forallb (λ kr, N.eqb (ob_event_id kr.2) kr.1) (map_to_list (outbox_events d)) = true → outbox_keys d.
Proof.
  rewrite forallb_forall. intros Hb k r Hk. apply elem_of_map_to_list, list_elem_of_In in Hk.
  by apply N.eqb_eq, (Hb (k, r)).
Qed.

Lemma publish_pending_correct_witness :
  let '(w', r) := publish_pending dispatched in
  ∃ done_rows msgs, delivered done_rows msgs ∧ w_streams w' = w_streams dispatched ++ msgs.
Proof.
  pose proof (publish_pending_correct dispatched (outbox_keys_check (w_db dispatched) ltac:(evaluate))) as Hp.
  destruct (publish_pending dispatched) as [w' r]. destruct Hp as (l & msgs & Hd & Hs & _).
  exists l, msgs. exact (conj Hd Hs).
Defined.

(** Two rows are pending after the dispatch, and the publisher sends both. *)
Example publish_example :
  (publish_pending dispatched).2 = Ok 2%Z ∧
  (fst <$> w_streams (publish_pending dispatched).1) = [WORKFLOW_EVENTS_STREAM; WORKFLOW_TASKS_STREAM].
Proof. vm_compute. done. Qed.

Definition drained_world : World := (publish_pending dispatched).1.

Lemma cleanup_correct_witness :
  match cleanup_published 0 1 drained_world with
  | (w', Raise _) => w_db w' = w_db drained_world
  | (w', Ok n) => (n ≤ 1)%Z
  end.
Proof.
  pose proof (cleanup_correct 0 1 drained_world (outbox_keys_check (w_db drained_world) ltac:(evaluate))) as Hc.
  destruct (cleanup_published 0 1 drained_world) as [w' [n|]]; [|exact Hc].
  destruct Hc as (cutoff & removed & _ & _ & Hn & _). exact Hn.
Defined.

(** Worker 1 claims, another worker tries in vain, worker 1 renews. *)
Definition claim_at (wk : string) (t t' : datetime) : IO TaskClaimOutcome :=
  transaction (claim_attempt attempt_a (create_task_id x "a") x "a" wk t t').
Definition leased : World := (claim_at "worker-1" 0%Z 60000000%Z dispatched).1.
Definition contested : World := (claim_at "worker-2" 1000000%Z 61000000%Z leased).1.
Definition renewed : World := (transaction (attempt_renew_claim attempt_a "worker-1" 65000000%Z) contested).1.

Lemma claim_exclusive_witness :
  ∃ o, claim_attempt attempt_a (create_task_id x "a") x "a" "worker-3" 30000000%Z 90000000%Z renewed =
    (renewed, Ok o) ∧ o ≠ CLAIMED.
Proof.
  refine (proj2 (claim_exclusive float_str repr pow default_policy py_str false lease attempt_a
    (create_task_id x "a") x "a" "worker-1" 0%Z 60000000%Z dispatched leased [] (System renewed [])
    30000000%Z _ _ _ _) "worker-3" 30000000%Z 90000000%Z _ _).
  - run (claim_at "worker-1" 0%Z 60000000%Z) dispatched.
  - evaluate.
  - apply (rtc_l _ _ (System contested []));
      [apply (step_claim _ _ _ _ _ _ _ attempt_a (create_task_id x "a") x "a"); simpl; lia|].
    apply rtc_once. apply (step_renew _ _ _ _ _ _ _ attempt_a). exists 5000000%Z. split; [lia|evaluate].
  - lia.
  - lia.
  - vm_compute. lia.
Defined.

Definition logical_a : LogicalTaskRecord :=
  initial_task (create_task_id x "a") x "a" "input" [] [] (clock 7).
Definition stored_attempt (w : World) : TaskAttemptRecord :=
  default (new_attempt 0%N "" 0 AFailed None None 0%Z) (task_attempts (w_db w) !! attempt_a).

Lemma task_a_belongs w :
  task_attempts (w_db w) !! attempt_a = Some (stored_attempt w) →
  logical_tasks (w_db w) !! create_task_id x "a" = Some logical_a →
  at_task_id (stored_attempt w) = create_task_id x "a" →
  belongs (w_db w) (tm_attempt_id task_a) (tm_task_id task_a) (tm_execution_id task_a) (tm_node_id task_a)
    (stored_attempt w).
Proof.
  intros Ha Hl Ht. split; [exact Ha|]. split; [exact Ht|]. exists logical_a.
  split; [exact Hl|]. split; reflexivity.
Qed.

(** The worker has recorded its result and is gone; another delivery has
    taken place meanwhile. *)
Definition claimed_again (w : World) : World := (claim_at "worker-2" 1800000000000000%Z 1800000060000000%Z w).1.

Lemma claim_again_step w :
  step float_str repr pow default_policy py_str false (System w []) (System (claimed_again w) []).
Proof. apply (step_claim _ _ _ _ _ _ _ attempt_a (create_task_id x "a") x "a"). exact I. Qed.

Lemma recorded_result_is_replayed_witness :
  ∃ w3, w_db w3 = w_db (claimed_again recorded_a) ∧ w_streams w3 = w_streams (claimed_again recorded_a) ∧
    w_acks w3 = w_acks (claimed_again recorded_a) ∧
    process_task "worker-2" lease 0 "workflow.tasks" "1-0" task_a (claimed_again recorded_a) =
      _publish_complete_and_ack "workflow.tasks" "1-0" event_a w3.
Proof.
  destruct (recorded_result_is_replayed float_str repr pow default_policy py_str false lease "worker-1" 1
    task_a claimed_a recorded_a event_a (stored_attempt claimed_a) [] (System (claimed_again recorded_a) [])
    (task_a_belongs claimed_a ltac:(evaluate) ltac:(evaluate) ltac:(evaluate)) record_run
    (rtc_once _ _ (claim_again_step recorded_a))) as (a & (Ha & _) & Hc).
  assert (Hrow : task_attempts (w_db (claimed_again recorded_a)) !! attempt_a =
    Some (stored_attempt (claimed_again recorded_a))) by evaluate.
  pose proof (eq_trans (eq_sym Ha) Hrow) as E. apply (inj Some) in E. rewrite E in Hc. destruct Hc as [Hc|[Hc|Hc]].
  - exfalso. revert Hc. vm_compute. discriminate.
  - exfalso. destruct Hc as [f Hc]. revert Hc. vm_compute. discriminate.
  - apply (Hc "worker-2" 0 "workflow.tasks" "1-0" (clock (w_ticks (claimed_again recorded_a)) + 60000000)%Z).
    + vm_compute. lia.
    + evaluate.
Defined.

(** ** Witnesses: templates and messages *)

Definition name_ref : TemplateReference := {| tr_node_id := "a"; tr_path := ["name"] |}.
Definition greeting : list TemplateSegment := [Text "hello "; Reference name_ref].
Definition outputs : pydict := obj [("a", PDict (obj [("name", PStr "Ada")]))].

Lemma name_ref_grammar : reference_grammar " a . name " name_ref.
Proof.
  exists " ", " . name", " ". split; [reflexivity|]. split; [reflexivity|]. split; [reflexivity|].
  split; [reflexivity|]. split; [discriminate|].
  change " . name" with (" " +:+ "." +:+ " " +:+ "name" +:+ "").
  apply dotted_cons; [reflexivity|reflexivity|reflexivity|constructor].
Qed.

Lemma greeting_template : template greeting "hello {{ a . name }}".
Proof.
  apply (template_cons "hello " " a . name " name_ref [] ""); [reflexivity|reflexivity|exact name_ref_grammar|].
  apply (template_text ""); reflexivity.
Qed.

Lemma name_ref_template : template [Reference name_ref] "{{ a . name }}".
Proof.
  apply (template_cons "" " a . name " name_ref [] ""); [reflexivity|reflexivity|exact name_ref_grammar|].
  apply (template_text ""); reflexivity.
Qed.

Lemma resolve_json_witness : json_object (obj [("n", PInt 1)]).
Proof.
  exact (resolve_json float_str repr outputs node_a (obj [("n", PInt 1)]) (obj [("n", PInt 1)])
    eq_refl eq_refl eq_refl eq_refl).
Defined.

Lemma resolve_string_reference_witness :
  ∃ v, dict_get "a" outputs = Some v ∧ at_path v ["name"] (PStr "Ada") ∧ json_finite (PStr "Ada") = true.
Proof.
  apply (resolve_string_reference float_str repr outputs "{{ a . name }}" name_ref (PStr "Ada") name_ref_template).
  evaluate.
Defined.

Lemma resolve_string_segments_witness :
  ∃ texts, Forall2 (segment_denotes float_str outputs) greeting texts ∧
    PStr "hello Ada" = PStr (String.concat "" texts).
Proof.
  apply (resolve_string_segments float_str repr outputs "hello {{ a . name }}" greeting (PStr "hello Ada")
    greeting_template).
  - exists name_ref. right. left.
  - intros r E. discriminate E.
  - evaluate.
Defined.

(** An event of a handler that raised an exception without a message. *)
Definition mute_event : TaskCompletionEvent := failed_event 77%N task_a "" "KeyError".

Lemma completion_event_round_trip_witness :
  (∃ fields, event_to_stream_fields event_a = Ok fields ∧
    event_from_stream_fields fields = Ok (carried event_a)) ∧
  (∃ fields, event_to_stream_fields mute_event = Ok fields ∧
    event_from_stream_fields fields =
      Raise (ValueError "Task completion event field 'error_message' is required.")).
Proof.
  split.
  - apply (@completion_event_round_trip reference_json reference_json_laws event_a).
    + split; vm_compute; done.
    + intros _. vm_compute. reflexivity.
  - apply (@completion_event_round_trip reference_json reference_json_laws mute_event).
    + split; vm_compute; done.
    + discriminate.
Defined.

Lemma task_message_round_trip_witness :
  ∃ fields, message_to_stream_fields task_a = Ok fields ∧
    message_from_stream_fields fields = Ok (sort_message task_a).
Proof.
  apply (@task_message_round_trip reference_json reference_json_laws reference_pydantic
    reference_pydantic_laws task_a).
  split; [split; [vm_compute; done|intros u E; discriminate E]|vm_compute; done|split; vm_compute; [discriminate|reflexivity]|vm_compute; done].
Defined.

(** ** Witnesses: findings *)

Definition processed_a : World := (process_task "worker-1" lease 1 "workflow.tasks" "1-0" task_a dispatched).1.
Definition settled_a : World := (process pow default_policy event_a (claimed_again processed_a)).1.

Lemma success_leaves_logical_task_witness :
  logical_tasks (w_db settled_a) = logical_tasks (w_db (claimed_again processed_a)).
Proof.
  apply (success_leaves_logical_task pow default_policy lease py_str false float_str repr "worker-1" 1
    "workflow.tasks" "1-0" task_a dispatched processed_a (stored_attempt dispatched) []
    (System (claimed_again processed_a) []) event_a settled_a decision_a).
  - exact dispatched_inv.
  - apply task_a_belongs; evaluate.
  - evaluate.
  - run (process_task "worker-1" lease 1 "workflow.tasks" "1-0" task_a) dispatched.
  - apply rtc_once, claim_again_step.
  - reflexivity.
  - reflexivity.
  - run (process pow default_policy event_a) (claimed_again processed_a).
Defined.

(** The failure of [task_a] stored while its claim is still running. *)
Definition failure_decision : RetryDecision :=
  {| dec_outcome := RETRY_SCHEDULED; dec_next_attempt_id := Some 1004%N;
     dec_next_attempt_number := Some 2%Z |}.
Definition failed_early : World :=
  (record_failure (create_task_id x "a") attempt_a 2000%N "boom" "ValueError" 0%Z 3%Z 0%Z claimed_a).1.

Lemma early_failure_reopens_attempt_witness :
  ∃ w2, claim_attempt attempt_a (create_task_id x "a") x "a" "worker-2" 1800000000000000%Z
    1800000060000000%Z failed_early = (w2, Ok CLAIMED).
Proof.
  refine (proj2 (early_failure_reopens_attempt (create_task_id x "a") attempt_a 2000%N "boom" "ValueError"
    0%Z 3%Z 0%Z claimed_a failed_early failure_decision (stored_attempt claimed_a) 0%Z logical_a x "a"
    "worker-2" 1800000000000000%Z 1800000060000000%Z _ _ _ _ _ _ _ _)).
  - run (record_failure (create_task_id x "a") attempt_a 2000%N "boom" "ValueError" 0%Z 3%Z 0%Z) claimed_a.
  - discriminate.
  - evaluate.
  - reflexivity.
  - reflexivity.
  - evaluate.
  - evaluate.
  - vm_compute. lia.
Defined.

(** ** Witnesses: the system *)

#[local] Existing Instance reference_schema_laws.
#[local] Existing Instance reference_env_laws.
#[local] Existing Instance reference_json_laws.

Abbreviation sys_step := (step float_str repr pow default_policy py_str false).
Abbreviation sys_reachable := (reachable float_str repr pow default_policy py_str false).

Definition sys_submitted : system := System submitted [].
Definition sys_triggered : system := System triggered [].

Lemma submit_step : sys_step (System world0 []) sys_submitted.
Proof. exact (step_submit _ _ _ _ _ _ _ definition world0 []). Qed.
Lemma trigger_step : sys_step sys_submitted sys_triggered.
Proof. exact (step_trigger _ _ _ _ _ _ _ x None submitted []). Qed.

Lemma sys_submitted_reachable : sys_reachable sys_submitted.
Proof. exists (System world0 []). split; [by split|]. apply rtc_once, submit_step. Qed.
Lemma sys_triggered_reachable : sys_reachable sys_triggered.
Proof.
  exists (System world0 []). split; [by split|]. eapply rtc_l; [exact submit_step|]. apply rtc_once, trigger_step.
Qed.

(** The stored definition, and the execution before it is triggered. *)
Definition stored : Workflow :=
  match read_workflow (w_db triggered) (we_workflow_id execution) with Ok (Some g) => g | _ => accepted end.
Definition pending_execution : WorkflowExecution := default execution (workflow_executions (w_db submitted) !! x).

Lemma execution_stored : workflow_executions (w_db triggered) !! x = Some execution.
Proof. evaluate. Qed.

Lemma system_refines_lifecycle_witness :
  ∃ r r', represents (w_db submitted) x r ∧ represents (w_db triggered) x r' ∧ rtc run_step r r'.
Proof.
  destruct (system_refines_lifecycle float_str repr pow default_policy py_str false
    sys_submitted sys_triggered sys_submitted_reachable trigger_step) as [Hold _].
  apply Hold. exists pending_execution. evaluate.
Defined.

Lemma reachable_invariant_witness :
  ∃ g, read_workflow (w_db triggered) (we_workflow_id execution) = Ok (Some g) ∧ wf_workflow g ∧ acyclic g.
Proof.
  destruct (reachable_invariant float_str repr pow default_policy py_str false
    sys_triggered x execution sys_triggered_reachable execution_stored) as (g & Hg & Hwf & Hac & _).
  exists g. exact (conj Hg (conj Hwf Hac)).
Defined.

Lemma reachable_progress_witness :
  ∃ r, readiness_evaluate x triggered = (triggered, Ok r) ∧
    (rd_ready_node_ids r ≠ [] ∨ ∃ i, row_status (w_db triggered) x i = Some NRunning).
Proof.
  apply (reachable_progress float_str repr pow default_policy py_str false sys_triggered x execution stored).
  - exact sys_triggered_reachable.
  - exact execution_stored.
  - evaluate.
  - evaluate.
  - vm_compute. discriminate.
Defined.

Lemma execution_settles_witness : 1 ≤ 1 + 2 * length (node_ids stored).
Proof.
  apply (execution_settles float_str repr pow default_policy py_str false sys_submitted sys_triggered x
    pending_execution stored 1).
  - exact sys_submitted_reachable.
  - evaluate.
  - evaluate.
  - eapply changes_more; [exact trigger_step| |apply changes_none].
    intros [Hs _]. vm_compute in Hs. discriminate Hs.
Defined.

(** The orchestrator's turn publishes the trigger event, consumes it and
    dispatches node "a". *)
Definition turned : World :=
  (run_once float_str repr pow default_policy "host-1" (float_of_Z 604800) triggered).1.

Lemma processes_take_steps_witness :
  (∃ a, rtc sys_step (System triggered [])
     (System (run_loop float_str repr pow default_policy "host-1" (float_of_Z 604800) 1 triggered).1 a)) ∧
  node_executions (w_db turned) ≠ node_executions (w_db triggered).
Proof.
  split.
  - exact (proj1 (processes_take_steps float_str repr pow default_policy py_str false triggered [])
      "host-1" (float_of_Z 604800) 1).
  - intros He. assert (Hl : (ne_status <$> node_executions (w_db turned) !! (x, "a")) =
      (ne_status <$> node_executions (w_db triggered) !! (x, "a"))) by (rewrite He; reflexivity).
    vm_compute in Hl. discriminate Hl.
Defined.

(** After the turn node "a" runs. *)
Lemma turned_reachable : ∃ a, sys_reachable (System turned a).
Proof.
  destruct (run_once_steps float_str repr pow default_policy py_str false
    "host-1" (float_of_Z 604800) triggered []) as [a Ha].
  exists a, (System world0 []). split; [by split|].
  eapply rtc_l; [exact submit_step|]. eapply rtc_l; [exact trigger_step|].
  exact Ha.
Qed.

Lemma no_task_is_lost_witness : node_task turned x "a".
Proof.
  destruct turned_reachable as [a Ha].
  assert (Hr : row_status (w_db turned) x "a" = Some NRunning) by evaluate.
  exact (proj1 (no_task_is_lost float_str repr pow default_policy py_str false (System turned a) Ha) x "a" Hr).
Defined.

Definition run0 : Lifecycle.run :=
  Run accepted WPending (<["a" := NPending]> (<["b" := NPending]> ∅)).

Lemma run0_initial : run_initial run0.
Proof.
  destruct (accept_wf py_str false definition world0 (accept rules definition world0).1 accepted)
    as (Hwf & Hac & _); [run (accept rules definition) world0|].
  split; [exact Hwf|]. split; [exact Hac|]. split; [reflexivity|]. intros i.
  change (node_ids (run_graph run0)) with ["a"; "b"].
  change (run_nodes run0) with (<["a" := NPending]> (<["b" := NPending]> ∅) : gmap string NodeExecutionStatus).
  rewrite !lookup_insert, lookup_empty.
  destruct (decide ("a" = i)), (decide ("b" = i)), (decide (i ∈ ["a"; "b"])); try reflexivity; set_solver.
Qed.

Lemma every_run_ends_witness :
  node_ids (run_graph run0) ≠ [] ∧
  ((∀ k r', nsteps run_step k run0 r' → k ≤ 5) ∧
   ∀ r', rtc run_step run0 r' → (∀ r'', ¬ run_step r' r'') → workflow_terminal (run_status r') = true).
Proof. split; [discriminate|]. apply (every_run_ends run0 run0_initial). discriminate. Defined.

(** ** Witnesses: the endpoints and the worker's runtime *)

Definition json_datetime (_ : datetime) : string := "2024-01-01T00:00:00Z".

Lemma submit_endpoint_correct_witness :
  match submit_workflow rules json_datetime definition world0 with
  | (w', Ok answer) => status_code answer = HTTP_201_CREATED ∨ w_db w' = w_db world0
  | (w', Raise e) => False
  end.
Proof.
  assert (Hs : ∀ i t e, model_validate i t definition = Raise e → ∃ m, e = PydanticValidationError m).
  { intros i t e He. vm_compute in He. discriminate He. }
  pose proof (submit_endpoint_correct rules json_datetime definition world0 Hs) as Hc.
  assert (Hv : validate rules definition = Ok []) by evaluate. rewrite Hv in Hc.
  assert (Hok : is_ok (submit_workflow rules json_datetime definition world0).2 = true) by evaluate.
  destruct (submit_workflow rules json_datetime definition world0) as [w' [answer|e]]; [|discriminate Hok].
  destruct Hc as [(s & e & -> & _)|[_ Hd]]; [left; reflexivity|right; exact Hd].
Defined.

(** Two nodes that depend on each other, and the same without the second
    dependency. *)
Definition ring_node (i : string) (deps : list string) : WorkflowNode :=
  {| wn_id := i; wn_handler := "output"; wn_dependencies := deps; wn_config := [];
     wn_created_at := 0%Z; wn_created_by := None |}.
Definition request (last : list string) : WorkflowSubmissionRequest :=
  {| sr_name := "two nodes"; sr_created_by := None;
     sr_dag := {| dr_nodes := [ring_node "a" ["b"]; ring_node "b" last] |} |}.

Lemma submission_request_answered_witness :
  (∃ w' errors, submit_request rules json_datetime (request ["a"]) world0 = (w', Ok (validation_failed errors))
     ∧ w_db w' = w_db world0 ∧ errors ≠ []) ∧
  (∃ w' answer, submit_request rules json_datetime (request []) world0 = (w', Ok answer)
     ∧ (status_code answer = HTTP_201_CREATED ∨ w_db w' = w_db world0)).
Proof.
  split.
  - destruct (@submission_request_answered _ reference_request_laws _ false py_str json_datetime
      (request ["a"]) world0) as (w' & answer & Hrun & [[Hv _]|(_ & errors & Hne & _ & -> & Hd)]).
    + exfalso. apply (request_accepted_lemma false py_str) in Hv. vm_compute in Hv. discriminate Hv.
    + exists w', errors. exact (conj Hrun (conj Hd Hne)).
  - destruct (@submission_request_answered _ reference_request_laws _ false py_str json_datetime
      (request []) world0) as (w' & answer & Hrun & [[_ H]|(Hn & _)]).
    + exists w', answer. split; [exact Hrun|].
      destruct H as [(s & e & -> & _)|[_ Hd]]; [left; reflexivity|right; exact Hd].
    + exfalso. apply Hn, (request_accepted_lemma false py_str). vm_compute. reflexivity.
Defined.

Lemma query_endpoints_correct_witness :
  ∃ status results,
    get_workflow_execution json_datetime x triggered = (triggered, Ok status) ∧
    get_workflow_execution_results json_datetime x triggered = (triggered, Ok results) ∧
    status_code status = HTTP_200_OK.
Proof.
  destruct (query_endpoints_correct json_datetime x triggered triggered_inv) as (st & rs & Hs & Hr & Hc).
  rewrite execution_stored in Hc. exists st, rs. exact (conj Hs (conj Hr (proj1 Hc))).
Defined.

Definition worker : WorkerRuntime :=
  {| rt_consumer_name := "host-1"; rt_max_concurrency := 10; rt_shutdown_timeout_seconds := float_of_Z 1;
     rt_reclaim_idle_ms := 30000 |}.
Definition reclaimed : stream_batch := [(WORKFLOW_TASKS_STREAM, [("1-0", [])])].

Lemma worker_capacity_witness :
  (1 ≤ rt_max_concurrency worker)%Z ∧
  arrived [Silent; Delivered (batch_messages reclaimed)] ≡ₚ
    ended [Silent; Delivered (batch_messages reclaimed)] ++ batch_messages reclaimed.
Proof.
  split; [discriminate|].
  apply (worker_capacity "host-1" (float_of_Z 1) worker _ (RState Waiting "0-0" (batch_messages reclaimed))).
  - evaluate.
  - eapply rt_more; [apply rt_reclaim; reflexivity|].
    eapply rt_more; [|apply rt_done].
    exact (rt_reclaimed worker (free worker []) "0-0" [] (Some ("0-0", [("1-0", [])], [])) "0-0" reclaimed
      eq_refl ltac:(discriminate)).
Defined.

(** ** Witness: a definition without nodes *)

Definition empty_definition : pydict :=
  obj [("name", PStr "empty"); ("dag", PDict (obj [("nodes", PList [])]))].
Definition empty_submitted : World := (submit rules empty_definition world0).1.
Definition empty_triggered : World := (trigger x None empty_submitted).1.
Definition empty_execution : WorkflowExecution :=
  default execution (workflow_executions (w_db empty_triggered) !! x).
Definition empty_graph : Workflow :=
  match read_workflow (w_db empty_triggered) (we_workflow_id empty_execution) with
  | Ok (Some g) => g | _ => accepted
  end.

Lemma empty_execution_never_ends_witness :
  ∃ e, workflow_executions (w_db (publish_pending empty_triggered).1) !! x = Some e ∧ we_status e = WRunning.
Proof.
  apply (empty_execution_never_ends float_str repr pow default_policy py_str false
    (System empty_triggered []) (System (publish_pending empty_triggered).1 []) x empty_execution empty_graph).
  - exists (System world0 []). split; [split; [reflexivity|split; reflexivity]|].
    eapply rtc_l; [exact (step_submit _ _ _ _ _ _ _ empty_definition world0 [])|].
    apply rtc_once. exact (step_trigger _ _ _ _ _ _ _ x None empty_submitted []).
  - exact (publish_steps _ _ _ _ _ _ empty_triggered).
  - evaluate.
  - evaluate.
  - evaluate.
  - evaluate.
Defined.

(** ** Witness: a template that cannot be resolved *)

Definition bad_definition : pydict :=
  obj [("name", PStr "bad template");
       ("dag", PDict (obj [("nodes", PList
         [PDict (obj [("id", PStr "a"); ("handler", PStr "llm_service"); ("dependencies", PList []);
                      ("config", PDict (obj [("prompt", PStr "{{ b.text }}")]))])])]))].
Definition bad_triggered : World := (trigger x None (submit rules bad_definition world0).1).1.
Definition bad_published : World := (publish_pending bad_triggered).1.
Definition bad_cleaned : World := (cleanup_published_outbox (float_of_Z 604800) bad_published).1.
Definition bad_world : World := (consume "orchestrator" "host-1" WORKFLOW_EVENTS_STREAM 100 bad_cleaned).1.
Definition bad_fields : stream_fields := match w_streams bad_world with (_, f) :: _ => f | [] => [] end.
Definition bad_loaded : WorkflowExecution * list WorkflowNode :=
  ok_or (execution, []) (transaction (load_ready_nodes x ["a"]) bad_world).2.
Definition bad_node : WorkflowNode := default node_a (head bad_loaded.2).
Definition bad_message : string :=
  match resolve float_str repr (completed_dependency_outputs x bad_node (nodes_of_execution x (w_db bad_world)))
    bad_node (we_input_data bad_loaded.1) with
  | Raise (TemplateResolutionError m) => m
  | _ => ""
  end.

Lemma unresolvable_template_stops_orchestrator_witness :
  run_loop float_str repr pow default_policy "host-1" (float_of_Z 604800) 2 bad_triggered =
    (bad_world, Raise (TemplateResolutionError bad_message)) ∧ bad_message ≠ "".
Proof.
  split; [|vm_compute; discriminate].
  eapply (unresolvable_template_stops_orchestrator float_str repr pow default_policy
    WORKFLOW_EVENTS_STREAM "1-0" bad_fields x bad_world {| rd_execution_id := x; rd_ready_node_ids := ["a"] |}
    bad_loaded.1 bad_node bad_message).
  - evaluate.
  - evaluate.
  - discriminate.
  - evaluate.
  - exists bad_loaded.1. evaluate.
  - evaluate.
  - evaluate.
  - run publish_outbox_events bad_triggered.
  - run (cleanup_published_outbox (float_of_Z 604800)) bad_published.
  - run (consume "orchestrator" "host-1" WORKFLOW_EVENTS_STREAM 100) bad_cleaned.
Defined.
End run.
